(** * Persistent session coordination: controllable promise, message
      generator, persistent CLI transport and persistent client.

    Shallow embedding of
      - src/persistent/controllable-promise.ts   (module [ControllablePromise])
      - src/persistent/message-generator.ts      (module [MessageGenerator])
      - src/persistent/persistent-cli-transport.ts and
        src/persistent/persistent-client.ts      (module [Persistent])

    JavaScript runs one task at a time; an [async] function runs without
    interruption from one [await]/[yield] to the next.  Every such
    uninterrupted block of the source is one transition of the models
    below, and the scheduler (the order in which suspended blocks are
    resumed) is the list of labels a run is given.

    The file has three parts: the model (the three modules and the
    sample subprocess output), the properties stated about its states,
    and the facts, each group of lemmas followed by the claims it
    settles. *)

From Stdlib Require Import String Ascii List Bool Arith NArith Lia PrimFloat.
From stdpp Require Import base list.
Import ListNotations.
Local Open Scope string_scope.
Local Open Scope list_scope.

(** [new Error(message)] and its subclasses, told apart by [name]. *)
Record Error := mkError { name : string; message : string }.

(** The state of a native promise.  It settles once: the resolving
    functions [res]/[rej] handed to the executor do nothing on a settled
    promise. *)
Inductive Promise (T : Type) :=
  | Pending
  | Fulfilled (value : T)
  | Rejected (reason : Error).
Arguments Pending {T}.
Arguments Fulfilled {T} value.
Arguments Rejected {T} reason.

Definition res {T} (value : T) (p : Promise T) : Promise T :=
  match p with Pending => Fulfilled value | _ => p end.

Definition rej {T} (reason : Error) (p : Promise T) : Promise T :=
  match p with Pending => Rejected reason | _ => p end.

Definition settled {T} (p : Promise T) : bool :=
  match p with Pending => false | _ => true end.

(* ===================================================================== *)
(** ** controllable-promise.ts *)
(* ===================================================================== *)

Module ControllablePromise.

Inductive Status := pending | resolved | rejected.

Definition Status_eqb (a b : Status) : bool :=
  match a, b with
  | pending, pending | resolved, resolved | rejected, rejected => true
  | _, _ => false
  end.

(** The object returned by [controllablePromise()], together with the
    function-local variable its two closures share.

    [status] is the property of the returned object.  The object
    literal [{ promise, resolve, reject, status }] copies the VALUE the
    local variable has when the literal is evaluated; the closures
    [resolve]/[reject] assign to the local variable ([status_let]),
    not to the property. *)
Record ControllablePromise (T : Type) := mk {
  promise : Promise T;
  status : Status;
  status_let : Status;
}.
Arguments mk {T}.
Arguments promise {T}.
Arguments status {T}.
Arguments status_let {T}.

(** [controllablePromise<T>()], lines 27-49. *)
Definition controllablePromise {T} : ControllablePromise T :=
  let status_let0 := pending in            (* let status = 'pending' *)
  let promise0 := Pending in               (* new Promise(...)       *)
  {| promise := promise0;
     status := status_let0;                (* status,  (by value)    *)
     status_let := status_let0 |}.

(** [resolve = (value) => { status = 'resolved'; res(value); }] *)
Definition resolve {T} (value : T) (cp : ControllablePromise T)
  : ControllablePromise T :=
  {| promise := res value (promise cp);
     status := status cp;
     status_let := resolved |}.

(** [reject = (error) => { status = 'rejected'; rej(error); }] *)
Definition reject {T} (error : Error) (cp : ControllablePromise T)
  : ControllablePromise T :=
  {| promise := rej error (promise cp);
     status := status cp;
     status_let := rejected |}.

(** The calls a holder of the object can make on it. *)
Inductive Call (T : Type) :=
  | CallResolve (value : T)
  | CallReject (error : Error).
Arguments CallResolve {T} value.
Arguments CallReject {T} error.

Definition call {T} (c : Call T) (cp : ControllablePromise T) :=
  match c with
  | CallResolve v => resolve v cp
  | CallReject e => reject e cp
  end.

Definition calls {T} (cs : list (Call T)) (cp : ControllablePromise T) :=
  fold_left (fun acc c => call c acc) cs cp.

End ControllablePromise.

(* ===================================================================== *)
(** ** message-generator.ts *)
(* ===================================================================== *)

Module MessageGenerator.
Import ControllablePromise.

(** [{ type: 'user', content: message } as UserMessage] *)
Record UserMessage := mkUserMessage { type : string; content : string }.

(** A hook is a callback supplied by the user; the model only needs to
    know which one is attached. *)
Definition Hook := nat.

Record MessageGeneratorHooks := mkHooks {
  onNewUserMessageResolved : option Hook;
  onError : option Hook;
}.

(** What a key holds in the argument of [setHooks]: the key is not
    there, it is there with the value [undefined], or it is there with
    a callback. *)
Inductive Given :=
  | Absent
  | Undefined
  | Callback (h : Hook).

Record NewHooks := mkNewHooks {
  given_onNewUserMessageResolved : Given;
  given_onError : Given;
}.

(** One key of [{ ...hooks, ...newHooks }]: a key of [newHooks] that is
    there wins, also with the value [undefined], which the tests
    [if (hooks.onError)] read like a missing hook. *)
Definition spread_key (old : option Hook) (new : Given) : option Hook :=
  match new with
  | Absent => old
  | Undefined => None
  | Callback h => Some h
  end.

(** [{ ...hooks, ...newHooks }] *)
Definition spread (hooks : MessageGeneratorHooks) (newHooks : NewHooks) :=
  {| onNewUserMessageResolved :=
       spread_key (onNewUserMessageResolved hooks)
                  (given_onNewUserMessageResolved newHooks);
     onError := spread_key (onError hooks) (given_onError newHooks) |}.

(** Where the body of [generateMessages] is suspended. *)
Inductive GeneratorState :=
  | NotStarted                                  (* body not entered yet          *)
  | AwaitSlot (slot : nat)                      (* line 86, on that slot's promise *)
  | AwaitHook (slot : nat) (message : string)   (* line 95, on the hook's result *)
  | AwaitOnError                                (* line 109                      *)
  | AtYield (slot : nat) (message : string)     (* line 102                      *)
  | Returned                                    (* left the loop by [break] or return() *)
  | Threw (error : Error).                      (* an exception left the body    *)

Definition suspended (g : GeneratorState) : bool :=
  match g with
  | AwaitSlot _ | AwaitHook _ _ | AwaitOnError | AtYield _ _ => true
  | NotStarted | Returned | Threw _ => false
  end.

(** The variables closed over by the four functions that
    [createMessageGenerator] returns.  [sendMessagePromise] is a
    reference: an index into [slots], the objects created by
    [controllablePromise()] so far, in creation order.  [consumed],
    [yielded] and [warnings] record what happened (slots whose promise
    the body has been resumed from, the turns handed out with the slot
    each came from, and the console.warn lines). *)
Record State := mkState {
  slots : list (ControllablePromise string);
  sendMessagePromise : nat;
  hooks : MessageGeneratorHooks;
  isTerminated : bool;
  generator : GeneratorState;
  consumed : list nat;
  yielded : list (nat * UserMessage);
  warnings : list string;
}.

Definition set_generator g s :=
  mkState (slots s) (sendMessagePromise s) (hooks s) (isTerminated s) g
          (consumed s) (yielded s) (warnings s).

Definition warn w s :=
  mkState (slots s) (sendMessagePromise s) (hooks s) (isTerminated s)
          (generator s) (consumed s) (yielded s) (warnings s ++ [w]).

(** [sendMessagePromise = controllablePromise<string>()] *)
Definition assign_fresh s :=
  mkState (slots s ++ [controllablePromise]) (length (slots s)) (hooks s)
          (isTerminated s) (generator s) (consumed s) (yielded s) (warnings s).

(** A method call on the object [sendMessagePromise] refers to. *)
Definition on_current (f : ControllablePromise string -> ControllablePromise string) s :=
  mkState (alter f (sendMessagePromise s) (slots s)) (sendMessagePromise s)
          (hooks s) (isTerminated s) (generator s) (consumed s) (yielded s)
          (warnings s).

(** [sendMessagePromise.status] *)
Definition current_status s : Status :=
  match slots s !! sendMessagePromise s with
  | Some cp => status cp
  | None => pending
  end.

(** [createMessageGenerator()], lines 70-73. *)
Definition createMessageGenerator : State :=
  {| slots := [controllablePromise];
     sendMessagePromise := 0;
     hooks := mkHooks None None;
     isTerminated := false;
     generator := NotStarted;
     consumed := [];
     yielded := [];
     warnings := [] |}.

(** [setNextMessage], lines 127-140. *)
Definition setNextMessage (message : string) (s : State) : State :=
  if isTerminated s then
    warn "[MessageGenerator] Cannot set message: generator is terminated" s
  else
    let s1 :=
      if negb (Status_eqb (current_status s) pending) then
        assign_fresh (warn "[MessageGenerator] Previous message not consumed yet" s)
      else s in
    on_current (resolve message) s1.

(** [setHooks], lines 145-147. *)
Definition setHooks (newHooks : NewHooks) (s : State) : State :=
  mkState (slots s) (sendMessagePromise s) (spread (hooks s) newHooks)
          (isTerminated s) (generator s) (consumed s) (yielded s) (warnings s).

(** [terminate], lines 152-157. *)
Definition terminate (s : State) : State :=
  let s1 := mkState (slots s) (sendMessagePromise s) (hooks s) true
                    (generator s) (consumed s) (yielded s) (warnings s) in
  if Status_eqb (current_status s1) pending then
    on_current (reject (mkError "Error" "Generator terminated")) s1
  else s1.

(** *** The body of [generateMessages], block by block *)

(** Lines 99-105: install the next slot, then yield the turn. *)
Definition prepare_and_yield (slot : nat) (message : string) (s : State) :=
  let s1 := assign_fresh s in
  mkState (slots s1) (sendMessagePromise s1) (hooks s1) (isTerminated s1)
          (AtYield slot message) (consumed s1)
          (yielded s1 ++ [(slot, mkUserMessage "user" message)]) (warnings s1).

(** Top of the [while (true)] loop: [await sendMessagePromise.promise]
    suspends on the promise of the object the variable refers to now. *)
Definition await_current (s : State) :=
  set_generator (AwaitSlot (sendMessagePromise s)) s.

(** Lines 112-118, the catch block after the optional [onError] hook. *)
Definition after_onError (s : State) :=
  if isTerminated s then set_generator Returned s
  else await_current (assign_fresh s).

(** Lines 107-118, entered with the caught error. *)
Definition catch_block (error : Error) (s : State) :=
  match onError (hooks s) with
  | Some _ => set_generator AwaitOnError s
  | None => after_onError s
  end.

Definition mark_consumed (slot : nat) (s : State) :=
  mkState (slots s) (sendMessagePromise s) (hooks s) (isTerminated s)
          (generator s) (slot :: consumed s) (yielded s) (warnings s).

(** Lines 86-105 after the awaited promise was fulfilled with [message]. *)
Definition after_await (slot : nat) (message : string) (s : State) :=
  if isTerminated s then set_generator Returned s
  else match onNewUserMessageResolved (hooks s) with
       | Some _ => set_generator (AwaitHook slot message) s
       | None => prepare_and_yield slot message s
       end.

(** The events that make the generator or its owner run. *)
Inductive Label :=
  | CallSetNextMessage (message : string)
  | CallSetHooks (newHooks : NewHooks)
  | CallTerminate
  | IterNext                        (* the consumer calls next()     *)
  | IterReturn                      (* the consumer calls return()   *)
  | Resume                          (* the awaited slot has settled  *)
  | HookDone (failure : option Error). (* the awaited hook call ended *)

Definition step (l : Label) (s : State) : State :=
  match l with
  | CallSetNextMessage message => setNextMessage message s
  | CallSetHooks newHooks => setHooks newHooks s
  | CallTerminate => terminate s
  | IterNext =>
      match generator s with
      | NotStarted => await_current (assign_fresh s)          (* line 81 *)
      | AtYield _ _ => await_current s
      | _ => s
      end
  | IterReturn =>
      match generator s with
      | NotStarted | AtYield _ _ => set_generator Returned s
      | _ => s
      end
  | Resume =>
      match generator s with
      | AwaitSlot slot =>
          match promise <$> slots s !! slot with
          | Some (Fulfilled message) => after_await slot message (mark_consumed slot s)
          | Some (Rejected error) => catch_block error (mark_consumed slot s)
          | _ => s
          end
      | _ => s
      end
  | HookDone failure =>
      match generator s, failure with
      | AwaitHook slot message, None => prepare_and_yield slot message s
      | AwaitHook _ _, Some error => catch_block error s
      | AwaitOnError, None => after_onError s
      | AwaitOnError, Some error => set_generator (Threw error) s
      | _, _ => s
      end
  end.

Definition run (ls : list Label) (s : State) : State :=
  fold_left (fun acc l => step l acc) ls s.

End MessageGenerator.

(* ===================================================================== *)
(** ** persistent-cli-transport.ts and persistent-client.ts *)
(* ===================================================================== *)

Module Persistent.

(** *** Values read from the subprocess *)

(** What [JSON.parse] returns. *)
#[local] Unset Elimination Schemes.
Inductive JSON :=
  | JNull
  | JBool (b : bool)
  | JNumber (x : float)
  | JString (s : string)
  | JArray (items : list JSON)
  | JObject (members : list (string * JSON)).
#[local] Set Elimination Schemes.

Fixpoint member (key : string) (members : list (string * JSON)) : option JSON :=
  match members with
  | [] => None
  | (k, v) :: rest => if String.eqb k key then Some v else member key rest
  end.

(** The property read [value.key] for the keys the source reads
    ([type], [subtype], [session_id]); [None] is [undefined].  Reading a
    property of [null] throws a TypeError, which is why [JNull] is
    matched before every use of [get]. *)
Definition get (key : string) (value : JSON) : option JSON :=
  match value with
  | JObject members => member key members
  | _ => None
  end.

(** [value === 'literal'] *)
Definition is_string (literal : string) (value : option JSON) : bool :=
  match value with
  | Some (JString s) => String.eqb s literal
  | _ => false
  end.

(** JavaScript truthiness of a possibly undefined value. *)
Definition truthy (value : option JSON) : bool :=
  match value with
  | None | Some JNull => false
  | Some (JBool b) => b
  | Some (JNumber x) => negb (PrimFloat.eqb x 0%float) && PrimFloat.eqb x x
  | Some (JString s) => negb (String.eqb s "")
  | Some (JArray _) | Some (JObject _) => true
  end.

(** [String.prototype.trim].  A string of this model holds the UTF-8
    bytes of the JavaScript string, so a character is one, two or three
    bytes here.  [trim] strips the WhiteSpace and LineTerminator code
    points of ECMAScript from both ends:
    U+0009 to U+000D and U+0020 (one byte each);
    U+00A0 (C2 A0);
    U+1680 (E1 9A 80), U+2000 to U+200A (E2 80 80 to E2 80 8A),
    U+2028 and U+2029 (E2 80 A8, E2 80 A9), U+202F (E2 80 AF),
    U+205F (E2 81 9F), U+3000 (E3 80 80) and U+FEFF (EF BB BF). *)
Definition space1 (c : ascii) : bool :=
  match nat_of_ascii c with
  | 9 | 10 | 11 | 12 | 13 | 32 => true
  | _ => false
  end.

Definition byte_is (c : ascii) (n : N) : bool := N.eqb (N_of_ascii c) n.

Definition space2 (c1 c2 : ascii) : bool :=
  byte_is c1 194 && byte_is c2 160.

Definition space3 (c1 c2 c3 : ascii) : bool :=
  byte_is c1 225 && byte_is c2 154 && byte_is c3 128
  || byte_is c1 226 && byte_is c2 128
     && (N.leb 128 (N_of_ascii c3) && N.leb (N_of_ascii c3) 138
         || byte_is c3 168 || byte_is c3 169 || byte_is c3 175)
  || byte_is c1 226 && byte_is c2 129 && byte_is c3 159
  || byte_is c1 227 && byte_is c2 128 && byte_is c3 128
  || byte_is c1 239 && byte_is c2 187 && byte_is c3 191.

(** Stripping the white space at the head of a list of bytes;
    [two] and [three] say which byte sequences are white space. *)
Fixpoint strip (two : ascii -> ascii -> bool)
    (three : ascii -> ascii -> ascii -> bool) (chars : list ascii)
  : list ascii :=
  match chars with
  | c1 :: rest1 =>
      if space1 c1 then strip two three rest1
      else
        match rest1 with
        | c2 :: rest2 =>
            if two c1 c2 then strip two three rest2
            else
              match rest2 with
              | c3 :: rest3 =>
                  if three c1 c2 c3 then strip two three rest3 else chars
              | [] => chars
              end
        | [] => chars
        end
  | [] => []
  end.

Definition trimStart (chars : list ascii) : list ascii :=
  strip space2 space3 chars.

(** The same at the end, on the reversed list: the bytes of a character
    come last byte first. *)
Definition trimEnd (chars : list ascii) : list ascii :=
  rev (strip (fun c2 c1 => space2 c1 c2)
             (fun c3 c2 c1 => space3 c1 c2 c3) (rev chars)).

Definition trim (s : string) : string :=
  string_of_list_ascii (trimEnd (trimStart (list_ascii_of_string s))).

(** *** Types of persistent-cli-transport.ts *)

Inductive ProcessState :=
  | not_started | initializing | ready | processing
  | paused | terminating | terminated | error.

Definition ProcessState_eqb (a b : ProcessState) : bool :=
  match a, b with
  | not_started, not_started | initializing, initializing | ready, ready
  | processing, processing | paused, paused | terminating, terminating
  | terminated, terminated | error, error => true
  | _, _ => false
  end.

(** [PersistentTransportEvent]: the [type] tag with the one optional
    property each emit site fills in. *)
Inductive PersistentTransportEvent :=
  | Event_state_change (state : ProcessState)
  | Event_message (message : JSON)
  | Event_error (reason : Error)
  | Event_session_initialized (sessionId : JSON).

(** The writable end of the child's stdin pipe: the chunks written so
    far and whether [end()] was called.  A chunk written after [end()]
    does not reach the pipe. *)
Record Stdin := mkStdin { written : list string; ended : bool }.

(** The child process handle returned by [execa], as far as the
    transport looks at it.  [killed] is set by a [kill()] that delivered
    its signal, and only by that; [exited] says that the promise of the
    handle has settled. *)
Record Subprocess := mkSubprocess {
  stdin : option Stdin;
  stdout : bool;
  killed : bool;
  exited : bool;
}.

Definition write (chunk : string) (p : Subprocess) : Subprocess :=
  match stdin p with
  | Some pipe =>
      if ended pipe then p
      else mkSubprocess (Some (mkStdin (written pipe ++ [chunk]) false))
                        (stdout p) (killed p) (exited p)
  | None => p
  end.

Definition end_stdin (p : Subprocess) : Subprocess :=
  match stdin p with
  | Some pipe => mkSubprocess (Some (mkStdin (written pipe) true))
                              (stdout p) (killed p) (exited p)
  | None => p
  end.

(** [kill()]: the signal is delivered unless the process is gone.  The
    handle is execa's, whose [kill()] also arms a timer that sends
    SIGKILL when the child has not exited five seconds after SIGTERM
    (execa is not among the sources); the exit that follows, like any
    other exit of the child, is the label [ProcessExit] below. *)
Definition kill (p : Subprocess) : Subprocess :=
  if exited p then p else mkSubprocess (stdin p) (stdout p) true (exited p).

Definition exit (p : Subprocess) : Subprocess :=
  mkSubprocess (stdin p) (stdout p) (killed p) true.

(** The subscribers of a transport.  The only code that subscribes is
    [PersistentClient.start], with its own [handleTransportEvent]. *)
Inductive Handler := handleTransportEvent.

(** The fields of [PersistentCLITransport]; [signal] is
    [options.signal] ([Some aborted] when the option is given). *)
Record PersistentCLITransport := mkTransport {
  process : option Subprocess;
  state : ProcessState;
  sessionId : option JSON;
  cleanupAbort : bool;
  eventHandlers : list Handler;
  signal : option bool;
}.

(** *** Types of persistent-client.ts *)

(** [{ type: cliOutput.type, ...(cliOutput as any) }]: the [type] read
    from the value, and the value whose own properties are spread. *)
Record Message := mkMessage { type : option JSON; spread_of : JSON }.

Record PersistentSessionState := mkSessionState {
  snapshot_sessionId : option JSON;
  processState : ProcessState;
  snapshot_isAlive : bool;
  snapshot_messageCount : nat;
}.

Record PersistentQueryResult := mkQueryResult {
  messages : list Message;
  sessionState : PersistentSessionState;
}.

(** The fields of [PersistentClient].  [transport] and
    [messageGenerator] say whether the field holds an object;
    [waitingForResult] holds the resolve callbacks, named by the
    [query()] call each belongs to. *)
Record PersistentClient := mkClient {
  transport : bool;
  messageGenerator : bool;
  messageCount : nat;
  pendingMessages : list Message;
  waitingForResult : list nat;
}.

(** How an [async] call ended. *)
Inductive Settled (T : Type) :=
  | Resolved (value : T)
  | Threw (reason : Error).
Arguments Resolved {T} value.
Arguments Threw {T} reason.

(** *** The suspended blocks *)

(** [processMessageGenerator], the writer loop. *)
Inductive WriterState :=
  | WriterIdle             (* not called yet                              *)
  | WriterAwaitNext        (* for await: next() called, answer awaited    *)
  | WriterWaitForPause     (* inside waitForPause, a checkState timer set *)
  | WriterCompleted        (* left the loop                               *)
  | WriterCaught           (* catch block taken: state 'error'            *)
  | WriterAborted.         (* catch block rethrew AbortError              *)

(** [processOutput], the reader loop. *)
Inductive ReaderState :=
  | ReaderIdle
  | ReaderRunning          (* for await (const line of rl)                *)
  | ReaderCompleted        (* the line stream ended                       *)
  | ReaderCaught           (* catch block taken: state 'error'            *)
  | ReaderAborted.         (* AbortError thrown                           *)

(** A [stop()] call that has not returned: inside
    [await this.transport.terminate()], before or after [terminate]'s
    own [await this.process]. *)
Inductive StopPhase := InTerminate | TerminateReturned.

(** One client with the transport and the generator its [start()]
    created, the suspended blocks, and the record of what happened:
    every event handed to [emit], and how each [query()] call ended. *)
Record World := mkWorld {
  transport_object : PersistentCLITransport;
  generator_object : MessageGenerator.State;
  client : PersistentClient;
  writer : WriterState;
  reader : ReaderState;
  stops : list StopPhase;
  resumable : list nat;
  next_call : nat;
  emitted : list PersistentTransportEvent;
  settled_queries : list (nat * Settled PersistentQueryResult);
  console_warn : list string;
}.

(** *** Field updates *)

Definition set_process v t :=
  mkTransport v (state t) (sessionId t) (cleanupAbort t) (eventHandlers t) (signal t).
Definition set_state v t :=
  mkTransport (process t) v (sessionId t) (cleanupAbort t) (eventHandlers t) (signal t).
Definition set_sessionId v t :=
  mkTransport (process t) (state t) v (cleanupAbort t) (eventHandlers t) (signal t).
Definition set_cleanupAbort v t :=
  mkTransport (process t) (state t) (sessionId t) v (eventHandlers t) (signal t).
Definition set_eventHandlers v t :=
  mkTransport (process t) (state t) (sessionId t) (cleanupAbort t) v (signal t).
Definition set_signal v t :=
  mkTransport (process t) (state t) (sessionId t) (cleanupAbort t) (eventHandlers t) v.

Definition set_transport v c :=
  mkClient v (messageGenerator c) (messageCount c) (pendingMessages c) (waitingForResult c).
Definition set_messageGenerator v c :=
  mkClient (transport c) v (messageCount c) (pendingMessages c) (waitingForResult c).
Definition set_messageCount v c :=
  mkClient (transport c) (messageGenerator c) v (pendingMessages c) (waitingForResult c).
Definition set_pendingMessages v c :=
  mkClient (transport c) (messageGenerator c) (messageCount c) v (waitingForResult c).
Definition set_waitingForResult v c :=
  mkClient (transport c) (messageGenerator c) (messageCount c) (pendingMessages c) v.

Definition with_transport (f : PersistentCLITransport -> PersistentCLITransport) w :=
  mkWorld (f (transport_object w)) (generator_object w) (client w) (writer w)
          (reader w) (stops w) (resumable w) (next_call w) (emitted w)
          (settled_queries w) (console_warn w).
Definition with_generator (f : MessageGenerator.State -> MessageGenerator.State) w :=
  mkWorld (transport_object w) (f (generator_object w)) (client w) (writer w)
          (reader w) (stops w) (resumable w) (next_call w) (emitted w)
          (settled_queries w) (console_warn w).
Definition with_client (f : PersistentClient -> PersistentClient) w :=
  mkWorld (transport_object w) (generator_object w) (f (client w)) (writer w)
          (reader w) (stops w) (resumable w) (next_call w) (emitted w)
          (settled_queries w) (console_warn w).
Definition set_writer v w :=
  mkWorld (transport_object w) (generator_object w) (client w) v
          (reader w) (stops w) (resumable w) (next_call w) (emitted w)
          (settled_queries w) (console_warn w).
Definition set_reader v w :=
  mkWorld (transport_object w) (generator_object w) (client w) (writer w)
          v (stops w) (resumable w) (next_call w) (emitted w)
          (settled_queries w) (console_warn w).
Definition set_stops v w :=
  mkWorld (transport_object w) (generator_object w) (client w) (writer w)
          (reader w) v (resumable w) (next_call w) (emitted w)
          (settled_queries w) (console_warn w).
Definition set_resumable v w :=
  mkWorld (transport_object w) (generator_object w) (client w) (writer w)
          (reader w) (stops w) v (next_call w) (emitted w)
          (settled_queries w) (console_warn w).
Definition set_next_call v w :=
  mkWorld (transport_object w) (generator_object w) (client w) (writer w)
          (reader w) (stops w) (resumable w) v (emitted w)
          (settled_queries w) (console_warn w).
Definition record_event e w :=
  mkWorld (transport_object w) (generator_object w) (client w) (writer w)
          (reader w) (stops w) (resumable w) (next_call w) (emitted w ++ [e])
          (settled_queries w) (console_warn w).
Definition settle call r w :=
  mkWorld (transport_object w) (generator_object w) (client w) (writer w)
          (reader w) (stops w) (resumable w) (next_call w) (emitted w)
          (settled_queries w ++ [(call, r)]) (console_warn w).
Definition console_warning line w :=
  mkWorld (transport_object w) (generator_object w) (client w) (writer w)
          (reader w) (stops w) (resumable w) (next_call w) (emitted w)
          (settled_queries w) (console_warn w ++ [line]).

(** *** PersistentClient: event handling (persistent-client.ts 166-257) *)

(** [resolveWaitingForResult]: every stored callback is called, which
    resolves the promise its [query()] call awaits; the call continues
    in a later task. *)
Definition resolveWaitingForResult (w : World) : World :=
  let callbacks := waitingForResult (client w) in
  set_resumable (resumable w ++ callbacks)
    (with_client (set_waitingForResult []) w).

(** [handleMessage] *)
Definition handleMessage (cliOutput : JSON) (w : World) : World :=
  let message := mkMessage (get "type" cliOutput) cliOutput in
  let w1 := with_client
              (fun c => set_pendingMessages (pendingMessages c ++ [message]) c) w in
  if is_string "result" (get "type" cliOutput)
  then resolveWaitingForResult w1
  else w1.

(** [handleTransportEvent]; the ['error'] and ['session_initialized']
    cases only write to the console. *)
Definition client_handleTransportEvent (event : PersistentTransportEvent)
    (w : World) : World :=
  match event with
  | Event_message message =>
      if truthy (Some message) then handleMessage message w else w
  | Event_state_change state =>
      if ProcessState_eqb state paused then resolveWaitingForResult w else w
  | Event_error _ => w
  | Event_session_initialized _ => w
  end.

Definition call_handler (h : Handler) :=
  match h with handleTransportEvent => client_handleTransportEvent end.

(** *** PersistentCLITransport (persistent-cli-transport.ts) *)

(** [emit], lines 97-105. *)
Definition emit (event : PersistentTransportEvent) (w : World) : World :=
  fold_left (fun acc h => call_handler h event acc)
            (eventHandlers (transport_object w)) (record_event event w).

(** [setState], lines 110-116. *)
Definition setState (newState : ProcessState) (w : World) : World :=
  if ProcessState_eqb (state (transport_object w)) newState then w
  else emit (Event_state_change newState) (with_transport (set_state newState) w).

(** [isAlive], lines 73-79. *)
Definition isAlive (t : PersistentCLITransport) : bool :=
  negb (ProcessState_eqb (state t) not_started)
  && negb (ProcessState_eqb (state t) terminated)
  && negb (ProcessState_eqb (state t) error)
  && match process t with
     | Some p => negb (killed p)
     | None => false
     end.

(** [this.options.signal?.aborted] *)
Definition aborted (t : PersistentCLITransport) : bool :=
  match signal t with Some b => b | None => false end.

(** [this.process?.stdin] is there. *)
Definition has_stdin (t : PersistentCLITransport) : bool :=
  match process t with
  | Some p => match stdin p with Some _ => true | None => false end
  | None => false
  end.

Definition has_stdout (t : PersistentCLITransport) : bool :=
  match process t with Some p => stdout p | None => false end.

(** The [for await] loop of the writer asks the generator for its next
    value. *)
Definition request_next (w : World) : World :=
  set_writer WriterAwaitNext
    (with_generator (MessageGenerator.step MessageGenerator.IterNext) w).

(** [checkState] inside [waitForPause], lines 351-357; when it resolves,
    the loop goes on to its next iteration. *)
Definition checkState (w : World) : World :=
  if ProcessState_eqb (state (transport_object w)) paused
     || ProcessState_eqb (state (transport_object w)) ready
  then request_next w
  else set_writer WriterWaitForPause w.

(** The catch block of [processMessageGenerator], lines 336-343. *)
Definition writer_catch (reason : Error) (w : World) : World :=
  if aborted (transport_object w) then set_writer WriterAborted w
  else set_writer WriterCaught (emit (Event_error reason) (setState Persistent.error w)).

(** One iteration of the writer loop, lines 313-333, run when the
    generator has answered the pending [next()]. *)
Definition writer_receive (w : World) : World :=
  match writer w with
  | WriterAwaitNext =>
      match MessageGenerator.generator (generator_object w) with
      | MessageGenerator.AtYield _ messageText =>
          if negb (isAlive (transport_object w)) || negb (has_stdin (transport_object w))
          then (* break; leaving a for-await loop calls return() *)
            set_writer WriterCompleted
              (with_generator (MessageGenerator.step MessageGenerator.IterReturn) w)
          else
            let w1 := setState processing w in
            let w2 := with_transport
                        (fun t => set_process
                                    (option_map (write (messageText ++ String "010" ""))
                                                (process t)) t) w1 in
            checkState w2
      | MessageGenerator.Returned => set_writer WriterCompleted w
      | MessageGenerator.Threw reason => writer_catch reason w
      | _ => w
      end
  | _ => w
  end.

(** A [setTimeout(checkState, 100)] timer of [waitForPause] fires. *)
Definition writer_timer (w : World) : World :=
  match writer w with
  | WriterWaitForPause => checkState w
  | _ => w
  end.

Section Reader.

(** [JSON.parse]: [None] when it throws a SyntaxError. *)
Variable JSON_parse : string -> option JSON.

(** Lines 389-403: what the loop does with a parsed value that is not
    [null]. *)
Definition handle_parsed (parsed : JSON) (w : World) : World :=
  let w1 :=
    if is_string "system" (get "type" parsed)
       && is_string "init" (get "subtype" parsed)
       && truthy (get "session_id" parsed)
    then match get "session_id" parsed with
         | Some session_id =>
             emit (Event_session_initialized session_id)
                  (with_transport (set_sessionId (Some session_id)) w)
         | None => w
         end
    else w in
  let w2 :=
    if is_string "result" (get "type" parsed) then setState paused w1 else w1 in
  emit (Event_message parsed) w2.

(** The catch block of [processOutput], lines 409-416. *)
Definition reader_catch (reason : Error) (w : World) : World :=
  if aborted (transport_object w) then set_reader ReaderAborted w
  else set_reader ReaderCaught (emit (Event_error reason) (setState Persistent.error w)).

(** One iteration of the reader loop, lines 376-408.  A parsed [null]
    makes [parsed.type] throw inside the inner [try], which ends in the
    same catch as a line that does not parse. *)
Definition reader_line (line : string) (w : World) : World :=
  match reader w with
  | ReaderRunning =>
      if aborted (transport_object w) then set_reader ReaderAborted w
      else
        let trimmedLine := trim line in
        if String.eqb trimmedLine "" then w
        else
          let failed :=
            console_warning
              ("[PersistentCLITransport] Failed to parse line: " ++ trimmedLine) w in
          match JSON_parse trimmedLine with
          | None => failed
          | Some JNull => failed
          | Some parsed => handle_parsed parsed w
          end
  | _ => w
  end.

(** The line stream ends (the subprocess closed its stdout): the
    [for await] loop and [processOutput] finish. *)
Definition reader_close (w : World) : World :=
  match reader w with
  | ReaderRunning => set_reader ReaderCompleted w
  | _ => w
  end.

(** The line stream throws. *)
Definition reader_failure (reason : Error) (w : World) : World :=
  match reader w with
  | ReaderRunning => reader_catch reason w
  | _ => w
  end.

(** What [findCLI] and [execa] give [start]: no executable, or a child
    handle. *)
Inductive SpawnResult :=
  | CLINotFound
  | Spawned (child : Subprocess).

(** A child that runs with its three pipes. *)
Definition running_child : Subprocess :=
  mkSubprocess (Some (mkStdin [] false)) true false false.

(** The error [findCLI] throws when it finds no executable, lines
    165-168; the message has two lines. *)
Definition cli_not_found_error : Error :=
  mkError "CLINotFoundError"
    ("Claude CLI not found. Please install it first." ++ String "010" ""
     ++ "Visit: https://github.com/anthropics/anthropic-sdk-typescript/tree/main/packages/claude-code").

(** The catch block of [start], lines 299-303. *)
Definition start_catch (reason : Error) (w : World) : World * Settled unit :=
  (emit (Event_error reason) (setState Persistent.error w), Threw reason).

(** [PersistentCLITransport.start], lines 242-304, in one piece.
    [SubprocessAbortHandler] is not among the sources: its [setup()]
    is taken to return, and to have attached the handler that
    [signal_abort] below runs. *)
Definition transport_start (spawn : SpawnResult) (w : World)
  : World * Settled unit :=
  if negb (ProcessState_eqb (state (transport_object w)) not_started)
  then (w, Threw (mkError "ProcessError" "Process already started"))
  else
    let w1 := setState initializing w in
    match spawn with
    | CLINotFound =>
        start_catch cli_not_found_error w1
    | Spawned child =>
        let w2 := with_transport (set_process (Some child)) w1 in
        let w3 := match signal (transport_object w2) with
                  | Some _ => with_transport (set_cleanupAbort true) w2
                  | None => w2
                  end in
        if negb (has_stdin (transport_object w3)) || negb (has_stdout (transport_object w3))
        then start_catch (mkError "CLIConnectionError" "Failed to get process stdin/stdout") w3
        else
          let w4 := request_next w3 in          (* processMessageGenerator(...) *)
          let w5 := set_reader ReaderRunning w4 in   (* processOutput()        *)
          (setState ready w5, Resolved tt)
    end.

(** [terminate] after [await this.process]: lines 447-454. *)
Definition terminate_tail (w : World) : World :=
  with_transport (fun t => set_process None (set_cleanupAbort false t))
                 (setState terminated w).

(** [terminate] up to [await this.process], lines 422-445.  The second
    component says whether the call is suspended there; without a
    process handle it runs to its end. *)
Definition terminate_head (w : World) : World * bool :=
  if ProcessState_eqb (state (transport_object w)) terminated
     || ProcessState_eqb (state (transport_object w)) not_started
  then (w, false)
  else
    let w1 := setState terminating w in
    let w2 := with_transport
                (fun t => set_process (option_map end_stdin (process t)) t) w1 in
    let w3 := with_transport
                (fun t => set_process
                            (option_map (fun p => if negb (killed p) then kill p else p)
                                        (process t)) t) w2 in
    match process (transport_object w3) with
    | Some _ => (w3, true)
    | None => (terminate_tail w3, false)
    end.

(** *** PersistentClient: the calls (persistent-client.ts 67-161) *)

(** [new PersistentCLITransport(this.options)] *)
Definition new_transport (options_signal : option bool) : PersistentCLITransport :=
  mkTransport None not_started None false [] options_signal.

(** [new PersistentClient(options)] *)
Definition new_client (options_signal : option bool) : World :=
  {| transport_object := new_transport options_signal;
     generator_object := MessageGenerator.createMessageGenerator;
     client := mkClient false false 0 [] [];
     writer := WriterIdle;
     reader := ReaderIdle;
     stops := [];
     resumable := [];
     next_call := 0;
     emitted := [];
     settled_queries := [];
     console_warn := [] |}.

(** [PersistentClient.isAlive] *)
Definition client_isAlive (w : World) : bool :=
  if transport (client w) then isAlive (transport_object w) else false.

(** [PersistentClient.getState] *)
Definition getState (w : World) : PersistentSessionState :=
  {| snapshot_sessionId :=
       if transport (client w) then sessionId (transport_object w) else None;
     processState :=
       if transport (client w) then state (transport_object w) else not_started;
     snapshot_isAlive := client_isAlive w;
     snapshot_messageCount := messageCount (client w) |}.

(** [start] up to [await this.waitForSessionInit()], lines 67-88, in
    one piece: nothing else runs at the awaits of [findCLI] and of
    [transport.start]. *)
Definition start_head (initialPrompt : option string) (spawn : SpawnResult)
    (w : World) : World * Settled unit :=
  if transport (client w)
  then (w, Threw (mkError "Error" "Client already started"))
  else
    let w1 := with_client (set_messageGenerator true)
                (with_generator (fun _ => MessageGenerator.createMessageGenerator) w) in
    let w2 := with_client (set_transport true)
                (with_transport (fun t => new_transport (signal t)) w1) in
    let w3 := with_transport
                (fun t => set_eventHandlers (eventHandlers t ++ [handleTransportEvent]) t)
                w2 in
    let (w4, started) := transport_start spawn w3 in
    match started with
    | Threw reason => (w4, Threw reason)
    | Resolved _ =>
        match initialPrompt with
        | Some prompt =>
            if negb (String.eqb prompt "")
            then (with_generator (MessageGenerator.setNextMessage prompt) w4, Resolved tt)
            else (w4, Resolved tt)
        | None => (w4, Resolved tt)
        end
    end.

(** [query] up to [await this.waitForResult()], lines 116-135. *)
Definition query_head (prompt : string) (w : World) : World :=
  let call := next_call w in
  let w0 := set_next_call (S call) w in
  if negb (transport (client w0)) || negb (messageGenerator (client w0))
  then settle call (Threw (mkError "Error" "Client not started. Call start() first.")) w0
  else if negb (client_isAlive w0)
  then settle call (Threw (mkError "Error" "Process is not alive")) w0
  else
    let w1 := with_client (set_pendingMessages []) w0 in
    let w2 := with_generator (MessageGenerator.setNextMessage prompt) w1 in
    let w3 := with_client (fun c => set_messageCount (S (messageCount c)) c) w2 in
    with_client (fun c => set_waitingForResult (waitingForResult c ++ [call]) c) w3.

(** [query] after the await, lines 137-142. *)
Definition query_tail (call : nat) (w : World) : World :=
  if existsb (Nat.eqb call) (resumable w)
  then
    settle call
      (Resolved {| messages := pendingMessages (client w);
                   sessionState := getState w |})
      (set_resumable (List.filter (fun c => negb (Nat.eqb call c)) (resumable w)) w)
  else w.

(** [stop] after [await this.transport.terminate()], lines 156-160. *)
Definition stop_tail (w : World) : World :=
  with_client
    (fun c => set_pendingMessages [] (set_messageCount 0 (set_transport false c))) w.

(** [stop] up to that await, lines 148-155; without a transport the
    call has no await and runs to its end. *)
Definition stop_head (w : World) : World :=
  let w1 :=
    if messageGenerator (client w)
    then with_client (set_messageGenerator false)
           (with_generator MessageGenerator.terminate w)
    else w in
  if transport (client w1)
  then
    let (w2, suspended) := terminate_head w1 in
    set_stops (stops w2 ++ [if suspended then InTerminate else TerminateReturned]) w2
  else
    with_client (fun c => set_pendingMessages [] (set_messageCount 0 c)) w1.

(** *** Calls that run to their end with nothing else in between *)

(** A whole [terminate()] call: its first part, the exit of the
    process, its second part.  No branch of the source throws, so the
    call always returns. *)
Definition terminate (w : World) : World * Settled unit :=
  let (w1, suspended) := terminate_head w in
  (if suspended then terminate_tail w1 else w1, Resolved tt).

(** A whole [stop()] call.  It has no throwing branch either.  What
    can go wrong is not in its result: [messageGenerator.terminate()]
    rejects the installed slot, and when the body of the generator is
    not suspended on that slot nobody has a handler on its promise
    ([MessageGeneratorProps.unhandled] below lists such slots). *)
Definition stop (w : World) : World * Settled unit :=
  let w1 :=
    if messageGenerator (client w)
    then with_client (set_messageGenerator false)
           (with_generator MessageGenerator.terminate w)
    else w in
  let w2 :=
    if transport (client w1)
    then with_client (set_transport false) (fst (terminate w1))
    else w1 in
  (with_client (fun c => set_pendingMessages [] (set_messageCount 0 c)) w2,
   Resolved tt).

(** *** The scheduler *)

(** What can happen next: a call by the user of the client, the
    resumption of a suspended block, or something the subprocess or the
    abort signal does.  A run of labels stays within one [start()]:
    [start()] is not a label, the worlds of a session begin after it
    ([start_head] above), and a second [start()] after [stop()] is
    outside every run. *)
Inductive Label :=
  | CallQuery (prompt : string)   (* client.query(prompt), up to its await        *)
  | CallStop                      (* client.stop(), up to its await               *)
  | QueryResume (call : nat)      (* query() goes on after waitForResult()        *)
  | TerminateResume               (* terminate() goes on after await this.process *)
  | StopResume                    (* stop() goes on after terminate() returned    *)
  | GeneratorResume               (* generateMessages goes on after its await     *)
  | WriterReceive                 (* the writer loop gets the generator's answer  *)
  | WriterTimer                   (* a checkState timer fires                     *)
  | ReadLine (line : string)      (* the reader loop gets a line                  *)
  | ReadClose                     (* the line stream ends                         *)
  | ReadFailure (reason : Error)  (* the line stream throws                       *)
  | ProcessExit                   (* the subprocess exits                         *)
  | SignalAbort.                  (* options.signal is aborted                    *)

Fixpoint mark_returned (calls : list StopPhase) : option (list StopPhase) :=
  match calls with
  | [] => None
  | InTerminate :: rest => Some (TerminateReturned :: rest)
  | TerminateReturned :: rest => option_map (cons TerminateReturned) (mark_returned rest)
  end.

Fixpoint drop_returned (calls : list StopPhase) : option (list StopPhase) :=
  match calls with
  | [] => None
  | TerminateReturned :: rest => Some rest
  | InTerminate :: rest => option_map (cons InTerminate) (drop_returned rest)
  end.

(** The promise [terminate] awaits is settled once the process is gone. *)
Definition process_settled (t : PersistentCLITransport) : bool :=
  match process t with Some p => exited p | None => true end.

Definition terminate_resume (w : World) : World :=
  if process_settled (transport_object w)
  then match mark_returned (stops w) with
       | Some calls => set_stops calls (terminate_tail w)
       | None => w
       end
  else w.

Definition stop_resume (w : World) : World :=
  match drop_returned (stops w) with
  | Some calls => set_stops calls (stop_tail w)
  | None => w
  end.

Definition process_exit (w : World) : World :=
  with_transport (fun t => set_process (option_map exit (process t)) t) w.

(** Modelled from the spec: [SubprocessAbortHandler]
    (_internal/transport/subprocess-abort-handler.js) is not among the
    sources.  Section 5: on cancellation "the subprocess receives a
    termination signal".  The handler is attached while [cleanupAbort]
    is set. *)
Definition signal_abort (w : World) : World :=
  match signal (transport_object w) with
  | Some _ =>
      with_transport
        (fun t => set_signal (Some true)
                    (if cleanupAbort t
                     then set_process (option_map kill (process t)) t
                     else t)) w
  | None => w
  end.

Definition step (l : Label) (w : World) : World :=
  match l with
  | CallQuery prompt => query_head prompt w
  | CallStop => stop_head w
  | QueryResume call => query_tail call w
  | TerminateResume => terminate_resume w
  | StopResume => stop_resume w
  | GeneratorResume =>
      with_generator (MessageGenerator.step MessageGenerator.Resume) w
  | WriterReceive => writer_receive w
  | WriterTimer => writer_timer w
  | ReadLine line => reader_line line w
  | ReadClose => reader_close w
  | ReadFailure reason => reader_failure reason w
  | ProcessExit => process_exit w
  | SignalAbort => signal_abort w
  end.

Definition run (ls : list Label) (w : World) : World :=
  fold_left (fun acc l => step l acc) ls w.

(** *** Waiting for the session (persistent-client.ts 213-236) *)

Inductive InitCheck :=
  | InitResolved
  | InitRejected (reason : Error)
  | InitRetry.

(** [checkInit], lines 219-232. *)
Definition checkInit (w : World) : InitCheck :=
  let current := if transport (client w) then Some (state (transport_object w)) else None in
  let session := if transport (client w) then sessionId (transport_object w) else None in
  if truthy session then InitResolved
  else match current with
       | Some Persistent.error | Some terminated =>
           InitRejected (mkError "Error" "Process failed to initialize")
       | _ => InitRetry
       end.

(** The 30 second timer and the 100 ms timer of [waitForSessionInit]. *)
Definition INIT_TIMEOUT_MS : N := 30000.
Definition CHECK_INTERVAL_MS : N := 100.

(** [waitForSessionInit].  [checkInit] runs at 0 ms, 100 ms, ... while
    it asks for a retry; [activity] lists, per 100 ms interval, what
    happens between one check and the next; once [checks] intervals have
    passed, the 30 second timer rejects. *)
Fixpoint waitForSessionInit (checks : nat) (activity : list (list Label))
    (w : World) : World * Settled unit :=
  match checks with
  | 0 => (w, Threw (mkError "Error" "Session initialization timeout"))
  | S remaining =>
      match checkInit w with
      | InitResolved => (w, Resolved tt)
      | InitRejected reason => (w, Threw reason)
      | InitRetry =>
          waitForSessionInit remaining (tl activity) (run (hd [] activity) w)
      end
  end.

(** [PersistentClient.start], lines 67-92. *)
Definition start (initialPrompt : option string) (spawn : SpawnResult)
    (activity : list (list Label)) (w : World) : World * Settled unit :=
  let (w1, started) := start_head initialPrompt spawn w in
  match started with
  | Threw reason => (w1, Threw reason)
  | Resolved _ =>
      waitForSessionInit (N.to_nat (INIT_TIMEOUT_MS / CHECK_INTERVAL_MS)) activity w1
  end.

End Reader.

End Persistent.

(* ===================================================================== *)
(** ** Sample subprocess output *)
(* ===================================================================== *)

Module Samples.
Import Persistent.

Definition quoted (s : string) : string :=
  String "034" "" ++ s ++ String "034" "".

(** [{"type":"system","subtype":"init","session_id":"S1"}] *)
Definition init_line : string :=
  "{" ++ quoted "type" ++ ":" ++ quoted "system" ++ ","
      ++ quoted "subtype" ++ ":" ++ quoted "init" ++ ","
      ++ quoted "session_id" ++ ":" ++ quoted "S1" ++ "}".
Definition init_record : JSON :=
  JObject [("type", JString "system"); ("subtype", JString "init");
           ("session_id", JString "S1")].

(** [{"type":"assistant","message":{"content":[]}}] *)
Definition content_line : string :=
  "{" ++ quoted "type" ++ ":" ++ quoted "assistant" ++ ","
      ++ quoted "message" ++ ":{" ++ quoted "content" ++ ":[]}}".
Definition content_record : JSON :=
  JObject [("type", JString "assistant");
           ("message", JObject [("content", JArray [])])].

(** [{"type":"result","subtype":"success"}] *)
Definition result_line : string :=
  "{" ++ quoted "type" ++ ":" ++ quoted "result" ++ ","
      ++ quoted "subtype" ++ ":" ++ quoted "success" ++ "}".
Definition result_record : JSON :=
  JObject [("type", JString "result"); ("subtype", JString "success")].

(** [{"type":"error","error":{"message":"boom"}}] *)
Definition error_line : string :=
  "{" ++ quoted "type" ++ ":" ++ quoted "error" ++ ","
      ++ quoted "error" ++ ":{" ++ quoted "message" ++ ":" ++ quoted "boom" ++ "}}".
Definition error_record : JSON :=
  JObject [("type", JString "error");
           ("error", JObject [("message", JString "boom")])].

(** A line that is not JSON. *)
Definition garbage_line : string := "Loading configuration...".

(** [JSON.parse] on the sample lines (and on [null]); every other text
    used below is not JSON. *)
Definition sample_parse (text : string) : option JSON :=
  if String.eqb text init_line then Some init_record
  else if String.eqb text content_line then Some content_record
  else if String.eqb text result_line then Some result_record
  else if String.eqb text error_line then Some error_record
  else if String.eqb text "null" then Some JNull
  else None.

(** A client started on a running child, no abort signal given. *)
Definition started : World :=
  fst (start_head None (Spawned running_child) (new_client None)).

End Samples.

(* ===================================================================== *)
(** ** Properties of the states of the message generator *)
(* ===================================================================== *)

Module MessageGeneratorProps.
Import ControllablePromise MessageGenerator.

(** The [status] property of every slot reads ['pending']. *)
Definition all_pending (s : State) : Prop :=
  Forall (fun cp => status cp = pending) (slots s).

(** The slots the turns handed out so far were taken from. *)
Definition yielded_slots (s : State) : list nat := map fst (yielded s).

(** The slot installed in [sendMessagePromise] is one the body has not
    been resumed from. *)
Definition current_unconsumed (s : State) : Prop :=
  sendMessagePromise s < length (slots s)
  /\ ~ In (sendMessagePromise s) (consumed s).

(** What holds at each point where the body can be suspended. *)
Definition at_suspension (s : State) : Prop :=
  match generator s with
  | NotStarted => current_unconsumed s
  | AwaitSlot slot =>
      slot < length (slots s) /\ ~ In slot (consumed s) /\ current_unconsumed s
  | AtYield slot _ => current_unconsumed s
  | AwaitHook slot _ => In slot (consumed s) /\ ~ In slot (yielded_slots s)
  | AwaitOnError | Returned | Threw _ => True
  end.

(** No slot is consumed twice, no two turns come from one slot. *)
Record consumed_once (s : State) : Prop := {
  slots_allocated : Forall (fun slot => slot < length (slots s)) (consumed s);
  consumed_NoDup : NoDup (consumed s);
  yielded_consumed : forall slot, In slot (yielded_slots s) -> In slot (consumed s);
  yielded_NoDup : NoDup (yielded_slots s);
  suspension : at_suspension s;
}.

(** C6 as the claim words it: at every suspension of the body, the slot
    installed in [sendMessagePromise] is a fresh one. *)
Definition fresh_slot_at_every_suspension : Prop :=
  forall ls : list Label,
    let s := run ls createMessageGenerator in
    suspended (generator s) = true -> ~ In (sendMessagePromise s) (consumed s).

(** The body is suspended on a slot or at the [yield]. *)
Definition awaits_slot_or_yields (g : GeneratorState) : bool :=
  match g with
  | AwaitSlot _ | AtYield _ _ => true
  | _ => false
  end.

(** The body of the generator has a handler on the promise of a slot
    once it has reached [await sendMessagePromise.promise] with that
    slot installed: it is suspended on the slot, or it was resumed from
    it. *)
Definition awaited (s : State) (slot : nat) : bool :=
  match generator s with
  | AwaitSlot current => Nat.eqb current slot
  | _ => false
  end
  || existsb (Nat.eqb slot) (consumed s).

(** The slots whose promise is rejected and has no handler: unhandled
    rejections, each of them fatal to a Node process that runs with
    its default settings. *)
Definition unhandled (s : State) : list nat :=
  List.filter (fun slot =>
                 match promise <$> slots s !! slot with
                 | Some (Rejected _) => negb (awaited s slot)
                 | _ => false
                 end)
              (seq 0 (length (slots s))).

End MessageGeneratorProps.

(* ===================================================================== *)
(** ** Properties of the states of a session *)
(* ===================================================================== *)

Module PersistentProps.
Import Persistent.

(** The world right after the first part of [client.start(...)] on a
    new client. *)
Definition session (initialPrompt : option string) (spawn : SpawnResult)
    (options_signal : option bool) : World :=
  fst (start_head initialPrompt spawn (new_client options_signal)).

(** A spawn result [execa] can give: the stdin pipe of a new child, if
    it has one, has not been ended. *)
Definition new_child (spawn : SpawnResult) : bool :=
  match spawn with
  | CLINotFound => true
  | Spawned child =>
      match stdin child with
      | Some pipe => negb (ended pipe)
      | None => true
      end
  end.

(** What [handleTransportEvent] appends to [pendingMessages] for an
    event. *)
Definition buffered (event : PersistentTransportEvent) : list Message :=
  match event with
  | Event_message message =>
      if truthy (Some message) then [mkMessage (get "type" message) message] else []
  | _ => []
  end.

Definition buffer_of (events : list PersistentTransportEvent) : list Message :=
  flat_map buffered events.

(** A message made from a result-typed record. *)
Definition is_result (m : Message) : bool := is_string "result" (type m).

(** The labels of the calls that touch the buffer of the client; a
    caller that keeps the single-flight rule makes none of them while a
    [query()] of its own is in flight. *)
Definition caller_label (l : Label) : bool :=
  match l with
  | CallQuery _ | CallStop | StopResume => true
  | _ => false
  end.

Definition no_caller_label (ls : list Label) : bool :=
  forallb (fun l => negb (caller_label l)) ls.

(** The line makes the reader record a session id. *)
Definition announces_session (JSON_parse : string -> option JSON) (line : string) : bool :=
  match JSON_parse (trim line) with
  | Some parsed =>
      is_string "system" (get "type" parsed)
      && is_string "init" (get "subtype" parsed)
      && truthy (get "session_id" parsed)
  | None => false
  end.

(** What a subprocess that never announces its session, and whose
    output stream does not fail, lets happen while [start()] waits. *)
Definition silent_label (JSON_parse : string -> option JSON) (l : Label) : bool :=
  match l with
  | ReadLine line => negb (announces_session JSON_parse line)
  | GeneratorResume | WriterReceive | WriterTimer | ReadClose | ProcessExit => true
  | _ => false
  end.

Definition silent (JSON_parse : string -> option JSON) (activity : list (list Label)) : bool :=
  forallb (forallb (silent_label JSON_parse)) activity.

(** No hook is attached to the generator of the client, which never
    calls [setHooks], and its body is at none of the points only a hook
    leads to. *)
Definition hook_free (s : MessageGenerator.State) : Prop :=
  MessageGenerator.hooks s = MessageGenerator.mkHooks None None
  /\ match MessageGenerator.generator s with
     | MessageGenerator.AwaitHook _ _ | MessageGenerator.AwaitOnError
     | MessageGenerator.Threw _ => False
     | _ => True
     end.

(** The stdin pipe of the child was ended. *)
Definition stdin_ended (t : PersistentCLITransport) : bool :=
  match process t with
  | Some p => match stdin p with Some pipe => ended pipe | None => false end
  | None => false
  end.

(** The chunks written to the stdin pipe of the child. *)
Definition stdin_written (t : PersistentCLITransport) : list string :=
  match process t with
  | Some p => match stdin p with Some pipe => written pipe | None => [] end
  | None => []
  end.

(** What holds of every world a session can reach. *)
Record reachable_shape (w : World) : Prop := {
  subscribed : eventHandlers (transport_object w) = [handleTransportEvent];
  never_initializing : state (transport_object w) <> initializing;
  requesting_not_processing :
    writer w = WriterAwaitNext -> state (transport_object w) <> processing;
  terminating_in_flight :
    state (transport_object w) = terminating -> In InTerminate (stops w);
  ended_in_flight :
    stdin_ended (transport_object w) = true -> In InTerminate (stops w);
  generator_hook_free : hook_free (generator_object w);
  calls_known :
    forall call, In call (waitingForResult (client w)) \/ In call (resumable w) ->
                 call < next_call w;
}.

(** The parts of a world no event handler writes to. *)
Definition outside_client (w : World) :=
  (transport_object w, generator_object w, writer w, reader w, stops w,
   next_call w, emitted w, settled_queries w, console_warn w).

(** The client, the calls about to resume and the reader loop. *)
Definition client_side (w : World) := (client w, resumable w, reader w).

(** State, writer loop and calls in flight. *)
Definition control_ok (w : World) : Prop :=
  state (transport_object w) <> initializing
  /\ (writer w = WriterAwaitNext -> state (transport_object w) <> processing)
  /\ (state (transport_object w) = terminating -> In InTerminate (stops w))
  /\ (stdin_ended (transport_object w) = true -> In InTerminate (stops w)).

(** The calls waiting for a result or about to resume. *)
Definition calls_in (w : World) (call : nat) : Prop :=
  In call (waitingForResult (client w)) \/ In call (resumable w).

(** No call appears, and no call number is handed out. *)
Definition no_new_call (w w' : World) : Prop :=
  next_call w' = next_call w /\ forall call, calls_in w' call -> calls_in w call.

(** The events [handle_parsed] emits before the message event. *)
Definition announced (parsed : JSON) (w : World) : list PersistentTransportEvent :=
  (if is_string "system" (get "type" parsed)
      && is_string "init" (get "subtype" parsed)
      && truthy (get "session_id" parsed)
   then match get "session_id" parsed with
        | Some session_id => [Event_session_initialized session_id]
        | None => []
        end
   else [])
  ++ (if is_string "result" (get "type" parsed)
      then if ProcessState_eqb (state (transport_object w)) paused
           then [] else [Event_state_change paused]
      else []).

(** From [w] to [w'] the subscription stays, and the buffer has grown
    by what the handler of the client makes of the events emitted. *)
Definition grows (w w' : World) : Prop :=
  eventHandlers (transport_object w') = eventHandlers (transport_object w)
  /\ exists events,
       emitted w' = emitted w ++ events
       /\ pendingMessages (client w')
          = pendingMessages (client w) ++ buffer_of events.

(** The two errors [query()] throws, both before it submits anything. *)
Definition not_started_error : Error :=
  mkError "Error" "Client not started. Call start() first.".
Definition not_alive_error : Error := mkError "Error" "Process is not alive".

(** A buffer that holds a result-typed record. *)
Definition has_result (ms : list Message) : Prop :=
  exists m, In m ms /\ is_result m = true.

(** C1 as the claim words it: when the subprocess exits (and its output
    stream closes) while a query is waiting for its result, the state
    becomes Error, every waiting query is rejected, and the client is no
    longer alive. *)
Definition exit_while_pending_is_fatal (JSON_parse : string -> option JSON) : Prop :=
  forall (ls : list Label),
    let w := run JSON_parse ls (session None (Spawned running_child) None) in
    let w' := run JSON_parse [ProcessExit; ReadClose] w in
    waitingForResult (client w) <> [] ->
    state (transport_object w') = Persistent.error
    /\ client_isAlive w' = false
    /\ forall call, In call (waitingForResult (client w)) ->
         exists reason, In (call, Threw reason) (settled_queries w').


(** A chunk that is one line: its one newline is its last character. *)
Definition newlines (chunk : string) : nat :=
  length (List.filter (Ascii.eqb "010") (list_ascii_of_string chunk)).

(** C8 as the claim words it: a turn the writer loop gets from the
    generator finds the state Ready or Paused, and the loop sets the
    state to Processing and writes the prompt as one line that ends
    with a newline. *)
Definition every_turn_is_written (JSON_parse : string -> option JSON) : Prop :=
  forall (ls : list Label) (slot : nat) (prompt : string),
    let w := run JSON_parse ls (session None (Spawned running_child) None) in
    let w' := step JSON_parse WriterReceive w in
    writer w = WriterAwaitNext ->
    MessageGenerator.generator (generator_object w)
      = MessageGenerator.AtYield slot prompt ->
    (state (transport_object w) = ready \/ state (transport_object w) = paused)
    /\ state (transport_object w') = processing
    /\ stdin_written (transport_object w')
       = stdin_written (transport_object w) ++ [(prompt ++ String "010" "")%string]
    /\ newlines (prompt ++ String "010" "")%string = 1.

(** C9 as the claim words it: every line read that is not empty and
    parses as a record is forwarded as a message event, and the reader
    loop goes on. *)
Definition every_record_is_forwarded (JSON_parse : string -> option JSON) : Prop :=
  forall (ls : list Label) (options_signal : option bool) (line : string)
         (members : list (string * JSON)),
    let w := run JSON_parse ls
               (session None (Spawned running_child) options_signal) in
    let w' := step JSON_parse (ReadLine line) w in
    reader w = ReaderRunning ->
    trim line <> "" ->
    JSON_parse (trim line) = Some (JObject members) ->
    reader w' = ReaderRunning
    /\ exists before,
         emitted w' = emitted w ++ before ++ [Event_message (JObject members)].

(** C7 as the claim words it, for [stop()]: after a completed first
    call the state is Terminated, and a second call leaves it there. *)
Definition stop_leaves_terminated (JSON_parse : string -> option JSON) : Prop :=
  forall (ls : list Label),
    let w := run JSON_parse ls (session None (Spawned running_child) None) in
    let once := fst (stop w) in
    processState (getState once) = terminated
    /\ processState (getState (fst (stop once))) = terminated.

(** The error [waitForSessionInit] rejects with when its 30 second
    timer fires. *)
Definition initialization_timeout : Error :=
  mkError "Error" "Session initialization timeout".

(** C2 as the claim words it: with a subprocess that never announces
    its session, [start()] is rejected with the timeout error and no
    change of the state to Ready is ever emitted. *)
Definition timeout_without_ready (JSON_parse : string -> option JSON) : Prop :=
  forall (activity : list (list Label)),
    silent JSON_parse activity = true ->
    let result := start JSON_parse None (Spawned running_child) activity
                        (new_client None) in
    snd result = Threw initialization_timeout
    /\ ~ In (Event_state_change ready) (emitted (fst result)).

(** What holds while [start()] waits on a silent subprocess. *)
Record waiting_for_session (w : World) : Prop := {
  waiting_subscribed : eventHandlers (transport_object w) = [handleTransportEvent];
  waiting_transport : transport (client w) = true;
  waiting_no_session : sessionId (transport_object w) = None;
  waiting_not_failed :
    state (transport_object w) <> Persistent.error
    /\ state (transport_object w) <> terminated;
  waiting_hook_free : hook_free (generator_object w);
  waiting_ready_seen : In (Event_state_change ready) (emitted w);
}.

End PersistentProps.

(* ===================================================================== *)
(** ** persistent-cli-transport.ts: subscribing, finding the executable,
       building the command line *)
(* ===================================================================== *)

Module Subscription.

Section Handlers.

(** Handlers are function values; [indexOf] tells them apart by
    identity. *)
Context {Handler : Type} `{EqDecision Handler}.

(** [Array.prototype.indexOf]: [None] is [-1]. *)
Fixpoint indexOf (handler : Handler) (handlers : list Handler) : option nat :=
  match handlers with
  | [] => None
  | h :: rest =>
      if decide (h = handler) then Some 0
      else match indexOf handler rest with
           | Some index => Some (S index)
           | None => None
           end
  end.

(** [handlers.splice(index, 1)] *)
Definition splice (index : nat) (handlers : list Handler) : list Handler :=
  take index handlers ++ drop (S index) handlers.

(** The function [on] returns, lines 86-91, applied to the handlers
    subscribed when it is called. *)
Definition unsubscribe (handler : Handler) (handlers : list Handler)
  : list Handler :=
  match indexOf handler handlers with
  | Some index => splice index handlers
  | None => handlers
  end.

(** [on], lines 84-92: the new value of [eventHandlers]; what it
    returns is [unsubscribe handler]. *)
Definition on (handler : Handler) (handlers : list Handler) : list Handler :=
  handlers ++ [handler].

(** How often a handler is called per event: [emit] calls every entry
    of [eventHandlers]. *)
Definition subscriptions (handler : Handler) (handlers : list Handler) : nat :=
  length (List.filter (fun h => bool_decide (h = handler)) handlers).

(** The entries of the other handlers, in order. *)
Definition others (handler : Handler) (handlers : list Handler) : list Handler :=
  List.filter (fun h => negb (bool_decide (h = handler))) handlers.

End Handlers.

End Subscription.

Module Launch.
Import Persistent.

(** *** [findCLI], lines 121-169 *)

Section FindCLI.

(** What the call reads from its environment: [join] of node:path,
    [homedir()] and [platform()] of node:os, whether
    [access(path, constants.X_OK)] resolves, and what [which(name)]
    resolves with ([None] when it rejects). *)
Variable join : list string -> string.
Variable homedir : string.
Variable platform : string.
Variable access_X_OK : string -> bool.
Variable which : string -> option string.

Definition localPaths : list string :=
  [join [homedir; ".claude"; "local"; "claude"];
   join [homedir; ".claude"; "bin"; "claude"]].

Definition macPaths : list string :=
  ["/Applications/Claude.app/Contents/Resources/claude-cli/claude";
   "/usr/local/bin/claude"].

(** [for (const path of paths) { try { await access(path, X_OK);
    return path; } catch { } }] *)
Fixpoint first_accessible (paths : list string) : option string :=
  match paths with
  | [] => None
  | path :: rest => if access_X_OK path then Some path else first_accessible rest
  end.

Definition cli_not_found : Error :=
  mkError "CLINotFoundError"
    ("Claude CLI not found. Please install it first." ++ String "010" ""
     ++ "Visit: https://github.com/anthropics/anthropic-sdk-typescript/tree/main/packages/claude-code").

Definition findCLI : Settled string :=
  match first_accessible localPaths with
  | Some path => Resolved path
  | None =>
      match which "claude" with
      | Some path => Resolved path
      | None =>
          match which "claude-code" with
          | Some path => Resolved path
          | None =>
              match (if String.eqb platform "darwin"
                     then first_accessible macPaths else None) with
              | Some path => Resolved path
              | None => Threw cli_not_found
              end
          end
      end
  end.

(** The places [findCLI] looks at, in the order it looks at them. *)
Definition candidates : list string :=
  List.filter access_X_OK localPaths
  ++ match which "claude" with Some path => [path] | None => [] end
  ++ match which "claude-code" with Some path => [path] | None => [] end
  ++ (if String.eqb platform "darwin" then List.filter access_X_OK macPaths else []).

End FindCLI.

(** *** [buildCommand], lines 174-237 *)

(** [PermissionMode], types.ts line 2. *)
Inductive PermissionMode := mode_default | acceptEdits | bypassPermissions.

Definition PermissionMode_string (mode : PermissionMode) : string :=
  match mode with
  | mode_default => "default"
  | acceptEdits => "acceptEdits"
  | bypassPermissions => "bypassPermissions"
  end.

(** The properties of [ClaudeCodeOptions] (types.ts 149-178) that
    [buildCommand] reads; [None] is a property that is not there. *)
Record ClaudeCodeOptions := mkOptions {
  model : option string;
  allowedTools : option (list string);
  deniedTools : option (list string);
  mcpServers : option (list JSON);
  permissionMode : option PermissionMode;
  cwd : option string;
  mcpServerPermissions : option (list (string * JSON));
  configFile : option string;
  role : option string;
  systemPrompt : option string;
}.

(** [{}], the default of the constructor. *)
Definition no_options : ClaudeCodeOptions :=
  mkOptions None None None None None None None None None None.

(** Truthiness of an optional string. *)
Definition given (value : option string) : bool :=
  match value with
  | Some s => negb (String.eqb s "")
  | None => false
  end.

(** [option && option.length > 0] *)
Definition non_empty {A} (value : option (list A)) : bool :=
  match value with
  | Some (_ :: _) => true
  | _ => false
  end.

Definition text (value : option string) : string :=
  match value with Some s => s | None => "" end.

Definition items {A} (value : option (list A)) : list A :=
  match value with Some l => l | None => [] end.

Section BuildCommand.

Variable JSON_stringify : JSON -> string.

(** The list [args] at the [return].  Its entries are what was pushed:
    string literals, option values, and, for a resumed session, the
    session id as the reader loop stored it. *)
Definition buildCommand (isResume : bool) (sessionId : option JSON)
    (options : ClaudeCodeOptions) : list JSON :=
  [JString "--output-format"; JString "stream-json"; JString "--verbose"]
  ++ (if isResume && truthy sessionId
      then match sessionId with
           | Some id => [JString "--resume"; id]
           | None => []
           end
      else [])
  ++ (if given (cwd options)
      then [JString "--add-dir"; JString (text (cwd options))] else [])
  ++ (if non_empty (allowedTools options)
      then [JString "--allowedTools";
            JString (String.concat "," (items (allowedTools options)))]
      else [])
  ++ (if non_empty (deniedTools options)
      then [JString "--disallowedTools";
            JString (String.concat "," (items (deniedTools options)))]
      else [])
  ++ match permissionMode options with
     | Some bypassPermissions => [JString "--dangerously-skip-permissions"]
     | _ => []
     end
  ++ (if non_empty (mcpServers options)
      then [JString "--mcp-config";
            JString (JSON_stringify
                       (JObject [("mcpServers", JArray (items (mcpServers options)))]))]
      else [])
  ++ (if non_empty (mcpServerPermissions options)
      then [JString "--mcp-server-permissions";
            JString (JSON_stringify (JObject (items (mcpServerPermissions options))))]
      else [])
  ++ (if given (configFile options)
      then [JString "--config-file"; JString (text (configFile options))] else [])
  ++ (if given (role options)
      then [JString "--role"; JString (text (role options))] else [])
  ++ (if given (systemPrompt options)
      then [JString "--system-prompt"; JString (text (systemPrompt options))] else [])
  ++ match permissionMode options with
     | Some mode => [JString "--permission-mode"; JString (PermissionMode_string mode)]
     | None => []
     end
  ++ (if given (model options)
      then [JString "--model"; JString (text (model options))] else [])
  ++ [JString "--print"].

(** The command line [start] spawns, line 251: [this.buildCommand(false)]. *)
Definition start_args (t : PersistentCLITransport) (options : ClaudeCodeOptions)
  : list JSON :=
  buildCommand false (sessionId t) options.

End BuildCommand.

End Launch.

(* ===================================================================== *)
(** ** Further properties of the states of the message generator *)
(* ===================================================================== *)

Module TurnProps.
Import ControllablePromise MessageGenerator.

(** The messages the calls of [setNextMessage] in a run were given. *)
Definition submitted (ls : list Label) : list string :=
  flat_map (fun l => match l with
                     | CallSetNextMessage message => [message]
                     | _ => []
                     end) ls.

(** The contents of the turns handed out so far. *)
Definition contents (s : State) : list string :=
  map (fun turn => content (snd turn)) (yielded s).

(** The message a resumption of the body can still hand out: the one
    the hook was called with, or the one the installed slot holds. *)
Definition in_flight (s : State) : list string :=
  match generator s with
  | AwaitHook _ message => [message]
  | NotStarted | AwaitSlot _ | AtYield _ _ =>
      match promise <$> slots s !! sendMessagePromise s with
      | Some (Fulfilled message) => [message]
      | _ => []
      end
  | AwaitOnError | Returned | MessageGenerator.Threw _ => []
  end.

(** The message the installed slot holds. *)
Definition held (s : State) : list string :=
  match promise <$> slots s !! sendMessagePromise s with
  | Some (Fulfilled message) => [message]
  | _ => []
  end.

(** What links a state to the messages submitted so far. *)
Record feeds (messages : list string) (s : State) : Prop := {
  fed : sublist (contents s ++ in_flight s) messages;
  awaited_installed :
    forall slot, generator s = AwaitSlot slot -> slot = sendMessagePromise s;
  installed_allocated : sendMessagePromise s < length (slots s);
  reads_pending : MessageGeneratorProps.all_pending s;
}.

(** At the [yield], the turn being handed out is the last one of the
    record. *)
Definition yields_last (s : State) : Prop :=
  forall slot message,
    generator s = AtYield slot message ->
    exists before, contents s = before ++ [message].

(** The body is suspended on the [onNewUserMessageResolved] hook. *)
Definition in_hook (g : GeneratorState) : bool :=
  match g with AwaitHook _ _ => true | _ => false end.

(** After [terminate()]: the flag stays set, and the turns handed out
    beyond [base] are at most [bound], counting the one whose hook is
    running. *)
Definition winding_down (base : list (nat * UserMessage)) (bound : nat)
    (s : State) : Prop :=
  isTerminated s = true
  /\ exists extra,
       yielded s = base ++ extra
       /\ length extra + (if in_hook (generator s) then 1 else 0) <= bound.

(** The body has left its loop. *)
Definition finished (g : GeneratorState) : bool :=
  match g with Returned | MessageGenerator.Threw _ => true | _ => false end.

End TurnProps.

(* ===================================================================== *)
(** ** Further properties of the states of a session *)
(* ===================================================================== *)

Module SessionProps.
Import Persistent PersistentProps.

(** The prompts of the [query()] calls of a run. *)
Definition prompts (ls : list Label) : list string :=
  flat_map (fun l => match l with CallQuery prompt => [prompt] | _ => [] end) ls.

(** The prompt [start()] submits: [if (initialPrompt)]. *)
Definition initial (initialPrompt : option string) : list string :=
  match initialPrompt with
  | Some prompt => if negb (String.eqb prompt "") then [prompt] else []
  | None => []
  end.

(** What the writer loop writes for a prompt. *)
Definition chunk (prompt : string) : string := prompt ++ String "010" "".

(** The errors of [start()]. *)
Definition already_started_error : Error := mkError "Error" "Client already started".
Definition not_found_error : Error := cli_not_found_error.
Definition connection_error : Error :=
  mkError "CLIConnectionError" "Failed to get process stdin/stdout".
Definition failed_to_initialize : Error :=
  mkError "Error" "Process failed to initialize".

(** No executable, or a child without its stdin or stdout pipe. *)
Definition failed_spawn (spawn : SpawnResult) : bool :=
  match spawn with
  | CLINotFound => true
  | Spawned child =>
      negb (match stdin child with Some _ => true | None => false end)
      || negb (stdout child)
  end.

(** The error [transport.start] throws for such a spawn result. *)
Definition spawn_error (spawn : SpawnResult) : Error :=
  match spawn with
  | CLINotFound => not_found_error
  | Spawned _ => connection_error
  end.

(** The session id of the last session event. *)
Definition last_session (events : list PersistentTransportEvent) : option JSON :=
  fold_left (fun found event =>
               match event with
               | Event_session_initialized sessionId => Some sessionId
               | _ => found
               end) events None.

(** The fields of the client no event handler writes to. *)
Definition flags (w : World) : bool * bool * nat :=
  (transport (client w), messageGenerator (client w), messageCount (client w)).

(** The transport keeps the id of the last session event. *)
Definition session_tracked (w : World) : Prop :=
  sessionId (transport_object w) = last_session (emitted w).

(** The calls that ended with an error. *)
Definition is_rejected (entry : nat * Settled PersistentQueryResult) : bool :=
  match snd entry with Threw _ => true | Resolved _ => false end.

Definition rejected (w : World) : list (nat * Settled PersistentQueryResult) :=
  List.filter is_rejected (settled_queries w).

(** A line of white space: it is made of characters [trim] strips,
    each of one, two or three bytes. *)
Fixpoint white (chars : list ascii) : bool :=
  match chars with
  | [] => true
  | c1 :: rest1 =>
      if space1 c1 then white rest1
      else
        match rest1 with
        | c2 :: rest2 =>
            if space2 c1 c2 then white rest2
            else
              match rest2 with
              | c3 :: rest3 => space3 c1 c2 c3 && white rest3
              | [] => false
              end
        | [] => false
        end
  end.

Definition blank (line : string) : bool := white (list_ascii_of_string line).

(** A change of the state to anything but ['paused']. *)
Definition quiet (event : PersistentTransportEvent) : bool :=
  match event with
  | Event_state_change state => negb (ProcessState_eqb state paused)
  | _ => false
  end.

(** From [w] to [w'] nothing was heard from the subprocess: the signal
    and the session id are what they were, the events emitted are quiet
    ones, the waiting calls still wait and no call became resumable. *)
Definition hushed (w w' : World) : Prop :=
  signal (transport_object w') = signal (transport_object w)
  /\ sessionId (transport_object w') = sessionId (transport_object w)
  /\ (exists events, emitted w' = emitted w ++ events
                     /\ forallb quiet events = true)
  /\ (forall call, In call (waitingForResult (client w)) ->
                   In call (waitingForResult (client w')))
  /\ (forall call, In call (resumable w') -> In call (resumable w)).

(** The count of the client and the calls that ended with an error add
    up to the calls made. *)
Definition counted (w : World) : Prop :=
  messageCount (client w) + length (rejected w) = next_call w.

Definition stop_label (l : Label) : bool :=
  match l with CallStop | StopResume => true | _ => false end.

Definition exit_label (l : Label) : bool :=
  match l with ProcessExit => true | _ => false end.

(** A [stop()] call waits for a subprocess that was sent the signal and
    has not exited. *)
Record awaiting_exit (w : World) : Prop := {
  holds_transport : transport (client w) = true;
  signalled :
    exists p, process (transport_object w) = Some p
              /\ exited p = false /\ killed p = true;
  not_over :
    state (transport_object w) <> terminated
    /\ state (transport_object w) <> not_started;
  all_in_terminate : Forall (fun phase => phase = InTerminate) (stops w);
  some_in_terminate : stops w <> [];
}.

(** The turns the writer loop has taken from the generator: all those
    handed out, but for the one the loop has asked for and not yet
    received. *)
Definition taken (w : World) : list string :=
  match writer w, MessageGenerator.generator (generator_object w) with
  | WriterAwaitNext, MessageGenerator.AtYield _ _ =>
      removelast (TurnProps.contents (generator_object w))
  | _, _ => TurnProps.contents (generator_object w)
  end.

(** What links the stdin pipe to the prompts submitted so far. *)
Record piped (submitted : list string) (w : World) : Prop := {
  generator_fed : TurnProps.feeds submitted (generator_object w);
  last_yielded : TurnProps.yields_last (generator_object w);
  written_taken :
    sublist (stdin_written (transport_object w)) (map chunk (taken w));
}.

End SessionProps.

(* ===================================================================== *)
(** ** The state of the transport and the events that announce it *)
(* ===================================================================== *)

Module StateProps.
Import Persistent PersistentProps.

(** The states carried by the [state_change] events, in order. *)
Definition announced_states (events : list PersistentTransportEvent)
  : list ProcessState :=
  flat_map (fun event => match event with
                         | Event_state_change state => [state]
                         | _ => []
                         end) events.

(** Every state of the list differs from the one before it, [from] for
    the first. *)
Fixpoint changing (from : ProcessState) (states : list ProcessState) : bool :=
  match states with
  | [] => true
  | state :: rest => negb (ProcessState_eqb from state) && changing state rest
  end.

(** The state of the transport is the one announced last, and every
    event announced a change. *)
Record state_tracked (w : World) : Prop := {
  state_announced :
    state (transport_object w)
    = List.last (announced_states (emitted w)) not_started;
  announced_changes : changing not_started (announced_states (emitted w)) = true;
}.

End StateProps.

(* ===================================================================== *)
(** ** A conversation: prompts, replies and results *)
(* ===================================================================== *)

Module ConversationProps.
Import Persistent PersistentProps SessionProps.

(** The generator the client holds was not terminated. *)
Definition generator_live (w : World) : Prop :=
  messageGenerator (client w) = true ->
  MessageGenerator.isTerminated (generator_object w) = false.

(** The installed slot is a new one, the generator was not terminated
    and no [onNewUserMessageResolved] hook is attached. *)
Record slot_free (g : MessageGenerator.State) : Prop := {
  slot_not_terminated : MessageGenerator.isTerminated g = false;
  slot_no_hook :
    MessageGenerator.onNewUserMessageResolved (MessageGenerator.hooks g) = None;
  slot_pending :
    exists cp,
      MessageGenerator.slots g !! MessageGenerator.sendMessagePromise g = Some cp
      /\ ControllablePromise.promise cp = Pending
      /\ ControllablePromise.status cp = ControllablePromise.pending;
}.

(** What no turn of a conversation changes: the client holds its
    transport and its generator and is the one subscriber, the
    subprocess runs with its stdin pipe open, the signal is not
    aborted, the reader loop runs and the slot is free. *)
Record attached (w : World) : Prop := {
  holds_both :
    transport (client w) = true /\ messageGenerator (client w) = true;
  one_subscriber : eventHandlers (transport_object w) = [handleTransportEvent];
  pipe_open :
    exists p pipe,
      process (transport_object w) = Some p /\ stdin p = Some pipe
      /\ ended pipe = false /\ killed p = false;
  signal_quiet : aborted (transport_object w) = false;
  reader_running : reader w = ReaderRunning;
  slot_is_free : slot_free (generator_object w);
}.

(** The writer loop has left the turn before at its [yield] and waits
    in [waitForPause]. *)
Definition writer_pausing (w : World) : Prop :=
  writer w = WriterWaitForPause
  /\ exists slot message,
       MessageGenerator.generator (generator_object w)
       = MessageGenerator.AtYield slot message.

(** The writer loop will take the next turn: it has asked the generator
    for it and the generator waits on the installed slot, or it is
    pausing. *)
Definition writer_ready (w : World) : Prop :=
  (writer w = WriterAwaitNext
   /\ MessageGenerator.generator (generator_object w)
      = MessageGenerator.AwaitSlot
          (MessageGenerator.sendMessagePromise (generator_object w)))
  \/ writer_pausing w.

(** Between two turns: the state is ['ready'] or ['paused'] and no
    [query()] call is in flight. *)
Record resting (w : World) : Prop := {
  rest_attached : attached w;
  rest_state :
    state (transport_object w) = ready \/ state (transport_object w) = paused;
  rest_writer : writer_ready w;
  rest_calls : waitingForResult (client w) = [] /\ resumable w = [];
}.

(** Inside the turn of the [query()] call [call]: the prompt was
    written and the result has not arrived. *)
Record serving (call : nat) (w : World) : Prop := {
  serve_attached : attached w;
  serve_state : state (transport_object w) = processing;
  serve_writer : writer_pausing w;
  serve_calls : waitingForResult (client w) = [call] /\ resumable w = [];
}.

(** The line is a result record. *)
Definition is_result_line (JSON_parse : string -> option JSON) (line : string)
  : bool :=
  negb (String.eqb (trim line) "")
  && match JSON_parse (trim line) with
     | Some parsed => is_string "result" (get "type" parsed)
     | None => false
     end.

(** The message the client makes of a line, if it makes one. *)
Definition record_of (JSON_parse : string -> option JSON) (line : string)
  : list Message :=
  if String.eqb (trim line) "" then []
  else match JSON_parse (trim line) with
       | Some parsed =>
           if truthy (Some parsed) then [mkMessage (get "type" parsed) parsed] else []
       | None => []
       end.

(** One turn of a conversation: the prompt of the [query()] call, the
    lines the subprocess prints before the result, and the result
    line. *)
Record Turn := mkTurn {
  prompt : string;
  replies : list string;
  result : string;
}.

Definition well_formed (JSON_parse : string -> option JSON) (t : Turn) : bool :=
  forallb (fun line => negb (is_result_line JSON_parse line)) (replies t)
  && is_result_line JSON_parse (result t).

(** The turn of a caller that awaits each [query()]: the call, a
    [checkState] timer, the generator and the writer loop taking the
    prompt, the lines of the subprocess, and the call returning. *)
Definition turn_labels (call : nat) (t : Turn) : list Label :=
  [CallQuery (prompt t); WriterTimer; GeneratorResume; WriterReceive]
  ++ map ReadLine (replies t)
  ++ [ReadLine (result t); QueryResume call].

Fixpoint conversation (call : nat) (turns : list Turn) : list Label :=
  match turns with
  | [] => []
  | t :: rest => turn_labels call t ++ conversation (S call) rest
  end.

(** How the [query()] call of a turn ends. *)
Definition answer (JSON_parse : string -> option JSON) (t : Turn)
    (entry : nat * Settled PersistentQueryResult) : Prop :=
  exists r,
    snd entry = Resolved r
    /\ messages r = flat_map (record_of JSON_parse) (replies t ++ [result t])
    /\ processState (sessionState r) = paused
    /\ snapshot_isAlive (sessionState r) = true.

End ConversationProps.

(* ===================================================================== *)
(** ** A client that holds nothing *)
(* ===================================================================== *)

Module StopProps.
Import Persistent.

(** What [getState()] returns on a client without a transport: no
    session id, ['not_started'], not alive, no message counted. *)
Definition nothing_held : PersistentSessionState :=
  mkSessionState None not_started false 0.

End StopProps.

(* ===================================================================== *)
(** ** [start()] with what happens at its awaits *)
(* ===================================================================== *)

(** [Persistent.start] runs from the call to the wait for the session
    in one piece.  The code has two awaits before that wait: inside
    [transport.start], [await this.findCLI()] (line 251, with the
    awaits of [findCLI] itself), and in [client.start],
    [await this.transport.start(...)] (line 83).  Here the call is cut
    at both, and a run of labels is let in at each cut. *)
Module Interleaved.
Import Persistent.

(** [client.start] up to [await this.findCLI()]: persistent-client.ts
    67-83 and lines 242-251 of the transport. *)
Definition start_enter (w : World) : World * Settled unit :=
  if transport (client w)
  then (w, Threw (mkError "Error" "Client already started"))
  else
    let w1 := with_client (set_messageGenerator true)
                (with_generator (fun _ => MessageGenerator.createMessageGenerator) w) in
    let w2 := with_client (set_transport true)
                (with_transport (fun t => new_transport (signal t)) w1) in
    let w3 := with_transport
                (fun t => set_eventHandlers (eventHandlers t ++ [handleTransportEvent]) t)
                w2 in
    if negb (ProcessState_eqb (state (transport_object w3)) not_started)
    then (w3, Threw (mkError "ProcessError" "Process already started"))
    else (setState initializing w3, Resolved tt).

(** [transport.start] from the return of [findCLI] to its end, lines
    251-304.  It has no await of its own. *)
Definition transport_start_resume (spawn : SpawnResult) (w1 : World)
  : World * Settled unit :=
  match spawn with
  | CLINotFound => start_catch cli_not_found_error w1
  | Spawned child =>
      let w2 := with_transport (set_process (Some child)) w1 in
      let w3 := match signal (transport_object w2) with
                | Some _ => with_transport (set_cleanupAbort true) w2
                | None => w2
                end in
      if negb (has_stdin (transport_object w3)) || negb (has_stdout (transport_object w3))
      then start_catch (mkError "CLIConnectionError" "Failed to get process stdin/stdout") w3
      else
        let w4 := request_next w3 in
        let w5 := set_reader ReaderRunning w4 in
        (setState ready w5, Resolved tt)
  end.

(** What [this.messageGenerator.setNextMessage(...)] throws when a
    [stop()] has set [this.messageGenerator] to [undefined]; the
    message is the one V8 gives. *)
Definition no_generator_error : Error :=
  mkError "TypeError" "Cannot read properties of undefined (reading 'setNextMessage')".

(** [client.start] after [await this.transport.start(...)], lines
    85-88. *)
Definition start_leave (initialPrompt : option string) (w : World)
  : World * Settled unit :=
  match initialPrompt with
  | Some prompt =>
      if negb (String.eqb prompt "")
      then if messageGenerator (client w)
           then (with_generator (MessageGenerator.setNextMessage prompt) w, Resolved tt)
           else (w, Threw no_generator_error)
      else (w, Resolved tt)
  | None => (w, Resolved tt)
  end.

(** The label of a [stop()] call. *)
Definition is_stop_call (l : Label) : bool :=
  match l with CallStop => true | _ => false end.

Section Reader.

Variable JSON_parse : string -> option JSON.

(** [PersistentClient.start], lines 67-92: [before] is what happens
    while [findCLI] looks for the executable, [meanwhile] what happens
    between the end of [transport.start] and the moment [client.start]
    goes on, [activity] what happens during the wait for the session. *)
Definition start (initialPrompt : option string) (spawn : SpawnResult)
    (before meanwhile : list Label) (activity : list (list Label)) (w : World)
  : World * Settled unit :=
  let (w1, entered) := start_enter w in
  match entered with
  | Threw reason => (w1, Threw reason)
  | Resolved _ =>
      let (w2, started) := transport_start_resume spawn (run JSON_parse before w1) in
      match started with
      | Threw reason => (w2, Threw reason)
      | Resolved _ =>
          let (w3, left) := start_leave initialPrompt (run JSON_parse meanwhile w2) in
          match left with
          | Threw reason => (w3, Threw reason)
          | Resolved _ =>
              waitForSessionInit JSON_parse
                (N.to_nat (INIT_TIMEOUT_MS / CHECK_INTERVAL_MS)) activity w3
          end
      end
  end.

End Reader.

End Interleaved.

(* ===================================================================== *)
(** * Facts about controllable-promise.ts *)
(* ===================================================================== *)

Module ControllablePromiseFacts.
Import ControllablePromise.

Lemma status_call {T} (c : Call T) cp : status (call c cp) = status cp.
Proof. destruct c; reflexivity. Qed.

Lemma status_calls {T} (cs : list (Call T)) cp :
  status (calls cs cp) = status cp.
Proof.
  unfold calls. revert cp. induction cs as [|c cs IH]; intros cp; simpl.
  - reflexivity.
  - rewrite IH. apply status_call.
Qed.

(** What the closures do record: the captured variable. *)
Lemma status_let_resolve {T} (v : T) cp : status_let (resolve v cp) = resolved.
Proof. reflexivity. Qed.

Lemma status_let_reject {T} e (cp : ControllablePromise T) :
  status_let (reject e cp) = rejected.
Proof. reflexivity. Qed.

(** The promise keeps its first settlement. *)
Lemma promise_settled_call {T} (c : Call T) cp :
  settled (promise cp) = true -> promise (call c cp) = promise cp.
Proof. destruct c, cp as [[| |] ? ?]; simpl; intros; congruence. Qed.

End ControllablePromiseFacts.

(* ===================================================================== *)
(** * Facts about message-generator.ts *)
(* ===================================================================== *)

Module MessageGeneratorFacts.
Import ControllablePromise MessageGenerator MessageGeneratorProps.

Lemma run_app ls1 ls2 s : run (ls1 ++ ls2) s = run ls2 (run ls1 s).
Proof. apply fold_left_app. Qed.

Lemma run_snoc ls l s : run (ls ++ [l]) s = step l (run ls s).
Proof. rewrite run_app. reflexivity. Qed.

(** Induction over the runs from a given state, last step first. *)
Lemma run_ind (P : State -> Prop) (s0 : State) :
  P s0 ->
  (forall s l, P s -> P (step l s)) ->
  forall ls, P (run ls s0).
Proof.
  intros H0 Hstep ls. induction ls as [|l ls IH] using rev_ind.
  - exact H0.
  - rewrite run_snoc. apply Hstep, IH.
Qed.

Lemma all_pending_assign_fresh s : all_pending s -> all_pending (assign_fresh s).
Proof.
  unfold all_pending; simpl. intros H. apply Forall_app. split; [exact H|].
  constructor; [reflexivity | constructor].
Qed.

Lemma all_pending_on_current f s :
  (forall cp, status (f cp) = status cp) ->
  all_pending s -> all_pending (on_current f s).
Proof.
  unfold all_pending; simpl. intros Hf H.
  apply Forall_alter; [exact H|]. intros cp _ Hcp. rewrite Hf. exact Hcp.
Qed.

Lemma all_pending_current_status s : all_pending s -> current_status s = pending.
Proof.
  unfold all_pending, current_status. intros H.
  destruct (slots s !! sendMessagePromise s) as [cp|] eqn:E; [|reflexivity].
  rewrite Forall_forall in H. apply H.
  eapply list_elem_of_lookup_2. exact E.
Qed.

Lemma all_pending_setNextMessage m s :
  all_pending s -> all_pending (setNextMessage m s).
Proof.
  intros H. unfold setNextMessage.
  destruct (isTerminated s); [exact H|].
  apply all_pending_on_current; [reflexivity|].
  destruct (negb _); [apply all_pending_assign_fresh|]; exact H.
Qed.

Lemma all_pending_terminate s : all_pending s -> all_pending (terminate s).
Proof.
  intros H. unfold terminate.
  destruct (Status_eqb _ _); [|exact H].
  apply all_pending_on_current; [reflexivity | exact H].
Qed.

Lemma all_pending_step l s : all_pending s -> all_pending (step l s).
Proof.
  intros H. destruct l; simpl.
  - apply all_pending_setNextMessage, H.
  - exact H.
  - apply all_pending_terminate, H.
  - destruct (generator s); try exact H.
    apply (all_pending_assign_fresh s H).
  - destruct (generator s); exact H.
  - destruct (generator s) as [|slot| | | | |]; try exact H.
    destruct (promise <$> slots s !! slot) as [[|m|e]|]; try exact H.
    + unfold after_await; simpl. destruct (isTerminated s); [exact H|].
      destruct (onNewUserMessageResolved (hooks s)); [exact H|].
      apply (all_pending_assign_fresh s H).
    + unfold catch_block; simpl. destruct (onError (hooks s)); [exact H|].
      unfold after_onError; simpl. destruct (isTerminated s); [exact H|].
      apply (all_pending_assign_fresh s H).
  - destruct (generator s), failure; try exact H.
    + unfold catch_block. destruct (onError (hooks s)); [exact H|].
      unfold after_onError. destruct (isTerminated s); [exact H|].
      apply (all_pending_assign_fresh s H).
    + apply (all_pending_assign_fresh s H).
    + unfold after_onError. destruct (isTerminated s); [exact H|].
      apply (all_pending_assign_fresh s H).
Qed.

Lemma all_pending_run ls : all_pending (run ls createMessageGenerator).
Proof.
  apply run_ind.
  - repeat constructor.
  - intros s l. apply all_pending_step.
Qed.

(** With that, the guarded assignment of [setNextMessage] never runs. *)
Lemma setNextMessage_all_pending m s :
  all_pending s -> isTerminated s = false ->
  setNextMessage m s = on_current (resolve m) s.
Proof.
  intros H Ht. unfold setNextMessage. rewrite Ht.
  rewrite (all_pending_current_status s H). reflexivity.
Qed.

(** The assignment guarded by the test needs a [status] that no slot a
    run creates ever has. *)
Lemma setNextMessage_replaces_on_status m s :
  isTerminated s = false ->
  current_status s <> pending ->
  sendMessagePromise (setNextMessage m s) = length (slots s)
  /\ slots (setNextMessage m s) !! length (slots s)
     = Some (resolve m controllablePromise).
Proof.
  intros Ht Hs. unfold setNextMessage. rewrite Ht.
  destruct (Status_eqb (current_status s) pending) eqn:E.
  - exfalso. apply Hs. destruct (current_status s); try discriminate E. reflexivity.
  - simpl. split; [reflexivity|].
    rewrite list_lookup_alter.
    rewrite lookup_app_r by lia. rewrite Nat.sub_diag.
    destruct (decide (length (slots s) = length (slots s))); [reflexivity | congruence].
Qed.

(** **** No slot is consumed twice *)

Lemma consumed_once_init : consumed_once createMessageGenerator.
Proof.
  split; simpl; try constructor; unfold yielded_slots; simpl;
    try tauto; try constructor; try lia; tauto.
Qed.

(** A change that keeps the generator where it is, the installed slot
    and the records, and does not shrink the store. *)
Lemma consumed_once_frame s s' :
  length (slots s) <= length (slots s') ->
  sendMessagePromise s' = sendMessagePromise s ->
  consumed s' = consumed s ->
  yielded s' = yielded s ->
  generator s' = generator s ->
  consumed_once s -> consumed_once s'.
Proof.
  intros Hlen Hcur Hcons Hy Hg [H1 H2 H3 H4 H5].
  split; unfold at_suspension, current_unconsumed, yielded_slots in *;
    rewrite ?Hcur, ?Hcons, ?Hy, ?Hg.
  - eapply Forall_impl; [exact H1|]. simpl. intros; lia.
  - exact H2.
  - exact H3.
  - exact H4.
  - destruct (generator s); try exact H5;
      repeat match goal with H : _ /\ _ |- _ => destruct H end;
      repeat split; try assumption; lia.
Qed.

Lemma In_lt_length s slot :
  Forall (fun i => i < length (slots s)) (consumed s) ->
  In slot (consumed s) -> slot < length (slots s).
Proof.
  intros H Hin. rewrite Forall_forall in H. apply H.
  apply list_elem_of_In. exact Hin.
Qed.

Lemma fresh_unconsumed s :
  Forall (fun i => i < length (slots s)) (consumed s) ->
  current_unconsumed (assign_fresh s).
Proof.
  intros H. unfold current_unconsumed; simpl. rewrite length_app; simpl.
  split; [lia|]. intros Hin. apply (In_lt_length s) in Hin; [lia | exact H].
Qed.

Lemma allocated_assign_fresh s :
  Forall (fun i => i < length (slots s)) (consumed s) ->
  Forall (fun i => i < length (slots (assign_fresh s))) (consumed (assign_fresh s)).
Proof.
  intros H. simpl. rewrite length_app; simpl.
  eapply Forall_impl; [exact H|]. simpl. intros; lia.
Qed.

Lemma consumed_once_assign_fresh s :
  consumed_once s -> consumed_once (assign_fresh s).
Proof.
  intros [H1 H2 H3 H4 H5]. split.
  - apply allocated_assign_fresh, H1.
  - exact H2.
  - exact H3.
  - exact H4.
  - pose proof (fresh_unconsumed s H1) as Hf.
    unfold at_suspension in *. change (generator (assign_fresh s)) with (generator s).
    destruct (generator s); try exact Hf; try exact H5.
    destruct H5 as (Ha & Hb & _). split; [|split; [exact Hb | exact Hf]].
    simpl. rewrite length_app; simpl. lia.
Qed.

Lemma consumed_once_setNextMessage m s :
  consumed_once s -> consumed_once (setNextMessage m s).
Proof.
  intros H. unfold setNextMessage. destruct (isTerminated s).
  - eapply consumed_once_frame; [| | | | |exact H]; reflexivity.
  - match goal with |- consumed_once (on_current ?f ?x) =>
      assert (Hx : consumed_once x) end.
    { destruct (negb _); [|exact H].
      apply consumed_once_assign_fresh.
      eapply consumed_once_frame; [| | | | |exact H]; reflexivity. }
    eapply consumed_once_frame; [| | | | |exact Hx]; try reflexivity.
    simpl. rewrite length_alter. lia.
Qed.

Lemma consumed_once_terminate s : consumed_once s -> consumed_once (terminate s).
Proof.
  intros H. unfold terminate. destruct (Status_eqb _ _).
  - eapply consumed_once_frame; [| | | | |exact H]; try reflexivity.
    simpl. rewrite length_alter. lia.
  - eapply consumed_once_frame; [| | | | |exact H]; reflexivity.
Qed.

(** Leaving for a state at which nothing is required. *)
Lemma consumed_once_leave g s :
  match g with AwaitOnError | Returned | Threw _ => True | _ => False end ->
  consumed_once s -> consumed_once (set_generator g s).
Proof.
  intros Hg [H1 H2 H3 H4 H5]. split; try assumption.
  unfold at_suspension; simpl. destruct g; tauto.
Qed.

(** Lines 99-105. *)
Lemma consumed_once_prepare_and_yield slot m s :
  Forall (fun i => i < length (slots s)) (consumed s) ->
  NoDup (consumed s) ->
  (forall i, In i (yielded_slots s) -> In i (consumed s)) ->
  NoDup (yielded_slots s) ->
  In slot (consumed s) -> ~ In slot (yielded_slots s) ->
  consumed_once (prepare_and_yield slot m s).
Proof.
  intros H1 H2 H3 H4 Hin Hnot. split.
  - apply allocated_assign_fresh, H1.
  - exact H2.
  - unfold yielded_slots; simpl. rewrite map_app; simpl. intros i Hi.
    apply in_app_or in Hi. destruct Hi as [Hi|[<-|[]]]; [apply H3, Hi | exact Hin].
  - unfold yielded_slots; simpl. rewrite map_app; simpl.
    apply NoDup_app. repeat split.
    + exact H4.
    + intros i Hi Hi'. apply list_elem_of_In in Hi, Hi'.
      destruct Hi' as [<-|[]]. apply Hnot, Hi.
    + apply NoDup_singleton.
  - unfold at_suspension; simpl. apply (fresh_unconsumed s H1).
Qed.

(** Lines 112-118. *)
Lemma consumed_once_after_onError s :
  Forall (fun i => i < length (slots s)) (consumed s) ->
  NoDup (consumed s) ->
  (forall i, In i (yielded_slots s) -> In i (consumed s)) ->
  NoDup (yielded_slots s) ->
  consumed_once (after_onError s).
Proof.
  intros H1 H2 H3 H4. unfold after_onError. destruct (isTerminated s).
  - split; try assumption. exact I.
  - split.
    + apply allocated_assign_fresh, H1.
    + exact H2.
    + exact H3.
    + exact H4.
    + pose proof (fresh_unconsumed s H1) as Hf.
      unfold at_suspension; simpl. repeat split; try apply Hf.
Qed.

Lemma consumed_once_catch_block e s :
  Forall (fun i => i < length (slots s)) (consumed s) ->
  NoDup (consumed s) ->
  (forall i, In i (yielded_slots s) -> In i (consumed s)) ->
  NoDup (yielded_slots s) ->
  consumed_once (catch_block e s).
Proof.
  intros H1 H2 H3 H4. unfold catch_block. destruct (onError (hooks s)).
  - split; try assumption. exact I.
  - apply consumed_once_after_onError; assumption.
Qed.

Lemma consumed_once_step l s : consumed_once s -> consumed_once (step l s).
Proof.
  intros H. destruct l; simpl.
  - apply consumed_once_setNextMessage, H.
  - eapply consumed_once_frame; [| | | | |exact H]; reflexivity.
  - apply consumed_once_terminate, H.
  - (* next() *)
    destruct (generator s) eqn:Eg; try exact H.
    + pose proof (consumed_once_assign_fresh s H) as [H1 H2 H3 H4 H5].
      split; try assumption.
      unfold at_suspension in *; simpl in *. rewrite Eg in H5.
      repeat split; try apply H5.
    + destruct H as [H1 H2 H3 H4 H5]. split; try assumption.
      unfold at_suspension in *; simpl. rewrite Eg in H5.
      repeat split; try apply H5.
  - (* return() *)
    destruct (generator s); try exact H; apply consumed_once_leave; auto.
  - (* the awaited slot has settled *)
    destruct (generator s) as [|slot| | | | |] eqn:Eg; try exact H.
    destruct (promise <$> slots s !! slot) as [[|m|e]|]; try exact H.
    + destruct H as [H1 H2 H3 H4 H5].
      unfold at_suspension in H5. rewrite Eg in H5. destruct H5 as (Ha & Hb & Hc).
      assert (H1' : Forall (fun i => i < length (slots s)) (slot :: consumed s))
        by (constructor; assumption).
      assert (H2' : NoDup (slot :: consumed s)) by (constructor;
        [rewrite list_elem_of_In; exact Hb | exact H2]).
      assert (H3' : forall i, In i (yielded_slots s) -> In i (slot :: consumed s))
        by (intros i Hi; right; apply H3, Hi).
      assert (Hny : ~ In slot (yielded_slots s))
        by (intros Hi; apply Hb, H3, Hi).
      unfold after_await; simpl. destruct (isTerminated s).
      * split; try assumption. exact I.
      * destruct (onNewUserMessageResolved (hooks s)).
        -- split; try assumption. unfold at_suspension; simpl.
           split; [left; reflexivity | exact Hny].
        -- apply (consumed_once_prepare_and_yield slot m (mark_consumed slot s));
             simpl; try assumption. left; reflexivity.
    + destruct H as [H1 H2 H3 H4 H5].
      unfold at_suspension in H5. rewrite Eg in H5. destruct H5 as (Ha & Hb & Hc).
      apply (consumed_once_catch_block e (mark_consumed slot s)); simpl.
      * constructor; assumption.
      * constructor; [rewrite list_elem_of_In; exact Hb | exact H2].
      * intros i Hi; right; apply H3, Hi.
      * exact H4.
  - (* the awaited hook call ended *)
    destruct H as [H1 H2 H3 H4 H5].
    destruct (generator s) eqn:Eg, failure;
      try (split; assumption).
    + apply consumed_once_catch_block; assumption.
    + unfold at_suspension in H5. rewrite Eg in H5. destruct H5 as [Ha Hb].
      apply consumed_once_prepare_and_yield; assumption.
    + apply consumed_once_leave; [exact I | split; assumption].
    + apply consumed_once_after_onError; assumption.
Qed.

Lemma consumed_once_run ls : consumed_once (run ls createMessageGenerator).
Proof.
  apply run_ind.
  - exact consumed_once_init.
  - intros s l. apply consumed_once_step.
Qed.

(** The step that reaches the [yield] installs a new, pending slot. *)
Lemma enters_yield_fresh l s slot m :
  generator (step l s) = AtYield slot m ->
  generator s <> generator (step l s) ->
  sendMessagePromise (step l s) = length (slots s)
  /\ slots (step l s) !! sendMessagePromise (step l s) = Some controllablePromise.
Proof.
  destruct l; simpl.
  - unfold setNextMessage. intros Hg Hne. exfalso. apply Hne.
    destruct (isTerminated s); [reflexivity|]. destruct (negb _); reflexivity.
  - intros _ Hne. exfalso. apply Hne. reflexivity.
  - unfold terminate. intros _ Hne. exfalso. apply Hne.
    destruct (Status_eqb _ _); reflexivity.
  - destruct (generator s) eqn:Eg; simpl; rewrite ?Eg; try congruence.
  - destruct (generator s) eqn:Eg; simpl; rewrite ?Eg; try congruence.
  - destruct (generator s) as [|i| | | | |] eqn:Eg; simpl; rewrite ?Eg; try congruence.
    destruct (promise <$> slots s !! i) as [[|v|e]|]; rewrite ?Eg; try congruence.
    + unfold after_await; simpl. destruct (isTerminated s); simpl; try congruence.
      destruct (onNewUserMessageResolved (hooks s)); simpl; try congruence.
      intros _ _. simpl. split; [reflexivity|].
      rewrite lookup_app_r by (simpl; lia). rewrite Nat.sub_diag. reflexivity.
    + unfold catch_block, after_onError; simpl.
      destruct (onError (hooks s)); simpl; try congruence.
      destruct (isTerminated s); simpl; congruence.
  - destruct (generator s) eqn:Eg, failure; simpl; rewrite ?Eg; try congruence.
    + unfold catch_block, after_onError; simpl.
      destruct (onError (hooks s)); simpl; try congruence.
      destruct (isTerminated s); simpl; congruence.
    + intros _ _. simpl. split; [reflexivity|].
      rewrite lookup_app_r by (simpl; lia). rewrite Nat.sub_diag. reflexivity.
    + unfold after_onError. destruct (isTerminated s); simpl; congruence.
Qed.

End MessageGeneratorFacts.

(* ===================================================================== *)
(** * The claims about the controllable promise and the message generator *)
(* ===================================================================== *)

(** C4 (the code at the failing input).  On a slot fresh from
    [controllablePromise()] the [status] property reads ['pending'],
    and it still reads ['pending'] after [resolve(v)], after
    [reject(e)], and after any sequence of such calls, while the promise
    itself is fulfilled: the closures update the captured local
    variable, the property of the returned object is never written. *)
Theorem C4_status_property_stays_pending :
  forall (T : Type) (v : T) (e : Error),
    ControllablePromise.status (@ControllablePromise.controllablePromise T)
      = ControllablePromise.pending
    /\ ControllablePromise.status
         (ControllablePromise.resolve v ControllablePromise.controllablePromise)
       = ControllablePromise.pending
    /\ ControllablePromise.status
         (ControllablePromise.reject e (@ControllablePromise.controllablePromise T))
       = ControllablePromise.pending
    /\ (forall cs : list (ControllablePromise.Call T),
          ControllablePromise.status
            (ControllablePromise.calls cs ControllablePromise.controllablePromise)
          = ControllablePromise.pending)
    /\ ControllablePromise.promise
         (ControllablePromise.resolve v ControllablePromise.controllablePromise)
       = Fulfilled v.
Proof.
  intros T v e. repeat split.
  intros cs. rewrite ControllablePromiseFacts.status_calls. reflexivity.
Qed.

(** C5 (the code at the failing input).  After any run of the
    generator, [setNextMessage] creates no slot and leaves
    [sendMessagePromise] on the slot it was on: its test of
    [sendMessagePromise.status] always reads ['pending'].  In the run
    next(), setNextMessage("a"), setNextMessage("b") the second call
    lands on the slot the first one resolved, which keeps "a"; the
    generator then hands out "a" and suspends on a new, pending slot:
    "b" is in no slot. *)
Theorem C5_setNextMessage_never_replaces_the_slot :
  (forall (ls : list MessageGenerator.Label) (message : string),
     let s := MessageGenerator.run ls MessageGenerator.createMessageGenerator in
     length (MessageGenerator.slots (MessageGenerator.setNextMessage message s))
       = length (MessageGenerator.slots s)
     /\ MessageGenerator.sendMessagePromise (MessageGenerator.setNextMessage message s)
        = MessageGenerator.sendMessagePromise s)
  /\ (let s := MessageGenerator.run
                 [MessageGenerator.IterNext;
                  MessageGenerator.CallSetNextMessage "a";
                  MessageGenerator.CallSetNextMessage "b"]
                 MessageGenerator.createMessageGenerator in
      MessageGenerator.slots s
        = [ControllablePromise.controllablePromise;
           ControllablePromise.mk (Fulfilled "a") ControllablePromise.pending
                                  ControllablePromise.resolved]
      /\ MessageGenerator.sendMessagePromise s = 1
      /\ MessageGenerator.generator s = MessageGenerator.AwaitSlot 1
      /\ MessageGenerator.warnings s = []
      /\ let s' := MessageGenerator.run
                     [MessageGenerator.Resume; MessageGenerator.IterNext;
                      MessageGenerator.Resume] s in
         MessageGenerator.yielded s'
           = [(1, MessageGenerator.mkUserMessage "user" "a")]
         /\ MessageGenerator.generator s' = MessageGenerator.AwaitSlot 2
         /\ MessageGenerator.slots s' !! 2
            = Some ControllablePromise.controllablePromise).
Proof.
  split.
  - intros ls message s.
    pose proof (MessageGeneratorFacts.all_pending_run ls) as Hp. fold s in Hp.
    unfold MessageGenerator.setNextMessage.
    rewrite (MessageGeneratorFacts.all_pending_current_status s Hp).
    destruct (MessageGenerator.isTerminated s); simpl.
    + split; reflexivity.
    + rewrite length_alter. split; reflexivity.
  - vm_compute. repeat split.
Qed.

(** C6, the claim as worded, fails: with an [onNewUserMessageResolved]
    hook attached, the run next(), setNextMessage("a"), resumption of
    the body leaves the body suspended on the hook (line 95) while
    [sendMessagePromise] still is slot 1, the slot just consumed. *)
Lemma C6_hook_suspends_on_the_consumed_slot :
  ~ MessageGeneratorProps.fresh_slot_at_every_suspension.
Proof.
  intros H.
  specialize (H [MessageGenerator.CallSetHooks
                   (MessageGenerator.mkNewHooks (MessageGenerator.Callback 0)
                      MessageGenerator.Absent);
                 MessageGenerator.IterNext;
                 MessageGenerator.CallSetNextMessage "a";
                 MessageGenerator.Resume]).
  apply H; vm_compute; [reflexivity | left; reflexivity].
Qed.

(** C6 as amended.  After every run of the generator: no slot has been
    consumed twice and no two turns handed out came from the same slot;
    a slot the body is suspended on has never been consumed; whenever
    the body is suspended on a slot or at the [yield], the slot
    installed in [sendMessagePromise] has never been consumed; and the
    step that reaches the [yield] installs a slot that is new and
    pending. *)
Theorem C6_fresh_slot_before_slot_await_and_yield :
  forall (ls : list MessageGenerator.Label) (l : MessageGenerator.Label),
    let s := MessageGenerator.run ls MessageGenerator.createMessageGenerator in
    let s' := MessageGenerator.step l s in
    NoDup (MessageGenerator.consumed s)
    /\ NoDup (MessageGeneratorProps.yielded_slots s)
    /\ (forall slot, MessageGenerator.generator s = MessageGenerator.AwaitSlot slot ->
          ~ In slot (MessageGenerator.consumed s))
    /\ (MessageGeneratorProps.awaits_slot_or_yields (MessageGenerator.generator s) = true ->
          MessageGeneratorProps.current_unconsumed s)
    /\ (forall slot message,
          MessageGenerator.generator s' = MessageGenerator.AtYield slot message ->
          MessageGenerator.generator s <> MessageGenerator.generator s' ->
          MessageGenerator.sendMessagePromise s' = length (MessageGenerator.slots s)
          /\ MessageGenerator.slots s' !! MessageGenerator.sendMessagePromise s'
             = Some ControllablePromise.controllablePromise).
Proof.
  intros ls l s s'.
  destruct (MessageGeneratorFacts.consumed_once_run ls) as [H1 H2 H3 H4 H5].
  fold s in H1, H2, H3, H4, H5.
  unfold MessageGeneratorProps.at_suspension in H5.
  split; [exact H2|]. split; [exact H4|]. split; [|split].
  - intros slot Hg. rewrite Hg in H5. apply H5.
  - destruct (MessageGenerator.generator s); simpl; try discriminate;
      intros _; first [exact H5 | exact (proj2 (proj2 H5))].
  - intros slot message Hg Hne.
    eapply MessageGeneratorFacts.enters_yield_fresh; eassumption.
Qed.

Lemma C6_fresh_slot_witness :
  let s := MessageGenerator.run
             [MessageGenerator.IterNext; MessageGenerator.CallSetNextMessage "a"]
             MessageGenerator.createMessageGenerator in
  let s' := MessageGenerator.step MessageGenerator.Resume s in
  MessageGenerator.generator s' = MessageGenerator.AtYield 1 "a"
  /\ MessageGenerator.generator s <> MessageGenerator.generator s'
  /\ MessageGenerator.sendMessagePromise s' = 2
  /\ MessageGenerator.slots s' !! 2 = Some ControllablePromise.controllablePromise.
Proof.
  assert (Hg : MessageGenerator.generator
                 (MessageGenerator.step MessageGenerator.Resume
                    (MessageGenerator.run
                       [MessageGenerator.IterNext; MessageGenerator.CallSetNextMessage "a"]
                       MessageGenerator.createMessageGenerator))
               = MessageGenerator.AtYield 1 "a") by reflexivity.
  assert (Hne : MessageGenerator.generator
                  (MessageGenerator.run
                     [MessageGenerator.IterNext; MessageGenerator.CallSetNextMessage "a"]
                     MessageGenerator.createMessageGenerator)
                <> MessageGenerator.generator
                     (MessageGenerator.step MessageGenerator.Resume
                        (MessageGenerator.run
                           [MessageGenerator.IterNext; MessageGenerator.CallSetNextMessage "a"]
                           MessageGenerator.createMessageGenerator)))
    by (vm_compute; discriminate).
  split; [exact Hg|]. split; [exact Hne|].
  exact (proj2 (proj2 (proj2 (proj2
    (C6_fresh_slot_before_slot_await_and_yield
       [MessageGenerator.IterNext; MessageGenerator.CallSetNextMessage "a"]
       MessageGenerator.Resume)))) 1 "a" Hg Hne).
Defined.

(* ===================================================================== *)
(** * Facts about the transport and the client *)
(* ===================================================================== *)

Module PersistentFacts.
Import Persistent PersistentProps.

Lemma ProcessState_eqb_eq a b : ProcessState_eqb a b = true <-> a = b.
Proof. destruct a, b; simpl; split; intros H; try reflexivity; discriminate. Qed.

Lemma ProcessState_eqb_refl a : ProcessState_eqb a a = true.
Proof. destruct a; reflexivity. Qed.

Lemma ProcessState_eqb_neq a b : ProcessState_eqb a b = false <-> a <> b.
Proof.
  destruct (ProcessState_eqb a b) eqn:E.
  - apply ProcessState_eqb_eq in E. split; [discriminate | contradiction].
  - split; [|reflexivity]. intros _ H. apply ProcessState_eqb_eq in H. congruence.
Qed.

(** **** What the handler of the client leaves alone *)

Lemma resolve_untouched w :
  transport_object (resolveWaitingForResult w) = transport_object w
  /\ generator_object (resolveWaitingForResult w) = generator_object w
  /\ writer (resolveWaitingForResult w) = writer w
  /\ reader (resolveWaitingForResult w) = reader w
  /\ stops (resolveWaitingForResult w) = stops w
  /\ next_call (resolveWaitingForResult w) = next_call w
  /\ emitted (resolveWaitingForResult w) = emitted w
  /\ settled_queries (resolveWaitingForResult w) = settled_queries w
  /\ console_warn (resolveWaitingForResult w) = console_warn w.
Proof. repeat split. Qed.

Lemma handler_outside_client h e w :
  outside_client (call_handler h e w) = outside_client w.
Proof.
  destruct h, e as [s|m|r|sid];
    unfold call_handler, client_handleTransportEvent; try reflexivity.
  - destruct (ProcessState_eqb s paused); reflexivity.
  - destruct (truthy (Some m)); [|reflexivity].
    unfold handleMessage. destruct (is_string _ _); reflexivity.
Qed.

Lemma handlers_outside_client e hs w :
  outside_client (fold_left (fun acc h => call_handler h e acc) hs w)
  = outside_client w.
Proof.
  revert w. induction hs as [|h hs IH]; intros w; simpl; [reflexivity|].
  rewrite IH. apply handler_outside_client.
Qed.

Lemma emit_outside_client e w :
  outside_client (emit e w) = outside_client (record_event e w).
Proof. apply handlers_outside_client. Qed.

Lemma emit_transport e w : transport_object (emit e w) = transport_object w.
Proof. pose proof (emit_outside_client e w) as H. unfold outside_client in H. simpl in H. congruence. Qed.

Lemma emit_generator e w : generator_object (emit e w) = generator_object w.
Proof. pose proof (emit_outside_client e w) as H. unfold outside_client in H. simpl in H. congruence. Qed.

Lemma emit_writer e w : writer (emit e w) = writer w.
Proof. pose proof (emit_outside_client e w) as H. unfold outside_client in H. simpl in H. congruence. Qed.

Lemma emit_reader e w : reader (emit e w) = reader w.
Proof. pose proof (emit_outside_client e w) as H. unfold outside_client in H. simpl in H. congruence. Qed.

Lemma emit_stops e w : stops (emit e w) = stops w.
Proof. pose proof (emit_outside_client e w) as H. unfold outside_client in H. simpl in H. congruence. Qed.

Lemma emit_next_call e w : next_call (emit e w) = next_call w.
Proof. pose proof (emit_outside_client e w) as H. unfold outside_client in H. simpl in H. congruence. Qed.

Lemma emit_emitted e w : emitted (emit e w) = emitted w ++ [e].
Proof. pose proof (emit_outside_client e w) as H. unfold outside_client in H. simpl in H. congruence. Qed.

Lemma emit_settled e w : settled_queries (emit e w) = settled_queries w.
Proof. pose proof (emit_outside_client e w) as H. unfold outside_client in H. simpl in H. congruence. Qed.

Lemma emit_console e w : console_warn (emit e w) = console_warn w.
Proof. pose proof (emit_outside_client e w) as H. unfold outside_client in H. simpl in H. congruence. Qed.

(** With the client as the one subscriber, [emit] is its handler. *)
Lemma emit_subscribed e w :
  eventHandlers (transport_object w) = [handleTransportEvent] ->
  emit e w = client_handleTransportEvent e (record_event e w).
Proof. intros H. unfold emit. rewrite H. reflexivity. Qed.

(** **** [setState] *)

Lemma setState_state s w : state (transport_object (setState s w)) = s.
Proof.
  unfold setState. destruct (ProcessState_eqb _ _) eqn:E.
  - apply ProcessState_eqb_eq in E. exact E.
  - rewrite emit_transport. reflexivity.
Qed.

Lemma setState_transport s w :
  transport_object (setState s w) = set_state s (transport_object w).
Proof.
  unfold setState. destruct (ProcessState_eqb _ _) eqn:E.
  - apply ProcessState_eqb_eq in E. destruct (transport_object w); simpl in *.
    subst. reflexivity.
  - rewrite emit_transport. reflexivity.
Qed.

Lemma setState_emitted s w :
  emitted (setState s w)
  = emitted w ++ (if ProcessState_eqb (state (transport_object w)) s
                  then [] else [Event_state_change s]).
Proof.
  unfold setState. destruct (ProcessState_eqb _ _).
  - rewrite app_nil_r. reflexivity.
  - rewrite emit_emitted. reflexivity.
Qed.

Lemma setState_outside s w :
  generator_object (setState s w) = generator_object w
  /\ writer (setState s w) = writer w
  /\ reader (setState s w) = reader w
  /\ stops (setState s w) = stops w
  /\ next_call (setState s w) = next_call w
  /\ settled_queries (setState s w) = settled_queries w
  /\ console_warn (setState s w) = console_warn w.
Proof.
  unfold setState. destruct (ProcessState_eqb _ _).
  - repeat split.
  - rewrite emit_generator, emit_writer, emit_reader, emit_stops,
      emit_next_call, emit_settled, emit_console. repeat split.
Qed.

(** A state change to anything but ['paused'] does not reach the
    client beyond its console. *)
Lemma setState_client s w :
  s <> paused ->
  eventHandlers (transport_object w) = [handleTransportEvent] ->
  client (setState s w) = client w /\ resumable (setState s w) = resumable w.
Proof.
  intros Hs Hh. unfold setState. destruct (ProcessState_eqb _ _); [split; reflexivity|].
  rewrite emit_subscribed by exact Hh. simpl.
  apply ProcessState_eqb_neq in Hs. rewrite Hs. split; reflexivity.
Qed.

Lemma emit_error_client reason w :
  eventHandlers (transport_object w) = [handleTransportEvent] ->
  client (emit (Event_error reason) w) = client w
  /\ resumable (emit (Event_error reason) w) = resumable w.
Proof. intros Hh. rewrite emit_subscribed by exact Hh. split; reflexivity. Qed.

Lemma setState_generator s w : generator_object (setState s w) = generator_object w.
Proof. apply setState_outside. Qed.
Lemma setState_writer s w : writer (setState s w) = writer w.
Proof. apply setState_outside. Qed.
Lemma setState_reader s w : reader (setState s w) = reader w.
Proof. apply setState_outside. Qed.
Lemma setState_stops s w : stops (setState s w) = stops w.
Proof. apply setState_outside. Qed.
Lemma setState_next_call s w : next_call (setState s w) = next_call w.
Proof. apply setState_outside. Qed.
Lemma setState_settled s w : settled_queries (setState s w) = settled_queries w.
Proof. apply setState_outside. Qed.
Lemma setState_console s w : console_warn (setState s w) = console_warn w.
Proof. apply setState_outside. Qed.

(** Rewriting with what [emit] and [setState] leave alone. *)
Ltac outside :=
  repeat first
    [ rewrite emit_transport | rewrite emit_generator | rewrite emit_writer
    | rewrite emit_reader | rewrite emit_stops | rewrite emit_next_call
    | rewrite emit_settled | rewrite emit_console
    | rewrite setState_transport | rewrite setState_generator
    | rewrite setState_writer | rewrite setState_reader | rewrite setState_stops
    | rewrite setState_next_call | rewrite setState_settled
    | rewrite setState_console ].

(** **** The exit of the subprocess and the end of its output *)

Lemma process_exit_isAlive w :
  isAlive (transport_object (process_exit w)) = isAlive (transport_object w).
Proof.
  unfold process_exit, isAlive; simpl.
  destruct (process (transport_object w)) as [p|]; reflexivity.
Qed.

Lemma exit_and_close_change_nothing JSON_parse w :
  let w' := run JSON_parse [ProcessExit; ReadClose] w in
  state (transport_object w') = state (transport_object w)
  /\ sessionId (transport_object w') = sessionId (transport_object w)
  /\ emitted w' = emitted w
  /\ client w' = client w
  /\ resumable w' = resumable w
  /\ settled_queries w' = settled_queries w
  /\ writer w' = writer w
  /\ generator_object w' = generator_object w
  /\ client_isAlive w' = client_isAlive w.
Proof.
  simpl. unfold reader_close.
  assert (H : client_isAlive (process_exit w) = client_isAlive w).
  { unfold client_isAlive. simpl. destruct (transport (client w)); [|reflexivity].
    apply process_exit_isAlive. }
  destruct (reader (process_exit w)); simpl; repeat split; exact H.
Qed.

Lemma reader_close_not_running w : reader (reader_close w) <> ReaderRunning.
Proof. unfold reader_close. destruct (reader w) eqn:E; simpl; congruence. Qed.

(** **** Without a running reader nothing resolves a waiting query *)

Lemma handler_keeps_waiting h e w :
  match e with
  | Event_state_change s => s <> paused
  | Event_message _ => False
  | _ => True
  end ->
  client (call_handler h e w) = client w
  /\ resumable (call_handler h e w) = resumable w.
Proof.
  destruct h, e as [s|m|r|sid]; simpl; intros H; try (split; reflexivity).
  - apply ProcessState_eqb_neq in H. rewrite H. split; reflexivity.
  - contradiction.
Qed.

Lemma emit_keeps_waiting e w :
  match e with
  | Event_state_change s => s <> paused
  | Event_message _ => False
  | _ => True
  end ->
  client (emit e w) = client w /\ resumable (emit e w) = resumable w.
Proof.
  intros H. unfold emit.
  change (client w) with (client (record_event e w)).
  change (resumable w) with (resumable (record_event e w)).
  generalize (record_event e w) as v.
  induction (eventHandlers (transport_object w)) as [|h hs IH]; intros v; simpl.
  - split; reflexivity.
  - destruct (IH (call_handler h e v)) as [-> ->].
    apply handler_keeps_waiting, H.
Qed.

Lemma setState_keeps_waiting s w :
  s <> paused ->
  client (setState s w) = client w /\ resumable (setState s w) = resumable w.
Proof.
  intros H. unfold setState. destruct (ProcessState_eqb _ _); [split; reflexivity|].
  destruct (emit_keeps_waiting (Event_state_change s)
              (with_transport (set_state s) w) H) as [-> ->].
  split; reflexivity.
Qed.

Lemma setState_client_side s w :
  s <> paused -> client_side (setState s w) = client_side w.
Proof.
  intros H. unfold client_side. rewrite setState_reader.
  destruct (setState_keeps_waiting s w H) as [-> ->]. reflexivity.
Qed.

Lemma emit_error_client_side reason w :
  client_side (emit (Event_error reason) w) = client_side w.
Proof.
  unfold client_side. rewrite emit_reader.
  destruct (emit_keeps_waiting (Event_error reason) w I) as [-> ->]. reflexivity.
Qed.

Lemma terminate_tail_client_side w : client_side (terminate_tail w) = client_side w.
Proof.
  unfold terminate_tail.
  change (client_side (with_transport ?f ?x)) with (client_side x).
  apply setState_client_side. discriminate.
Qed.

Lemma terminate_head_client_side w :
  client_side (fst (terminate_head w)) = client_side w.
Proof.
  unfold terminate_head.
  destruct (_ || _); [reflexivity|].
  match goal with |- context [match ?p with Some _ => _ | None => _ end] =>
    destruct p end; simpl.
  - change (client_side (with_transport ?f ?x)) with (client_side x).
    apply setState_client_side. discriminate.
  - rewrite terminate_tail_client_side.
    change (client_side (with_transport ?f ?x)) with (client_side x).
    apply setState_client_side. discriminate.
Qed.

Lemma checkState_client_side w : client_side (checkState w) = client_side w.
Proof. unfold checkState. destruct (_ || _); reflexivity. Qed.

Lemma writer_catch_client_side reason w :
  client_side (writer_catch reason w) = client_side w.
Proof.
  unfold writer_catch. destruct (aborted _); [reflexivity|].
  change (client_side (set_writer ?v ?x)) with (client_side x).
  rewrite emit_error_client_side. apply setState_client_side. discriminate.
Qed.

Lemma writer_receive_client_side w :
  client_side (writer_receive w) = client_side w.
Proof.
  unfold writer_receive. destruct (writer w); try reflexivity.
  destruct (MessageGenerator.generator (generator_object w)); try reflexivity.
  - destruct (_ || _); [reflexivity|].
    rewrite checkState_client_side.
    change (client_side (with_transport ?f ?x)) with (client_side x).
    apply setState_client_side. discriminate.
  - apply writer_catch_client_side.
Qed.

Lemma writer_timer_client_side w : client_side (writer_timer w) = client_side w.
Proof.
  unfold writer_timer. destruct (writer w); try reflexivity.
  apply checkState_client_side.
Qed.

Lemma terminate_resume_client_side w :
  client_side (terminate_resume w) = client_side w.
Proof.
  unfold terminate_resume. destruct (process_settled _); [|reflexivity].
  destruct (mark_returned _); [|reflexivity].
  change (client_side (set_stops ?v ?x)) with (client_side x).
  apply terminate_tail_client_side.
Qed.

Lemma signal_abort_client_side w : client_side (signal_abort w) = client_side w.
Proof. unfold signal_abort. destruct (signal _); reflexivity. Qed.

(** One step of a world whose reader loop does not run: the loop stays
    as it is and every waiting call keeps waiting. *)
Lemma step_without_reader JSON_parse l w :
  reader w <> ReaderRunning ->
  reader (step JSON_parse l w) = reader w
  /\ forall call, In call (waitingForResult (client w)) ->
                  In call (waitingForResult (client (step JSON_parse l w))).
Proof.
  intros Hr.
  assert (Hsame : forall w', client w' = client w -> reader w' = reader w ->
            reader w' = reader w
            /\ forall call, In call (waitingForResult (client w)) ->
                            In call (waitingForResult (client w'))).
  { intros w' Hc Hrd. rewrite Hc. split; [exact Hrd | tauto]. }
  assert (Hside : forall w', client_side w' = client_side w ->
            reader w' = reader w
            /\ forall call, In call (waitingForResult (client w)) ->
                            In call (waitingForResult (client w'))).
  { intros w' H. unfold client_side in H. injection H as Hc _ Hrd.
    apply Hsame; assumption. }
  destruct l; simpl.
  - (* query() *)
    unfold query_head.
    destruct (negb _ || negb _); [split; [reflexivity | tauto]|].
    destruct (negb (client_isAlive _)); [split; [reflexivity | tauto]|].
    simpl. split; [reflexivity|]. intros call H. apply in_or_app. left. exact H.
  - (* stop() *)
    unfold stop_head.
    set (w1 := if messageGenerator (client w) then _ else w).
    assert (H1 : reader w1 = reader w
                 /\ waitingForResult (client w1) = waitingForResult (client w)).
    { unfold w1. destruct (messageGenerator (client w)); split; reflexivity. }
    destruct H1 as [H1 H2].
    destruct (transport (client w1)).
    + pose proof (terminate_head_client_side w1) as H.
      destruct (terminate_head w1) as [w2 suspended]; simpl in *.
      unfold client_side in H. injection H as Hc _ Hrd.
      rewrite Hc, Hrd, H1, H2. split; [reflexivity | tauto].
    + simpl. rewrite H1, H2. split; [reflexivity | tauto].
  - apply Hsame; unfold query_tail; destruct (existsb _ _); reflexivity.
  - apply Hside, terminate_resume_client_side.
  - unfold stop_resume. destruct (drop_returned _); [|split; [reflexivity | tauto]].
    simpl. split; [reflexivity | tauto].
  - apply Hside. reflexivity.
  - apply Hside, writer_receive_client_side.
  - apply Hside, writer_timer_client_side.
  - unfold reader_line. destruct (reader w) eqn:E;
      try (split; [assumption | tauto]); congruence.
  - unfold reader_close. destruct (reader w) eqn:E;
      try (split; [assumption | tauto]); congruence.
  - unfold reader_failure. destruct (reader w) eqn:E;
      try (split; [assumption | tauto]); congruence.
  - apply Hside. reflexivity.
  - apply Hside, signal_abort_client_side.
Qed.

(** ... and so through every run. *)
Lemma run_without_reader JSON_parse ls w :
  reader w <> ReaderRunning ->
  reader (run JSON_parse ls w) = reader w
  /\ forall call, In call (waitingForResult (client w)) ->
                  In call (waitingForResult (client (run JSON_parse ls w))).
Proof.
  revert w. induction ls as [|l ls IH]; intros w Hr; simpl.
  - split; [reflexivity | tauto].
  - destruct (step_without_reader JSON_parse l w Hr) as [H1 H2].
    destruct (IH (step JSON_parse l w)) as [H3 H4]; [rewrite H1; exact Hr|].
    split; [rewrite H3; exact H1|]. intros call H. apply H4, H2, H.
Qed.

End PersistentFacts.

(* ===================================================================== *)
(** * What holds of every world a session reaches *)
(* ===================================================================== *)

Module ReachableFacts.
Import Persistent PersistentProps PersistentFacts.

#[local] Arguments setState : simpl never.
#[local] Arguments emit : simpl never.
#[local] Arguments is_string : simpl never.
#[local] Arguments truthy : simpl never.
#[local] Arguments get : simpl never.
#[local] Arguments trim : simpl never.
#[local] Arguments stdin_ended : simpl never.
#[local] Arguments MessageGenerator.step : simpl never.
#[local] Arguments MessageGenerator.setNextMessage : simpl never.
#[local] Arguments MessageGenerator.terminate : simpl never.

Ltac outside :=
  repeat first
    [ rewrite emit_transport | rewrite emit_generator | rewrite emit_writer
    | rewrite emit_reader | rewrite emit_stops | rewrite emit_next_call
    | rewrite emit_settled | rewrite emit_console
    | rewrite setState_transport | rewrite setState_generator
    | rewrite setState_writer | rewrite setState_reader | rewrite setState_stops
    | rewrite setState_next_call | rewrite setState_settled
    | rewrite setState_console ].

Ltac outs := repeat (progress (simpl; outside)); simpl.

(** **** The generator of the client never meets a hook *)

Lemma hook_free_step l s :
  (forall h, l <> MessageGenerator.CallSetHooks h) ->
  (forall f, l <> MessageGenerator.HookDone f) ->
  hook_free s -> hook_free (MessageGenerator.step l s).
Proof.
  unfold hook_free. intros Hl Hd [Hh Hg].
  destruct l; try (exfalso; eapply Hl; reflexivity);
    try (exfalso; eapply Hd; reflexivity);
    unfold MessageGenerator.step.
  - unfold MessageGenerator.setNextMessage.
    destruct (MessageGenerator.isTerminated s); [split; assumption|].
    destruct (negb _); split; assumption.
  - unfold MessageGenerator.terminate; simpl.
    destruct (ControllablePromise.Status_eqb _ _); split; assumption.
  - destruct (MessageGenerator.generator s) eqn:Eg; simpl; rewrite ?Eg;
      split; try assumption; try exact I; contradiction.
  - destruct (MessageGenerator.generator s) eqn:Eg; simpl; rewrite ?Eg;
      split; try assumption; try exact I; contradiction.
  - destruct (MessageGenerator.generator s) as [|slot| | | | |] eqn:Eg;
      try (rewrite ?Eg; split; [assumption | exact I || contradiction]).
    destruct (ControllablePromise.promise <$> MessageGenerator.slots s !! slot)
      as [[|m|e]|]; try (rewrite ?Eg; split; [assumption | exact I]).
    + unfold MessageGenerator.after_await; simpl.
      destruct (MessageGenerator.isTerminated s); [split; [assumption | exact I]|].
      rewrite Hh; simpl. split; [assumption | exact I].
    + unfold MessageGenerator.catch_block, MessageGenerator.after_onError; simpl.
      rewrite Hh; simpl.
      destruct (MessageGenerator.isTerminated s); simpl; split; try assumption; exact I.
Qed.

Lemma hook_free_init : hook_free MessageGenerator.createMessageGenerator.
Proof. split; [reflexivity | exact I]. Qed.

(** **** The calls in flight *)

Lemma mark_returned_In calls calls' :
  mark_returned calls = Some calls' ->
  In InTerminate calls' -> In InTerminate calls.
Proof.
  revert calls'. induction calls as [|c calls IH]; intros calls'; simpl; [discriminate|].
  destruct c.
  - intros _ _. left; reflexivity.
  - destruct (mark_returned calls) as [r|]; simpl; [|discriminate].
    intros [= <-] [H|H]; [discriminate|]. right. apply (IH r); [reflexivity | exact H].
Qed.

Lemma drop_returned_In calls calls' :
  drop_returned calls = Some calls' ->
  In InTerminate calls -> In InTerminate calls'.
Proof.
  revert calls'. induction calls as [|c calls IH]; intros calls'; simpl; [discriminate|].
  destruct c.
  - destruct (drop_returned calls) as [r|]; simpl; [|discriminate].
    intros [= <-] _. left; reflexivity.
  - intros [= <-] [H|H]; [discriminate | exact H].
Qed.

(** **** What each block does to the transport object *)

Lemma terminate_tail_transport w :
  transport_object (terminate_tail w)
  = set_process None (set_cleanupAbort false (set_state terminated (transport_object w))).
Proof. unfold terminate_tail; simpl. outside. reflexivity. Qed.

Lemma terminate_head_cases w :
  let t := transport_object w in
  (state t = terminated \/ state t = not_started) /\ terminate_head w = (w, false)
  \/ (state t <> terminated /\ state t <> not_started /\
      exists w', terminate_head w = (w', true)
        /\ state (transport_object w') = terminating
        /\ eventHandlers (transport_object w') = eventHandlers t
        /\ sessionId (transport_object w') = sessionId t
        /\ (exists p, process t = Some p
                      /\ process (transport_object w')
                         = Some (let p1 := end_stdin p in
                                 if negb (killed p1) then kill p1 else p1))
        /\ writer w' = writer w /\ stops w' = stops w
        /\ generator_object w' = generator_object w
        /\ next_call w' = next_call w /\ settled_queries w' = settled_queries w)
  \/ (state t <> terminated /\ state t <> not_started /\ process t = None /\
      exists w', terminate_head w = (w', false)
        /\ transport_object w'
           = set_process None (set_cleanupAbort false (set_state terminated t))
        /\ writer w' = writer w /\ stops w' = stops w
        /\ generator_object w' = generator_object w
        /\ next_call w' = next_call w /\ settled_queries w' = settled_queries w).
Proof.
  intros t. unfold terminate_head. fold t.
  destruct (ProcessState_eqb (state t) terminated) eqn:E1.
  { left. apply ProcessState_eqb_eq in E1. split; [left; exact E1 | reflexivity]. }
  destruct (ProcessState_eqb (state t) not_started) eqn:E2.
  { left. apply ProcessState_eqb_eq in E2. split; [right; exact E2 | reflexivity]. }
  apply ProcessState_eqb_neq in E1, E2. simpl.
  outside. simpl. fold t.
  destruct (process t) as [p|] eqn:Ep; simpl.
  - right; left. split; [exact E1|]. split; [exact E2|].
    eexists. split; [reflexivity|]. simpl. outside. simpl. fold t.
    repeat split. exists p. split; [reflexivity|]. rewrite Ep. reflexivity.
  - right; right. split; [exact E1|]. split; [exact E2|]. split; [reflexivity|].
    eexists. split; [reflexivity|].
    rewrite terminate_tail_transport. unfold terminate_tail. outs.
    fold t. repeat split.
Qed.

(** **** State, writer loop and calls in flight *)

Lemma stdin_ended_write chunk t t' :
  stdin_ended (set_process (option_map (write chunk) (process t)) t') = stdin_ended t.
Proof.
  unfold stdin_ended; simpl. destruct (process t) as [p|]; simpl; [|reflexivity].
  unfold write. destruct (stdin p) as [pipe|] eqn:E; [|rewrite E; reflexivity].
  destruct (ended pipe) eqn:E'; simpl; [rewrite E; exact E' | reflexivity].
Qed.

Lemma stdin_ended_set_state s t : stdin_ended (set_state s t) = stdin_ended t.
Proof. reflexivity. Qed.

Lemma control_checkState w :
  state (transport_object w) <> initializing ->
  (state (transport_object w) = terminating -> In InTerminate (stops w)) ->
  (stdin_ended (transport_object w) = true -> In InTerminate (stops w)) ->
  control_ok (checkState w).
Proof.
  intros H1 H3 H4. unfold checkState.
  destruct (ProcessState_eqb (state (transport_object w)) paused) eqn:E1;
  [|destruct (ProcessState_eqb (state (transport_object w)) ready) eqn:E2]; simpl.
  - apply ProcessState_eqb_eq in E1. repeat split; try assumption.
    intros _. simpl. congruence.
  - apply ProcessState_eqb_eq in E2. repeat split; try assumption.
    intros _. simpl. congruence.
  - repeat split; try assumption. discriminate.
Qed.

Lemma control_writer_receive w : control_ok w -> control_ok (writer_receive w).
Proof.
  intros H. pose proof H as (H1 & H2 & H3 & H4). unfold writer_receive.
  destruct (writer w) eqn:Ew; try exact H.
  destruct (MessageGenerator.generator (generator_object w)); try exact H.
  - destruct (_ || _).
    + repeat split; try assumption. discriminate.
    + apply control_checkState; outs.
      * discriminate.
      * discriminate.
      * rewrite stdin_ended_write. exact H4.
  - repeat split; try assumption. discriminate.
  - unfold writer_catch. destruct (aborted _).
    + repeat split; try assumption. discriminate.
    + repeat split; outs; try discriminate. exact H4.
Qed.

Lemma control_writer_timer w : control_ok w -> control_ok (writer_timer w).
Proof.
  intros H. pose proof H as (H1 & H2 & H3 & H4). unfold writer_timer.
  destruct (writer w) eqn:Ew; try exact H.
  apply control_checkState; assumption.
Qed.

Lemma control_handle_parsed parsed w : control_ok w -> control_ok (handle_parsed parsed w).
Proof.
  intros (H1 & H2 & H3 & H4). unfold handle_parsed.
  set (w1 := if _ && _ && _ then _ else w).
  assert (Hw1 : state (transport_object w1) = state (transport_object w)
                /\ writer w1 = writer w /\ stops w1 = stops w
                /\ stdin_ended (transport_object w1) = stdin_ended (transport_object w)).
  { unfold w1. destruct (_ && _ && _); [|repeat split].
    destruct (get "session_id" parsed); [|repeat split]. outs. repeat split. }
  destruct Hw1 as (E1 & E2 & E3 & E4).
  destruct (is_string "result" (get "type" parsed)).
  - repeat split; outs; rewrite ?E2, ?E3; try discriminate.
    change (stdin_ended (set_state paused (transport_object w1)))
      with (stdin_ended (transport_object w1)). rewrite E4. exact H4.
  - repeat split; outs; rewrite ?E1, ?E2, ?E3, ?E4; assumption.
Qed.

Lemma control_terminate_tail w calls :
  control_ok (set_stops calls (terminate_tail w)).
Proof.
  unfold control_ok.
  change (transport_object (set_stops calls (terminate_tail w)))
    with (transport_object (terminate_tail w)).
  rewrite terminate_tail_transport.
  repeat split; unfold stdin_ended; simpl; discriminate.
Qed.

Lemma control_step JSON_parse l w : control_ok w -> control_ok (step JSON_parse l w).
Proof.
  intros H. pose proof H as (H1 & H2 & H3 & H4). destruct l; simpl.
  - (* query() *)
    unfold query_head. destruct (_ || _); [exact H|].
    destruct (negb (client_isAlive _)); exact H.
  - (* stop() *)
    unfold stop_head.
    set (w1 := if messageGenerator (client w) then _ else w).
    assert (Hw1 : control_ok w1) by (unfold w1; destruct (messageGenerator _); exact H).
    destruct (transport (client w1)); [|exact Hw1].
    destruct Hw1 as (G1 & G2 & G3 & G4).
    destruct (terminate_head_cases w1)
      as [[Hs E]|[(N1 & N2 & w' & E & Es & _ & _ & _ & Ew & Est & _)
                 |(N1 & N2 & Ep & w' & E & Et & Ew & Est & _)]];
      rewrite E; simpl.
    + repeat split; simpl; try assumption.
      * intros Ht. apply in_or_app. left. exact (G3 Ht).
      * intros Ht. apply in_or_app. left. exact (G4 Ht).
    + repeat split; simpl; rewrite ?Es, ?Est; try discriminate;
        intros _; apply in_or_app; right; left; reflexivity.
    + repeat split; simpl; rewrite ?Et, ?Est; simpl; discriminate.
  - unfold query_tail. destruct (existsb _ _); exact H.
  - unfold terminate_resume. destruct (process_settled _); [|exact H].
    destruct (mark_returned _); [|exact H]. apply control_terminate_tail.
  - unfold stop_resume. destruct (drop_returned (stops w)) as [calls|] eqn:E; [|exact H].
    repeat split; simpl; try assumption.
    + intros Ht. eapply drop_returned_In; [exact E | exact (H3 Ht)].
    + intros Ht. eapply drop_returned_In; [exact E | exact (H4 Ht)].
  - exact H.
  - apply control_writer_receive, H.
  - apply control_writer_timer, H.
  - unfold reader_line. destruct (reader w); try exact H.
    destruct (aborted _); [exact H|]. destruct (_ =? _)%string; [exact H|].
    destruct (JSON_parse _) as [[]|]; try exact H; apply control_handle_parsed, H.
  - unfold reader_close. destruct (reader w); exact H.
  - unfold reader_failure. destruct (reader w); try exact H.
    unfold reader_catch. destruct (aborted _); [exact H|].
    repeat split; outs; try discriminate. exact H4.
  - unfold process_exit. repeat split; simpl; try assumption.
    intros Ht. apply H4. revert Ht. unfold stdin_ended; simpl.
    destruct (process (transport_object w)) as [p|]; simpl; [|discriminate].
    destruct (stdin p); tauto.
  - unfold signal_abort. destruct (signal _); [|exact H].
    unfold control_ok; simpl.
    destruct (cleanupAbort (transport_object w)); simpl;
      repeat split; try assumption.
    intros Ht. apply H4. revert Ht. unfold stdin_ended; simpl.
    destruct (process (transport_object w)) as [p|]; simpl; [|discriminate].
    unfold kill. destruct (exited p); simpl; tauto.
Qed.

(** **** The subscription *)

Lemma handle_parsed_eventHandlers parsed w :
  eventHandlers (transport_object (handle_parsed parsed w))
  = eventHandlers (transport_object w).
Proof.
  unfold handle_parsed.
  destruct (_ && _ && _); [destruct (get "session_id" parsed)|];
    destruct (is_string "result" _); outs; reflexivity.
Qed.

Lemma terminate_head_eventHandlers w :
  eventHandlers (transport_object (fst (terminate_head w)))
  = eventHandlers (transport_object w).
Proof.
  destruct (terminate_head_cases w)
    as [[_ E]|[(_ & _ & w' & E & _ & Eh & _)|(_ & _ & _ & w' & E & Et & _)]];
    rewrite E; simpl; [reflexivity | exact Eh | rewrite Et; reflexivity].
Qed.

Lemma checkState_transport w : transport_object (checkState w) = transport_object w.
Proof. unfold checkState. destruct (_ || _); reflexivity. Qed.

Lemma step_eventHandlers JSON_parse l w :
  eventHandlers (transport_object (step JSON_parse l w))
  = eventHandlers (transport_object w).
Proof.
  destruct l; simpl.
  - unfold query_head. destruct (_ || _); [reflexivity|].
    destruct (negb (client_isAlive _)); reflexivity.
  - unfold stop_head.
    set (w1 := if messageGenerator (client w) then _ else w).
    assert (E1 : transport_object w1 = transport_object w)
      by (unfold w1; destruct (messageGenerator _); reflexivity).
    destruct (transport (client w1)); [|simpl; rewrite E1; reflexivity].
    pose proof (terminate_head_eventHandlers w1) as E.
    destruct (terminate_head w1) as [w2 b]; simpl in *. rewrite E, E1. reflexivity.
  - unfold query_tail. destruct (existsb _ _); reflexivity.
  - unfold terminate_resume. destruct (process_settled _); [|reflexivity].
    destruct (mark_returned _); [|reflexivity].
    change (transport_object (set_stops ?c ?x)) with (transport_object x).
    rewrite terminate_tail_transport. reflexivity.
  - unfold stop_resume. destruct (drop_returned _); reflexivity.
  - reflexivity.
  - unfold writer_receive. destruct (writer w); try reflexivity.
    destruct (MessageGenerator.generator _); try reflexivity.
    + destruct (_ || _); [reflexivity|]. rewrite checkState_transport. outs. reflexivity.
    + unfold writer_catch. destruct (aborted _); outs; reflexivity.
  - unfold writer_timer. destruct (writer w); try reflexivity.
    apply (f_equal eventHandlers (checkState_transport w)).
  - unfold reader_line. destruct (reader w); try reflexivity.
    destruct (aborted _); [reflexivity|]. destruct (_ =? _)%string; [reflexivity|].
    destruct (JSON_parse _) as [[]|]; try reflexivity; apply handle_parsed_eventHandlers.
  - unfold reader_close. destruct (reader w); reflexivity.
  - unfold reader_failure. destruct (reader w); try reflexivity.
    unfold reader_catch. destruct (aborted _); outs; reflexivity.
  - reflexivity.
  - unfold signal_abort. destruct (signal _); [|reflexivity]. simpl.
    destruct (cleanupAbort _); reflexivity.
Qed.

(** **** The generator of the client *)

Lemma checkState_hook_free w :
  hook_free (generator_object w) -> hook_free (generator_object (checkState w)).
Proof.
  intros H. unfold checkState. destruct (_ || _); [|exact H]. simpl.
  apply hook_free_step; [discriminate | discriminate | exact H].
Qed.

Lemma terminate_head_generator w :
  generator_object (fst (terminate_head w)) = generator_object w.
Proof.
  destruct (terminate_head_cases w)
    as [[_ E]|[(_ & _ & w' & E & _ & _ & _ & _ & _ & _ & Eg & _)
              |(_ & _ & _ & w' & E & _ & _ & _ & Eg & _)]];
    rewrite E; simpl; [reflexivity | exact Eg | exact Eg].
Qed.

Lemma handle_parsed_generator parsed w :
  generator_object (handle_parsed parsed w) = generator_object w.
Proof.
  unfold handle_parsed.
  destruct (_ && _ && _); [destruct (get "session_id" parsed)|];
    destruct (is_string "result" _); outs; reflexivity.
Qed.

Lemma step_hook_free JSON_parse l w :
  hook_free (generator_object w) ->
  hook_free (generator_object (step JSON_parse l w)).
Proof.
  intros H. destruct l; simpl.
  - unfold query_head. destruct (_ || _); [exact H|].
    destruct (negb (client_isAlive _)); [exact H|]. simpl.
    apply (hook_free_step (MessageGenerator.CallSetNextMessage prompt));
      [discriminate | discriminate | exact H].
  - unfold stop_head.
    set (w1 := if messageGenerator (client w) then _ else w).
    assert (H1 : hook_free (generator_object w1)).
    { unfold w1. destruct (messageGenerator _); [|exact H]. simpl.
      apply (hook_free_step MessageGenerator.CallTerminate);
        [discriminate | discriminate | exact H]. }
    destruct (transport (client w1)); [|exact H1].
    pose proof (terminate_head_generator w1) as E.
    destruct (terminate_head w1) as [w2 b]; simpl in *. rewrite E. exact H1.
  - unfold query_tail. destruct (existsb _ _); exact H.
  - unfold terminate_resume. destruct (process_settled _); [|exact H].
    destruct (mark_returned _); [|exact H]. unfold terminate_tail. outs. exact H.
  - unfold stop_resume. destruct (drop_returned _); exact H.
  - apply hook_free_step; [discriminate | discriminate | exact H].
  - unfold writer_receive. destruct (writer w); try exact H.
    destruct (MessageGenerator.generator _) eqn:Eg; try exact H.
    + destruct (_ || _).
      * simpl. apply hook_free_step; [discriminate | discriminate | exact H].
      * apply checkState_hook_free. outs. exact H.
    + unfold writer_catch. destruct (aborted _); outs; exact H.
  - unfold writer_timer. destruct (writer w); try exact H.
    apply checkState_hook_free, H.
  - unfold reader_line. destruct (reader w); try exact H.
    destruct (aborted _); [exact H|]. destruct (_ =? _)%string; [exact H|].
    destruct (JSON_parse _) as [[]|]; try exact H;
      rewrite handle_parsed_generator; exact H.
  - unfold reader_close. destruct (reader w); exact H.
  - unfold reader_failure. destruct (reader w); try exact H.
    unfold reader_catch. destruct (aborted _); outs; exact H.
  - exact H.
  - unfold signal_abort. destruct (signal _); exact H.
Qed.

(** **** The calls waiting for a result or about to resume *)

Lemma no_new_call_refl w : no_new_call w w.
Proof. split; [reflexivity | tauto]. Qed.

Lemma no_new_call_trans w1 w2 w3 :
  no_new_call w1 w2 -> no_new_call w2 w3 -> no_new_call w1 w3.
Proof. intros [H1 H2] [H3 H4]. split; [congruence | auto]. Qed.

(** A change outside the client and its lists. *)
Lemma no_new_call_same w w' :
  waitingForResult (client w') = waitingForResult (client w) ->
  resumable w' = resumable w -> next_call w' = next_call w ->
  no_new_call w w'.
Proof. intros Hc Hr Hn. split; [exact Hn|]. unfold calls_in. rewrite Hc, Hr. tauto. Qed.

Lemma resolve_no_new_call w : no_new_call w (resolveWaitingForResult w).
Proof.
  split; [reflexivity|]. unfold calls_in; simpl. intros call [[]|H].
  apply in_app_or in H. tauto.
Qed.

Lemma handler_no_new_call h e w : no_new_call w (call_handler h e w).
Proof.
  destruct h, e as [s|m|r|sid]; unfold call_handler, client_handleTransportEvent;
    try apply no_new_call_refl.
  - destruct (ProcessState_eqb s paused);
      [apply resolve_no_new_call | apply no_new_call_refl].
  - destruct (truthy (Some m)); [|apply no_new_call_refl].
    unfold handleMessage. destruct (is_string _ _).
    + eapply no_new_call_trans; [|apply resolve_no_new_call].
      apply no_new_call_same; reflexivity.
    + apply no_new_call_same; reflexivity.
Qed.

Lemma emit_no_new_call e w : no_new_call w (emit e w).
Proof.
  unfold emit.
  assert (H : no_new_call w (record_event e w)) by (apply no_new_call_same; reflexivity).
  revert H. generalize (record_event e w) as v.
  induction (eventHandlers (transport_object w)) as [|h hs IH]; intros v H; simpl.
  - exact H.
  - apply IH. eapply no_new_call_trans; [exact H | apply handler_no_new_call].
Qed.

Lemma setState_no_new_call s w : no_new_call w (setState s w).
Proof.
  unfold setState. destruct (ProcessState_eqb _ _); [apply no_new_call_refl|].
  eapply no_new_call_trans; [|apply emit_no_new_call].
  apply no_new_call_same; reflexivity.
Qed.

Lemma handle_parsed_no_new_call parsed w : no_new_call w (handle_parsed parsed w).
Proof.
  unfold handle_parsed.
  set (w1 := if _ && _ && _ then _ else w).
  assert (H1 : no_new_call w w1).
  { unfold w1. destruct (_ && _ && _); [|apply no_new_call_refl].
    destruct (get "session_id" parsed); [|apply no_new_call_refl].
    eapply no_new_call_trans; [|apply emit_no_new_call].
    apply no_new_call_same; reflexivity. }
  eapply no_new_call_trans; [|apply emit_no_new_call].
  destruct (is_string "result" _); [|exact H1].
  eapply no_new_call_trans; [exact H1 | apply setState_no_new_call].
Qed.

Lemma client_side_no_new_call w w' :
  client_side w' = client_side w -> next_call w' = next_call w -> no_new_call w w'.
Proof.
  unfold client_side. intros [= Hc Hr _] Hn.
  apply no_new_call_same; [rewrite Hc; reflexivity | assumption | assumption].
Qed.

Lemma terminate_tail_next_call w : next_call (terminate_tail w) = next_call w.
Proof. unfold terminate_tail. outs. reflexivity. Qed.

Lemma terminate_head_next_call w : next_call (fst (terminate_head w)) = next_call w.
Proof.
  destruct (terminate_head_cases w)
    as [[_ E]|[(_ & _ & w' & E & _ & _ & _ & _ & _ & _ & _ & En & _)
              |(_ & _ & _ & w' & E & _ & _ & _ & _ & En & _)]];
    rewrite E; simpl; [reflexivity | exact En | exact En].
Qed.

Lemma checkState_next_call w : next_call (checkState w) = next_call w.
Proof. unfold checkState. destruct (_ || _); reflexivity. Qed.

Lemma writer_receive_next_call w : next_call (writer_receive w) = next_call w.
Proof.
  unfold writer_receive. destruct (writer w); try reflexivity.
  destruct (MessageGenerator.generator _); try reflexivity.
  - destruct (_ || _); [reflexivity|]. rewrite checkState_next_call. outs. reflexivity.
  - unfold writer_catch. destruct (aborted _); outs; reflexivity.
Qed.

(** Only [query()] adds a call. *)
Lemma step_no_new_call JSON_parse l w :
  (forall prompt, l <> CallQuery prompt) ->
  no_new_call w (step JSON_parse l w).
Proof.
  intros Hl. destruct l; cbn [step]; try (exfalso; eapply Hl; reflexivity).
  - unfold stop_head.
    set (w1 := if messageGenerator (client w) then _ else w).
    assert (H1 : no_new_call w w1).
    { unfold w1. destruct (messageGenerator _); apply no_new_call_same; reflexivity. }
    destruct (transport (client w1)).
    + pose proof (terminate_head_client_side w1) as Hs.
      pose proof (terminate_head_next_call w1) as Hn.
      destruct (terminate_head w1) as [w2 b]; simpl in *.
      eapply no_new_call_trans; [exact H1|].
      eapply no_new_call_trans; [apply client_side_no_new_call; eassumption|].
      apply no_new_call_same; reflexivity.
    + eapply no_new_call_trans; [exact H1|]. split; [reflexivity|].
      unfold calls_in; simpl. tauto.
  - unfold query_tail. destruct (existsb _ _); [|apply no_new_call_refl].
    split; [reflexivity|]. unfold calls_in; simpl. intros c [H|H]; [tauto|].
    right. apply filter_In in H. tauto.
  - apply client_side_no_new_call; [apply terminate_resume_client_side|].
    unfold terminate_resume. destruct (process_settled _); [|reflexivity].
    destruct (mark_returned _); [|reflexivity]. apply terminate_tail_next_call.
  - unfold stop_resume. destruct (drop_returned _); [|apply no_new_call_refl].
    split; [reflexivity|]. unfold calls_in; simpl. tauto.
  - apply no_new_call_same; reflexivity.
  - apply client_side_no_new_call;
      [apply writer_receive_client_side | apply writer_receive_next_call].
  - apply client_side_no_new_call; [apply writer_timer_client_side|].
    unfold writer_timer. destruct (writer w); try reflexivity. apply checkState_next_call.
  - unfold reader_line. destruct (reader w); try apply no_new_call_refl.
    destruct (aborted _); [apply no_new_call_same; reflexivity|].
    destruct (_ =? _)%string; [apply no_new_call_refl|].
    destruct (JSON_parse _) as [[]|];
      try (apply no_new_call_same; reflexivity); apply handle_parsed_no_new_call.
  - unfold reader_close.
    destruct (reader w); apply no_new_call_same; reflexivity.
  - unfold reader_failure. destruct (reader w); try apply no_new_call_refl.
    unfold reader_catch. destruct (aborted _); [apply no_new_call_same; reflexivity|].
    eapply no_new_call_trans; [apply setState_no_new_call|].
    eapply no_new_call_trans; [apply emit_no_new_call|].
    apply no_new_call_same; reflexivity.
  - apply no_new_call_same; reflexivity.
  - apply client_side_no_new_call; [apply signal_abort_client_side|].
    unfold signal_abort. destruct (signal _); reflexivity.
Qed.

(** A step adds no call but the one [query()] is called for. *)
Lemma step_calls JSON_parse l w :
  next_call w <= next_call (step JSON_parse l w)
  /\ forall call, calls_in (step JSON_parse l w) call ->
        calls_in w call \/ call < next_call (step JSON_parse l w) /\ next_call w <= call.
Proof.
  assert (Hq : (exists prompt, l = CallQuery prompt) \/ forall prompt, l <> CallQuery prompt)
    by (destruct l; try (right; discriminate); left; eexists; reflexivity).
  destruct Hq as [[prompt ->]|Hl].
  - cbn [step]. unfold query_head.
    destruct (_ || _);
      [split; [simpl; lia | unfold calls_in; simpl; tauto]|].
    destruct (negb (client_isAlive _));
      [split; [simpl; lia | unfold calls_in; simpl; tauto]|].
    simpl. split; [lia|]. unfold calls_in; simpl. intros call [H|H]; [|tauto].
    apply in_app_or in H. destruct H as [H|[<-|[]]]; [tauto | right; lia].
  - destruct (step_no_new_call JSON_parse l w Hl) as [Hn Hc].
    split; [lia|]. intros call H. left. apply Hc, H.
Qed.

(** **** Every world a session reaches has the shape *)

Lemma reachable_shape_step JSON_parse l w :
  reachable_shape w -> reachable_shape (step JSON_parse l w).
Proof.
  intros [S1 S2 S3 S4 S5 S6 S7].
  destruct (control_step JSON_parse l w) as (C1 & C2 & C3 & C4);
    [repeat split; assumption|].
  destruct (step_calls JSON_parse l w) as [N1 N2].
  split; try assumption.
  - rewrite step_eventHandlers. exact S1.
  - apply step_hook_free, S6.
  - intros call H. destruct (N2 call H) as [H'|H']; [|lia].
    specialize (S7 call H'). lia.
Qed.

Lemma reachable_shape_session initialPrompt spawn options_signal :
  new_child spawn = true ->
  reachable_shape (session initialPrompt spawn options_signal).
Proof.
  intros Hnew.
  destruct spawn as [|[[[chunks [|]]|] [|] k ex]], options_signal as [sig|],
           initialPrompt as [[|c prompt]|];
    try discriminate Hnew;
    (split;
     [ reflexivity
     | vm_compute; congruence
     | vm_compute; congruence
     | vm_compute; congruence
     | vm_compute; congruence
     | split; [reflexivity | exact I]
     | vm_compute; intros call [[]|[]] ]).
Qed.

Lemma reachable_shape_run JSON_parse ls w :
  reachable_shape w -> reachable_shape (run JSON_parse ls w).
Proof.
  revert w. induction ls as [|l ls IH]; intros w H; simpl; [exact H|].
  apply IH, reachable_shape_step, H.
Qed.

End ReachableFacts.

(* ===================================================================== *)
(** * The writer loop, the reader loop and the calls of the client *)
(* ===================================================================== *)

Module LoopFacts.
Import Persistent PersistentProps PersistentFacts ReachableFacts.

#[local] Arguments setState : simpl never.
#[local] Arguments emit : simpl never.
#[local] Arguments is_string : simpl never.
#[local] Arguments truthy : simpl never.
#[local] Arguments get : simpl never.
#[local] Arguments trim : simpl never.
#[local] Arguments MessageGenerator.step : simpl never.
#[local] Arguments MessageGenerator.setNextMessage : simpl never.
#[local] Arguments MessageGenerator.terminate : simpl never.

Ltac outside :=
  repeat first
    [ rewrite emit_transport | rewrite emit_generator | rewrite emit_writer
    | rewrite emit_reader | rewrite emit_stops | rewrite emit_next_call
    | rewrite emit_settled | rewrite emit_console
    | rewrite setState_transport | rewrite setState_generator
    | rewrite setState_writer | rewrite setState_reader | rewrite setState_stops
    | rewrite setState_next_call | rewrite setState_settled
    | rewrite setState_console ].

Ltac outs := repeat (progress (simpl; outside)); simpl.

(** **** The writer loop *)

(** The loop body on a turn it does not break on. *)
Lemma writer_receive_consumes w slot prompt :
  writer w = WriterAwaitNext ->
  MessageGenerator.generator (generator_object w)
    = MessageGenerator.AtYield slot prompt ->
  isAlive (transport_object w) && has_stdin (transport_object w) = true ->
  transport_object (writer_receive w)
    = set_process (option_map (write (prompt ++ String "010" ""))
                              (process (transport_object w)))
                  (set_state processing (transport_object w))
  /\ writer (writer_receive w) = WriterWaitForPause
  /\ generator_object (writer_receive w) = generator_object w.
Proof.
  intros Hw Hg Ha. unfold writer_receive. rewrite Hw, Hg.
  apply andb_true_iff in Ha. destruct Ha as [Ha Hs]. rewrite Ha, Hs. simpl.
  unfold checkState. outs.
  repeat split.
Qed.

(** The loop body on a turn it breaks on. *)
Lemma writer_receive_drops w slot prompt :
  writer w = WriterAwaitNext ->
  MessageGenerator.generator (generator_object w)
    = MessageGenerator.AtYield slot prompt ->
  isAlive (transport_object w) && has_stdin (transport_object w) = false ->
  transport_object (writer_receive w) = transport_object w
  /\ emitted (writer_receive w) = emitted w
  /\ writer (writer_receive w) = WriterCompleted
  /\ MessageGenerator.generator (generator_object (writer_receive w))
     = MessageGenerator.Returned.
Proof.
  intros Hw Hg Ha. unfold writer_receive. rewrite Hw, Hg.
  assert (E : negb (isAlive (transport_object w))
              || negb (has_stdin (transport_object w)) = true).
  { destruct (isAlive (transport_object w)), (has_stdin (transport_object w));
      try reflexivity; discriminate Ha. }
  rewrite E. simpl. unfold MessageGenerator.step. rewrite Hg.
  repeat split.
Qed.

Lemma stdin_written_write chunk t t' :
  stdin_ended t = false -> has_stdin t = true ->
  stdin_written (set_process (option_map (write chunk) (process t)) t')
  = stdin_written t ++ [chunk].
Proof.
  unfold stdin_ended, has_stdin, stdin_written, write; simpl.
  destruct (process t) as [p|]; simpl; [|discriminate].
  destruct (stdin p) as [pipe|]; simpl; [|discriminate].
  intros -> _. reflexivity.
Qed.

(** Only the loops themselves move the writer loop. *)
Lemma step_writer JSON_parse l w :
  l <> WriterReceive -> l <> WriterTimer ->
  writer (step JSON_parse l w) = writer w.
Proof.
  intros H1 H2. destruct l; try congruence; cbn [step].
  - unfold query_head. destruct (_ || _); [reflexivity|].
    destruct (negb (client_isAlive _)); reflexivity.
  - unfold stop_head.
    set (w1 := if messageGenerator (client w) then _ else w).
    assert (E1 : writer w1 = writer w)
      by (unfold w1; destruct (messageGenerator _); reflexivity).
    destruct (transport (client w1)); [|simpl; exact E1].
    destruct (terminate_head_cases w1)
      as [[_ E]|[(_ & _ & w' & E & _ & _ & _ & _ & Ew & _)
                |(_ & _ & _ & w' & E & _ & Ew & _)]];
      rewrite E; simpl; congruence.
  - unfold query_tail. destruct (existsb _ _); reflexivity.
  - unfold terminate_resume. destruct (process_settled _); [|reflexivity].
    destruct (mark_returned _); [|reflexivity]. unfold terminate_tail. outs. reflexivity.
  - unfold stop_resume. destruct (drop_returned _); reflexivity.
  - reflexivity.
  - unfold reader_line. destruct (reader w); try reflexivity.
    destruct (aborted _); [reflexivity|]. destruct (_ =? _)%string; [reflexivity|].
    destruct (JSON_parse _) as [[]|]; try reflexivity;
      unfold handle_parsed;
      (destruct (_ && _ && _); [destruct (get "session_id" _)|]);
      destruct (is_string "result" _); outs; reflexivity.
  - unfold reader_close. destruct (reader w); reflexivity.
  - unfold reader_failure. destruct (reader w); try reflexivity.
    unfold reader_catch. destruct (aborted _); outs; reflexivity.
  - reflexivity.
  - unfold signal_abort. destruct (signal _); reflexivity.
Qed.

(** The next turn is asked for by a [checkState] timer that finds the
    state ['paused'] or ['ready'], and by nothing else. *)
Lemma leaves_waitForPause JSON_parse l w :
  writer w = WriterWaitForPause ->
  writer (step JSON_parse l w) <> WriterWaitForPause ->
  l = WriterTimer
  /\ (state (transport_object w) = paused \/ state (transport_object w) = ready)
  /\ step JSON_parse l w = request_next w.
Proof.
  intros Hw Hne.
  assert (Hl : l = WriterReceive \/ l = WriterTimer \/
               (l <> WriterReceive /\ l <> WriterTimer))
    by (destruct l; auto; right; right; split; discriminate).
  destruct Hl as [->|[->|[H1 H2]]].
  - exfalso. apply Hne. cbn [step]. unfold writer_receive. rewrite Hw. exact Hw.
  - split; [reflexivity|]. cbn [step] in *. unfold writer_timer in *. rewrite Hw in *.
    unfold checkState in *.
    destruct (ProcessState_eqb (state (transport_object w)) paused) eqn:E1.
    + apply ProcessState_eqb_eq in E1. split; [left; exact E1 | reflexivity].
    + destruct (ProcessState_eqb (state (transport_object w)) ready) eqn:E2.
      * apply ProcessState_eqb_eq in E2. split; [right; exact E2 | reflexivity].
      * exfalso. apply Hne. reflexivity.
  - exfalso. apply Hne. rewrite step_writer by assumption. exact Hw.
Qed.

(** **** The reader loop *)

(** The loop body on a line it gets past the abort test and the
    emptiness test with. *)
Lemma reader_line_running JSON_parse line w :
  reader w = ReaderRunning ->
  aborted (transport_object w) = false ->
  trim line <> "" ->
  reader_line JSON_parse line w
  = match JSON_parse (trim line) with
    | None | Some JNull =>
        console_warning
          ("[PersistentCLITransport] Failed to parse line: " ++ trim line) w
    | Some parsed => handle_parsed parsed w
    end.
Proof.
  intros Hr Ha Ht. unfold reader_line. rewrite Hr, Ha.
  apply String.eqb_neq in Ht. rewrite Ht.
  destruct (JSON_parse (trim line)) as [[]|]; reflexivity.
Qed.

Lemma handle_parsed_emitted parsed w :
  emitted (handle_parsed parsed w)
  = emitted w ++ announced parsed w ++ [Event_message parsed].
Proof.
  unfold handle_parsed, announced.
  destruct (_ && _ && _); [destruct (get "session_id" parsed)|];
    destruct (is_string "result" _); outs;
    rewrite ?emit_emitted, ?setState_emitted; outs;
    rewrite ?emit_emitted; outs;
    try destruct (ProcessState_eqb _ _); simpl;
    rewrite <- ?app_assoc; simpl; rewrite ?app_nil_r; reflexivity.
Qed.

Lemma announced_no_message parsed w :
  Forall (fun e => match e with
                   | Event_message _ | Event_error _ => False
                   | _ => True
                   end) (announced parsed w).
Proof.
  unfold announced. apply Forall_app. split.
  - destruct (_ && _ && _); [destruct (get "session_id" parsed)|];
      repeat constructor.
  - destruct (is_string "result" _); [destruct (ProcessState_eqb _ _)|];
      repeat constructor.
Qed.

Lemma handle_parsed_state parsed w :
  state (transport_object (handle_parsed parsed w))
  = if is_string "result" (get "type" parsed) then paused
    else state (transport_object w).
Proof.
  unfold handle_parsed.
  destruct (_ && _ && _); [destruct (get "session_id" parsed)|];
    destruct (is_string "result" _); outs; reflexivity.
Qed.

Lemma handle_parsed_reader parsed w : reader (handle_parsed parsed w) = reader w.
Proof.
  unfold handle_parsed.
  destruct (_ && _ && _); [destruct (get "session_id" parsed)|];
    destruct (is_string "result" _); outs; reflexivity.
Qed.

Lemma handle_parsed_console parsed w :
  console_warn (handle_parsed parsed w) = console_warn w.
Proof.
  unfold handle_parsed.
  destruct (_ && _ && _); [destruct (get "session_id" parsed)|];
    destruct (is_string "result" _); outs; reflexivity.
Qed.

Lemma handle_parsed_settled parsed w :
  settled_queries (handle_parsed parsed w) = settled_queries w.
Proof.
  unfold handle_parsed.
  destruct (_ && _ && _); [destruct (get "session_id" parsed)|];
    destruct (is_string "result" _); outs; reflexivity.
Qed.

(** **** The buffer of the client grows with the message events *)

Lemma grows_refl w : grows w w.
Proof. split; [reflexivity|]. exists []. simpl. rewrite !app_nil_r. split; reflexivity. Qed.

Lemma grows_trans w1 w2 w3 : grows w1 w2 -> grows w2 w3 -> grows w1 w3.
Proof.
  intros [H1 (e1 & E1 & P1)] [H2 (e2 & E2 & P2)]. split; [congruence|].
  exists (e1 ++ e2). unfold buffer_of in *. rewrite flat_map_app.
  rewrite E2, E1, P2, P1, <- !app_assoc. split; reflexivity.
Qed.

(** A change that emits nothing and keeps the buffer. *)
Lemma grows_same w w' :
  eventHandlers (transport_object w') = eventHandlers (transport_object w) ->
  emitted w' = emitted w ->
  pendingMessages (client w') = pendingMessages (client w) ->
  grows w w'.
Proof.
  intros H1 H2 H3. split; [exact H1|]. exists []. simpl.
  rewrite !app_nil_r. split; assumption.
Qed.

Lemma grows_emit e w :
  eventHandlers (transport_object w) = [handleTransportEvent] ->
  grows w (emit e w).
Proof.
  intros Hh. split; [rewrite emit_transport; reflexivity|].
  exists [e]. split; [apply emit_emitted|].
  rewrite emit_subscribed by exact Hh. unfold buffer_of; simpl. rewrite app_nil_r.
  destruct e as [s|m|r|sid]; simpl; rewrite ?app_nil_r; try reflexivity.
  - destruct (ProcessState_eqb s paused); reflexivity.
  - destruct (truthy (Some m)); [|rewrite app_nil_r; reflexivity].
    unfold handleMessage. destruct (is_string _ _); reflexivity.
Qed.

Lemma grows_setState s w :
  eventHandlers (transport_object w) = [handleTransportEvent] ->
  grows w (setState s w).
Proof.
  intros Hh. unfold setState. destruct (ProcessState_eqb _ _); [apply grows_refl|].
  eapply grows_trans; [|apply grows_emit; exact Hh].
  apply grows_same; reflexivity.
Qed.

Lemma grows_handle_parsed parsed w :
  eventHandlers (transport_object w) = [handleTransportEvent] ->
  grows w (handle_parsed parsed w).
Proof.
  intros Hh. unfold handle_parsed.
  set (w1 := if _ && _ && _ then _ else w).
  assert (H1 : grows w w1).
  { unfold w1. destruct (_ && _ && _); [|apply grows_refl].
    destruct (get "session_id" parsed); [|apply grows_refl].
    eapply grows_trans; [|apply grows_emit; exact Hh].
    apply grows_same; reflexivity. }
  assert (Hh1 : eventHandlers (transport_object w1) = [handleTransportEvent])
    by (rewrite (proj1 H1); exact Hh).
  set (w2 := if is_string "result" _ then _ else w1).
  assert (H2 : grows w1 w2)
    by (unfold w2; destruct (is_string "result" _);
        [apply grows_setState; exact Hh1 | apply grows_refl]).
  eapply grows_trans; [exact H1|]. eapply grows_trans; [exact H2|].
  apply grows_emit. rewrite (proj1 H2). exact Hh1.
Qed.

Lemma is_string_other a b value :
  is_string a value = true -> a <> b -> is_string b value = false.
Proof.
  unfold is_string. destruct value as [[]|]; try discriminate.
  intros Ha Hne. apply String.eqb_eq in Ha. subst. apply String.eqb_neq.
  congruence.
Qed.

Lemma is_string_truthy a parsed :
  is_string a (get "type" parsed) = true -> truthy (Some parsed) = true.
Proof.
  unfold get. destruct parsed; try discriminate. reflexivity.
Qed.

Lemma buffer_of_announced parsed w : buffer_of (announced parsed w) = [].
Proof.
  unfold announced, buffer_of. rewrite flat_map_app.
  destruct (_ && _ && _); [destruct (get "session_id" parsed)|];
    (destruct (is_string "result" _); [destruct (ProcessState_eqb _ _)|]);
    reflexivity.
Qed.

(** What the one subscriber, the client, has in its buffer after a
    parsed value was handled. *)
Lemma handle_parsed_buffer parsed w :
  eventHandlers (transport_object w) = [handleTransportEvent] ->
  pendingMessages (client (handle_parsed parsed w))
  = pendingMessages (client w) ++ buffered (Event_message parsed).
Proof.
  intros Hh. destruct (grows_handle_parsed parsed w Hh) as [_ (events & E & P)].
  rewrite handle_parsed_emitted in E. apply app_inv_head in E. subst events.
  rewrite P. unfold buffer_of. rewrite flat_map_app.
  fold (buffer_of (announced parsed w)). rewrite buffer_of_announced.
  simpl. rewrite app_nil_r. reflexivity.
Qed.


(** **** How calls end *)

Lemma terminate_tail_settled w : settled_queries (terminate_tail w) = settled_queries w.
Proof. unfold terminate_tail. outs. reflexivity. Qed.

Lemma terminate_head_settled w :
  settled_queries (fst (terminate_head w)) = settled_queries w.
Proof.
  destruct (terminate_head_cases w)
    as [[_ E]|[(_ & _ & w' & E & _ & _ & _ & _ & _ & _ & _ & _ & Es)
              |(_ & _ & _ & w' & E & _ & _ & _ & _ & _ & Es)]];
    rewrite E; simpl; [reflexivity | exact Es | exact Es].
Qed.



End LoopFacts.

(* ===================================================================== *)
(** * The claims about the session *)
(* ===================================================================== *)

(** C1, the claim as worded, fails.  In the run query("ping"), the
    generator resumes, the writer writes the prompt, the subprocess
    exits, its output stream ends: the query still waits for its result,
    the state still is ['processing'], no call has ended, [isAlive()]
    is true. *)
Lemma C1_exit_leaves_the_query_waiting :
  (let w := Persistent.run Samples.sample_parse
              [Persistent.CallQuery "ping"; Persistent.GeneratorResume;
               Persistent.WriterReceive; Persistent.ProcessExit;
               Persistent.ReadClose]
              Samples.started in
   Persistent.waitingForResult (Persistent.client w) = [0]
   /\ Persistent.state (Persistent.transport_object w) = Persistent.processing
   /\ Persistent.settled_queries w = []
   /\ Persistent.client_isAlive w = true
   /\ Persistent.emitted w
      = [Persistent.Event_state_change Persistent.initializing;
         Persistent.Event_state_change Persistent.ready;
         Persistent.Event_state_change Persistent.processing])
  /\ ~ PersistentProps.exit_while_pending_is_fatal Samples.sample_parse.
Proof.
  split.
  - vm_compute. repeat split.
  - intros H.
    specialize (H [Persistent.CallQuery "ping"; Persistent.GeneratorResume;
                   Persistent.WriterReceive]).
    destruct H as [H _]; [vm_compute; discriminate|].
    vm_compute in H. discriminate H.
Qed.

(** C1 as amended.  When the subprocess exits and its output stream
    ends while a query waits for its result, nothing in the session
    reacts: the state and the list of emitted events are what they
    were, no call has ended, and whatever happens afterwards (within
    this [start()]: a run has no second [start()]) the query keeps
    waiting: its promise is neither resolved nor rejected.  What
    [isAlive()] returns after the exit is left out. *)
Theorem C1_exit_while_pending_goes_unnoticed :
  forall (JSON_parse : string -> option Persistent.JSON) (w : Persistent.World)
         (later : list Persistent.Label) (call : nat),
    let w' := Persistent.run JSON_parse
                [Persistent.ProcessExit; Persistent.ReadClose] w in
    In call (Persistent.waitingForResult (Persistent.client w)) ->
    Persistent.state (Persistent.transport_object w')
      = Persistent.state (Persistent.transport_object w)
    /\ Persistent.emitted w' = Persistent.emitted w
    /\ Persistent.settled_queries w' = Persistent.settled_queries w
    /\ In call (Persistent.waitingForResult
                  (Persistent.client (Persistent.run JSON_parse later w'))).
Proof.
  intros JSON_parse w later call w' Hcall.
  destruct (PersistentFacts.exit_and_close_change_nothing JSON_parse w)
    as (H1 & _ & H3 & H4 & _ & H6 & _ & _ & H9).
  fold w' in H1, H3, H4, H6, H9.
  repeat split; try assumption.
  apply PersistentFacts.run_without_reader.
  - apply PersistentFacts.reader_close_not_running.
  - rewrite H4. exact Hcall.
Qed.

Lemma C1_exit_while_pending_witness :
  let w := Persistent.run Samples.sample_parse
             [Persistent.CallQuery "ping"; Persistent.GeneratorResume;
              Persistent.WriterReceive] Samples.started in
  let w' := Persistent.run Samples.sample_parse
              [Persistent.ProcessExit; Persistent.ReadClose] w in
  In 0 (Persistent.waitingForResult (Persistent.client w))
  /\ Persistent.state (Persistent.transport_object w')
     = Persistent.state (Persistent.transport_object w)
  /\ Persistent.emitted w' = Persistent.emitted w
  /\ Persistent.settled_queries w' = Persistent.settled_queries w
  /\ In 0 (Persistent.waitingForResult
             (Persistent.client
                (Persistent.run Samples.sample_parse
                   [Persistent.ReadLine Samples.result_line;
                    Persistent.WriterTimer; Persistent.QueryResume 0;
                    Persistent.CallStop; Persistent.TerminateResume;
                    Persistent.StopResume] w'))).
Proof.
  assert (H : In 0 (Persistent.waitingForResult
                      (Persistent.client
                         (Persistent.run Samples.sample_parse
                            [Persistent.CallQuery "ping"; Persistent.GeneratorResume;
                             Persistent.WriterReceive] Samples.started))))
    by (vm_compute; left; reflexivity).
  split; [exact H|].
  exact (C1_exit_while_pending_goes_unnoticed Samples.sample_parse _
           [Persistent.ReadLine Samples.result_line;
            Persistent.WriterTimer; Persistent.QueryResume 0;
            Persistent.CallStop; Persistent.TerminateResume;
            Persistent.StopResume] 0 H).
Defined.

(** C8, the claim as worded, fails.  First run: query("x") is accepted;
    the line stream of the reader throws, which sets the state to
    ['error']; the generator resumes and yields the turn.  The writer
    loop gets the turn, finds [isAlive()] false and leaves the loop by
    [break]: the turn is gone, the state still is ['error'], nothing
    was written.  Second run: the prompt of the query holds a newline;
    the chunk written for it holds two.  Third run: the subprocess
    exits unnoticed, query("x") is accepted, the generator yields the
    turn, and [stop()] is called before the writer loop takes it:
    [terminate()] sets the state to ['terminating'] and ends stdin, and
    its [kill()] does not mark the exited process as killed.  The
    writer loop then finds [isAlive()] true and moves the state from
    ['terminating'] to ['processing']. *)
Lemma C8_turn_dropped_when_not_alive :
  (let w := Persistent.run Samples.sample_parse
              [Persistent.CallQuery "x";
               Persistent.ReadFailure (mkError "Error" "read ECONNRESET");
               Persistent.GeneratorResume]
              Samples.started in
   let w' := Persistent.step Samples.sample_parse Persistent.WriterReceive w in
   Persistent.writer w = Persistent.WriterAwaitNext
   /\ MessageGenerator.generator (Persistent.generator_object w)
      = MessageGenerator.AtYield 1 "x"
   /\ Persistent.stops w = []
   /\ Persistent.isAlive (Persistent.transport_object w) = false
   /\ Persistent.state (Persistent.transport_object w) = Persistent.error
   /\ Persistent.state (Persistent.transport_object w') = Persistent.error
   /\ Persistent.writer w' = Persistent.WriterCompleted
   /\ MessageGenerator.generator (Persistent.generator_object w')
      = MessageGenerator.Returned
   /\ PersistentProps.stdin_written (Persistent.transport_object w') = [])
  /\ (let prompt := ("a" ++ String "010" "b")%string in
      let w := Persistent.run Samples.sample_parse
                 [Persistent.CallQuery prompt; Persistent.GeneratorResume;
                  Persistent.WriterReceive]
                 Samples.started in
      PersistentProps.stdin_written (Persistent.transport_object w)
      = [(prompt ++ String "010" "")%string]
      /\ PersistentProps.newlines (prompt ++ String "010" "")%string = 2)
  /\ (let w := Persistent.run Samples.sample_parse
                 [Persistent.ProcessExit; Persistent.CallQuery "x";
                  Persistent.GeneratorResume; Persistent.CallStop]
                 Samples.started in
      let w' := Persistent.step Samples.sample_parse Persistent.WriterReceive w in
      Persistent.writer w = Persistent.WriterAwaitNext
      /\ MessageGenerator.generator (Persistent.generator_object w)
         = MessageGenerator.AtYield 1 "x"
      /\ Persistent.stops w = [Persistent.InTerminate]
      /\ Persistent.isAlive (Persistent.transport_object w)
         && Persistent.has_stdin (Persistent.transport_object w) = true
      /\ Persistent.state (Persistent.transport_object w) = Persistent.terminating
      /\ Persistent.state (Persistent.transport_object w') = Persistent.processing)
  /\ ~ PersistentProps.every_turn_is_written Samples.sample_parse.
Proof.
  split; [|split; [|split]].
  - vm_compute. repeat split.
  - vm_compute. repeat split.
  - vm_compute. repeat split.
  - intros H.
    specialize (H [Persistent.CallQuery "x";
                   Persistent.ReadFailure (mkError "Error" "read ECONNRESET");
                   Persistent.GeneratorResume] 1 "x").
    vm_compute in H.
    destruct H as [[H|H] _]; try reflexivity; discriminate H.
Qed.

(** C8 as amended.  The writer loop gets a turn from the generator.
    When the transport is not alive, or has no stdin, the loop ends
    with that turn: it leaves by [break], which ends the generator;
    the state is what it was, nothing is written, nothing is emitted.
    When the transport is alive with its stdin and no [stop()] call is
    in flight, the state the loop finds is Ready or Paused; it sets the
    state to Processing and writes the prompt followed by one newline
    to the stdin of the subprocess; it then waits, without asking the
    generator for the next turn.  From that wait the loop moves on only
    through a [checkState] timer that finds the state Paused or Ready,
    and what it does then is ask for the next turn.  A turn taken while
    a [stop()] call is in flight on a transport that still counts as
    alive is left out. *)
Theorem C8_writer_consumes_one_turn_at_a_time :
  forall (JSON_parse : string -> option Persistent.JSON)
         (initialPrompt : option string) (spawn : Persistent.SpawnResult)
         (options_signal : option bool) (ls : list Persistent.Label)
         (slot : nat) (prompt : string),
    let w := Persistent.run JSON_parse ls
               (PersistentProps.session initialPrompt spawn options_signal) in
    let w' := Persistent.step JSON_parse Persistent.WriterReceive w in
    PersistentProps.new_child spawn = true ->
    Persistent.writer w = Persistent.WriterAwaitNext ->
    MessageGenerator.generator (Persistent.generator_object w)
      = MessageGenerator.AtYield slot prompt ->
    (Persistent.isAlive (Persistent.transport_object w)
       && Persistent.has_stdin (Persistent.transport_object w) = false ->
     Persistent.state (Persistent.transport_object w')
       = Persistent.state (Persistent.transport_object w)
     /\ PersistentProps.stdin_written (Persistent.transport_object w')
        = PersistentProps.stdin_written (Persistent.transport_object w)
     /\ Persistent.emitted w' = Persistent.emitted w
     /\ Persistent.writer w' = Persistent.WriterCompleted
     /\ MessageGenerator.generator (Persistent.generator_object w')
        = MessageGenerator.Returned)
    /\ (Persistent.isAlive (Persistent.transport_object w)
          && Persistent.has_stdin (Persistent.transport_object w) = true ->
        Persistent.stops w = [] ->
        (Persistent.state (Persistent.transport_object w) = Persistent.ready
         \/ Persistent.state (Persistent.transport_object w) = Persistent.paused)
        /\ Persistent.state (Persistent.transport_object w') = Persistent.processing
        /\ PersistentProps.stdin_written (Persistent.transport_object w')
           = PersistentProps.stdin_written (Persistent.transport_object w)
             ++ [(prompt ++ String "010" "")%string]
        /\ Persistent.writer w' = Persistent.WriterWaitForPause
        /\ Persistent.generator_object w' = Persistent.generator_object w)
    /\ (forall (v : Persistent.World) (l : Persistent.Label),
          Persistent.writer v = Persistent.WriterWaitForPause ->
          Persistent.writer (Persistent.step JSON_parse l v)
            <> Persistent.WriterWaitForPause ->
          l = Persistent.WriterTimer
          /\ (Persistent.state (Persistent.transport_object v) = Persistent.paused
              \/ Persistent.state (Persistent.transport_object v) = Persistent.ready)
          /\ Persistent.step JSON_parse l v = Persistent.request_next v).
Proof.
  intros JSON_parse initialPrompt spawn options_signal ls slot prompt w w'
         Hnew Hw Hg.
  assert (Hshape : PersistentProps.reachable_shape w)
    by (apply ReachableFacts.reachable_shape_run,
              ReachableFacts.reachable_shape_session, Hnew).
  destruct Hshape as [S1 S2 S3 S4 S5 S6 S7].
  split; [|split].
  - intros Ha. unfold w'. cbn [Persistent.step].
    destruct (LoopFacts.writer_receive_drops w slot prompt Hw Hg Ha)
      as (E1 & E2 & E4 & E5).
    rewrite E1, E2. repeat split; assumption.
  - intros Ha Hstops.
    destruct (LoopFacts.writer_receive_consumes w slot prompt Hw Hg Ha)
      as (Et & Ew & Egen).
    assert (Hstate : Persistent.state (Persistent.transport_object w) = Persistent.ready
                     \/ Persistent.state (Persistent.transport_object w)
                        = Persistent.paused).
    { specialize (S3 Hw). pose proof Ha as Ha'.
      apply andb_true_iff in Ha'. destruct Ha' as [Ha' _].
      unfold Persistent.isAlive in Ha'.
      destruct (Persistent.state (Persistent.transport_object w)) eqn:Es;
        simpl in Ha'; try discriminate; try congruence; auto.
      specialize (S4 eq_refl). rewrite Hstops in S4. destruct S4. }
    split; [exact Hstate|]. split; [|split; [|split]].
    + unfold w'. cbn [Persistent.step]. rewrite Et. reflexivity.
    + unfold w'. cbn [Persistent.step]. rewrite Et.
      apply LoopFacts.stdin_written_write.
      * destruct (PersistentProps.stdin_ended (Persistent.transport_object w)) eqn:E;
          [|reflexivity].
        specialize (S5 eq_refl). rewrite Hstops in S5. destruct S5.
      * apply andb_true_iff in Ha. apply Ha.
    + exact Ew.
    + exact Egen.
  - intros v l. apply LoopFacts.leaves_waitForPause.
Qed.

(** C8 at the two runs: a turn taken on a live transport, and the turn
    of the first run above, dropped. *)
Lemma C8_writer_witness :
  (let w := Persistent.run Samples.sample_parse
              [Persistent.CallQuery "ping"; Persistent.GeneratorResume]
              (PersistentProps.session None
                 (Persistent.Spawned Persistent.running_child) None) in
   let w' := Persistent.step Samples.sample_parse Persistent.WriterReceive w in
   (Persistent.state (Persistent.transport_object w) = Persistent.ready
    \/ Persistent.state (Persistent.transport_object w) = Persistent.paused)
   /\ Persistent.state (Persistent.transport_object w') = Persistent.processing
   /\ PersistentProps.stdin_written (Persistent.transport_object w')
      = [("ping" ++ String "010" "")%string])
  /\ (let w := Persistent.run Samples.sample_parse
                 [Persistent.CallQuery "x";
                  Persistent.ReadFailure (mkError "Error" "read ECONNRESET");
                  Persistent.GeneratorResume]
                 (PersistentProps.session None
                    (Persistent.Spawned Persistent.running_child) None) in
      let w' := Persistent.step Samples.sample_parse Persistent.WriterReceive w in
      Persistent.writer w' = Persistent.WriterCompleted
      /\ PersistentProps.stdin_written (Persistent.transport_object w')
         = PersistentProps.stdin_written (Persistent.transport_object w)).
Proof.
  split.
  - pose proof (C8_writer_consumes_one_turn_at_a_time Samples.sample_parse None
                  (Persistent.Spawned Persistent.running_child) None
                  [Persistent.CallQuery "ping"; Persistent.GeneratorResume] 1 "ping"
                  eq_refl eq_refl eq_refl) as (_ & H2 & _).
    destruct (H2 eq_refl eq_refl) as (H1 & H3 & H4 & _).
    split; [exact H1|]. split; [exact H3 | exact H4].
  - pose proof (C8_writer_consumes_one_turn_at_a_time Samples.sample_parse None
                  (Persistent.Spawned Persistent.running_child) None
                  [Persistent.CallQuery "x";
                   Persistent.ReadFailure (mkError "Error" "read ECONNRESET");
                   Persistent.GeneratorResume] 1 "x"
                  eq_refl eq_refl eq_refl) as (H1 & _).
    destruct (H1 eq_refl) as (_ & H3 & _ & H5 & _).
    split; [exact H5 | exact H3].
Defined.




(** C9, the claim as worded, fails.  The client is started with an
    [AbortSignal]; the signal is aborted; the line stream then hands
    the reader loop a line that parses as a record.  The loop throws
    an [AbortError] at its first statement: the record is forwarded to
    nobody, no event is emitted and the loop has ended.  And without
    any abort: a line of two spaces does not parse, yet nothing is
    logged for it. *)
Lemma C9_line_after_abort_is_not_forwarded :
  (let w := Persistent.run Samples.sample_parse [Persistent.SignalAbort]
              (PersistentProps.session None
                 (Persistent.Spawned Persistent.running_child) (Some false)) in
   let w' := Persistent.step Samples.sample_parse
               (Persistent.ReadLine Samples.content_line) w in
   Persistent.reader w = Persistent.ReaderRunning
   /\ Persistent.trim Samples.content_line <> ""
   /\ Samples.sample_parse (Persistent.trim Samples.content_line)
      = Some Samples.content_record
   /\ Persistent.emitted w' = Persistent.emitted w
   /\ Persistent.pendingMessages (Persistent.client w') = []
   /\ Persistent.reader w' = Persistent.ReaderAborted)
  /\ (let w' := Persistent.step Samples.sample_parse (Persistent.ReadLine "  ")
                  Samples.started in
      Samples.sample_parse "  " = None
      /\ Samples.sample_parse (Persistent.trim "  ") = None
      /\ Persistent.console_warn w' = Persistent.console_warn Samples.started
      /\ w' = Samples.started)
  /\ ~ PersistentProps.every_record_is_forwarded Samples.sample_parse.
Proof.
  split; [|split].
  - vm_compute. repeat split. discriminate.
  - vm_compute. repeat split.
  - intros H.
    assert (Ht : Persistent.trim Samples.content_line <> "")
      by (vm_compute; discriminate).
    destruct (H [Persistent.SignalAbort] (Some false) Samples.content_line _
                eq_refl Ht eq_refl) as [H1 _].
    vm_compute in H1. discriminate H1.
Qed.

(** C9 as amended.  For every line the reader loop gets while it runs.
    With [options.signal] aborted the loop ends with an [AbortError]:
    the line is not looked at, nothing is emitted or logged, the state
    is what it was.  Otherwise: a line that is empty once trimmed
    changes nothing at all.  Any other line leaves the loop running.
    If it parses as a record, a message event carrying the record is
    emitted, whatever the kind of the record, after at most a session
    event and a state change; the subscribed client has the record at
    the end of its buffer; the state is what it was or Paused.  If it
    does not parse, or parses as [null], [console.warn] gets the one
    line ["[PersistentCLITransport] Failed to parse line: "] followed
    by the trimmed line, and that is all that happens: no event, the
    transport with its state and the client are what they were. *)
Theorem C9_parsed_records_forwarded_bad_lines_skipped :
  forall (JSON_parse : string -> option Persistent.JSON) (w : Persistent.World)
         (line : string),
    let w' := Persistent.step JSON_parse (Persistent.ReadLine line) w in
    Persistent.reader w = Persistent.ReaderRunning ->
    (Persistent.aborted (Persistent.transport_object w) = true ->
     Persistent.reader w' = Persistent.ReaderAborted
     /\ Persistent.emitted w' = Persistent.emitted w
     /\ Persistent.console_warn w' = Persistent.console_warn w
     /\ Persistent.transport_object w' = Persistent.transport_object w
     /\ Persistent.client w' = Persistent.client w)
    /\ (Persistent.aborted (Persistent.transport_object w) = false ->
        Persistent.trim line = "" -> w' = w)
    /\ (Persistent.aborted (Persistent.transport_object w) = false ->
        Persistent.trim line <> "" ->
        Persistent.reader w' = Persistent.ReaderRunning
        /\ (forall members,
              JSON_parse (Persistent.trim line) = Some (Persistent.JObject members) ->
              let record := Persistent.JObject members in
              (exists before,
                  Persistent.emitted w'
                    = Persistent.emitted w ++ before ++ [Persistent.Event_message record]
                  /\ Forall (fun e => match e with
                                      | Persistent.Event_message _
                                      | Persistent.Event_error _ => False
                                      | _ => True
                                      end) before)
              /\ (Persistent.eventHandlers (Persistent.transport_object w)
                    = [Persistent.handleTransportEvent] ->
                  Persistent.pendingMessages (Persistent.client w')
                  = Persistent.pendingMessages (Persistent.client w)
                    ++ [Persistent.mkMessage (Persistent.get "type" record) record])
              /\ (Persistent.state (Persistent.transport_object w')
                    = Persistent.state (Persistent.transport_object w)
                  \/ Persistent.state (Persistent.transport_object w')
                     = Persistent.paused)
              /\ Persistent.console_warn w' = Persistent.console_warn w)
        /\ (JSON_parse (Persistent.trim line) = None
            \/ JSON_parse (Persistent.trim line) = Some Persistent.JNull ->
            Persistent.console_warn w'
            = Persistent.console_warn w
              ++ [("[PersistentCLITransport] Failed to parse line: "
                   ++ Persistent.trim line)%string]
            /\ Persistent.emitted w' = Persistent.emitted w
            /\ Persistent.transport_object w' = Persistent.transport_object w
            /\ Persistent.client w' = Persistent.client w
            /\ Persistent.settled_queries w' = Persistent.settled_queries w
            /\ Persistent.writer w' = Persistent.writer w)).
Proof.
  intros JSON_parse w line w' Hr.
  split; [|split].
  - intros Ha. unfold w'. cbn [Persistent.step].
    unfold Persistent.reader_line. rewrite Hr, Ha. repeat split.
  - intros Ha Ht. unfold w'. cbn [Persistent.step].
    unfold Persistent.reader_line. rewrite Hr, Ha, Ht. reflexivity.
  - intros Ha Ht.
    assert (Hw' : w' = match JSON_parse (Persistent.trim line) with
                       | None | Some Persistent.JNull =>
                           Persistent.console_warning
                             ("[PersistentCLITransport] Failed to parse line: "
                              ++ Persistent.trim line) w
                       | Some parsed => Persistent.handle_parsed parsed w
                       end)
      by (unfold w'; cbn [Persistent.step];
          apply LoopFacts.reader_line_running; assumption).
    split; [|split].
    + rewrite Hw'. destruct (JSON_parse (Persistent.trim line)) as [[]|];
        rewrite ?LoopFacts.handle_parsed_reader; exact Hr.
    + intros members Hp record. rewrite Hw', Hp. fold record.
      split; [|split; [|split]].
      * exists (PersistentProps.announced record w).
        split; [apply LoopFacts.handle_parsed_emitted
               | apply LoopFacts.announced_no_message].
      * intros Hh. rewrite (LoopFacts.handle_parsed_buffer record w Hh). reflexivity.
      * rewrite LoopFacts.handle_parsed_state.
        destruct (Persistent.is_string "result" _); [right | left]; reflexivity.
      * apply LoopFacts.handle_parsed_console.
    + intros [Hp|Hp]; rewrite Hw', Hp; repeat split.
Qed.

(** C9 at four lines: a record, a line that does not parse, a line of
    white space only (two spaces, a tab, a NO-BREAK SPACE), and a
    record after the signal was aborted. *)
Lemma C9_reader_witness :
  let w := Persistent.run Samples.sample_parse
             [Persistent.CallQuery "ping"; Persistent.GeneratorResume;
              Persistent.WriterReceive] Samples.started in
  (let w' := Persistent.step Samples.sample_parse
               (Persistent.ReadLine Samples.content_line) w in
   Persistent.reader w' = Persistent.ReaderRunning
   /\ Persistent.pendingMessages (Persistent.client w')
      = [Persistent.mkMessage (Some (Persistent.JString "assistant"))
                              Samples.content_record])
  /\ (let w' := Persistent.step Samples.sample_parse
                  (Persistent.ReadLine Samples.garbage_line) w in
      Persistent.reader w' = Persistent.ReaderRunning
      /\ Persistent.console_warn w'
         = [("[PersistentCLITransport] Failed to parse line: "
             ++ Samples.garbage_line)%string]
      /\ Persistent.emitted w' = Persistent.emitted w
      /\ Persistent.state (Persistent.transport_object w') = Persistent.processing)
  /\ Persistent.step Samples.sample_parse
       (Persistent.ReadLine
          ("  " ++ String "009" (String "194" (String "160" "")))) w = w
  /\ (let v := Persistent.run Samples.sample_parse [Persistent.SignalAbort]
                 (PersistentProps.session None
                    (Persistent.Spawned Persistent.running_child) (Some false)) in
      Persistent.reader
        (Persistent.step Samples.sample_parse
           (Persistent.ReadLine Samples.content_line) v)
      = Persistent.ReaderAborted).
Proof.
  assert (Ht1 : Persistent.trim Samples.content_line <> "") by (vm_compute; discriminate).
  assert (Ht2 : Persistent.trim Samples.garbage_line <> "") by (vm_compute; discriminate).
  split; [|split; [|split]].
  - destruct (C9_parsed_records_forwarded_bad_lines_skipped Samples.sample_parse
                (Persistent.run Samples.sample_parse
                   [Persistent.CallQuery "ping"; Persistent.GeneratorResume;
                    Persistent.WriterReceive] Samples.started)
                Samples.content_line eq_refl) as (_ & _ & H).
    destruct (H eq_refl Ht1) as (H1 & H2 & _).
    split; [exact H1|].
    destruct (H2 _ eq_refl) as (_ & H3 & _). exact (H3 eq_refl).
  - destruct (C9_parsed_records_forwarded_bad_lines_skipped Samples.sample_parse
                (Persistent.run Samples.sample_parse
                   [Persistent.CallQuery "ping"; Persistent.GeneratorResume;
                    Persistent.WriterReceive] Samples.started)
                Samples.garbage_line eq_refl) as (_ & _ & H).
    destruct (H eq_refl Ht2) as (H1 & _ & H3).
    destruct (H3 (or_introl eq_refl)) as (H4 & H5 & H6 & _).
    split; [exact H1|]. split; [exact H4|]. split; [exact H5|].
    rewrite H6. reflexivity.
  - destruct (C9_parsed_records_forwarded_bad_lines_skipped Samples.sample_parse
                (Persistent.run Samples.sample_parse
                   [Persistent.CallQuery "ping"; Persistent.GeneratorResume;
                    Persistent.WriterReceive] Samples.started)
                ("  " ++ String "009" (String "194" (String "160" "")))
                eq_refl) as (_ & H & _).
    exact (H eq_refl eq_refl).
  - destruct (C9_parsed_records_forwarded_bad_lines_skipped Samples.sample_parse
                (Persistent.run Samples.sample_parse [Persistent.SignalAbort]
                   (PersistentProps.session None
                      (Persistent.Spawned Persistent.running_child) (Some false)))
                Samples.content_line eq_refl) as (H & _).
    exact (proj1 (H eq_refl)).
Defined.

(* ===================================================================== *)
(** * A query from its submission to its result *)
(* ===================================================================== *)

Module QueryFacts.
Import Persistent PersistentProps PersistentFacts ReachableFacts LoopFacts.

#[local] Arguments setState : simpl never.
#[local] Arguments emit : simpl never.
#[local] Arguments is_string : simpl never.
#[local] Arguments truthy : simpl never.
#[local] Arguments get : simpl never.
#[local] Arguments trim : simpl never.
#[local] Arguments MessageGenerator.step : simpl never.
#[local] Arguments MessageGenerator.setNextMessage : simpl never.
#[local] Arguments MessageGenerator.terminate : simpl never.

(** **** The buffer through the steps that are not calls of the user *)

Lemma grows_then w w1 w2 :
  grows w w1 ->
  eventHandlers (transport_object w2) = eventHandlers (transport_object w1) ->
  emitted w2 = emitted w1 ->
  pendingMessages (client w2) = pendingMessages (client w1) ->
  grows w w2.
Proof.
  intros H H1 H2 H3. eapply grows_trans; [exact H|]. apply grows_same; assumption.
Qed.

Lemma grows_checkState w : grows w (checkState w).
Proof. unfold checkState. destruct (_ || _); apply grows_same; reflexivity. Qed.

Lemma grows_writer_catch reason w :
  eventHandlers (transport_object w) = [handleTransportEvent] ->
  grows w (writer_catch reason w).
Proof.
  intros Hh. unfold writer_catch. destruct (aborted _); [apply grows_same; reflexivity|].
  pose proof (grows_setState Persistent.error w Hh) as H1.
  assert (H2 : grows (setState Persistent.error w)
                     (emit (Event_error reason) (setState Persistent.error w)))
    by (apply grows_emit; rewrite (proj1 H1); exact Hh).
  eapply grows_then; [eapply grows_trans; [exact H1 | exact H2]| | |]; reflexivity.
Qed.

Lemma grows_terminate_tail w :
  eventHandlers (transport_object w) = [handleTransportEvent] ->
  grows w (terminate_tail w).
Proof.
  intros Hh. unfold terminate_tail.
  eapply grows_then; [apply grows_setState; exact Hh| | |]; reflexivity.
Qed.

Lemma step_grows JSON_parse l w :
  caller_label l = false ->
  eventHandlers (transport_object w) = [handleTransportEvent] ->
  grows w (step JSON_parse l w).
Proof.
  intros Hl Hh. destruct l; try discriminate Hl; cbn [step].
  - unfold query_tail. destruct (existsb _ _); apply grows_same; reflexivity.
  - unfold terminate_resume. destruct (process_settled _); [|apply grows_refl].
    destruct (mark_returned _); [|apply grows_refl].
    eapply grows_then; [apply grows_terminate_tail; exact Hh| | |]; reflexivity.
  - apply grows_same; reflexivity.
  - unfold writer_receive. destruct (writer w); try apply grows_refl.
    destruct (MessageGenerator.generator _); try apply grows_refl.
    + destruct (_ || _); [apply grows_same; reflexivity|].
      eapply grows_trans; [|apply grows_checkState].
      eapply grows_then; [apply grows_setState; exact Hh| | |]; reflexivity.
    + apply grows_same; reflexivity.
    + apply grows_writer_catch, Hh.
  - unfold writer_timer. destruct (writer w); try apply grows_refl.
    apply grows_checkState.
  - unfold reader_line. destruct (reader w); try apply grows_refl.
    destruct (aborted _); [apply grows_same; reflexivity|].
    destruct (_ =? _)%string; [apply grows_refl|].
    destruct (JSON_parse _) as [[]|];
      try (apply grows_same; reflexivity); apply grows_handle_parsed, Hh.
  - unfold reader_close. destruct (reader w); apply grows_same; reflexivity.
  - unfold reader_failure. destruct (reader w); try apply grows_refl.
    unfold reader_catch. destruct (aborted _); [apply grows_same; reflexivity|].
    pose proof (grows_setState Persistent.error w Hh) as H1.
    assert (H2 : grows (setState Persistent.error w)
                       (emit (Event_error reason) (setState Persistent.error w)))
      by (apply grows_emit; rewrite (proj1 H1); exact Hh).
    eapply grows_then; [eapply grows_trans; [exact H1 | exact H2]| | |]; reflexivity.
  - apply grows_same; reflexivity.
  - unfold signal_abort. destruct (signal _); [|apply grows_refl].
    apply grows_same; try reflexivity. simpl. destruct (cleanupAbort _); reflexivity.
Qed.

Lemma run_grows JSON_parse ls w :
  no_caller_label ls = true ->
  eventHandlers (transport_object w) = [handleTransportEvent] ->
  grows w (run JSON_parse ls w).
Proof.
  revert w. induction ls as [|l ls IH]; intros w Hl Hh; simpl; [apply grows_refl|].
  simpl in Hl. apply andb_true_iff in Hl. destruct Hl as [Hl Hls].
  apply negb_true_iff in Hl.
  pose proof (step_grows JSON_parse l w Hl Hh) as H1.
  eapply grows_trans; [exact H1|]. apply IH; [exact Hls|].
  rewrite (proj1 H1). exact Hh.
Qed.

(** **** What resolves a waiting call *)

Lemma handle_parsed_result parsed w :
  eventHandlers (transport_object w) = [handleTransportEvent] ->
  is_string "result" (get "type" parsed) = true ->
  has_result (pendingMessages (client (handle_parsed parsed w))).
Proof.
  intros Hh Hr. rewrite (handle_parsed_buffer parsed w Hh). simpl.
  rewrite (is_string_truthy _ _ Hr).
  exists (mkMessage (get "type" parsed) parsed). split; [|exact Hr].
  apply in_or_app. right. left. reflexivity.
Qed.

Lemma handle_parsed_other parsed w :
  eventHandlers (transport_object w) = [handleTransportEvent] ->
  is_string "result" (get "type" parsed) = false ->
  waitingForResult (client (handle_parsed parsed w)) = waitingForResult (client w)
  /\ resumable (handle_parsed parsed w) = resumable w.
Proof.
  intros Hh Hr. unfold handle_parsed. rewrite Hr.
  set (w1 := if _ && _ && _ then _ else w).
  assert (H1 : eventHandlers (transport_object w1) = [handleTransportEvent]
               /\ client w1 = client w /\ resumable w1 = resumable w).
  { unfold w1. destruct (_ && _ && _); [|repeat split; exact Hh].
    destruct (get "session_id" parsed); [|repeat split; exact Hh].
    rewrite emit_subscribed by exact Hh. simpl. repeat split. exact Hh. }
  destruct H1 as (Hh1 & Hc & Hres).
  rewrite emit_subscribed by exact Hh1. simpl.
  destruct (truthy (Some parsed)); simpl; [|rewrite Hc, Hres; split; reflexivity].
  unfold handleMessage. rewrite Hr. simpl. rewrite Hc, Hres. split; reflexivity.
Qed.

(** A step that is not a call of the user leaves the waiting calls
    waiting and makes none resumable, or leaves a result record in the
    buffer. *)
Lemma step_resolution JSON_parse l w :
  caller_label l = false ->
  eventHandlers (transport_object w) = [handleTransportEvent] ->
  (waitingForResult (client (step JSON_parse l w)) = waitingForResult (client w)
   /\ forall call, In call (resumable (step JSON_parse l w)) -> In call (resumable w))
  \/ has_result (pendingMessages (client (step JSON_parse l w))).
Proof.
  intros Hl Hh.
  assert (Hsame : forall w', client w' = client w -> resumable w' = resumable w ->
            (waitingForResult (client w') = waitingForResult (client w)
             /\ forall call, In call (resumable w') -> In call (resumable w))
            \/ has_result (pendingMessages (client w'))).
  { intros w' Hc Hr. left. rewrite Hc, Hr. split; [reflexivity | tauto]. }
  assert (Hside : forall w', client_side w' = client_side w ->
            (waitingForResult (client w') = waitingForResult (client w)
             /\ forall call, In call (resumable w') -> In call (resumable w))
            \/ has_result (pendingMessages (client w'))).
  { intros w' H. unfold client_side in H. injection H as Hc Hr _.
    apply Hsame; assumption. }
  destruct l; try discriminate Hl; cbn [step].
  - left. unfold query_tail. destruct (existsb _ _); [|split; [reflexivity | tauto]].
    simpl. split; [reflexivity|]. intros c H. apply filter_In in H. tauto.
  - apply Hside, terminate_resume_client_side.
  - apply Hside. reflexivity.
  - apply Hside, writer_receive_client_side.
  - apply Hside, writer_timer_client_side.
  - unfold reader_line. destruct (reader w); try (apply Hside; reflexivity).
    destruct (aborted _); [apply Hsame; reflexivity|].
    destruct (_ =? _)%string; [apply Hside; reflexivity|].
    assert (Hp : forall parsed,
              (waitingForResult (client (handle_parsed parsed w))
                 = waitingForResult (client w)
               /\ forall call, In call (resumable (handle_parsed parsed w)) ->
                               In call (resumable w))
              \/ has_result (pendingMessages (client (handle_parsed parsed w)))).
    { intros parsed. destruct (is_string "result" (get "type" parsed)) eqn:Er.
      - right. apply handle_parsed_result; assumption.
      - left. destruct (handle_parsed_other parsed w Hh Er) as [-> ->].
        split; [reflexivity | tauto]. }
    destruct (JSON_parse _) as [[]|]; try (apply Hside; reflexivity); apply Hp.
  - apply Hsame; unfold reader_close; destruct (reader w); reflexivity.
  - unfold reader_failure. destruct (reader w); try (apply Hside; reflexivity).
    unfold reader_catch. destruct (aborted _); [apply Hsame; reflexivity|].
    pose proof (emit_error_client_side reason (setState Persistent.error w)) as H1.
    rewrite setState_client_side in H1 by discriminate.
    unfold client_side in H1. injection H1 as Hc Hr _.
    apply Hsame; simpl; assumption.
  - apply Hside. reflexivity.
  - apply Hside, signal_abort_client_side.
Qed.

Lemma run_no_new_call JSON_parse ls w :
  no_caller_label ls = true -> no_new_call w (run JSON_parse ls w).
Proof.
  revert w. induction ls as [|l ls IH]; intros w Hl; simpl; [apply no_new_call_refl|].
  simpl in Hl. apply andb_true_iff in Hl. destruct Hl as [Hl Hls].
  eapply no_new_call_trans; [|apply IH, Hls].
  apply step_no_new_call. intros prompt ->. discriminate Hl.
Qed.

(** A call that waits and is not about to resume either still does so
    after the steps that are not calls of the user, or there is a
    result record in the buffer. *)
Lemma run_resolution JSON_parse ls w call :
  no_caller_label ls = true ->
  eventHandlers (transport_object w) = [handleTransportEvent] ->
  In call (waitingForResult (client w)) /\ ~ In call (resumable w)
  \/ has_result (pendingMessages (client w)) ->
  In call (waitingForResult (client (run JSON_parse ls w)))
  /\ ~ In call (resumable (run JSON_parse ls w))
  \/ has_result (pendingMessages (client (run JSON_parse ls w))).
Proof.
  revert w. induction ls as [|l ls IH]; intros w Hl Hh H; simpl; [exact H|].
  simpl in Hl. apply andb_true_iff in Hl. destruct Hl as [Hl Hls].
  apply negb_true_iff in Hl.
  pose proof (step_grows JSON_parse l w Hl Hh) as [Hh' (events & _ & Hp)].
  apply IH; [exact Hls | rewrite Hh'; exact Hh|].
  destruct H as [[Hw Hr]|(m & Hm & Hres)].
  - destruct (step_resolution JSON_parse l w Hl Hh) as [[Ew Er]|Hres]; [|right; exact Hres].
    left. rewrite Ew. split; [exact Hw|]. intros Hin. apply Hr, Er, Hin.
  - right. exists m. split; [|exact Hres]. rewrite Hp. apply in_or_app. left. exact Hm.
Qed.

(** [query()] on a world of the reachable shape: if the new call is
    found waiting or about to resume afterwards, it was submitted, with
    an empty buffer. *)
Lemma query_head_submitted prompt w :
  reachable_shape w ->
  calls_in (query_head prompt w) (next_call w) ->
  pendingMessages (client (query_head prompt w)) = []
  /\ In (next_call w) (waitingForResult (client (query_head prompt w)))
  /\ ~ In (next_call w) (resumable (query_head prompt w))
  /\ eventHandlers (transport_object (query_head prompt w))
     = eventHandlers (transport_object w).
Proof.
  intros Hshape Hin.
  assert (Hfresh : ~ calls_in w (next_call w)).
  { intros H. apply (calls_known w Hshape) in H. lia. }
  unfold query_head in *.
  destruct (_ || _); [exfalso; apply Hfresh; exact Hin|].
  destruct (negb (client_isAlive _)); [exfalso; apply Hfresh; exact Hin|].
  simpl. repeat split.
  - apply in_or_app. right. left. reflexivity.
  - intros H. apply Hfresh. right. exact H.
Qed.

End QueryFacts.

(** C10.  Take any world a session has reached and a [query()] call
    made there, followed by steps none of which is another call of the
    user ([query()], [stop()]), after which the call is about to resume,
    that is, resolved.  Then the buffer was empty right after the
    submission, and the call returns, as [messages], exactly what the
    handler of the client made of the message events emitted since the
    submission, nothing stripped; among them is a result-typed record. *)
Theorem C10_query_returns_the_buffer_with_the_result_record :
  forall (JSON_parse : string -> option Persistent.JSON)
         (initialPrompt : option string) (spawn : Persistent.SpawnResult)
         (options_signal : option bool) (ls env : list Persistent.Label)
         (prompt : string),
    let w := Persistent.run JSON_parse ls
               (PersistentProps.session initialPrompt spawn options_signal) in
    let call := Persistent.next_call w in
    let w1 := Persistent.step JSON_parse (Persistent.CallQuery prompt) w in
    let w2 := Persistent.run JSON_parse env w1 in
    let w3 := Persistent.step JSON_parse (Persistent.QueryResume call) w2 in
    PersistentProps.new_child spawn = true ->
    PersistentProps.no_caller_label env = true ->
    In call (Persistent.resumable w2) ->
    Persistent.pendingMessages (Persistent.client w1) = []
    /\ exists (r : Persistent.PersistentQueryResult)
              (events : list Persistent.PersistentTransportEvent),
         Persistent.settled_queries w3
           = Persistent.settled_queries w2 ++ [(call, Persistent.Resolved r)]
         /\ Persistent.emitted w2 = Persistent.emitted w1 ++ events
         /\ Persistent.messages r = PersistentProps.buffer_of events
         /\ PersistentProps.has_result (Persistent.messages r).
Proof.
  intros JSON_parse initialPrompt spawn options_signal ls env prompt
         w call w1 w2 w3 Hnew Henv Hres.
  assert (Hshape : PersistentProps.reachable_shape w)
    by (apply ReachableFacts.reachable_shape_run,
              ReachableFacts.reachable_shape_session, Hnew).
  pose proof (PersistentProps.subscribed w Hshape) as Hh.
  assert (Hin1 : PersistentProps.calls_in w1 call).
  { apply (QueryFacts.run_no_new_call JSON_parse env w1 Henv). right. exact Hres. }
  destruct (QueryFacts.query_head_submitted prompt w Hshape Hin1)
    as (Hempty & Hwait & Hnot & Hh1).
  change (Persistent.query_head prompt w) with w1 in Hempty, Hwait, Hnot, Hh1.
  fold call in Hwait, Hnot. rewrite Hh in Hh1.
  split; [exact Hempty|].
  destruct (QueryFacts.run_grows JSON_parse env w1 Henv Hh1) as [_ (events & Ee & Ep)].
  fold w2 in Ee, Ep. rewrite Hempty in Ep. simpl in Ep.
  exists (Persistent.mkQueryResult (Persistent.pendingMessages (Persistent.client w2))
                                   (Persistent.getState w2)), events.
  split; [|split; [exact Ee | split; [exact Ep|]]].
  - unfold w3. cbn [Persistent.step]. unfold Persistent.query_tail.
    assert (Hex : existsb (Nat.eqb call) (Persistent.resumable w2) = true).
    { apply existsb_exists. exists call. split; [exact Hres | apply Nat.eqb_refl]. }
    rewrite Hex. reflexivity.
  - simpl.
    destruct (QueryFacts.run_resolution JSON_parse env w1 call Henv Hh1)
      as [[_ Hn]|Hr]; [left; split; assumption | | exact Hr].
    exfalso. apply Hn. exact Hres.
Qed.

Lemma C10_query_witness :
  let env := [Persistent.GeneratorResume; Persistent.WriterReceive;
              Persistent.ReadLine Samples.content_line;
              Persistent.ReadLine Samples.result_line] in
  let w := Persistent.run Samples.sample_parse []
             (PersistentProps.session None (Persistent.Spawned Persistent.running_child) None) in
  let w1 := Persistent.step Samples.sample_parse (Persistent.CallQuery "ping") w in
  let w2 := Persistent.run Samples.sample_parse env w1 in
  let w3 := Persistent.step Samples.sample_parse (Persistent.QueryResume 0) w2 in
  In 0 (Persistent.resumable w2)
  /\ Persistent.pendingMessages (Persistent.client w1) = []
  /\ exists (r : Persistent.PersistentQueryResult)
            (events : list Persistent.PersistentTransportEvent),
       Persistent.settled_queries w3
         = Persistent.settled_queries w2 ++ [(0, Persistent.Resolved r)]
       /\ Persistent.emitted w2 = Persistent.emitted w1 ++ events
       /\ Persistent.messages r = PersistentProps.buffer_of events
       /\ PersistentProps.has_result (Persistent.messages r).
Proof.
  assert (H : In 0 (Persistent.resumable
                      (Persistent.run Samples.sample_parse
                         [Persistent.GeneratorResume; Persistent.WriterReceive;
                          Persistent.ReadLine Samples.content_line;
                          Persistent.ReadLine Samples.result_line]
                         (Persistent.step Samples.sample_parse
                            (Persistent.CallQuery "ping")
                            (Persistent.run Samples.sample_parse []
                               (PersistentProps.session None
                                  (Persistent.Spawned Persistent.running_child) None))))))
    by (vm_compute; left; reflexivity).
  split; [exact H|].
  exact (C10_query_returns_the_buffer_with_the_result_record
           Samples.sample_parse None (Persistent.Spawned Persistent.running_child) None
           [] [Persistent.GeneratorResume; Persistent.WriterReceive;
               Persistent.ReadLine Samples.content_line;
               Persistent.ReadLine Samples.result_line]
           "ping" eq_refl eq_refl H).
Defined.

(* ===================================================================== *)
(** * Starting and stopping *)
(* ===================================================================== *)

Module LifecycleFacts.
Import Persistent PersistentProps PersistentFacts ReachableFacts LoopFacts QueryFacts.

#[local] Arguments setState : simpl never.
#[local] Arguments emit : simpl never.
#[local] Arguments is_string : simpl never.
#[local] Arguments truthy : simpl never.
#[local] Arguments get : simpl never.
#[local] Arguments trim : simpl never.
#[local] Arguments MessageGenerator.step : simpl never.
#[local] Arguments MessageGenerator.setNextMessage : simpl never.
#[local] Arguments MessageGenerator.terminate : simpl never.

(** **** [terminate()] and [stop()] as whole calls *)

Lemma terminate_cases w :
  let t := transport_object w in
  (state t = terminated \/ state t = not_started) /\ fst (terminate w) = w
  \/ state t <> not_started
     /\ state (transport_object (fst (terminate w))) = terminated.
Proof.
  intros t. unfold terminate.
  destruct (terminate_head_cases w)
    as [[Hs E]|[(N1 & N2 & w' & E & _)|(N1 & N2 & _ & w' & E & Et & _)]];
    rewrite E; cbn [fst snd].
  - left. split; [exact Hs | reflexivity].
  - right. split; [exact N2|]. rewrite terminate_tail_transport. reflexivity.
  - right. split; [exact N2|]. rewrite Et. reflexivity.
Qed.

Lemma terminate_resolves w : snd (terminate w) = Resolved tt.
Proof. unfold terminate. destruct (terminate_head w). reflexivity. Qed.

Lemma terminate_early w :
  state (transport_object w) = terminated \/ state (transport_object w) = not_started ->
  terminate w = (w, Resolved tt).
Proof.
  intros H. unfold terminate, terminate_head.
  destruct H as [-> | ->]; reflexivity.
Qed.

Lemma terminate_twice w :
  terminate (fst (terminate w)) = (fst (terminate w), Resolved tt).
Proof.
  destruct (terminate_cases w) as [[Hs E]|[_ Ht]].
  - rewrite E. apply terminate_early, Hs.
  - apply terminate_early. left. exact Ht.
Qed.

Lemma terminate_client w : client (fst (terminate w)) = client w.
Proof.
  unfold terminate.
  pose proof (terminate_head_client_side w) as H.
  destruct (terminate_head w) as [w' [|]]; cbn [fst snd] in *.
  - pose proof (terminate_tail_client_side w') as H'.
    unfold client_side in *. injection H as H _ _. injection H' as H' _ _.
    transitivity (client w'); [|exact H]. exact H'.
  - unfold client_side in H. injection H as H _ _. exact H.
Qed.

Lemma stop_resolves w : snd (stop w) = Resolved tt.
Proof. reflexivity. Qed.

Lemma stop_client w :
  client (fst (stop w))
  = mkClient false false 0 [] (waitingForResult (client w)).
Proof.
  unfold stop. simpl.
  destruct (messageGenerator (client w)) eqn:Eg; simpl;
    destruct (transport (client w)) eqn:Et; simpl;
    rewrite ?terminate_client;
    unfold set_pendingMessages, set_messageCount, set_messageGenerator, set_transport;
    simpl; rewrite ?Eg, ?Et; reflexivity.
Qed.

Lemma stop_stopped v waiting :
  client v = mkClient false false 0 [] waiting -> stop v = (v, Resolved tt).
Proof.
  destruct v as [t g c wr rd st rs nc em sq cw]. simpl. intros ->. reflexivity.
Qed.

Lemma stop_twice w : stop (fst (stop w)) = (fst (stop w), Resolved tt).
Proof. eapply stop_stopped, stop_client. Qed.

Lemma stop_state w :
  transport (client w) = true ->
  state (transport_object w) <> not_started ->
  state (transport_object (fst (stop w))) = terminated.
Proof.
  intros Ht Hs. unfold stop. simpl.
  set (w1 := if messageGenerator (client w) then _ else w).
  assert (E1 : transport (client w1) = true /\ transport_object w1 = transport_object w)
    by (unfold w1; destruct (messageGenerator (client w)); split; simpl; auto).
  destruct E1 as [E1 E2]. rewrite E1. simpl.
  destruct (terminate_cases w1) as [[Hs1 E]|[_ H]]; [|exact H].
  rewrite E, E2. destruct Hs1 as [H|H]; rewrite E2 in H; [exact H | contradiction].
Qed.

(** What the client reports after [stop()]: it has let go of the
    transport, so [getState()] falls back to ['not_started']. *)
Lemma getState_after_stop w :
  processState (getState (fst (stop w))) = not_started
  /\ snapshot_isAlive (getState (fst (stop w))) = false.
Proof.
  unfold getState, client_isAlive. rewrite stop_client. split; reflexivity.
Qed.

(** In the scheduler, the second part of [terminate()] always lands in
    ['terminated']. *)
Lemma terminate_resume_state w calls :
  process_settled (transport_object w) = true ->
  mark_returned (stops w) = Some calls ->
  state (transport_object (terminate_resume w)) = terminated
  /\ process (transport_object (terminate_resume w)) = None.
Proof.
  intros Hp Hm. unfold terminate_resume. rewrite Hp, Hm.
  change (transport_object (set_stops calls (terminate_tail w)))
    with (transport_object (terminate_tail w)).
  rewrite terminate_tail_transport. split; reflexivity.
Qed.

(** **** Waiting for the session *)

Lemma handle_parsed_sessionId parsed w :
  is_string "system" (get "type" parsed)
  && is_string "init" (get "subtype" parsed)
  && truthy (get "session_id" parsed) = false ->
  sessionId (transport_object (handle_parsed parsed w)) = sessionId (transport_object w).
Proof.
  intros H. unfold handle_parsed. rewrite H.
  destruct (is_string "result" _); rewrite ?emit_transport, ?setState_transport;
    reflexivity.
Qed.

Lemma In_grows w w' e : grows w w' -> In e (emitted w) -> In e (emitted w').
Proof. intros [_ (events & -> & _)] H. apply in_or_app. left. exact H. Qed.

Lemma silent_not_caller JSON_parse l : silent_label JSON_parse l = true -> caller_label l = false.
Proof. destruct l; simpl; intros H; try reflexivity; discriminate H. Qed.

Lemma waiting_step JSON_parse l w :
  silent_label JSON_parse l = true ->
  waiting_for_session w -> waiting_for_session (step JSON_parse l w).
Proof.
  intros Hl [W1 W2 W3 [W4 W4'] W5 W6].
  pose proof (step_grows JSON_parse l w (silent_not_caller _ _ Hl) W1) as Hg.
  assert (Hrest : transport (client (step JSON_parse l w)) = true
                  /\ sessionId (transport_object (step JSON_parse l w)) = None
                  /\ state (transport_object (step JSON_parse l w)) <> Persistent.error
                  /\ state (transport_object (step JSON_parse l w)) <> terminated).
  { destruct l; try discriminate Hl; cbn [step].
    - repeat split; assumption.
    - pose proof (writer_receive_client_side w) as Hc.
      unfold client_side in Hc. injection Hc as Hc _ _. rewrite Hc.
      split; [exact W2|].
      unfold writer_receive. destruct (writer w); try (repeat split; assumption).
      destruct W5 as [_ W5].
      destruct (MessageGenerator.generator (generator_object w));
        try (repeat split; assumption); try contradiction.
      destruct (_ || _); [repeat split; assumption|].
      rewrite checkState_transport. simpl. rewrite !setState_transport. simpl.
      repeat split; [exact W3 | discriminate | discriminate].
    - unfold writer_timer. destruct (writer w); try (repeat split; assumption).
      pose proof (checkState_client_side w) as Hc.
      unfold client_side in Hc. injection Hc as Hc _ _. rewrite Hc.
      rewrite checkState_transport. repeat split; assumption.
    - simpl in Hl. apply negb_true_iff in Hl. unfold announces_session in Hl.
      unfold reader_line. destruct (reader w); try (repeat split; assumption).
      destruct (aborted _); [repeat split; assumption|].
      destruct (_ =? _)%string; [repeat split; assumption|].
      assert (Hp : forall parsed, JSON_parse (trim line) = Some parsed ->
                transport (client (handle_parsed parsed w)) = true
                /\ sessionId (transport_object (handle_parsed parsed w)) = None
                /\ state (transport_object (handle_parsed parsed w)) <> Persistent.error
                /\ state (transport_object (handle_parsed parsed w)) <> terminated).
      { intros parsed Hp. rewrite Hp in Hl.
        rewrite handle_parsed_sessionId by exact Hl. rewrite handle_parsed_state.
        split; [|split; [exact W3|]].
        - destruct (is_string "result" (get "type" parsed)) eqn:Er.
          + assert (Hc : transport (client (handle_parsed parsed w)) = transport (client w)).
            { unfold handle_parsed. rewrite Hl, Er.
              rewrite emit_subscribed
                by (rewrite setState_transport; exact W1).
              simpl. destruct (truthy (Some parsed)); simpl.
              - unfold handleMessage. rewrite Er. simpl.
                unfold setState. destruct (ProcessState_eqb _ _); [reflexivity|].
                rewrite emit_subscribed by exact W1. reflexivity.
              - unfold setState. destruct (ProcessState_eqb _ _); [reflexivity|].
                rewrite emit_subscribed by exact W1. reflexivity. }
            rewrite Hc. exact W2.
          + assert (Hc : transport (client (handle_parsed parsed w)) = transport (client w)).
            { unfold handle_parsed. rewrite Hl, Er.
              rewrite emit_subscribed by exact W1.
              simpl. destruct (truthy (Some parsed)); simpl; [|reflexivity].
              unfold handleMessage. rewrite Er. reflexivity. }
            rewrite Hc. exact W2.
        - destruct (is_string "result" _); split; try assumption; discriminate. }
      destruct (JSON_parse (trim line)) as [[]|] eqn:Ep;
        try (repeat split; assumption); apply (Hp _ eq_refl).
    - unfold reader_close. destruct (reader w); repeat split; assumption.
    - repeat split; assumption. }
  destruct Hrest as (R1 & R2 & R3 & R4).
  split; try assumption.
  - rewrite (proj1 Hg). exact W1.
  - split; assumption.
  - apply step_hook_free, W5.
  - eapply In_grows; eassumption.
Qed.

Lemma waiting_run JSON_parse ls w :
  forallb (silent_label JSON_parse) ls = true ->
  waiting_for_session w -> waiting_for_session (run JSON_parse ls w).
Proof.
  revert w. induction ls as [|l ls IH]; intros w Hl H; simpl; [exact H|].
  simpl in Hl. apply andb_true_iff in Hl. destruct Hl as [Hl Hls].
  apply IH; [exact Hls|]. apply waiting_step; assumption.
Qed.

Lemma waiting_checkInit w : waiting_for_session w -> checkInit w = InitRetry.
Proof.
  intros [W1 W2 W3 [W4 W4'] W5 W6]. unfold checkInit. rewrite W2, W3. simpl.
  destruct (state (transport_object w)); try reflexivity; congruence.
Qed.

(** With a silent subprocess every check asks for a retry, and the
    timer ends the wait. *)
Lemma waitForSessionInit_silent JSON_parse checks activity w :
  silent JSON_parse activity = true ->
  waiting_for_session w ->
  snd (waitForSessionInit JSON_parse checks activity w) = Threw initialization_timeout
  /\ waiting_for_session (fst (waitForSessionInit JSON_parse checks activity w)).
Proof.
  revert activity w. induction checks as [|n IH]; intros activity w Ha Hw; simpl.
  - split; [reflexivity | exact Hw].
  - rewrite (waiting_checkInit w Hw). apply IH.
    + destruct activity as [|batch rest]; [reflexivity|].
      simpl in Ha. apply andb_true_iff in Ha. apply Ha.
    + apply waiting_run; [|exact Hw].
      destruct activity as [|batch rest]; [reflexivity|].
      simpl in Ha. apply andb_true_iff in Ha. apply Ha.
Qed.

Lemma waiting_session initialPrompt options_signal :
  start_head initialPrompt (Spawned running_child) (new_client options_signal)
  = (session initialPrompt (Spawned running_child) options_signal, Resolved tt)
  /\ waiting_for_session (session initialPrompt (Spawned running_child) options_signal)
  /\ state (transport_object
              (session initialPrompt (Spawned running_child) options_signal)) = ready.
Proof.
  destruct options_signal as [sig|], initialPrompt as [[|c prompt]|];
    (split; [vm_compute; reflexivity|]);
    (split; [|vm_compute; reflexivity]);
    (split;
     [ vm_compute; reflexivity | vm_compute; reflexivity | vm_compute; reflexivity
     | split; vm_compute; congruence
     | split; [vm_compute; reflexivity | vm_compute; exact I]
     | vm_compute; tauto ]).
Qed.

End LifecycleFacts.

(** C2, the claim as worded, fails.  A subprocess that stays silent
    through the whole window: [start()] is rejected with the timeout
    error, and the state was set to ['ready'], with its event emitted,
    as soon as the process was spawned. *)
Lemma C2_ready_is_observed_before_the_timeout :
  (let result := Persistent.start Samples.sample_parse None
                   (Persistent.Spawned Persistent.running_child)
                   (repeat [] 300) (Persistent.new_client None) in
   snd result = Persistent.Threw PersistentProps.initialization_timeout
   /\ Persistent.emitted (fst result)
      = [Persistent.Event_state_change Persistent.initializing;
         Persistent.Event_state_change Persistent.ready]
   /\ Persistent.state (Persistent.transport_object (fst result)) = Persistent.ready
   /\ Persistent.sessionId (Persistent.transport_object (fst result)) = None)
  /\ ~ PersistentProps.timeout_without_ready Samples.sample_parse.
Proof.
  split.
  - vm_compute. repeat split.
  - intros H. specialize (H (repeat [] 300)).
    destruct H as [_ H]; [vm_compute; reflexivity|].
    apply H. vm_compute. right. left. reflexivity.
Qed.

(** C2 as amended.  If the subprocess, spawned with its pipes, never
    announces a session within the window and its output stream does
    not fail, then [start()] is rejected with the error 'Session
    initialization timeout'; in that run the state is Ready from the
    moment the process is spawned, and the change to Ready is among the
    events emitted. *)
Theorem C2_start_times_out_after_ready :
  forall (JSON_parse : string -> option Persistent.JSON)
         (initialPrompt : option string) (options_signal : option bool)
         (activity : list (list Persistent.Label)),
    let result := Persistent.start JSON_parse initialPrompt
                    (Persistent.Spawned Persistent.running_child) activity
                    (Persistent.new_client options_signal) in
    PersistentProps.silent JSON_parse activity = true ->
    snd result = Persistent.Threw PersistentProps.initialization_timeout
    /\ Persistent.sessionId (Persistent.transport_object (fst result)) = None
    /\ Persistent.state
         (Persistent.transport_object
            (PersistentProps.session initialPrompt
               (Persistent.Spawned Persistent.running_child) options_signal))
       = Persistent.ready
    /\ In (Persistent.Event_state_change Persistent.ready)
          (Persistent.emitted (fst result)).
Proof.
  intros JSON_parse initialPrompt options_signal activity result Hsilent.
  destruct (LifecycleFacts.waiting_session initialPrompt options_signal)
    as (Ehead & Hwait & Hready).
  unfold result, Persistent.start. rewrite Ehead.
  destruct (LifecycleFacts.waitForSessionInit_silent JSON_parse
              (N.to_nat (Persistent.INIT_TIMEOUT_MS / Persistent.CHECK_INTERVAL_MS))
              activity _ Hsilent Hwait) as [Hr Hw].
  split; [exact Hr|].
  split; [apply (PersistentProps.waiting_no_session _ Hw)|].
  split; [exact Hready|].
  apply (PersistentProps.waiting_ready_seen _ Hw).
Qed.

Lemma C2_start_witness :
  let activity := [[Persistent.ReadLine Samples.garbage_line];
                   [Persistent.GeneratorResume; Persistent.WriterReceive];
                   [Persistent.ReadLine Samples.content_line]] in
  let result := Persistent.start Samples.sample_parse (Some "hello")
                  (Persistent.Spawned Persistent.running_child) activity
                  (Persistent.new_client None) in
  PersistentProps.silent Samples.sample_parse activity = true
  /\ snd result = Persistent.Threw PersistentProps.initialization_timeout
  /\ In (Persistent.Event_state_change Persistent.ready)
        (Persistent.emitted (fst result)).
Proof.
  assert (H : PersistentProps.silent Samples.sample_parse
                [[Persistent.ReadLine Samples.garbage_line];
                 [Persistent.GeneratorResume; Persistent.WriterReceive];
                 [Persistent.ReadLine Samples.content_line]] = true)
    by (vm_compute; reflexivity).
  split; [exact H|].
  pose proof (C2_start_times_out_after_ready Samples.sample_parse (Some "hello") None
                _ H) as (H1 & _ & _ & H4).
  split; [exact H1 | exact H4].
Defined.

(* ===================================================================== *)
(** * Which messages the generator hands out *)
(* ===================================================================== *)

Module TurnFacts.
Import ControllablePromise MessageGenerator MessageGeneratorProps.
Import MessageGeneratorFacts TurnProps.

Lemma submitted_app ls1 ls2 : submitted (ls1 ++ ls2) = submitted ls1 ++ submitted ls2.
Proof. unfold submitted. apply flat_map_app. Qed.

Lemma in_flight_held s :
  match generator s with
  | NotStarted | AwaitSlot _ | AtYield _ _ => in_flight s = held s
  | _ => True
  end.
Proof. unfold in_flight, held. destruct (generator s); reflexivity. Qed.

Lemma held_fresh s : held (assign_fresh s) = [].
Proof.
  unfold held; simpl. rewrite lookup_app_r by lia.
  rewrite Nat.sub_diag. reflexivity.
Qed.

(** A call on the installed slot that leaves a settled promise alone. *)
Lemma held_on_current f s :
  (forall cp message, promise cp = Fulfilled message ->
                      promise (f cp) = Fulfilled message) ->
  sublist (held s) (held (on_current f s)).
Proof.
  intros Hf. unfold held; simpl. rewrite list_lookup_alter.
  destruct (decide (sendMessagePromise s = sendMessagePromise s)) as [_|N]; [|congruence].
  destruct (slots s !! sendMessagePromise s) as [cp|]; simpl; [|constructor].
  destruct (promise cp) as [|m|e] eqn:E.
  - apply sublist_nil_l.
  - rewrite (Hf cp m E). reflexivity.
  - apply sublist_nil_l.
Qed.

Lemma held_reject e s : held (on_current (reject e) s) = held s.
Proof.
  unfold held; simpl. rewrite list_lookup_alter.
  destruct (decide (sendMessagePromise s = sendMessagePromise s)) as [_|N]; [|congruence].
  destruct (slots s !! sendMessagePromise s) as [cp|]; simpl; [|reflexivity].
  destruct (promise cp); reflexivity.
Qed.

Lemma held_resolve m s :
  held (on_current (resolve m) s) = held s
  \/ held s = [] /\ held (on_current (resolve m) s) = [m].
Proof.
  unfold held; simpl. rewrite list_lookup_alter.
  destruct (decide (sendMessagePromise s = sendMessagePromise s)) as [_|N]; [|congruence].
  destruct (slots s !! sendMessagePromise s) as [cp|]; simpl; [|left; reflexivity].
  destruct (promise cp); simpl; auto.
Qed.

Lemma length_on_current f s : length (slots (on_current f s)) = length (slots s).
Proof. simpl. apply length_alter. Qed.

(** The three ways the record of a state is kept. *)
Lemma feeds_same messages extra s s' :
  contents s' = contents s ->
  sublist (in_flight s') (in_flight s ++ extra) ->
  (forall slot, generator s' = AwaitSlot slot -> slot = sendMessagePromise s') ->
  sendMessagePromise s' < length (slots s') ->
  all_pending s' ->
  feeds messages s -> feeds (messages ++ extra) s'.
Proof.
  intros Hc Hf Ha Hi Hp [F _ _ _]. split; try assumption.
  rewrite Hc. etransitivity.
  - apply sublist_app; [reflexivity | exact Hf].
  - rewrite app_assoc. apply sublist_app; [exact F | reflexivity].
Qed.

Lemma feeds_drop messages s s' :
  contents s' = contents s ->
  in_flight s' = [] ->
  (forall slot, generator s' = AwaitSlot slot -> slot = sendMessagePromise s') ->
  sendMessagePromise s' < length (slots s') ->
  all_pending s' ->
  feeds messages s -> feeds messages s'.
Proof.
  intros Hc Hf Ha Hi Hp H.
  rewrite <- (app_nil_r messages).
  apply (feeds_same messages [] s s'); try assumption.
  rewrite Hf. apply sublist_nil_l.
Qed.

Lemma feeds_prepare_and_yield messages slot m s :
  in_flight s = [m] -> feeds messages s ->
  feeds messages (prepare_and_yield slot m s).
Proof.
  intros Hm [F Ha Hi Hp]. split.
  - unfold contents, in_flight; simpl.
    rewrite lookup_app_r by lia. rewrite Nat.sub_diag; simpl.
    rewrite map_app; simpl. rewrite app_nil_r.
    rewrite Hm in F. exact F.
  - simpl. discriminate.
  - simpl. rewrite length_app; simpl. lia.
  - apply (all_pending_assign_fresh s Hp).
Qed.

Lemma feeds_await_fresh messages s :
  feeds messages s -> feeds messages (await_current (assign_fresh s)).
Proof.
  intros H. apply (feeds_drop messages s); try reflexivity.
  - unfold in_flight; simpl. rewrite lookup_app_r by lia.
    rewrite Nat.sub_diag. reflexivity.
  - simpl. intros slot E. congruence.
  - simpl. rewrite length_app; simpl. lia.
  - apply all_pending_assign_fresh, H.
  - exact H.
Qed.

Lemma feeds_leave messages g s :
  in_flight (set_generator g s) = [] ->
  (forall slot, g <> AwaitSlot slot) ->
  feeds messages s -> feeds messages (set_generator g s).
Proof.
  intros Hf Hg H. apply (feeds_drop messages s); try assumption; try reflexivity.
  - simpl. intros slot E. destruct (Hg slot E).
  - apply H.
  - apply H.
Qed.

Lemma feeds_after_onError messages s :
  feeds messages s -> feeds messages (after_onError s).
Proof.
  intros H. unfold after_onError. destruct (isTerminated s).
  - apply feeds_leave; [reflexivity | discriminate | exact H].
  - apply feeds_await_fresh, H.
Qed.

Lemma feeds_catch_block messages e s :
  feeds messages s -> feeds messages (catch_block e s).
Proof.
  intros H. unfold catch_block. destruct (onError (hooks s)).
  - apply feeds_leave; [reflexivity | discriminate | exact H].
  - apply feeds_after_onError, H.
Qed.

Lemma feeds_mark_consumed messages slot s :
  feeds messages s -> feeds messages (mark_consumed slot s).
Proof. intros [F Ha Hi Hp]. split; assumption. Qed.

Lemma feeds_setNextMessage messages m s :
  feeds messages s -> feeds (messages ++ [m]) (setNextMessage m s).
Proof.
  intros H. pose proof H as [F Ha Hi Hp].
  unfold setNextMessage. destruct (isTerminated s) eqn:Et.
  - apply (feeds_same messages [m] s); try assumption; try reflexivity.
    change (in_flight (warn _ s)) with (in_flight s).
    apply sublist_inserts_r. reflexivity.
  - rewrite (all_pending_current_status s Hp). simpl.
    apply (feeds_same messages [m] s); try assumption; try reflexivity.
    + pose proof (in_flight_held s) as Hh.
      unfold in_flight in *. simpl.
      change (promise <$> alter (resolve m) (sendMessagePromise s) (slots s)
                          !! sendMessagePromise s)
        with (promise <$> slots (on_current (resolve m) s)
                          !! sendMessagePromise (on_current (resolve m) s)).
      fold (held (on_current (resolve m) s)). fold (held s).
      destruct (held_resolve m s) as [E | [E1 E2]].
      * rewrite E. destruct (generator s); apply sublist_inserts_r; reflexivity.
      * rewrite E1, E2.
        destruct (generator s); simpl;
          try reflexivity; try apply sublist_nil_l.
        apply sublist_skip, sublist_nil_l.
    + rewrite length_on_current. exact Hi.
    + apply all_pending_on_current; [reflexivity | exact Hp].
Qed.

Lemma feeds_terminate messages s :
  feeds messages s -> feeds messages (terminate s).
Proof.
  intros H. pose proof H as [F Ha Hi Hp].
  rewrite <- (app_nil_r messages).
  apply (feeds_same messages [] s); [| | | | |exact H].
  - unfold terminate. destruct (Status_eqb _ _); reflexivity.
  - rewrite app_nil_r. unfold terminate.
    destruct (Status_eqb _ _); [|reflexivity].
    pose proof (held_reject (mkError "Error" "Generator terminated")
                  (mkState (slots s) (sendMessagePromise s) (hooks s) true
                           (generator s) (consumed s) (yielded s) (warnings s)))
      as Hr.
    unfold held in Hr. simpl in Hr.
    unfold in_flight. simpl. rewrite Hr. reflexivity.
  - unfold terminate. destruct (Status_eqb _ _); simpl; exact Ha.
  - unfold terminate. destruct (Status_eqb _ _); simpl;
      rewrite ?length_alter; exact Hi.
  - apply all_pending_terminate, Hp.
Qed.

(** One step keeps the link, with the message of a [setNextMessage]
    added to those submitted. *)
Lemma feeds_step messages l s :
  feeds messages s -> feeds (messages ++ submitted [l]) (step l s).
Proof.
  intros H. pose proof H as [F Ha Hi Hp].
  destruct l as [m|newHooks| | | | |failure]; simpl;
    rewrite ?app_nil_r.
  - apply feeds_setNextMessage, H.
  - split; assumption.
  - apply feeds_terminate, H.
  - destruct (generator s) as [|slot|slot m| |slot m| |e] eqn:Eg; try exact H.
    + apply feeds_await_fresh, H.
    + split; try assumption.
      * unfold contents, in_flight in *; simpl. rewrite Eg in F. exact F.
      * simpl. intros k E. congruence.
  - destruct (generator s) eqn:Eg; try exact H;
      (apply feeds_leave; [reflexivity | discriminate | exact H]).
  - destruct (generator s) as [|slot|slot m| |slot m| |e] eqn:Eg; try exact H.
    pose proof (Ha slot eq_refl) as Hslot.
    destruct (promise <$> slots s !! slot) as [[|m|e]|] eqn:El; try exact H.
    + assert (Hm : in_flight s = [m]).
      { unfold in_flight. rewrite Eg, <- Hslot, El. reflexivity. }
      unfold after_await; simpl. destruct (isTerminated s).
      * apply feeds_leave; [reflexivity | discriminate |].
        apply feeds_mark_consumed, H.
      * destruct (onNewUserMessageResolved (hooks s)).
        -- split; try assumption.
           ++ unfold contents, in_flight in *; simpl. rewrite Eg, <- Hslot, El in F.
              exact F.
           ++ simpl. discriminate.
        -- apply feeds_prepare_and_yield.
           ++ unfold in_flight in *; simpl. rewrite Eg, <- Hslot, El in Hm |- *.
              exact Hm.
           ++ apply feeds_mark_consumed, H.
    + apply feeds_catch_block, feeds_mark_consumed, H.
  - destruct (generator s) as [|slot|slot m| |slot m| |e] eqn:Eg, failure as [e'|];
      try exact H.
    + apply feeds_catch_block, H.
    + apply feeds_prepare_and_yield; [|exact H].
      unfold in_flight. rewrite Eg. reflexivity.
    + apply feeds_leave; [reflexivity | discriminate | exact H].
    + apply feeds_after_onError, H.
Qed.

Lemma feeds_run messages ls s :
  feeds messages s -> feeds (messages ++ submitted ls) (run ls s).
Proof.
  revert messages s. induction ls as [|l ls IH]; intros messages s H.
  - simpl. rewrite app_nil_r. exact H.
  - pose proof (submitted_app [l] ls) as E. cbn [app] in E.
    rewrite E, app_assoc.
    change (run (l :: ls) s) with (run ls (step l s)).
    apply IH, feeds_step, H.
Qed.

Lemma feeds_init : feeds [] createMessageGenerator.
Proof.
  split.
  - reflexivity.
  - simpl. discriminate.
  - simpl. lia.
  - repeat constructor.
Qed.

(** Turns are objects [{ type: 'user', content }]. *)
Lemma yielded_user_step l s :
  Forall (fun turn => MessageGenerator.type (snd turn) = "user") (yielded s) ->
  Forall (fun turn => MessageGenerator.type (snd turn) = "user") (yielded (step l s)).
Proof.
  intros H.
  assert (Hy : forall slot m s0,
             yielded s0 = yielded s ->
             Forall (fun turn => MessageGenerator.type (snd turn) = "user")
                    (yielded (prepare_and_yield slot m s0))).
  { intros slot m s0 E. simpl. rewrite E. apply Forall_app. split; [exact H|].
    constructor; [reflexivity | constructor]. }
  assert (Ho : forall s0, yielded s0 = yielded s ->
             Forall (fun turn => MessageGenerator.type (snd turn) = "user")
                    (yielded (after_onError s0))).
  { intros s0 E. unfold after_onError. destruct (isTerminated s0); simpl; rewrite E; exact H. }
  assert (Hc : forall e s0, yielded s0 = yielded s ->
             Forall (fun turn => MessageGenerator.type (snd turn) = "user")
                    (yielded (catch_block e s0))).
  { intros e s0 E. unfold catch_block. destruct (onError (hooks s0)); [simpl; rewrite E; exact H|].
    apply Ho, E. }
  destruct l as [m|newHooks| | | | |failure]; simpl.
  - unfold setNextMessage. destruct (isTerminated s); [exact H|].
    destruct (negb _); exact H.
  - exact H.
  - unfold terminate. destruct (Status_eqb _ _); exact H.
  - destruct (generator s); exact H.
  - destruct (generator s); exact H.
  - destruct (generator s) as [|slot|slot m| |slot m| |e]; try exact H.
    destruct (promise <$> slots s !! slot) as [[|m|e]|]; try exact H.
    + unfold after_await. simpl. destruct (isTerminated s); [exact H|].
      destruct (onNewUserMessageResolved (hooks s)); [exact H|].
      apply Hy. reflexivity.
    + apply Hc. reflexivity.
  - destruct (generator s) as [|slot|slot m| |slot m| |e], failure as [e'|];
      try exact H.
    + apply Hc. reflexivity.
    + apply Hy. reflexivity.
    + apply Ho. reflexivity.
Qed.

(** **** After [terminate()] *)

Lemma isTerminated_after_onError s : isTerminated (after_onError s) = isTerminated s.
Proof. unfold after_onError. destruct (isTerminated s) eqn:E; simpl; exact E. Qed.

Lemma isTerminated_catch_block e s : isTerminated (catch_block e s) = isTerminated s.
Proof.
  unfold catch_block. destruct (onError (hooks s)); [reflexivity|].
  apply isTerminated_after_onError.
Qed.

Lemma isTerminated_terminate s : isTerminated (terminate s) = true.
Proof. unfold terminate. destruct (Status_eqb _ _); reflexivity. Qed.

Lemma yielded_terminate s : yielded (terminate s) = yielded s.
Proof. unfold terminate. destruct (Status_eqb _ _); reflexivity. Qed.

Lemma generator_terminate s : generator (terminate s) = generator s.
Proof. unfold terminate. destruct (Status_eqb _ _); reflexivity. Qed.

Lemma hooks_terminate s : hooks (terminate s) = hooks s.
Proof. unfold terminate. destruct (Status_eqb _ _); reflexivity. Qed.

(** A terminated generator hands out at most the turn whose hook is
    running. *)
Lemma winding_down_step base bound l s :
  winding_down base bound s -> winding_down base bound (step l s).
Proof.
  intros [Ht (extra & Ey & Hb)].
  assert (Hleave : forall g s0,
             isTerminated s0 = true -> yielded s0 = yielded s ->
             in_hook g = false ->
             winding_down base bound (set_generator g s0)).
  { intros g s0 Ht0 Ey0 Hg. split; [exact Ht0|]. exists extra. simpl.
    rewrite Ey0, Hg. split; [exact Ey|].
    destruct (in_hook (generator s)); lia. }
  assert (Ho : forall s0, isTerminated s0 = true -> yielded s0 = yielded s ->
                          winding_down base bound (after_onError s0)).
  { intros s0 Ht0 Ey0. unfold after_onError. rewrite Ht0.
    apply Hleave; [exact Ht0 | exact Ey0 | reflexivity]. }
  assert (Hc : forall e s0, isTerminated s0 = true -> yielded s0 = yielded s ->
                            winding_down base bound (catch_block e s0)).
  { intros e s0 Ht0 Ey0. unfold catch_block. destruct (onError (hooks s0)).
    - apply Hleave; [exact Ht0 | exact Ey0 | reflexivity].
    - apply Ho; assumption. }
  destruct l as [m|newHooks| | | | |failure]; simpl.
  - unfold setNextMessage. rewrite Ht. split; [exact Ht|]. exists extra. auto.
  - split; [exact Ht|]. exists extra. auto.
  - split; [apply isTerminated_terminate|]. exists extra.
    rewrite yielded_terminate, generator_terminate. auto.
  - destruct (generator s) eqn:Eg;
      try (split; [exact Ht|]; exists extra; rewrite Eg; auto; fail).
    + split; [exact Ht|]. exists extra. simpl. split; [exact Ey | lia].
    + split; [exact Ht|]. exists extra. simpl. split; [exact Ey | lia].
  - destruct (generator s) eqn:Eg;
      try (split; [exact Ht|]; exists extra; rewrite Eg; auto; fail);
      (apply Hleave; [exact Ht | reflexivity | reflexivity]).
  - destruct (generator s) as [|slot|slot m| |slot m| |e] eqn:Eg;
      try (split; [exact Ht|]; exists extra; rewrite Eg; auto; fail).
    destruct (promise <$> slots s !! slot) as [[|m|e]|];
      try (split; [exact Ht|]; exists extra; rewrite Eg; auto; fail).
    + unfold after_await; simpl. rewrite Ht.
      apply Hleave; [exact Ht | reflexivity | reflexivity].
    + apply Hc; [exact Ht | reflexivity].
  - destruct (generator s) as [|slot|slot m| |slot m| |e] eqn:Eg, failure as [e'|];
      try (split; [exact Ht|]; exists extra; rewrite Eg; auto; fail).
    + apply Hc; [exact Ht | reflexivity].
    + split; [exact Ht|]. exists (extra ++ [(slot, mkUserMessage "user" m)]).
      simpl. rewrite Ey, app_assoc. split; [reflexivity|].
      rewrite length_app; simpl. simpl in Hb. lia.
    + apply Hleave; [exact Ht | reflexivity | reflexivity].
    + apply Ho; [exact Ht | reflexivity].
Qed.

Lemma winding_down_run base bound ls s :
  winding_down base bound s -> winding_down base bound (run ls s).
Proof.
  revert s. induction ls as [|l ls IH]; intros s H; [exact H|].
  apply IH, winding_down_step, H.
Qed.

(** [terminate()] settles the slot a reachable body is suspended on. *)
Lemma terminate_settles messages s slot :
  feeds messages s -> generator s = AwaitSlot slot ->
  exists cp,
    slots (terminate s) !! slot = Some cp /\ settled (promise cp) = true.
Proof.
  intros [F Ha Hi Hp] Eg. pose proof (Ha slot Eg) as ->.
  unfold terminate.
  replace (current_status _) with pending
    by (symmetry; apply (all_pending_current_status s Hp)).
  simpl. rewrite list_lookup_alter.
  destruct (decide (sendMessagePromise s = sendMessagePromise s)) as [_|N]; [|congruence].
  destruct (slots s !! sendMessagePromise s) as [cp|] eqn:El.
  - exists (reject (mkError "Error" "Generator terminated") cp).
    split; [reflexivity|]. simpl. destruct (promise cp); reflexivity.
  - apply lookup_ge_None in El. lia.
Qed.

(** **** Where the turns enter the record *)

Lemma frame_setNextMessage m s :
  generator (setNextMessage m s) = generator s
  /\ yielded (setNextMessage m s) = yielded s.
Proof.
  unfold setNextMessage. destruct (isTerminated s); [split; reflexivity|].
  destruct (negb _); split; reflexivity.
Qed.

Lemma yields_last_frame s s' :
  generator s' = generator s -> yielded s' = yielded s ->
  yields_last s -> yields_last s'.
Proof. unfold yields_last, contents. intros -> ->. tauto. Qed.

Lemma yields_last_leave g s :
  (forall slot message, g <> AtYield slot message) ->
  yields_last (set_generator g s).
Proof. intros Hg slot message E. simpl in E. destruct (Hg _ _ E). Qed.

Lemma yields_last_prepare slot m s : yields_last (prepare_and_yield slot m s).
Proof.
  intros k message E. simpl in E. injection E as _ <-.
  exists (contents s). unfold contents. simpl. rewrite map_app. reflexivity.
Qed.

Lemma yields_last_after_onError s : yields_last (after_onError s).
Proof.
  unfold after_onError. destruct (isTerminated s).
  - apply yields_last_leave. discriminate.
  - intros slot message E. discriminate E.
Qed.

Lemma yields_last_catch_block e s : yields_last (catch_block e s).
Proof.
  unfold catch_block. destruct (onError (hooks s)).
  - apply yields_last_leave. discriminate.
  - apply yields_last_after_onError.
Qed.

Lemma yields_last_step l s : yields_last s -> yields_last (step l s).
Proof.
  intros H. destruct l as [m|newHooks| | | | |failure]; simpl.
  - destruct (frame_setNextMessage m s) as [Eg Ey].
    apply (yields_last_frame s); assumption.
  - exact H.
  - apply (yields_last_frame s);
      [apply generator_terminate | apply yielded_terminate | exact H].
  - destruct (generator s) as [|k|k m0| |k m0| |e]; try exact H;
      intros slot message E; discriminate E.
  - destruct (generator s) as [|k|k m0| |k m0| |e]; try exact H;
      apply yields_last_leave; discriminate.
  - destruct (generator s) as [|slot|slot m| |slot m| |e]; try exact H.
    destruct (promise <$> slots s !! slot) as [[|m|e]|]; try exact H.
    + unfold after_await. simpl. destruct (isTerminated s).
      * apply yields_last_leave. discriminate.
      * destruct (onNewUserMessageResolved (hooks s)).
        -- apply yields_last_leave. discriminate.
        -- apply yields_last_prepare.
    + apply yields_last_catch_block.
  - destruct (generator s) as [|slot|slot m| |slot m| |e], failure as [e'|];
      try exact H.
    + apply yields_last_catch_block.
    + apply yields_last_prepare.
    + apply yields_last_leave. discriminate.
    + apply yields_last_after_onError.
Qed.

(** A resumption of the body keeps the record, or enters the [yield]
    with one more turn. *)
Lemma resume_contents s :
  let s' := step Resume s in
  contents s' = contents s
  /\ (forall slot message, generator s' = AtYield slot message ->
                           generator s = AtYield slot message)
  \/ (exists slot message,
         generator s' = AtYield slot message
         /\ contents s' = contents s ++ [message])
      /\ forall slot message, generator s <> AtYield slot message.
Proof.
  assert (Hleave : forall g s0,
             yielded s0 = yielded s ->
             (forall slot message, g <> AtYield slot message) ->
             contents (set_generator g s0) = contents s
             /\ (forall slot message, generator (set_generator g s0) = AtYield slot message ->
                                      generator s = AtYield slot message)).
  { intros g s0 Ey Hg. unfold contents. simpl. rewrite Ey. split; [reflexivity|].
    intros slot message E. destruct (Hg _ _ E). }
  assert (Ho : forall s0, yielded s0 = yielded s ->
             contents (after_onError s0) = contents s
             /\ (forall slot message, generator (after_onError s0) = AtYield slot message ->
                                      generator s = AtYield slot message)).
  { intros s0 Ey. unfold after_onError. destruct (isTerminated s0).
    - apply Hleave; [exact Ey | discriminate].
    - unfold contents. simpl. rewrite Ey. split; [reflexivity | discriminate]. }
  simpl. destruct (generator s) as [|slot|slot m| |slot m| |e] eqn:Eg;
    try (left; split; [reflexivity | intros; congruence]).
  destruct (promise <$> slots s !! slot) as [[|m|e]|];
    try (left; split; [reflexivity | intros; congruence]).
  - unfold after_await. simpl. destruct (isTerminated s).
    + left. apply Hleave; [reflexivity | discriminate].
    + destruct (onNewUserMessageResolved (hooks s)).
      * left. apply Hleave; [reflexivity | discriminate].
      * right. split; [|discriminate]. exists slot, m. split; [reflexivity|].
        unfold contents. simpl. rewrite map_app. reflexivity.
  - left. unfold catch_block. simpl. destruct (onError (hooks s)).
    + apply Hleave; [reflexivity | discriminate].
    + apply Ho. reflexivity.
Qed.

Lemma next_leaves_yield s :
  contents (step IterNext s) = contents s
  /\ forall slot message, generator (step IterNext s) <> AtYield slot message.
Proof.
  simpl. destruct (generator s) as [|k|k m0| |k m0| |e] eqn:Eg; simpl; rewrite ?Eg;
    split; try reflexivity; intros slot message; discriminate.
Qed.

Lemma return_leaves_yield s :
  contents (step IterReturn s) = contents s
  /\ forall slot message, generator (step IterReturn s) <> AtYield slot message.
Proof.
  simpl. destruct (generator s) as [|k|k m0| |k m0| |e] eqn:Eg; simpl; rewrite ?Eg;
    split; try reflexivity; intros slot message; discriminate.
Qed.

Lemma feeds_weaken messages extra s :
  feeds messages s -> feeds (messages ++ extra) s.
Proof.
  intros [F Ha Hi Hp]. split; try assumption.
  apply sublist_inserts_r, F.
Qed.

End TurnFacts.

(* ===================================================================== *)
(** * Further properties of the controllable promise and of the message
      generator *)
(* ===================================================================== *)

(** X1.  The promise of a controllable promise keeps its first
    settlement: whatever [resolve]/[reject] calls follow the first call,
    the promise is what the first call made it.  On a fresh object, a
    first [resolve(v)] leaves it fulfilled with [v] and a first
    [reject(e)] leaves it rejected with [e], for good. *)
Theorem X1_promise_keeps_its_first_settlement :
  forall (T : Type) (first : ControllablePromise.Call T)
         (later : list (ControllablePromise.Call T))
         (cp : ControllablePromise.ControllablePromise T) (v : T) (e : Error),
    ControllablePromise.promise
      (ControllablePromise.calls later (ControllablePromise.call first cp))
    = ControllablePromise.promise (ControllablePromise.call first cp)
    /\ ControllablePromise.promise
         (ControllablePromise.calls (ControllablePromise.CallResolve v :: later)
            ControllablePromise.controllablePromise)
       = Fulfilled v
    /\ ControllablePromise.promise
         (ControllablePromise.calls (ControllablePromise.CallReject e :: later)
            ControllablePromise.controllablePromise)
       = Rejected e.
Proof.
  intros T first later cp v e.
  assert (keep : forall (cs : list (ControllablePromise.Call T)) c,
             settled (ControllablePromise.promise c) = true ->
             ControllablePromise.promise (ControllablePromise.calls cs c)
             = ControllablePromise.promise c).
  { unfold ControllablePromise.calls.
    induction cs as [|c0 cs IH]; intros c Hc; simpl; [reflexivity|].
    rewrite IH.
    - apply ControllablePromiseFacts.promise_settled_call, Hc.
    - rewrite ControllablePromiseFacts.promise_settled_call; exact Hc. }
  split; [|split].
  - apply keep. destruct first, cp as [[| |] ? ?]; reflexivity.
  - apply (keep later (ControllablePromise.resolve v ControllablePromise.controllablePromise)).
    reflexivity.
  - apply (keep later (ControllablePromise.reject e ControllablePromise.controllablePromise)).
    reflexivity.
Qed.

(** X2.  After any run of the generator, the contents of the turns it
    has handed out, in the order it handed them out, are messages given
    to [setNextMessage], in the order they were given: the generator
    invents no message, repeats none and swaps no two (it may leave some
    out).  Each turn is an object of type ['user']. *)
Theorem X2_turns_are_submitted_messages_in_order :
  forall ls : list MessageGenerator.Label,
    let s := MessageGenerator.run ls MessageGenerator.createMessageGenerator in
    sublist (TurnProps.contents s) (TurnProps.submitted ls)
    /\ Forall (fun turn => MessageGenerator.type (snd turn) = "user")
              (MessageGenerator.yielded s).
Proof.
  intros ls s. split.
  - pose proof (TurnFacts.feeds_run [] ls _ TurnFacts.feeds_init) as [F _ _ _].
    simpl in F. etransitivity; [|exact F].
    rewrite <- (app_nil_r (TurnProps.contents s)) at 1.
    apply sublist_app; [reflexivity | apply sublist_nil_l].
  - subst s. apply MessageGeneratorFacts.run_ind.
    + constructor.
    + intros s l. apply TurnFacts.yielded_user_step.
Qed.

(** X3.  Messages given to [setNextMessage] before the consumer first
    calls [next()] are never handed out: the body starts by installing
    a new slot (line 81), so the turns of the run come from the
    messages submitted after that first [next()] only. *)
Theorem X3_messages_set_before_the_first_next_are_dropped :
  forall (early : list string) (ls : list MessageGenerator.Label),
    let s := MessageGenerator.run
               (map MessageGenerator.CallSetNextMessage early
                ++ MessageGenerator.IterNext :: ls)
               MessageGenerator.createMessageGenerator in
    sublist (TurnProps.contents s) (TurnProps.submitted ls).
Proof.
  intros early ls s. subst s. rewrite MessageGeneratorFacts.run_app.
  set (s0 := MessageGenerator.run (map MessageGenerator.CallSetNextMessage early)
               MessageGenerator.createMessageGenerator).
  assert (H0 : MessageGenerator.generator s0 = MessageGenerator.NotStarted
               /\ MessageGenerator.yielded s0 = []
               /\ MessageGeneratorProps.all_pending s0).
  { subst s0. induction early as [|m early IH] using rev_ind.
    - repeat split. repeat constructor.
    - rewrite map_app. simpl. rewrite MessageGeneratorFacts.run_snoc.
      destruct IH as (Eg & Ey & Hp). simpl.
      split; [|split].
      + unfold MessageGenerator.setNextMessage.
        destruct (MessageGenerator.isTerminated _); [exact Eg|].
        destruct (negb _); exact Eg.
      + unfold MessageGenerator.setNextMessage.
        destruct (MessageGenerator.isTerminated _); [exact Ey|].
        destruct (negb _); exact Ey.
      + apply MessageGeneratorFacts.all_pending_setNextMessage, Hp. }
  destruct H0 as (Eg & Ey & Hp).
  change (MessageGenerator.run (MessageGenerator.IterNext :: ls) s0)
    with (MessageGenerator.run ls
            (MessageGenerator.step MessageGenerator.IterNext s0)).
  assert (Hf : TurnProps.feeds []
                 (MessageGenerator.step MessageGenerator.IterNext s0)).
  { simpl. rewrite Eg. split.
    - unfold TurnProps.contents, TurnProps.in_flight. simpl.
      rewrite Ey. rewrite lookup_app_r by lia. rewrite Nat.sub_diag. reflexivity.
    - simpl. intros slot E. congruence.
    - simpl. rewrite length_app. simpl. lia.
    - apply MessageGeneratorFacts.all_pending_assign_fresh, Hp. }
  pose proof (TurnFacts.feeds_run [] ls _ Hf) as [F _ _ _].
  simpl in F. etransitivity; [|exact F].
  rewrite <- (app_nil_r (TurnProps.contents _)) at 1.
  apply sublist_app; [reflexivity | apply sublist_nil_l].
Qed.

(** X4.  After [terminate()], whatever follows, the generator hands out
    no further turn, with one exception: a turn whose
    [onNewUserMessageResolved] hook is running when [terminate()] is
    called is still handed out once the hook returns.  The flag stays
    set, so [setNextMessage] only warns from then on. *)
Theorem X4_terminate_ends_the_turns :
  forall (s : MessageGenerator.State) (ls : list MessageGenerator.Label),
    let s' := MessageGenerator.run ls (MessageGenerator.terminate s) in
    MessageGenerator.isTerminated s' = true
    /\ exists extra,
         MessageGenerator.yielded s' = MessageGenerator.yielded s ++ extra
         /\ length extra
            <= (if TurnProps.in_hook (MessageGenerator.generator s) then 1 else 0).
Proof.
  intros s ls s'.
  assert (H : TurnProps.winding_down (MessageGenerator.yielded s)
                (if TurnProps.in_hook (MessageGenerator.generator s) then 1 else 0)
                (MessageGenerator.terminate s)).
  { split; [apply TurnFacts.isTerminated_terminate|]. exists [].
    rewrite TurnFacts.yielded_terminate, TurnFacts.generator_terminate, app_nil_r.
    split; [reflexivity | simpl; lia]. }
  destruct (TurnFacts.winding_down_run _ _ ls _ H) as [Ht (extra & Ey & Hb)].
  split; [exact Ht|]. exists extra. split; [exact Ey|].
  fold s' in Hb. destruct (TurnProps.in_hook (MessageGenerator.generator s')); lia.
Qed.

(** X5.  [terminate()] releases a generator that waits for a message:
    when the body is suspended on its slot, after [terminate()] its
    next resumption hands out nothing and leaves the loop.  Without an
    [onError] hook the body has returned at once; with one, the body
    either has returned (a message was already in the slot) or is in the
    hook, and it is over as soon as the hook ends, whether the hook
    returns or throws. *)
Theorem X5_terminate_releases_a_waiting_generator :
  forall (ls : list MessageGenerator.Label) (slot : nat),
    let s := MessageGenerator.run ls MessageGenerator.createMessageGenerator in
    let s1 := MessageGenerator.step MessageGenerator.Resume
                (MessageGenerator.terminate s) in
    MessageGenerator.generator s = MessageGenerator.AwaitSlot slot ->
    MessageGenerator.yielded s1 = MessageGenerator.yielded s
    /\ (MessageGenerator.onError (MessageGenerator.hooks s) = None ->
        MessageGenerator.generator s1 = MessageGenerator.Returned)
    /\ (MessageGenerator.generator s1 = MessageGenerator.Returned
        \/ MessageGenerator.generator s1 = MessageGenerator.AwaitOnError
           /\ forall failure : option Error,
                let s2 := MessageGenerator.step (MessageGenerator.HookDone failure) s1 in
                TurnProps.finished (MessageGenerator.generator s2) = true
                /\ MessageGenerator.yielded s2 = MessageGenerator.yielded s).
Proof.
  intros ls slot s s1 Eg.
  pose proof (TurnFacts.feeds_run [] ls _ TurnFacts.feeds_init) as Hf.
  fold s in Hf.
  destruct (TurnFacts.terminate_settles _ s slot Hf Eg) as (cp & El & Hs).
  subst s1. simpl.
  rewrite TurnFacts.generator_terminate, Eg, El. simpl.
  pose proof (TurnFacts.isTerminated_terminate s) as Ht.
  pose proof (TurnFacts.yielded_terminate s) as Ey.
  pose proof (TurnFacts.hooks_terminate s) as Eh.
  destruct (ControllablePromise.promise cp) as [|m|e]; [discriminate Hs| |].
  - unfold MessageGenerator.after_await. simpl. rewrite Ht. simpl.
    split; [exact Ey|]. split; [reflexivity|]. left. reflexivity.
  - unfold MessageGenerator.catch_block. simpl. rewrite Eh.
    destruct (MessageGenerator.onError (MessageGenerator.hooks s)) as [h|].
    + simpl. split; [exact Ey|]. split; [discriminate|]. right.
      split; [reflexivity|]. intros [e'|]; simpl.
      * split; [reflexivity | exact Ey].
      * unfold MessageGenerator.after_onError. simpl. rewrite Ht. simpl.
        split; [reflexivity | exact Ey].
    + unfold MessageGenerator.after_onError. simpl. rewrite Ht. simpl.
      split; [exact Ey|]. split; [reflexivity|]. left. reflexivity.
Qed.

(** X5 at a run: [next()], then [terminate()] while the body waits. *)
Lemma X5_terminate_witness :
  MessageGenerator.generator
    (MessageGenerator.run [MessageGenerator.IterNext]
       MessageGenerator.createMessageGenerator)
  = MessageGenerator.AwaitSlot 1
  /\ MessageGenerator.generator
       (MessageGenerator.step MessageGenerator.Resume
          (MessageGenerator.terminate
             (MessageGenerator.run [MessageGenerator.IterNext]
                MessageGenerator.createMessageGenerator)))
     = MessageGenerator.Returned.
Proof.
  split; [reflexivity|].
  apply (X5_terminate_releases_a_waiting_generator [MessageGenerator.IterNext] 1);
    reflexivity.
Defined.

(* ===================================================================== *)
(** * Subscribing, finding the executable, building the command line *)
(* ===================================================================== *)

Module SubscriptionFacts.
Import Subscription.

Section Handlers.
Context {Handler : Type} `{EqDecision Handler}.

Lemma indexOf_absent (handler : Handler) handlers :
  ~ In handler handlers -> indexOf handler handlers = None.
Proof.
  induction handlers as [|h rest IH]; simpl; intros Hn; [reflexivity|].
  destruct (decide (h = handler)) as [E|N]; [exfalso; auto|].
  rewrite IH; [reflexivity | tauto].
Qed.

Lemma indexOf_first (handler : Handler) before after :
  ~ In handler before ->
  indexOf handler (before ++ handler :: after) = Some (length before).
Proof.
  induction before as [|h rest IH]; simpl; intros Hn.
  - destruct (decide (handler = handler)); [reflexivity | congruence].
  - destruct (decide (h = handler)) as [E|N]; [exfalso; auto|].
    rewrite IH; [reflexivity | tauto].
Qed.

Lemma splice_middle (before after : list Handler) h :
  splice (length before) (before ++ h :: after) = before ++ after.
Proof.
  unfold splice. rewrite take_app_length.
  change (before ++ h :: after) with (before ++ [h] ++ after).
  rewrite app_assoc. rewrite drop_app_length'; [reflexivity|].
  rewrite length_app. simpl. lia.
Qed.

Lemma unsubscribe_first (handler : Handler) before after :
  ~ In handler before ->
  unsubscribe handler (before ++ handler :: after) = before ++ after.
Proof.
  intros Hn. unfold unsubscribe. rewrite (indexOf_first _ _ _ Hn).
  apply splice_middle.
Qed.

Lemma unsubscribe_absent (handler : Handler) handlers :
  ~ In handler handlers -> unsubscribe handler handlers = handlers.
Proof. intros Hn. unfold unsubscribe. rewrite indexOf_absent; auto. Qed.

(** A list either lacks the handler or splits at its first entry. *)
Lemma first_entry (handler : Handler) handlers :
  ~ In handler handlers
  \/ exists before after,
       handlers = before ++ handler :: after /\ ~ In handler before.
Proof.
  induction handlers as [|h rest IH]; [left; simpl; tauto|].
  destruct (decide (h = handler)) as [E|N].
  - right. exists [], rest. subst h. simpl. tauto.
  - destruct IH as [Hn | (before & after & E & Hn)].
    + left. simpl. tauto.
    + right. exists (h :: before), after. subst rest. simpl. tauto.
Qed.

Lemma subscriptions_app (handler : Handler) l1 l2 :
  subscriptions handler (l1 ++ l2)
  = subscriptions handler l1 + subscriptions handler l2.
Proof. unfold subscriptions. rewrite List.filter_app, length_app. reflexivity. Qed.

Lemma others_app (handler : Handler) l1 l2 :
  others handler (l1 ++ l2) = others handler l1 ++ others handler l2.
Proof. unfold others. apply List.filter_app. Qed.

Lemma subscriptions_absent (handler : Handler) handlers :
  ~ In handler handlers -> subscriptions handler handlers = 0.
Proof.
  unfold subscriptions. induction handlers as [|h rest IH]; simpl; intros Hn;
    [reflexivity|].
  destruct (bool_decide_reflect (h = handler)) as [E|N]; [exfalso; auto|].
  apply IH. tauto.
Qed.

End Handlers.

End SubscriptionFacts.

Module LaunchFacts.
Import Persistent Launch.

Lemma first_accessible_filter (access_X_OK : string -> bool) paths :
  first_accessible access_X_OK paths = head (List.filter access_X_OK paths).
Proof.
  induction paths as [|p rest IH]; simpl; [reflexivity|].
  destruct (access_X_OK p); [reflexivity | exact IH].
Qed.

Lemma first_accessible_sound (access_X_OK : string -> bool) paths path :
  first_accessible access_X_OK paths = Some path ->
  In path paths /\ access_X_OK path = true.
Proof.
  induction paths as [|p rest IH]; simpl; [discriminate|].
  destruct (access_X_OK p) eqn:E.
  - intros [= <-]. tauto.
  - intros H. destruct (IH H). tauto.
Qed.

(** Lists of string arguments. *)
Lemma strings_app (l1 l2 : list JSON) :
  (exists s1, l1 = map JString s1) ->
  (exists s2, l2 = map JString s2) ->
  exists s, l1 ++ l2 = map JString s.
Proof.
  intros [s1 ->] [s2 ->]. exists (s1 ++ s2). rewrite map_app. reflexivity.
Qed.

(** A list of [JString] entries is the image of the list of its strings. *)
Ltac strings :=
  match goal with
  | |- exists s, ?l = map _ s =>
      let rec strip l :=
          lazymatch l with
          | JString ?x :: ?rest => let r := strip rest in constr:(x :: r)
          | [] => constr:(@nil string)
          end in
      let strs := strip l in exists strs; reflexivity
  end.

Lemma ends_app {A} (x rest : list A) last :
  (exists m, rest = m ++ [last]) -> exists m, x ++ rest = m ++ [last].
Proof. intros [m ->]. exists (x ++ m). rewrite app_assoc. reflexivity. Qed.

End LaunchFacts.

(* ===================================================================== *)
(** * Further properties of the transport: subscribing and launching *)
(* ===================================================================== *)

(** X6.  The function [on(handler)] returns removes one entry of the
    handler, the oldest one, and touches no other entry; when the
    handler has no entry it does nothing.  So subscribing and then
    unsubscribing restores the list when the handler was not subscribed
    before; when it was, the handler is called as often as before, and
    the other handlers keep their entries and their order. *)
Theorem X6_unsubscribe_removes_the_oldest_entry :
  forall (Handler : Type) (eq_dec : EqDecision Handler)
         (handler : Handler) (handlers before after : list Handler),
    (~ In handler before ->
     Subscription.unsubscribe handler (before ++ handler :: after) = before ++ after)
    /\ (~ In handler handlers ->
        Subscription.unsubscribe handler handlers = handlers
        /\ Subscription.unsubscribe handler (Subscription.on handler handlers)
           = handlers)
    /\ Subscription.subscriptions handler
         (Subscription.unsubscribe handler (Subscription.on handler handlers))
       = Subscription.subscriptions handler handlers
    /\ Subscription.others handler
         (Subscription.unsubscribe handler (Subscription.on handler handlers))
       = Subscription.others handler handlers.
Proof.
  intros Handler eq_dec handler handlers before after.
  split; [apply SubscriptionFacts.unsubscribe_first|].
  split.
  { intros Hn. split; [apply SubscriptionFacts.unsubscribe_absent, Hn|].
    unfold Subscription.on.
    rewrite (SubscriptionFacts.unsubscribe_first handler handlers [] Hn).
    apply app_nil_r. }
  unfold Subscription.on.
  destruct (SubscriptionFacts.first_entry handler handlers)
    as [Hn | (pre & post & -> & Hn)].
  - rewrite (SubscriptionFacts.unsubscribe_first handler handlers [] Hn).
    rewrite app_nil_r. split; reflexivity.
  - rewrite <- app_assoc. cbn [app].
    rewrite (SubscriptionFacts.unsubscribe_first handler pre (post ++ [handler]) Hn).
    split.
    + rewrite !SubscriptionFacts.subscriptions_app.
      change (handler :: post) with ([handler] ++ post).
      rewrite !SubscriptionFacts.subscriptions_app. lia.
    + rewrite !SubscriptionFacts.others_app.
      change (handler :: post) with ([handler] ++ post).
      rewrite !SubscriptionFacts.others_app.
      unfold Subscription.others at 3 4. simpl.
      destruct (bool_decide_reflect (handler = handler)) as [_|N]; [|congruence].
      simpl. rewrite app_nil_r. reflexivity.
Qed.

(** X7.  [findCLI] returns the first hit in a fixed order: the two
    places under the home directory, [which claude],
    [which claude-code], and, on macOS only, the two macOS places; it
    throws the CLINotFoundError exactly when none of them has the
    executable.  A path it returns was found executable or came from
    [which].  Off macOS an executable at /usr/local/bin/claude that is
    not on the PATH is not found. *)
Theorem X7_findCLI_returns_the_first_hit :
  forall (join : list string -> string) (homedir platform : string)
         (access_X_OK : string -> bool) (which : string -> option string),
    let found := Launch.findCLI join homedir platform access_X_OK which in
    found
    = match Launch.candidates join homedir platform access_X_OK which with
      | path :: _ => Persistent.Resolved path
      | [] => Persistent.Threw Launch.cli_not_found
      end
    /\ (forall path, found = Persistent.Resolved path ->
          access_X_OK path = true
          \/ which "claude" = Some path \/ which "claude-code" = Some path)
    /\ (platform <> "darwin" ->
        access_X_OK (join [homedir; ".claude"; "local"; "claude"]) = false ->
        access_X_OK (join [homedir; ".claude"; "bin"; "claude"]) = false ->
        which "claude" = None -> which "claude-code" = None ->
        found = Persistent.Threw Launch.cli_not_found).
Proof.
  intros join homedir platform access_X_OK which found. subst found.
  unfold Launch.findCLI, Launch.candidates.
  split; [|split].
  - rewrite !LaunchFacts.first_accessible_filter.
    destruct (List.filter access_X_OK (Launch.localPaths join homedir))
      as [|p ps]; [|reflexivity].
    cbn [app head]. destruct (which "claude"); [reflexivity|].
    destruct (which "claude-code"); [reflexivity|]. cbn [app].
    destruct (String.eqb platform "darwin"); [|reflexivity].
    destruct (List.filter access_X_OK Launch.macPaths); reflexivity.
  - intros path.
    destruct (Launch.first_accessible access_X_OK (Launch.localPaths join homedir))
      as [p|] eqn:E.
    { intros [= <-]. left.
      apply LaunchFacts.first_accessible_sound in E. tauto. }
    destruct (which "claude"); [intros [= <-]; tauto|].
    destruct (which "claude-code"); [intros [= <-]; tauto|].
    destruct (String.eqb platform "darwin"); [|discriminate].
    destruct (Launch.first_accessible access_X_OK Launch.macPaths) as [p|] eqn:E';
      [|discriminate].
    intros [= <-]. left.
    apply LaunchFacts.first_accessible_sound in E'. tauto.
  - intros Hp H1 H2 W1 W2. unfold Launch.localPaths. simpl.
    rewrite H1, H2, W1, W2. simpl.
    destruct (String.eqb platform "darwin") eqn:E; [|reflexivity].
    apply String.eqb_eq in E. contradiction.
Qed.

(** X8.  Whatever the options, the command line starts with
    [--output-format stream-json --verbose] and ends with [--print].
    For the call [start()] makes, [buildCommand(false)], every argument
    is a string and the session id plays no part: no [--resume] pair is
    added.  With the permission mode 'bypassPermissions' both
    [--dangerously-skip-permissions] and, later in the list,
    [--permission-mode bypassPermissions] are passed. *)
Theorem X8_buildCommand_frames_the_arguments :
  forall (JSON_stringify : Persistent.JSON -> string) (isResume : bool)
         (sessionId : option Persistent.JSON) (options : Launch.ClaudeCodeOptions),
    (exists middle,
        Launch.buildCommand JSON_stringify isResume sessionId options
        = [Persistent.JString "--output-format"; Persistent.JString "stream-json";
           Persistent.JString "--verbose"]
          ++ middle ++ [Persistent.JString "--print"])
    /\ (exists strings,
          Launch.buildCommand JSON_stringify false sessionId options
          = map Persistent.JString strings)
    /\ Launch.buildCommand JSON_stringify false sessionId options
       = Launch.buildCommand JSON_stringify false None options
    /\ (Launch.permissionMode options = Some Launch.bypassPermissions ->
        exists a b c,
          Launch.buildCommand JSON_stringify isResume sessionId options
          = a ++ [Persistent.JString "--dangerously-skip-permissions"]
              ++ b ++ [Persistent.JString "--permission-mode";
                       Persistent.JString "bypassPermissions"] ++ c).
Proof.
  intros JSON_stringify isResume sessionId options.
  split; [|split; [|split]].
  - unfold Launch.buildCommand.
    match goal with
    | |- exists middle, ?fixed ++ ?rest = _ =>
        assert (H : exists m, rest = m ++ [Persistent.JString "--print"])
    end.
    { do 12 apply LaunchFacts.ends_app. exists []. reflexivity. }
    destruct H as [m ->]. exists m. reflexivity.
  - unfold Launch.buildCommand. cbn [andb].
    do 13 (apply LaunchFacts.strings_app;
           [try match goal with
                | |- context [if ?c then _ else _] => destruct c
                | |- context [match ?m with Some _ => _ | None => _ end] =>
                    destruct m as [[| |]|]
                end;
            LaunchFacts.strings|]).
    exists ["--print"]. reflexivity.
  - reflexivity.
  - intros Hp. unfold Launch.buildCommand. rewrite Hp. cbv iota.
    exists ([Persistent.JString "--output-format"; Persistent.JString "stream-json";
             Persistent.JString "--verbose"]
            ++ (if isResume && Persistent.truthy sessionId
                then match sessionId with
                     | Some id => [Persistent.JString "--resume"; id]
                     | None => []
                     end
                else [])
            ++ (if Launch.given (Launch.cwd options)
                then [Persistent.JString "--add-dir";
                      Persistent.JString (Launch.text (Launch.cwd options))]
                else [])
            ++ (if Launch.non_empty (Launch.allowedTools options)
                then [Persistent.JString "--allowedTools";
                      Persistent.JString
                        (String.concat "," (Launch.items (Launch.allowedTools options)))]
                else [])
            ++ (if Launch.non_empty (Launch.deniedTools options)
                then [Persistent.JString "--disallowedTools";
                      Persistent.JString
                        (String.concat "," (Launch.items (Launch.deniedTools options)))]
                else [])).
    exists ((if Launch.non_empty (Launch.mcpServers options)
             then [Persistent.JString "--mcp-config";
                   Persistent.JString
                     (JSON_stringify
                        (Persistent.JObject
                           [("mcpServers",
                             Persistent.JArray (Launch.items (Launch.mcpServers options)))]))]
             else [])
            ++ (if Launch.non_empty (Launch.mcpServerPermissions options)
                then [Persistent.JString "--mcp-server-permissions";
                      Persistent.JString
                        (JSON_stringify
                           (Persistent.JObject
                              (Launch.items (Launch.mcpServerPermissions options))))]
                else [])
            ++ (if Launch.given (Launch.configFile options)
                then [Persistent.JString "--config-file";
                      Persistent.JString (Launch.text (Launch.configFile options))]
                else [])
            ++ (if Launch.given (Launch.role options)
                then [Persistent.JString "--role";
                      Persistent.JString (Launch.text (Launch.role options))]
                else [])
            ++ (if Launch.given (Launch.systemPrompt options)
                then [Persistent.JString "--system-prompt";
                      Persistent.JString (Launch.text (Launch.systemPrompt options))]
                else [])).
    exists ((if Launch.given (Launch.model options)
             then [Persistent.JString "--model";
                   Persistent.JString (Launch.text (Launch.model options))]
             else [])
            ++ [Persistent.JString "--print"]).
    rewrite <- !app_assoc. reflexivity.
Qed.

(** X8 at the options of the demo with the permission mode it leaves
    commented out: [{ cwd, model: 'haiku', permissionMode:
    'bypassPermissions' }]. *)
Lemma X8_buildCommand_witness :
  exists a b c,
    Launch.buildCommand (fun _ => "{}") false None
      (Launch.mkOptions (Some "haiku") None None None
         (Some Launch.bypassPermissions) (Some "/work") None None None None)
    = a ++ [Persistent.JString "--dangerously-skip-permissions"]
        ++ b ++ [Persistent.JString "--permission-mode";
                 Persistent.JString "bypassPermissions"] ++ c.
Proof.
  apply (X8_buildCommand_frames_the_arguments (fun _ => "{}") false None
           (Launch.mkOptions (Some "haiku") None None None
              (Some Launch.bypassPermissions) (Some "/work") None None None None)).
  reflexivity.
Defined.

(* ===================================================================== *)
(** * Starting, reading and counting *)
(* ===================================================================== *)

Module SessionFacts.
Import Persistent PersistentProps SessionProps.
Import PersistentFacts ReachableFacts LoopFacts QueryFacts LifecycleFacts.

#[local] Arguments setState : simpl never.
#[local] Arguments emit : simpl never.
#[local] Arguments is_string : simpl never.
#[local] Arguments truthy : simpl never.
#[local] Arguments get : simpl never.
#[local] Arguments trim : simpl never.
#[local] Arguments MessageGenerator.step : simpl never.
#[local] Arguments MessageGenerator.setNextMessage : simpl never.
#[local] Arguments MessageGenerator.terminate : simpl never.

(** **** White space *)

Lemma trimStart_blank chars : white chars = true -> trimStart chars = [].
Proof.
  unfold trimStart.
  assert (H : forall n chars, length chars <= n -> white chars = true ->
                              strip space2 space3 chars = []).
  { induction n as [|n IH]; intros [|c1 rest1] Hn Hw; try reflexivity;
      [simpl in Hn; lia|].
    simpl in Hn, Hw |- *.
    destruct (space1 c1); [apply IH; [lia | exact Hw]|].
    destruct rest1 as [|c2 rest2]; [discriminate Hw|]. simpl in Hn.
    destruct (space2 c1 c2); [apply IH; [lia | exact Hw]|].
    destruct rest2 as [|c3 rest3]; [discriminate Hw|]. simpl in Hn.
    apply andb_true_iff in Hw as [H3 Hw]. rewrite H3.
    apply IH; [lia | exact Hw]. }
  apply (H (length chars)). lia.
Qed.

Lemma trim_blank line : blank line = true -> trim line = "".
Proof.
  unfold blank, trim. intros H. rewrite (trimStart_blank _ H). reflexivity.
Qed.

(** **** Values the handler of the client passes over *)

Lemma emit_falsy message w :
  truthy (Some message) = false ->
  emit (Event_message message) w = record_event (Event_message message) w.
Proof.
  intros Hf. unfold emit. generalize (record_event (Event_message message) w) as v.
  induction (eventHandlers (transport_object w)) as [|h hs IH]; intros v; simpl;
    [reflexivity|].
  destruct h. unfold call_handler, client_handleTransportEvent.
  rewrite Hf. apply IH.
Qed.

(** **** How [waitForSessionInit] ends *)

Lemma checkInit_reason w reason :
  checkInit w = InitRejected reason -> reason = failed_to_initialize.
Proof.
  unfold checkInit. destruct (truthy _); [discriminate|].
  destruct (if transport (client w) then _ else _) as [[]|];
    try discriminate; intros [= <-]; reflexivity.
Qed.

Lemma waitForSessionInit_outcome JSON_parse checks activity w :
  let result := waitForSessionInit JSON_parse checks activity w in
  match snd result with
  | Resolved _ => checkInit (fst result) = InitResolved
  | Threw reason =>
      reason = initialization_timeout
      \/ reason = failed_to_initialize
         /\ checkInit (fst result) = InitRejected failed_to_initialize
  end.
Proof.
  revert activity w. induction checks as [|n IH]; intros activity w; simpl.
  - left. reflexivity.
  - destruct (checkInit w) as [|reason|] eqn:E; simpl.
    + exact E.
    + right. pose proof (checkInit_reason w reason E) as ->.
      split; [reflexivity | exact E].
    + apply IH.
Qed.

Lemma checkInit_resolved w :
  checkInit w = InitResolved ->
  truthy (sessionId (transport_object w)) = true /\ transport (client w) = true.
Proof.
  unfold checkInit. destruct (transport (client w)).
  - destruct (truthy (sessionId (transport_object w))); [tauto|].
    destruct (state (transport_object w)); discriminate.
  - unfold truthy. discriminate.
Qed.

Lemma checkInit_rejected w reason :
  checkInit w = InitRejected reason ->
  transport (client w) = true
  /\ (state (transport_object w) = Persistent.error
      \/ state (transport_object w) = terminated).
Proof.
  unfold checkInit. destruct (transport (client w)).
  - destruct (truthy (sessionId (transport_object w))); [discriminate|].
    destruct (state (transport_object w)); try discriminate; tauto.
  - unfold truthy. discriminate.
Qed.

(** The errors of the first part of [start()]. *)
Lemma start_head_errors initialPrompt spawn w reason :
  snd (start_head initialPrompt spawn w) = Threw reason ->
  reason = already_started_error
  \/ reason = not_found_error
  \/ reason = connection_error.
Proof.
  unfold start_head. destruct (transport (client w)).
  { simpl. intros [= <-]. tauto. }
  match goal with |- context [transport_start spawn ?v] => set (w3 := v) end.
  assert (Hs : state (transport_object w3) = not_started) by reflexivity.
  unfold transport_start. rewrite Hs. simpl.
  destruct spawn as [|child].
  - simpl. intros [= <-]. tauto.
  - match goal with |- context [if ?c then _ else _] => destruct c end.
    + simpl. intros [= <-]. tauto.
    + destruct initialPrompt as [prompt|]; [destruct (negb _)|]; simpl; discriminate.
Qed.

End SessionFacts.

(* ===================================================================== *)
(** * Further properties of the session: starting and reading *)
(* ===================================================================== *)

(** X10.  A [start()] that fails to get a subprocess (no executable, or
    a child without its stdin or stdout pipe) is rejected with the
    error of the transport (without an executable: the
    CLINotFoundError that [findCLI] throws, with the two lines of its
    message), after the events Initializing, Error and the error
    event; neither loop is running and [isAlive()] is false.  The
    client keeps the failed transport: a second [start()] is rejected
    with 'Client already started' and [query()] with 'Process is not
    alive', whatever they are given. *)
Theorem X10_a_failed_start_leaves_the_client_started :
  forall (JSON_parse : string -> option Persistent.JSON)
         (initialPrompt : option string) (spawn : Persistent.SpawnResult)
         (options_signal : option bool) (activity : list (list Persistent.Label)),
    let result := Persistent.start JSON_parse initialPrompt spawn activity
                    (Persistent.new_client options_signal) in
    let w := fst result in
    SessionProps.failed_spawn spawn = true ->
    snd result = Persistent.Threw (SessionProps.spawn_error spawn)
    /\ SessionProps.spawn_error Persistent.CLINotFound = Launch.cli_not_found
    /\ Persistent.emitted w
       = [Persistent.Event_state_change Persistent.initializing;
          Persistent.Event_state_change Persistent.error;
          Persistent.Event_error (SessionProps.spawn_error spawn)]
    /\ Persistent.state (Persistent.transport_object w) = Persistent.error
    /\ Persistent.client_isAlive w = false
    /\ Persistent.writer w = Persistent.WriterIdle
    /\ Persistent.reader w = Persistent.ReaderIdle
    /\ (forall initialPrompt' spawn' activity',
          Persistent.start JSON_parse initialPrompt' spawn' activity' w
          = (w, Persistent.Threw SessionProps.already_started_error))
    /\ (forall prompt,
          Persistent.settled_queries
            (Persistent.step JSON_parse (Persistent.CallQuery prompt) w)
          = [(0, Persistent.Threw PersistentProps.not_alive_error)]).
Proof.
  intros JSON_parse initialPrompt spawn options_signal activity result w Hf.
  subst w result.
  destruct spawn as [|[[pipe|] [|] k x]]; try discriminate Hf;
    destruct options_signal as [b|]; cbv; repeat split.
Qed.

(** X10 at a machine without the executable. *)
Lemma X10_failed_start_witness :
  snd (Persistent.start Samples.sample_parse None Persistent.CLINotFound []
         (Persistent.new_client None))
  = Persistent.Threw
      (mkError "CLINotFoundError"
         ("Claude CLI not found. Please install it first." ++ String "010" ""
          ++ "Visit: https://github.com/anthropics/anthropic-sdk-typescript/tree/main/packages/claude-code")).
Proof.
  apply (X10_a_failed_start_leaves_the_client_started Samples.sample_parse None
           Persistent.CLINotFound None []).
  reflexivity.
Defined.

(** X15.  A line of white space only, white space being what
    [String.prototype.trim] strips (also U+00A0, U+FEFF and the other
    space characters beyond ASCII), changes nothing: no event, no
    warning, no change of state, as long as the signal is not aborted.
    (With the signal aborted, any line, blank or not, ends the loop.) *)
Theorem X15_blank_lines_are_skipped :
  forall (JSON_parse : string -> option Persistent.JSON) (w : Persistent.World)
         (line : string),
    SessionProps.blank line = true ->
    (Persistent.aborted (Persistent.transport_object w) = false ->
     Persistent.step JSON_parse (Persistent.ReadLine line) w = w)
    /\ (Persistent.aborted (Persistent.transport_object w) = true ->
        Persistent.reader w = Persistent.ReaderRunning ->
        Persistent.step JSON_parse (Persistent.ReadLine line) w
        = Persistent.set_reader Persistent.ReaderAborted w).
Proof.
  intros JSON_parse w line Hb. simpl. unfold Persistent.reader_line.
  split.
  - intros Ha. rewrite Ha, (SessionFacts.trim_blank line Hb). simpl.
    destruct (Persistent.reader w); reflexivity.
  - intros Ha Hr. rewrite Hr, Ha. reflexivity.
Qed.

(** X15 at a line of two spaces, a tab, a NO-BREAK SPACE (C2 A0) and
    a U+FEFF (EF BB BF). *)
Lemma X15_blank_line_witness :
  Persistent.step Samples.sample_parse
    (Persistent.ReadLine
       ("  " ++ String "009" (String "194" (String "160"
                  (String "239" (String "187" (String "191" "")))))))
    Samples.started
  = Samples.started.
Proof.
  apply (X15_blank_lines_are_skipped Samples.sample_parse Samples.started
           ("  " ++ String "009" (String "194" (String "160"
                      (String "239" (String "187" (String "191" "")))))));
    reflexivity.
Defined.

(** X16.  A line that parses to a falsy value other than [null]
    ([false], [0], [NaN], the empty string) is forwarded as a message
    event, and that is all that happens: the handler of the client
    tests [event.message] and passes the value over, so it reaches no
    buffer and no [query()] call. *)
Theorem X16_falsy_values_are_forwarded_but_not_buffered :
  forall (JSON_parse : string -> option Persistent.JSON) (w : Persistent.World)
         (line : string) (parsed : Persistent.JSON),
    Persistent.reader w = Persistent.ReaderRunning ->
    Persistent.aborted (Persistent.transport_object w) = false ->
    Persistent.trim line <> "" ->
    JSON_parse (Persistent.trim line) = Some parsed ->
    parsed <> Persistent.JNull ->
    Persistent.truthy (Some parsed) = false ->
    Persistent.step JSON_parse (Persistent.ReadLine line) w
    = Persistent.record_event (Persistent.Event_message parsed) w.
Proof.
  intros JSON_parse w line parsed Hr Ha Hn Hp Hnull Hf.
  simpl. unfold Persistent.reader_line. rewrite Hr, Ha, Hp.
  destruct (String.eqb (Persistent.trim line) "") eqn:E;
    [apply String.eqb_eq in E; contradiction|].
  unfold Persistent.handle_parsed.
  destruct parsed as [|b|x|s|items|members]; try contradiction;
    try discriminate Hf; simpl;
    apply SessionFacts.emit_falsy, Hf.
Qed.

(** X16 at the line [0] with a parser that knows it. *)
Lemma X16_falsy_value_witness :
  Persistent.step (fun text => if String.eqb text "0"
                               then Some (Persistent.JNumber 0%float) else None)
    (Persistent.ReadLine "0") Samples.started
  = Persistent.record_event
      (Persistent.Event_message (Persistent.JNumber 0%float)) Samples.started.
Proof.
  apply (X16_falsy_values_are_forwarded_but_not_buffered
           (fun text => if String.eqb text "0"
                        then Some (Persistent.JNumber 0%float) else None)
           Samples.started "0" (Persistent.JNumber 0%float));
    try reflexivity; discriminate.
Defined.

(* ===================================================================== *)
(** * What the steps of a session leave alone *)
(* ===================================================================== *)

Module FrameFacts.
Import Persistent PersistentProps SessionProps.
Import PersistentFacts ReachableFacts LoopFacts QueryFacts LifecycleFacts SessionFacts.

#[local] Arguments setState : simpl never.
#[local] Arguments emit : simpl never.
#[local] Arguments is_string : simpl never.
#[local] Arguments truthy : simpl never.
#[local] Arguments get : simpl never.
#[local] Arguments trim : simpl never.
#[local] Arguments MessageGenerator.step : simpl never.
#[local] Arguments MessageGenerator.setNextMessage : simpl never.
#[local] Arguments MessageGenerator.terminate : simpl never.

(** **** The flags of the client *)

Lemma handler_flags h e w : flags (call_handler h e w) = flags w.
Proof.
  destruct h, e as [s|m|r|sid];
    unfold call_handler, client_handleTransportEvent; try reflexivity.
  - destruct (ProcessState_eqb s paused); reflexivity.
  - destruct (truthy (Some m)); [|reflexivity].
    unfold handleMessage. destruct (is_string _ _); reflexivity.
Qed.

Lemma emit_flags e w : flags (emit e w) = flags w.
Proof.
  unfold emit. change (flags w) with (flags (record_event e w)).
  generalize (record_event e w) as v.
  induction (eventHandlers (transport_object w)) as [|h hs IH]; intros v; simpl;
    [reflexivity|].
  rewrite IH. apply handler_flags.
Qed.

Lemma setState_flags s w : flags (setState s w) = flags w.
Proof.
  unfold setState. destruct (ProcessState_eqb _ _); [reflexivity|].
  rewrite emit_flags. reflexivity.
Qed.

Lemma handle_parsed_flags parsed w : flags (handle_parsed parsed w) = flags w.
Proof.
  unfold handle_parsed.
  destruct (_ && _ && _); [destruct (get "session_id" parsed)|];
    destruct (is_string "result" _);
    rewrite ?emit_flags, ?setState_flags, ?emit_flags; reflexivity.
Qed.

Lemma client_flags w w' : client w' = client w -> flags w' = flags w.
Proof. unfold flags. intros ->. reflexivity. Qed.

Lemma client_side_flags w w' : client_side w' = client_side w -> flags w' = flags w.
Proof. unfold client_side. intros [= H _ _]. apply client_flags, H. Qed.

(** Only [query()] and [stop()] write to the flags. *)
Lemma step_flags JSON_parse l w :
  (forall prompt, l <> CallQuery prompt) -> stop_label l = false ->
  flags (step JSON_parse l w) = flags w.
Proof.
  intros Hq Hs. destruct l; cbn [step]; try discriminate Hs;
    try (exfalso; eapply Hq; reflexivity).
  - unfold query_tail. destruct (existsb _ _); reflexivity.
  - apply client_side_flags, terminate_resume_client_side.
  - reflexivity.
  - apply client_side_flags, writer_receive_client_side.
  - apply client_side_flags, writer_timer_client_side.
  - unfold reader_line. destruct (reader w); try reflexivity.
    destruct (aborted _); [reflexivity|]. destruct (_ =? _)%string; [reflexivity|].
    destruct (JSON_parse _) as [[]|]; try reflexivity; apply handle_parsed_flags.
  - unfold reader_close. destruct (reader w); reflexivity.
  - unfold reader_failure. destruct (reader w); try reflexivity.
    unfold reader_catch. destruct (aborted _); [reflexivity|].
    change (flags (set_reader ?v ?x)) with (flags x).
    rewrite emit_flags, setState_flags. reflexivity.
  - reflexivity.
  - apply client_side_flags, signal_abort_client_side.
Qed.

Lemma terminate_head_flags w : flags (fst (terminate_head w)) = flags w.
Proof. apply client_side_flags, terminate_head_client_side. Qed.

Lemma terminate_flags w : flags (fst (terminate w)) = flags w.
Proof. apply client_flags, terminate_client. Qed.

(** **** A client that was stopped *)

Lemma query_head_not_started prompt w :
  messageGenerator (client w) = false ->
  query_head prompt w
  = settle (next_call w) (Threw not_started_error) (set_next_call (S (next_call w)) w).
Proof.
  intros H. unfold query_head. simpl. rewrite H, orb_true_r. reflexivity.
Qed.

Lemma stop_head_flags w :
  messageGenerator (client (stop_head w)) = false
  /\ (transport (client w) = false ->
      flags (stop_head w) = (false, false, 0)).
Proof.
  unfold stop_head.
  set (w1 := if messageGenerator (client w) then _ else w).
  assert (H1 : messageGenerator (client w1) = false
               /\ transport (client w1) = transport (client w)).
  { unfold w1. destruct (messageGenerator (client w)) eqn:E; simpl; auto. }
  destruct H1 as [H1 H2]. rewrite H2.
  destruct (transport (client w)) eqn:Et.
  - pose proof (terminate_head_flags w1) as Hf.
    destruct (terminate_head w1) as [w2 b]; simpl in *.
    split; [|discriminate]. unfold flags in Hf. injection Hf as _ Hg _.
    rewrite Hg. exact H1.
  - simpl. split; [exact H1|]. intros _. unfold flags. simpl. rewrite H1, H2. reflexivity.
Qed.

Lemma generator_dropped_step JSON_parse l w :
  messageGenerator (client w) = false ->
  messageGenerator (client (step JSON_parse l w)) = false.
Proof.
  intros H.
  destruct (stop_label l) eqn:Es.
  - destruct l; try discriminate Es; cbn [step].
    + apply stop_head_flags.
    + unfold stop_resume. destruct (drop_returned _); [|exact H]. simpl. exact H.
  - assert (Hq : (exists prompt, l = CallQuery prompt)
                 \/ forall prompt, l <> CallQuery prompt)
      by (destruct l; try (right; discriminate); left; eexists; reflexivity).
    destruct Hq as [[prompt ->] | Hq].
    + cbn [step]. rewrite (query_head_not_started prompt w H). exact H.
    + pose proof (step_flags JSON_parse l w Hq Es) as Hf.
      unfold flags in Hf. injection Hf as _ Hg _. rewrite Hg. exact H.
Qed.

Lemma generator_dropped_run JSON_parse ls w :
  messageGenerator (client w) = false ->
  messageGenerator (client (run JSON_parse ls w)) = false.
Proof.
  revert w. induction ls as [|l ls IH]; intros w H; [exact H|].
  apply IH, generator_dropped_step, H.
Qed.

Lemma stopped_step JSON_parse l w :
  flags w = (false, false, 0) -> flags (step JSON_parse l w) = (false, false, 0).
Proof.
  intros H. pose proof H as Hf. unfold flags in Hf. injection Hf as Ht Hg Hc.
  destruct (stop_label l) eqn:Es.
  - destruct l; try discriminate Es; cbn [step].
    + apply stop_head_flags, Ht.
    + unfold stop_resume. destruct (drop_returned _); [|exact H].
      unfold flags. simpl. rewrite Hg. reflexivity.
  - assert (Hq : (exists prompt, l = CallQuery prompt)
                 \/ forall prompt, l <> CallQuery prompt)
      by (destruct l; try (right; discriminate); left; eexists; reflexivity).
    destruct Hq as [[prompt ->] | Hq].
    + cbn [step]. rewrite (query_head_not_started prompt w Hg). exact H.
    + rewrite (step_flags JSON_parse l w Hq Es). exact H.
Qed.

Lemma stopped_run JSON_parse ls w :
  flags w = (false, false, 0) -> flags (run JSON_parse ls w) = (false, false, 0).
Proof.
  revert w. induction ls as [|l ls IH]; intros w H; [exact H|].
  apply IH, stopped_step, H.
Qed.

Lemma stop_flags w : flags (fst (stop w)) = (false, false, 0).
Proof.
  unfold stop. cbn [fst].
  set (w1 := if messageGenerator (client w) then _ else w).
  assert (H1 : messageGenerator (client w1) = false).
  { unfold w1. destruct (messageGenerator (client w)) eqn:E; simpl; auto. }
  destruct (transport (client w1)) eqn:Et.
  - pose proof (terminate_flags w1) as Hf. unfold flags in *. simpl.
    injection Hf as _ Hg _. rewrite Hg, H1. reflexivity.
  - unfold flags. simpl. rewrite Et, H1. reflexivity.
Qed.

(** **** The process handle, once dropped *)

Lemma setState_process s w :
  process (transport_object (setState s w)) = process (transport_object w).
Proof. rewrite setState_transport. reflexivity. Qed.

Lemma handle_parsed_process parsed w :
  process (transport_object (handle_parsed parsed w)) = process (transport_object w).
Proof.
  unfold handle_parsed.
  destruct (_ && _ && _); [destruct (get "session_id" parsed)|];
    destruct (is_string "result" _); outs; reflexivity.
Qed.

Lemma terminate_tail_process w : process (transport_object (terminate_tail w)) = None.
Proof. unfold terminate_tail. reflexivity. Qed.

Lemma no_process_step JSON_parse l w :
  process (transport_object w) = None ->
  process (transport_object (step JSON_parse l w)) = None.
Proof.
  intros H. destruct l; cbn [step].
  - unfold query_head. destruct (_ || _); [exact H|].
    destruct (negb (client_isAlive _)); exact H.
  - unfold stop_head.
    set (w1 := if messageGenerator (client w) then _ else w).
    assert (H1 : process (transport_object w1) = None)
      by (unfold w1; destruct (messageGenerator (client w)); exact H).
    destruct (transport (client w1)); [|exact H1].
    destruct (terminate_head_cases w1)
      as [[_ E]|[(_ & _ & w' & E & _ & _ & _ & (p & Ep & _) & _)
                |(_ & _ & _ & w' & E & Et & _)]];
      rewrite E; simpl.
    + exact H1.
    + congruence.
    + rewrite Et. reflexivity.
  - unfold query_tail. destruct (existsb _ _); exact H.
  - unfold terminate_resume. destruct (process_settled _); [|exact H].
    destruct (mark_returned _); [|exact H]. reflexivity.
  - unfold stop_resume. destruct (drop_returned _); exact H.
  - exact H.
  - unfold writer_receive. destruct (writer w); try exact H.
    destruct (MessageGenerator.generator _); try exact H.
    + destruct (_ || _); [exact H|].
      rewrite checkState_transport. simpl. rewrite setState_process, H. reflexivity.
    + unfold writer_catch. destruct (aborted _); [exact H|]. outs. exact H.
  - unfold writer_timer. destruct (writer w); try exact H.
    rewrite checkState_transport. exact H.
  - unfold reader_line. destruct (reader w); try exact H.
    destruct (aborted _); [exact H|]. destruct (_ =? _)%string; [exact H|].
    destruct (JSON_parse _) as [[]|]; try exact H;
      rewrite handle_parsed_process; exact H.
  - unfold reader_close. destruct (reader w); exact H.
  - unfold reader_failure. destruct (reader w); try exact H.
    unfold reader_catch. destruct (aborted _); [exact H|]. outs. exact H.
  - simpl. rewrite H. reflexivity.
  - unfold signal_abort. destruct (signal _); [|exact H]. simpl.
    destruct (cleanupAbort _); simpl; rewrite ?H; reflexivity.
Qed.

Lemma no_process_run JSON_parse ls w :
  process (transport_object w) = None ->
  process (transport_object (run JSON_parse ls w)) = None.
Proof.
  revert w. induction ls as [|l ls IH]; intros w H; [exact H|].
  apply IH, no_process_step, H.
Qed.

Lemma terminate_process w :
  state (transport_object w) <> not_started ->
  state (transport_object w) <> terminated ->
  process (transport_object (fst (terminate w))) = None.
Proof.
  intros N1 N2. unfold terminate.
  destruct (terminate_head_cases w)
    as [[[Hs|Hs] _]|[(_ & _ & w' & E & _)|(_ & _ & _ & w' & E & Et & _)]];
    try contradiction; rewrite E; cbn [fst snd].
  - reflexivity.
  - rewrite Et. reflexivity.
Qed.

(** **** The session id and the session events *)

Lemma last_session_snoc events event :
  last_session (events ++ [event])
  = match event with
    | Event_session_initialized sessionId => Some sessionId
    | _ => last_session events
    end.
Proof. unfold last_session. rewrite fold_left_app. reflexivity. Qed.

Lemma tracked_same w w' :
  sessionId (transport_object w') = sessionId (transport_object w) ->
  emitted w' = emitted w ->
  session_tracked w -> session_tracked w'.
Proof. unfold session_tracked. intros -> ->. tauto. Qed.

Lemma tracked_emit event w :
  match event with Event_session_initialized _ => False | _ => True end ->
  session_tracked w -> session_tracked (emit event w).
Proof.
  unfold session_tracked. intros He H.
  rewrite emit_transport, emit_emitted, last_session_snoc.
  destruct event; try contradiction; exact H.
Qed.

Lemma tracked_setState s w : session_tracked w -> session_tracked (setState s w).
Proof.
  unfold session_tracked. intros H.
  rewrite setState_transport, setState_emitted. simpl.
  destruct (ProcessState_eqb _ _); [rewrite app_nil_r; exact H|].
  rewrite last_session_snoc. exact H.
Qed.

Lemma tracked_with_transport f w :
  (forall t, sessionId (f t) = sessionId t) ->
  session_tracked w -> session_tracked (with_transport f w).
Proof. unfold session_tracked. simpl. intros -> H. exact H. Qed.

Lemma tracked_handle_parsed parsed w :
  session_tracked w -> session_tracked (handle_parsed parsed w).
Proof.
  intros H. unfold handle_parsed.
  apply tracked_emit; [exact I|].
  match goal with
  | |- session_tracked (if ?c then setState paused ?v else ?v) =>
      assert (H1 : session_tracked v); [|destruct c; [apply tracked_setState|]; exact H1]
  end.
  destruct (_ && _ && _); [|exact H].
  destruct (get "session_id" parsed) as [sid|]; [|exact H].
  unfold session_tracked.
  rewrite emit_transport, emit_emitted, last_session_snoc. reflexivity.
Qed.

Lemma tracked_terminate_tail w : session_tracked w -> session_tracked (terminate_tail w).
Proof.
  intros H. unfold terminate_tail.
  apply tracked_with_transport; [reflexivity|]. apply tracked_setState, H.
Qed.

Lemma tracked_terminate_head w :
  session_tracked w -> session_tracked (fst (terminate_head w)).
Proof.
  intros H. unfold terminate_head.
  destruct (_ || _); [exact H|].
  match goal with |- context [match ?p with Some _ => _ | None => _ end] =>
    destruct p end; cbn [fst].
  - do 2 (apply tracked_with_transport; [reflexivity|]). apply tracked_setState, H.
  - apply tracked_terminate_tail.
    do 2 (apply tracked_with_transport; [reflexivity|]). apply tracked_setState, H.
Qed.

Lemma tracked_step JSON_parse l w :
  session_tracked w -> session_tracked (step JSON_parse l w).
Proof.
  intros H. destruct l; cbn [step].
  - unfold query_head. destruct (_ || _); [exact H|].
    destruct (negb (client_isAlive _)); exact H.
  - unfold stop_head.
    set (w1 := if messageGenerator (client w) then _ else w).
    assert (H1 : session_tracked w1)
      by (unfold w1; destruct (messageGenerator (client w)); exact H).
    destruct (transport (client w1)); [|exact H1].
    pose proof (tracked_terminate_head w1 H1) as H2.
    destruct (terminate_head w1) as [w2 b]. exact H2.
  - unfold query_tail. destruct (existsb _ _); exact H.
  - unfold terminate_resume. destruct (process_settled _); [|exact H].
    destruct (mark_returned _); [|exact H].
    apply (tracked_terminate_tail w H).
  - unfold stop_resume. destruct (drop_returned _); exact H.
  - exact H.
  - unfold writer_receive. destruct (writer w); try exact H.
    destruct (MessageGenerator.generator _); try exact H.
    + destruct (_ || _); [exact H|].
      unfold checkState.
      match goal with |- session_tracked (if _ then request_next ?v else set_writer _ ?v) =>
        assert (H1 : session_tracked v) end.
      { apply tracked_with_transport; [reflexivity|]. apply tracked_setState, H. }
      destruct (_ || _); exact H1.
    + unfold writer_catch. destruct (aborted _); [exact H|].
      apply (tracked_emit (Event_error _)); [exact I|]. apply tracked_setState, H.
  - unfold writer_timer. destruct (writer w); try exact H.
    unfold checkState. destruct (_ || _); exact H.
  - unfold reader_line. destruct (reader w); try exact H.
    destruct (aborted _); [exact H|]. destruct (_ =? _)%string; [exact H|].
    destruct (JSON_parse _) as [[]|]; try exact H; apply tracked_handle_parsed, H.
  - unfold reader_close. destruct (reader w); exact H.
  - unfold reader_failure. destruct (reader w); try exact H.
    unfold reader_catch. destruct (aborted _); [exact H|].
    apply (tracked_emit (Event_error _)); [exact I|]. apply tracked_setState, H.
  - exact H.
  - unfold signal_abort. destruct (signal _); [|exact H].
    apply tracked_with_transport; [|exact H].
    intros t. destruct (cleanupAbort t); reflexivity.
Qed.

Lemma tracked_run JSON_parse ls w :
  session_tracked w -> session_tracked (run JSON_parse ls w).
Proof.
  revert w. induction ls as [|l ls IH]; intros w H; [exact H|].
  apply IH, tracked_step, H.
Qed.

Lemma tracked_session initialPrompt spawn options_signal :
  session_tracked (session initialPrompt spawn options_signal).
Proof.
  unfold session_tracked, session.
  destruct spawn as [|[[pipe|] [|] k x]], options_signal as [b|],
    initialPrompt as [prompt|]; try reflexivity;
    cbn; destruct (negb (prompt =? "")%string); reflexivity.
Qed.

Lemma session_no_id initialPrompt spawn options_signal :
  sessionId (transport_object (session initialPrompt spawn options_signal)) = None.
Proof.
  unfold session.
  destruct spawn as [|[[pipe|] [|] k x]], options_signal as [b|],
    initialPrompt as [prompt|]; try reflexivity;
    cbn; destruct (negb (prompt =? "")%string); reflexivity.
Qed.

(** A session id that was stored is truthy. *)
Lemma truthy_session_step JSON_parse l w :
  sessionId (transport_object w) = None
  \/ truthy (sessionId (transport_object w)) = true ->
  sessionId (transport_object (step JSON_parse l w)) = None
  \/ truthy (sessionId (transport_object (step JSON_parse l w))) = true.
Proof.
  intros H.
  assert (Hsame : forall w', sessionId (transport_object w') = sessionId (transport_object w) ->
            sessionId (transport_object w') = None
            \/ truthy (sessionId (transport_object w')) = true)
    by (intros w' ->; exact H).
  destruct l; cbn [step].
  - apply Hsame. unfold query_head. destruct (_ || _); [reflexivity|].
    destruct (negb (client_isAlive _)); reflexivity.
  - apply Hsame. unfold stop_head.
    set (w1 := if messageGenerator (client w) then _ else w).
    assert (H1 : transport_object w1 = transport_object w)
      by (unfold w1; destruct (messageGenerator (client w)); reflexivity).
    destruct (transport (client w1)); [|simpl; rewrite H1; reflexivity].
    destruct (terminate_head_cases w1)
      as [[_ E]|[(_ & _ & w' & E & _ & _ & Es & _)
                |(_ & _ & _ & w' & E & Et & _)]];
      rewrite E; simpl; rewrite ?Es, ?Et, ?H1; reflexivity.
  - apply Hsame. unfold query_tail. destruct (existsb _ _); reflexivity.
  - apply Hsame. unfold terminate_resume. destruct (process_settled _); [|reflexivity].
    destruct (mark_returned _); [|reflexivity].
    unfold terminate_tail. outs. reflexivity.
  - apply Hsame. unfold stop_resume. destruct (drop_returned _); reflexivity.
  - apply Hsame. reflexivity.
  - apply Hsame. unfold writer_receive. destruct (writer w); try reflexivity.
    destruct (MessageGenerator.generator _); try reflexivity.
    + destruct (_ || _); [reflexivity|].
      rewrite checkState_transport. outs. reflexivity.
    + unfold writer_catch. destruct (aborted _); outs; reflexivity.
  - apply Hsame. unfold writer_timer. destruct (writer w); try reflexivity.
    rewrite checkState_transport. reflexivity.
  - unfold reader_line. destruct (reader w); try exact H.
    destruct (aborted _); [exact H|]. destruct (_ =? _)%string; [exact H|].
    destruct (JSON_parse _) as [parsed|]; [|exact H].
    assert (Hp : sessionId (transport_object (handle_parsed parsed w)) = None
                 \/ truthy (sessionId (transport_object (handle_parsed parsed w))) = true).
    { destruct (is_string "system" (get "type" parsed)
                && is_string "init" (get "subtype" parsed)
                && truthy (get "session_id" parsed)) eqn:E.
      - right. unfold handle_parsed. rewrite E.
        apply andb_true_iff in E as [_ Et].
        destruct (get "session_id" parsed) as [sid|] eqn:Eg;
          [|unfold truthy in Et; discriminate].
        destruct (is_string "result" _); outs; exact Et.
      - apply Hsame, handle_parsed_sessionId, E. }
    destruct parsed; try exact Hp; exact H.
  - apply Hsame. unfold reader_close. destruct (reader w); reflexivity.
  - apply Hsame. unfold reader_failure. destruct (reader w); try reflexivity.
    unfold reader_catch. destruct (aborted _); outs; reflexivity.
  - apply Hsame. reflexivity.
  - apply Hsame. unfold signal_abort. destruct (signal _); [|reflexivity]. simpl.
    destruct (cleanupAbort _); reflexivity.
Qed.

End FrameFacts.

(* ===================================================================== *)
(** * Counting calls, aborting, waiting for the exit *)
(* ===================================================================== *)

Module CallFacts.
Import Persistent PersistentProps SessionProps.
Import PersistentFacts ReachableFacts LoopFacts QueryFacts LifecycleFacts.
Import SessionFacts FrameFacts.

#[local] Arguments setState : simpl never.
#[local] Arguments emit : simpl never.
#[local] Arguments is_string : simpl never.
#[local] Arguments truthy : simpl never.
#[local] Arguments get : simpl never.
#[local] Arguments trim : simpl never.
#[local] Arguments MessageGenerator.step : simpl never.
#[local] Arguments MessageGenerator.setNextMessage : simpl never.
#[local] Arguments MessageGenerator.terminate : simpl never.

(** **** Calls made, accepted and rejected *)

(** Only [query()] ends a call. *)
Lemma step_settled_same JSON_parse l w :
  (forall prompt, l <> CallQuery prompt) -> (forall call, l <> QueryResume call) ->
  settled_queries (step JSON_parse l w) = settled_queries w.
Proof.
  intros Hq Hr. destruct l; cbn [step];
    try (exfalso; eapply Hq; reflexivity); try (exfalso; eapply Hr; reflexivity).
  - unfold stop_head.
    set (w1 := if messageGenerator (client w) then _ else w).
    assert (E1 : settled_queries w1 = settled_queries w)
      by (unfold w1; destruct (messageGenerator _); reflexivity).
    destruct (transport (client w1)); [|simpl; exact E1].
    pose proof (terminate_head_settled w1) as E.
    destruct (terminate_head w1) as [w2 b]; simpl in *. congruence.
  - unfold terminate_resume. destruct (process_settled _); [|reflexivity].
    destruct (mark_returned _); [|reflexivity]. apply terminate_tail_settled.
  - unfold stop_resume. destruct (drop_returned _); reflexivity.
  - reflexivity.
  - unfold writer_receive. destruct (writer w); try reflexivity.
    destruct (MessageGenerator.generator _); try reflexivity.
    + destruct (_ || _); [reflexivity|]. unfold checkState.
      destruct (_ || _); outs; reflexivity.
    + unfold writer_catch. destruct (aborted _); outs; reflexivity.
  - unfold writer_timer. destruct (writer w); try reflexivity.
    unfold checkState. destruct (_ || _); reflexivity.
  - unfold reader_line. destruct (reader w); try reflexivity.
    destruct (aborted _); [reflexivity|]. destruct (_ =? _)%string; [reflexivity|].
    destruct (JSON_parse _) as [[]|]; try reflexivity; apply handle_parsed_settled.
  - unfold reader_close. destruct (reader w); reflexivity.
  - unfold reader_failure. destruct (reader w); try reflexivity.
    unfold reader_catch. destruct (aborted _); outs; reflexivity.
  - reflexivity.
  - unfold signal_abort. destruct (signal _); reflexivity.
Qed.

Lemma rejected_settle_threw call reason w :
  rejected (settle call (Threw reason) w) = rejected w ++ [(call, Threw reason)].
Proof. unfold rejected. simpl. rewrite List.filter_app. reflexivity. Qed.

Lemma rejected_settle_resolved call r w :
  rejected (settle call (Resolved r) w) = rejected w.
Proof. unfold rejected. simpl. rewrite List.filter_app. simpl. apply app_nil_r. Qed.

Lemma counted_step JSON_parse l w :
  stop_label l = false -> counted w -> counted (step JSON_parse l w).
Proof.
  unfold counted. intros Hs H.
  assert (Hl : (exists prompt, l = CallQuery prompt)
               \/ (exists call, l = QueryResume call)
               \/ ((forall prompt, l <> CallQuery prompt)
                   /\ forall call, l <> QueryResume call)).
  { destruct l; try (right; right; split; discriminate);
      [left | right; left]; eexists; reflexivity. }
  destruct Hl as [[prompt ->] | [[call ->] | [Hq Hr]]]; cbn [step].
  - unfold query_head. destruct (_ || _).
    + rewrite rejected_settle_threw, length_app. simpl in *. unfold rejected in *.
      simpl. lia.
    + destruct (negb (client_isAlive _)).
      * rewrite rejected_settle_threw, length_app. simpl in *. unfold rejected in *.
        simpl. lia.
      * unfold rejected in *. simpl in *. lia.
  - unfold query_tail. destruct (existsb _ _); [|exact H].
    rewrite rejected_settle_resolved. unfold rejected in *. simpl in *. exact H.
  - pose proof (step_flags JSON_parse l w Hq Hs) as Hf.
    unfold flags in Hf. injection Hf as _ _ Hc.
    pose proof (step_no_new_call JSON_parse l w Hq) as [Hn _].
    unfold rejected in *. rewrite (step_settled_same JSON_parse l w Hq Hr).
    cbn [step] in *. lia.
Qed.

Lemma counted_run JSON_parse ls w :
  forallb (fun l => negb (stop_label l)) ls = true ->
  counted w ->
  counted (run JSON_parse ls w) /\
  next_call (run JSON_parse ls w) = next_call w + length (prompts ls).
Proof.
  revert w. induction ls as [|l ls IH]; intros w Hs H.
  - simpl. split; [exact H | lia].
  - simpl in Hs. apply andb_true_iff in Hs as [Hl Hs].
    apply negb_true_iff in Hl.
    destruct (IH (step JSON_parse l w) Hs (counted_step JSON_parse l w Hl H))
      as [H1 H2].
    change (run JSON_parse (l :: ls) w)
      with (run JSON_parse ls (step JSON_parse l w)).
    split; [exact H1|]. rewrite H2.
    assert (Hn : next_call (step JSON_parse l w)
                 = next_call w + length (prompts [l])).
    { assert (Hq : (exists prompt, l = CallQuery prompt)
                   \/ forall prompt, l <> CallQuery prompt)
        by (destruct l; try (right; discriminate); left; eexists; reflexivity).
      destruct Hq as [[prompt ->] | Hq].
      - cbn [step]. unfold query_head. destruct (_ || _); [simpl; lia|].
        destruct (negb (client_isAlive _)); simpl; lia.
      - pose proof (step_no_new_call JSON_parse l w Hq) as [Hn _].
        rewrite Hn. destruct l; simpl; try lia. exfalso. eapply Hq. reflexivity. }
    rewrite Hn. change (l :: ls) with ([l] ++ ls).
    unfold prompts. rewrite flat_map_app, !length_app. fold (prompts [l]).
    fold (prompts ls). lia.
Qed.

Lemma counted_session initialPrompt spawn options_signal :
  counted (session initialPrompt spawn options_signal)
  /\ next_call (session initialPrompt spawn options_signal) = 0.
Proof.
  unfold counted, session, rejected.
  destruct spawn as [|[[pipe|] [|] k x]], options_signal as [b|],
    initialPrompt as [prompt|]; try (split; reflexivity);
    cbn; destruct (negb (prompt =? "")%string); split; reflexivity.
Qed.

(** **** After the signal was aborted *)

Lemma hushed_refl w : hushed w w.
Proof.
  repeat split; try tauto. exists []. rewrite app_nil_r. split; reflexivity.
Qed.

Lemma hushed_trans w1 w2 w3 : hushed w1 w2 -> hushed w2 w3 -> hushed w1 w3.
Proof.
  intros (A1 & B1 & (e1 & E1 & Q1) & C1 & D1) (A2 & B2 & (e2 & E2 & Q2) & C2 & D2).
  repeat split; try congruence; auto.
  exists (e1 ++ e2). rewrite E2, E1, app_assoc. split; [reflexivity|].
  rewrite forallb_app, Q1, Q2. reflexivity.
Qed.

(** A change that leaves signal, session id, events, client and
    resumable calls alone. *)
Lemma hushed_same w w' :
  signal (transport_object w') = signal (transport_object w) ->
  sessionId (transport_object w') = sessionId (transport_object w) ->
  emitted w' = emitted w ->
  waitingForResult (client w') = waitingForResult (client w) ->
  resumable w' = resumable w ->
  hushed w w'.
Proof.
  intros A B E C D. repeat split; try assumption.
  - exists []. rewrite app_nil_r. split; [exact E | reflexivity].
  - rewrite C. tauto.
  - rewrite D. tauto.
Qed.

Lemma hushed_setState s w : s <> paused -> hushed w (setState s w).
Proof.
  intros Hs. destruct (setState_keeps_waiting s w Hs) as [Hc Hr].
  repeat split.
  - rewrite setState_transport. reflexivity.
  - rewrite setState_transport. reflexivity.
  - rewrite setState_emitted. eexists. split; [reflexivity|].
    destruct (ProcessState_eqb _ _); [reflexivity|]. simpl.
    apply ProcessState_eqb_neq in Hs. rewrite Hs. reflexivity.
  - rewrite Hc. tauto.
  - rewrite Hr. tauto.
Qed.

Lemma hushed_terminate_tail w : hushed w (terminate_tail w).
Proof.
  unfold terminate_tail.
  eapply hushed_trans; [apply (hushed_setState terminated); discriminate|].
  apply hushed_same; reflexivity.
Qed.

Lemma hushed_terminate_head w : hushed w (fst (terminate_head w)).
Proof.
  unfold terminate_head. destruct (_ || _); [apply hushed_refl|].
  match goal with |- context [match ?p with Some _ => _ | None => _ end] =>
    destruct p end; cbn [fst].
  - eapply hushed_trans; [apply (hushed_setState terminating); discriminate|].
    apply hushed_same; reflexivity.
  - eapply hushed_trans; [apply (hushed_setState terminating); discriminate|].
    eapply hushed_trans; [|apply hushed_terminate_tail].
    apply hushed_same; reflexivity.
Qed.

Lemma hushed_checkState w : hushed w (checkState w).
Proof. unfold checkState. destruct (_ || _); apply hushed_same; reflexivity. Qed.

Lemma aborted_step JSON_parse l w :
  signal (transport_object w) = Some true ->
  signal (transport_object (step JSON_parse l w)) = Some true
  /\ hushed (with_transport (set_signal (Some true)) w) (step JSON_parse l w).
Proof.
  intros Hs.
  assert (Ha : aborted (transport_object w) = true) by (unfold aborted; rewrite Hs; reflexivity).
  assert (H0 : hushed (with_transport (set_signal (Some true)) w) w).
  { apply hushed_same; try reflexivity. simpl. rewrite Hs. reflexivity. }
  assert (Hh : forall w', hushed w w' ->
                 signal (transport_object w') = Some true
                 /\ hushed (with_transport (set_signal (Some true)) w) w').
  { intros w' H. split; [destruct H as [-> _]; exact Hs|].
    eapply hushed_trans; [exact H0 | exact H]. }
  destruct l; cbn [step]; apply Hh.
  - unfold query_head. destruct (_ || _); [apply hushed_same; reflexivity|].
    destruct (negb (client_isAlive _)); [apply hushed_same; reflexivity|].
    repeat split; try tauto.
    + exists []. rewrite app_nil_r. split; reflexivity.
    + simpl. intros call H. apply in_or_app. left. exact H.
  - unfold stop_head.
    set (w1 := if messageGenerator (client w) then _ else w).
    assert (H1 : hushed w w1).
    { unfold w1. destruct (messageGenerator (client w));
        apply hushed_same; reflexivity. }
    destruct (transport (client w1)).
    + pose proof (hushed_terminate_head w1) as H2.
      destruct (terminate_head w1) as [w2 b]; cbn [fst] in H2.
      eapply hushed_trans; [exact H1|].
      eapply hushed_trans; [exact H2|]. apply hushed_same; reflexivity.
    + eapply hushed_trans; [exact H1|]. apply hushed_same; reflexivity.
  - unfold query_tail. destruct (existsb _ _); [|apply hushed_refl].
    repeat split; try tauto.
    + exists []. rewrite app_nil_r. split; reflexivity.
    + simpl. intros c H. apply filter_In in H. tauto.
  - unfold terminate_resume. destruct (process_settled _); [|apply hushed_refl].
    destruct (mark_returned _); [|apply hushed_refl].
    eapply hushed_trans; [apply hushed_terminate_tail|].
    apply hushed_same; reflexivity.
  - unfold stop_resume. destruct (drop_returned _); [|apply hushed_refl].
    apply hushed_same; reflexivity.
  - apply hushed_same; reflexivity.
  - unfold writer_receive. destruct (writer w); try apply hushed_refl.
    destruct (MessageGenerator.generator _); try apply hushed_refl.
    + destruct (_ || _); [apply hushed_same; reflexivity|].
      eapply hushed_trans; [apply (hushed_setState processing); discriminate|].
      eapply hushed_trans; [|apply hushed_checkState].
      apply hushed_same; reflexivity.
    + apply hushed_same; reflexivity.
    + unfold writer_catch. rewrite Ha. apply hushed_same; reflexivity.
  - unfold writer_timer. destruct (writer w); try apply hushed_refl.
    apply hushed_checkState.
  - unfold reader_line. destruct (reader w); try apply hushed_refl.
    rewrite Ha. apply hushed_same; reflexivity.
  - unfold reader_close. destruct (reader w); apply hushed_same; reflexivity.
  - unfold reader_failure. destruct (reader w); try apply hushed_refl.
    unfold reader_catch. rewrite Ha. apply hushed_same; reflexivity.
  - apply hushed_same; reflexivity.
  - unfold signal_abort. rewrite Hs.
    apply hushed_same; try reflexivity.
    + simpl. rewrite Hs. reflexivity.
    + simpl. destruct (cleanupAbort _); reflexivity.
Qed.

Lemma aborted_run JSON_parse ls w :
  signal (transport_object w) = Some true ->
  signal (transport_object (run JSON_parse ls w)) = Some true
  /\ hushed w (run JSON_parse ls w).
Proof.
  revert w. induction ls as [|l ls IH]; intros w Hs.
  - split; [exact Hs | apply hushed_refl].
  - destruct (aborted_step JSON_parse l w Hs) as [H1 H2].
    destruct (IH (step JSON_parse l w) H1) as [H3 H4].
    split; [exact H3|].
    eapply hushed_trans; [|exact H4].
    eapply hushed_trans; [|exact H2].
    apply hushed_same; try reflexivity. simpl. symmetry. exact Hs.
Qed.

End CallFacts.

(* ===================================================================== *)
(** * Waiting for the exit; calls released together *)
(* ===================================================================== *)

Module ExitFacts.
Import Persistent PersistentProps SessionProps.
Import PersistentFacts ReachableFacts LoopFacts QueryFacts LifecycleFacts.
Import SessionFacts FrameFacts.

#[local] Arguments setState : simpl never.
#[local] Arguments emit : simpl never.
#[local] Arguments is_string : simpl never.
#[local] Arguments truthy : simpl never.
#[local] Arguments get : simpl never.
#[local] Arguments trim : simpl never.
#[local] Arguments MessageGenerator.step : simpl never.
#[local] Arguments MessageGenerator.setNextMessage : simpl never.
#[local] Arguments MessageGenerator.terminate : simpl never.

Lemma drop_returned_none calls :
  Forall (fun phase => phase = InTerminate) calls -> drop_returned calls = None.
Proof.
  induction 1 as [|phase calls Hp _ IH]; [reflexivity|].
  subst phase. simpl. rewrite IH. reflexivity.
Qed.

Lemma handle_parsed_stops parsed w : stops (handle_parsed parsed w) = stops w.
Proof.
  unfold handle_parsed.
  destruct (_ && _ && _); [destruct (get "session_id" parsed)|];
    destruct (is_string "result" _); outs; reflexivity.
Qed.

(** A change that keeps the transport with the client, the calls in
    [terminate()], a state that is not a final one, and a process
    handle with its marks. *)
Lemma awaiting_exit_keep w w' :
  transport (client w') = transport (client w) ->
  stops w' = stops w ->
  (state (transport_object w') = state (transport_object w)
   \/ state (transport_object w') <> terminated
      /\ state (transport_object w') <> not_started) ->
  (forall p, process (transport_object w) = Some p ->
     exists p', process (transport_object w') = Some p'
                /\ exited p' = exited p /\ (killed p = true -> killed p' = true)) ->
  awaiting_exit w -> awaiting_exit w'.
Proof.
  intros Ht Hs Hst Hp [A (p & Ep & Ex & Ek) [B1 B2] C D].
  split.
  - rewrite Ht. exact A.
  - destruct (Hp p Ep) as (p' & Ep' & Ex' & Ek').
    exists p'. repeat split; [exact Ep' | congruence | auto].
  - destruct Hst as [-> | Hst]; tauto.
  - rewrite Hs. exact C.
  - rewrite Hs. exact D.
Qed.

Lemma awaiting_exit_setState s w :
  s <> terminated -> s <> not_started ->
  awaiting_exit w -> awaiting_exit (setState s w).
Proof.
  intros N1 N2. apply awaiting_exit_keep.
  - pose proof (setState_flags s w) as Hf. unfold flags in Hf. congruence.
  - apply setState_stops.
  - right. rewrite setState_state. tauto.
  - intros p Ep. exists p. rewrite setState_process. tauto.
Qed.

Lemma awaiting_exit_step JSON_parse l w :
  exit_label l = false -> awaiting_exit w -> awaiting_exit (step JSON_parse l w).
Proof.
  intros Hl H. pose proof H as [A (p & Ep & Ex & Ek) [B1 B2] C D].
  assert (Hsame : forall w',
             transport (client w') = transport (client w) ->
             stops w' = stops w ->
             transport_object w' = transport_object w ->
             awaiting_exit w').
  { intros w' Ht Hs Ho. apply (awaiting_exit_keep w w' Ht Hs); [| |exact H].
    - left. rewrite Ho. reflexivity.
    - intros q Eq. exists q. rewrite Ho. tauto. }
  destruct l; try discriminate Hl; cbn [step].
  - unfold query_head. destruct (_ || _); [apply Hsame; reflexivity|].
    destruct (negb (client_isAlive _)); apply Hsame; reflexivity.
  - unfold stop_head.
    set (w1 := if messageGenerator (client w) then _ else w).
    assert (H1 : awaiting_exit w1).
    { unfold w1. destruct (messageGenerator (client w)); [|exact H].
      apply Hsame; reflexivity. }
    destruct H1 as [A1 (p1 & Ep1 & Ex1 & Ek1) [B11 B12] C1 D1].
    rewrite A1.
    pose proof (terminate_head_flags w1) as Hf.
    destruct (terminate_head_cases w1)
      as [[[Hs|Hs] _]|[(_ & _ & w' & E & Es & _ & _ & (q & Eq & Eq') & _ & Est & _)
                      |(_ & _ & Hn & _)]];
      try contradiction; [|congruence].
    rewrite E in *. cbn [fst] in Hf. split.
    + simpl. unfold flags in Hf. injection Hf as Hf _ _. congruence.
    + simpl. rewrite Eq'. eexists. split; [reflexivity|].
      assert (q = p1) by congruence. subst q.
      unfold end_stdin, kill. destruct (stdin p1); simpl; rewrite ?Ek1; simpl; auto.
    + simpl. rewrite Es. split; discriminate.
    + simpl. rewrite Est. apply Forall_app. split; [exact C1|].
      constructor; [reflexivity | constructor].
    + simpl. rewrite Est. intros Hnil. apply app_eq_nil in Hnil as [_ Hnil].
      discriminate Hnil.
  - unfold query_tail. destruct (existsb _ _); [|exact H]. apply Hsame; reflexivity.
  - unfold terminate_resume, process_settled. rewrite Ep, Ex. exact H.
  - unfold stop_resume. rewrite (drop_returned_none _ C). exact H.
  - apply Hsame; reflexivity.
  - unfold writer_receive. destruct (writer w); try exact H.
    destruct (MessageGenerator.generator _)
      as [|slot|slot m| |slot message| |reason]; try exact H.
    + destruct (_ || _); [apply Hsame; reflexivity|].
      assert (H2 : awaiting_exit
                     (with_transport
                        (fun t => set_process
                                    (option_map (write (message ++ String "010" ""))
                                                (process t)) t)
                        (setState processing w))).
      { apply (awaiting_exit_keep (setState processing w));
          [reflexivity | reflexivity | left; reflexivity | |
           apply awaiting_exit_setState; [discriminate | discriminate | exact H]].
        intros q Eq. simpl. rewrite Eq. simpl. eexists. split; [reflexivity|].
        unfold write. destruct (stdin q) as [pipe|]; [|tauto].
        destruct (ended pipe); simpl; tauto. }
      unfold checkState. destruct (_ || _); revert H2; apply awaiting_exit_keep;
        try reflexivity; try (left; reflexivity);
        intros q Eq; exists q; simpl in *; tauto.
    + apply Hsame; reflexivity.
    + unfold writer_catch. destruct (aborted _); [apply Hsame; reflexivity|].
      apply (awaiting_exit_keep (setState Persistent.error w)).
      * simpl. pose proof (emit_flags (Event_error reason) (setState Persistent.error w)) as Hf.
        unfold flags in Hf. congruence.
      * simpl. apply emit_stops.
      * left. simpl. rewrite emit_transport. reflexivity.
      * intros q Eq. exists q. simpl. rewrite emit_transport. tauto.
      * apply awaiting_exit_setState; [discriminate | discriminate | exact H].
  - unfold writer_timer. destruct (writer w); try exact H.
    unfold checkState. destruct (_ || _); apply Hsame; reflexivity.
  - unfold reader_line. destruct (reader w); try exact H.
    destruct (aborted _); [apply Hsame; reflexivity|].
    destruct (_ =? _)%string; [exact H|].
    assert (Hp : forall parsed, awaiting_exit (handle_parsed parsed w)).
    { intros parsed. apply (awaiting_exit_keep w); [| | | |exact H].
      - pose proof (handle_parsed_flags parsed w) as Hf. unfold flags in Hf. congruence.
      - apply handle_parsed_stops.
      - rewrite handle_parsed_state. destruct (is_string _ _); [|left; reflexivity].
        right. split; discriminate.
      - intros q Eq. exists q. rewrite handle_parsed_process. tauto. }
    destruct (JSON_parse _) as [[]|]; try apply Hp; apply Hsame; reflexivity.
  - unfold reader_close. destruct (reader w); apply Hsame; reflexivity.
  - unfold reader_failure. destruct (reader w); try exact H.
    unfold reader_catch. destruct (aborted _); [apply Hsame; reflexivity|].
    apply (awaiting_exit_keep (setState Persistent.error w)).
    * simpl. pose proof (emit_flags (Event_error reason) (setState Persistent.error w)) as Hf.
      unfold flags in Hf. congruence.
    * simpl. apply emit_stops.
    * left. simpl. rewrite emit_transport. reflexivity.
    * intros q Eq. exists q. simpl. rewrite emit_transport. tauto.
    * apply awaiting_exit_setState; [discriminate | discriminate | exact H].
  - unfold signal_abort. destruct (signal _); [|exact H].
    apply (awaiting_exit_keep w); try reflexivity; [| |exact H].
    + left. simpl. destruct (cleanupAbort _); reflexivity.
    + intros q Eq. simpl. destruct (cleanupAbort _); simpl; rewrite Eq; simpl.
      * eexists. split; [reflexivity|]. unfold kill.
        destruct (exited q) eqn:Eq'; simpl; auto.
      * exists q. tauto.
Qed.

Lemma awaiting_exit_run JSON_parse ls w :
  forallb (fun l => negb (exit_label l)) ls = true ->
  awaiting_exit w -> awaiting_exit (run JSON_parse ls w).
Proof.
  revert w. induction ls as [|l ls IH]; intros w Hl H; [exact H|].
  simpl in Hl. apply andb_true_iff in Hl as [Hl Hls].
  apply negb_true_iff in Hl.
  apply IH; [exact Hls|]. apply awaiting_exit_step; assumption.
Qed.

(** [stop()] on a client whose subprocess runs. *)
Lemma awaiting_exit_stop w p :
  transport (client w) = true ->
  process (transport_object w) = Some p ->
  exited p = false ->
  state (transport_object w) <> terminated ->
  state (transport_object w) <> not_started ->
  stops w = [] ->
  awaiting_exit (stop_head w)
  /\ state (transport_object (stop_head w)) = terminating.
Proof.
  intros Ht Ep Ex N1 N2 Hs. unfold stop_head.
  set (w1 := if messageGenerator (client w) then _ else w).
  assert (H1 : transport (client w1) = true
               /\ transport_object w1 = transport_object w /\ stops w1 = []).
  { unfold w1. destruct (messageGenerator (client w)); simpl; auto. }
  destruct H1 as (A1 & T1 & S1). rewrite A1.
  pose proof (terminate_head_flags w1) as Hf.
  destruct (terminate_head_cases w1)
    as [[[Hb|Hb] _]|[(_ & _ & w' & E & Es & _ & _ & (q & Eq & Eq') & _ & Est & _)
                    |(_ & _ & Hn & _)]];
    try (rewrite T1 in Hb; contradiction); [|congruence].
  rewrite E in *. cbn [fst] in Hf. split; [split|].
  - simpl. unfold flags in Hf. injection Hf as Hf _ _. congruence.
  - simpl. rewrite Eq'. eexists. split; [reflexivity|].
    assert (q = p) by congruence. subst q.
    unfold end_stdin, kill.
    destruct (stdin p), (killed p) eqn:Ek; simpl; rewrite ?Ek, ?Ex; simpl;
      rewrite ?Ex; auto.
  - simpl. rewrite Es. split; discriminate.
  - simpl. rewrite Est, S1. repeat constructor.
  - simpl. rewrite Est, S1. discriminate.
  - simpl. exact Es.
Qed.

(** **** A result record releases every waiting call *)

Lemma handle_parsed_releases parsed w :
  eventHandlers (transport_object w) = [handleTransportEvent] ->
  is_string "result" (get "type" parsed) = true ->
  waitingForResult (client (handle_parsed parsed w)) = []
  /\ resumable (handle_parsed parsed w)
     = resumable w ++ waitingForResult (client w)
  /\ pendingMessages (client (handle_parsed parsed w))
     = pendingMessages (client w) ++ [mkMessage (get "type" parsed) parsed].
Proof.
  intros Hh Hr.
  pose proof (handle_parsed_buffer parsed w Hh) as Hb.
  simpl in Hb. rewrite (is_string_truthy _ _ Hr) in Hb.
  split; [|split; [|exact Hb]].
  - unfold handle_parsed. rewrite Hr.
    rewrite (is_string_other "result" "system" _ Hr) by discriminate. simpl.
    assert (Hh' : eventHandlers (transport_object (setState paused w))
                  = [handleTransportEvent])
      by (rewrite setState_transport; exact Hh).
    rewrite emit_subscribed by exact Hh'. simpl.
    rewrite (is_string_truthy _ _ Hr). unfold handleMessage. rewrite Hr. reflexivity.
  - unfold handle_parsed. rewrite Hr.
    rewrite (is_string_other "result" "system" _ Hr) by discriminate. simpl.
    assert (Hh' : eventHandlers (transport_object (setState paused w))
                  = [handleTransportEvent])
      by (rewrite setState_transport; exact Hh).
    rewrite emit_subscribed by exact Hh'. simpl.
    rewrite (is_string_truthy _ _ Hr). unfold handleMessage. rewrite Hr. simpl.
    unfold setState. destruct (ProcessState_eqb _ _); [reflexivity|].
    rewrite emit_subscribed by exact Hh. simpl.
    rewrite app_nil_r. reflexivity.
Qed.

End ExitFacts.

(* ===================================================================== *)
(** * Further properties of the session: counting, releasing, stopping *)
(* ===================================================================== *)

(** X12.  As long as [stop()] is not called, [messageCount] counts the
    [query()] calls that were accepted: the calls made are the accepted
    ones and the ones rejected before submission.  The prompt given to
    [start()] is not counted. *)
Theorem X12_messageCount_counts_the_accepted_queries :
  forall (JSON_parse : string -> option Persistent.JSON)
         (initialPrompt : option string) (spawn : Persistent.SpawnResult)
         (options_signal : option bool) (ls : list Persistent.Label),
    let w := Persistent.run JSON_parse ls
               (PersistentProps.session initialPrompt spawn options_signal) in
    forallb (fun l => negb (SessionProps.stop_label l)) ls = true ->
    Persistent.next_call w = length (SessionProps.prompts ls)
    /\ Persistent.messageCount (Persistent.client w)
       + length (SessionProps.rejected w)
       = length (SessionProps.prompts ls)
    /\ Persistent.snapshot_messageCount (Persistent.getState w)
       = length (SessionProps.prompts ls) - length (SessionProps.rejected w).
Proof.
  intros JSON_parse initialPrompt spawn options_signal ls w Hs.
  destruct (CallFacts.counted_session initialPrompt spawn options_signal) as [H0 N0].
  destruct (CallFacts.counted_run JSON_parse ls _ Hs H0) as [H1 H2].
  fold w in H1, H2. rewrite N0 in H2. simpl in H2.
  unfold SessionProps.counted in H1. simpl.
  repeat split; lia.
Qed.

(** X12 at a session started with a prompt, then one query. *)
Lemma X12_messageCount_witness :
  Persistent.messageCount
    (Persistent.client
       (Persistent.run Samples.sample_parse [Persistent.CallQuery "a"]
          (PersistentProps.session (Some "hello")
             (Persistent.Spawned Persistent.running_child) None)))
  + 0 = 1.
Proof.
  apply (X12_messageCount_counts_the_accepted_queries Samples.sample_parse
           (Some "hello") (Persistent.Spawned Persistent.running_child) None
           [Persistent.CallQuery "a"]).
  reflexivity.
Defined.

(** X13.  A result record releases every waiting [query()] call, not
    only the oldest: after it no call waits, and two calls that were
    waiting return the same messages, those buffered when the record
    arrived followed by the record, and the same session state. *)
Theorem X13_a_result_releases_every_waiting_query :
  forall (JSON_parse : string -> option Persistent.JSON)
         (initialPrompt : option string) (spawn : Persistent.SpawnResult)
         (options_signal : option bool) (ls : list Persistent.Label)
         (line : string) (parsed : Persistent.JSON) (call1 call2 : nat),
    let w := Persistent.run JSON_parse ls
               (PersistentProps.session initialPrompt spawn options_signal) in
    let w1 := Persistent.step JSON_parse (Persistent.ReadLine line) w in
    PersistentProps.new_child spawn = true ->
    Persistent.reader w = Persistent.ReaderRunning ->
    Persistent.aborted (Persistent.transport_object w) = false ->
    Persistent.trim line <> "" ->
    JSON_parse (Persistent.trim line) = Some parsed ->
    Persistent.is_string "result" (Persistent.get "type" parsed) = true ->
    In call1 (Persistent.waitingForResult (Persistent.client w)) ->
    In call2 (Persistent.waitingForResult (Persistent.client w)) ->
    call1 <> call2 ->
    Persistent.waitingForResult (Persistent.client w1) = []
    /\ exists r : Persistent.PersistentQueryResult,
         Persistent.settled_queries
           (Persistent.run JSON_parse
              [Persistent.QueryResume call1; Persistent.QueryResume call2] w1)
         = Persistent.settled_queries w
           ++ [(call1, Persistent.Resolved r); (call2, Persistent.Resolved r)]
         /\ Persistent.messages r
            = Persistent.pendingMessages (Persistent.client w)
              ++ [Persistent.mkMessage (Persistent.get "type" parsed) parsed].
Proof.
  intros JSON_parse initialPrompt spawn options_signal ls line parsed call1 call2
         w w1 Hc Hr Ha Ht Hp Hres H1 H2 Hne.
  assert (Hshape : PersistentProps.reachable_shape w).
  { apply ReachableFacts.reachable_shape_run,
      ReachableFacts.reachable_shape_session, Hc. }
  pose proof (PersistentProps.subscribed w Hshape) as Hh.
  assert (E1 : w1 = Persistent.handle_parsed parsed w).
  { subst w1. simpl. unfold Persistent.reader_line. rewrite Hr, Ha, Hp.
    apply String.eqb_neq in Ht. rewrite Ht.
    destruct parsed; try reflexivity. discriminate Hres. }
  destruct (ExitFacts.handle_parsed_releases parsed w Hh Hres) as (Ew & Er & Eb).
  rewrite <- E1 in Ew, Er, Eb.
  pose proof (LoopFacts.handle_parsed_settled parsed w) as Es. rewrite <- E1 in Es.
  split; [exact Ew|].
  clearbody w1.
  set (r := {| Persistent.messages := Persistent.pendingMessages (Persistent.client w1);
               Persistent.sessionState := Persistent.getState w1 |}).
  exists r. split; [|exact Eb].
  assert (In1 : existsb (Nat.eqb call1) (Persistent.resumable w1) = true).
  { apply existsb_exists. exists call1. split; [|apply Nat.eqb_refl].
    rewrite Er. apply in_or_app. right. exact H1. }
  assert (In2 : existsb (Nat.eqb call2)
                  (List.filter (fun c => negb (Nat.eqb call1 c)) (Persistent.resumable w1))
                = true).
  { apply existsb_exists. exists call2. split; [|apply Nat.eqb_refl].
    apply filter_In. split.
    - rewrite Er. apply in_or_app. right. exact H2.
    - apply negb_true_iff, Nat.eqb_neq, Hne. }
  change (Persistent.run JSON_parse
            [Persistent.QueryResume call1; Persistent.QueryResume call2] w1)
    with (Persistent.query_tail call2 (Persistent.query_tail call1 w1)).
  assert (T1 : Persistent.query_tail call1 w1
               = Persistent.settle call1 (Persistent.Resolved r)
                   (Persistent.set_resumable
                      (List.filter (fun c => negb (Nat.eqb call1 c))
                                   (Persistent.resumable w1)) w1)).
  { unfold Persistent.query_tail. rewrite In1. reflexivity. }
  rewrite T1. unfold Persistent.query_tail.
  cbn [Persistent.resumable Persistent.settle Persistent.set_resumable].
  rewrite In2.
  cbn [Persistent.settled_queries Persistent.settle Persistent.set_resumable].
  rewrite Es, <- app_assoc. reflexivity.
Qed.

(** X13 at two queries made one after the other, then the result
    record. *)
Lemma X13_release_witness :
  Persistent.waitingForResult
    (Persistent.client
       (Persistent.step Samples.sample_parse (Persistent.ReadLine Samples.result_line)
          (Persistent.run Samples.sample_parse
             [Persistent.CallQuery "a"; Persistent.CallQuery "b"]
             (PersistentProps.session None
                (Persistent.Spawned Persistent.running_child) None))))
  = [].
Proof.
  apply (X13_a_result_releases_every_waiting_query Samples.sample_parse None
           (Persistent.Spawned Persistent.running_child) None
           [Persistent.CallQuery "a"; Persistent.CallQuery "b"]
           Samples.result_line Samples.result_record 0 1);
    try (vm_compute; reflexivity); try (vm_compute; auto; fail);
    try discriminate.
Defined.

(** X14.  At every moment of a session the session id of the transport
    is the id carried by the last session event emitted, [undefined]
    before the first one: a later init record replaces the id, and
    nothing else, not even [terminate()], changes or clears it.  An id
    that is stored is truthy. *)
Theorem X14_the_session_id_is_the_last_one_announced :
  forall (JSON_parse : string -> option Persistent.JSON)
         (initialPrompt : option string) (spawn : Persistent.SpawnResult)
         (options_signal : option bool) (ls : list Persistent.Label),
    let w := Persistent.run JSON_parse ls
               (PersistentProps.session initialPrompt spawn options_signal) in
    Persistent.sessionId (Persistent.transport_object w)
    = SessionProps.last_session (Persistent.emitted w)
    /\ (Persistent.sessionId (Persistent.transport_object w) = None
        \/ Persistent.truthy (Persistent.sessionId (Persistent.transport_object w))
           = true).
Proof.
  intros JSON_parse initialPrompt spawn options_signal ls w. split.
  - apply FrameFacts.tracked_run, FrameFacts.tracked_session.
  - subst w.
    pose proof (FrameFacts.session_no_id initialPrompt spawn options_signal) as Hs.
    assert (Hgen : forall w0,
               Persistent.sessionId (Persistent.transport_object w0) = None
               \/ Persistent.truthy
                    (Persistent.sessionId (Persistent.transport_object w0)) = true ->
               Persistent.sessionId
                 (Persistent.transport_object (Persistent.run JSON_parse ls w0)) = None
               \/ Persistent.truthy
                    (Persistent.sessionId
                       (Persistent.transport_object (Persistent.run JSON_parse ls w0)))
                  = true).
    { clear. induction ls as [|l ls IH]; intros w0 H; [exact H|].
      apply IH, FrameFacts.truthy_session_step, H. }
    apply Hgen. left. exact Hs.
Qed.

(** X17.  Once [options.signal] is aborted the reader forwards nothing
    more: whatever happens, the session id stays what it was, the only
    events emitted are changes of the state to something other than
    Paused, every [query()] call that waits keeps waiting, and no call
    becomes ready to return. *)
Theorem X17_after_an_abort_nothing_is_forwarded :
  forall (JSON_parse : string -> option Persistent.JSON) (w : Persistent.World)
         (ls : list Persistent.Label),
    let w' := Persistent.run JSON_parse ls w in
    Persistent.signal (Persistent.transport_object w) = Some true ->
    Persistent.sessionId (Persistent.transport_object w')
    = Persistent.sessionId (Persistent.transport_object w)
    /\ (exists events,
          Persistent.emitted w' = Persistent.emitted w ++ events
          /\ forallb SessionProps.quiet events = true)
    /\ (forall call,
          In call (Persistent.waitingForResult (Persistent.client w)) ->
          In call (Persistent.waitingForResult (Persistent.client w')))
    /\ (forall call, In call (Persistent.resumable w') ->
                     In call (Persistent.resumable w)).
Proof.
  intros JSON_parse w ls w' Hs.
  destruct (CallFacts.aborted_run JSON_parse ls w Hs) as [_ (_ & B & E & C & D)].
  repeat split; assumption.
Qed.

(** X17 at a query made, the signal aborted, and the result record
    arriving after that. *)
Lemma X17_abort_witness :
  In 0 (Persistent.waitingForResult
          (Persistent.client
             (Persistent.run Samples.sample_parse
                [Persistent.ReadLine Samples.result_line]
                (Persistent.run Samples.sample_parse
                   [Persistent.CallQuery "a"; Persistent.SignalAbort]
                   (PersistentProps.session None
                      (Persistent.Spawned Persistent.running_child)
                      (Some false)))))).
Proof.
  refine (proj1 (proj2 (proj2
            (X17_after_an_abort_nothing_is_forwarded Samples.sample_parse
               (Persistent.run Samples.sample_parse
                  [Persistent.CallQuery "a"; Persistent.SignalAbort]
                  (PersistentProps.session None
                     (Persistent.Spawned Persistent.running_child) (Some false)))
               [Persistent.ReadLine Samples.result_line] _))) 0 _).
  - vm_compute. reflexivity.
  - vm_compute. left. reflexivity.
Defined.

(** X18.  [stop()] returns only through the exit of the subprocess.
    Called on a client that holds its transport, with a subprocess
    that has not exited and no other [stop()] in flight, it ends
    stdin, calls [kill()], sets the state to Terminating and waits.
    Until the subprocess exits (on its own, from the signal, or from
    the SIGKILL that execa sends five seconds later), whatever else
    happens, the call has not returned: it is still inside
    [terminate()], the client still holds the transport, the state is
    not Terminated, and the process handle is still there, marked as
    killed. *)
Theorem X18_stop_returns_only_after_the_exit :
  forall (JSON_parse : string -> option Persistent.JSON) (w : Persistent.World)
         (p : Persistent.Subprocess) (ls : list Persistent.Label),
    let w1 := Persistent.step JSON_parse Persistent.CallStop w in
    let w' := Persistent.run JSON_parse ls w1 in
    Persistent.transport (Persistent.client w) = true ->
    Persistent.process (Persistent.transport_object w) = Some p ->
    Persistent.exited p = false ->
    Persistent.state (Persistent.transport_object w) <> Persistent.terminated ->
    Persistent.state (Persistent.transport_object w) <> Persistent.not_started ->
    Persistent.stops w = [] ->
    forallb (fun l => negb (SessionProps.exit_label l)) ls = true ->
    Persistent.state (Persistent.transport_object w1) = Persistent.terminating
    /\ In Persistent.InTerminate (Persistent.stops w')
    /\ Persistent.transport (Persistent.client w') = true
    /\ Persistent.state (Persistent.transport_object w') <> Persistent.terminated
    /\ exists p', Persistent.process (Persistent.transport_object w') = Some p'
                  /\ Persistent.killed p' = true /\ Persistent.exited p' = false.
Proof.
  intros JSON_parse w p ls w1 w' Ht Ep Ex N1 N2 Hs Hl.
  destruct (ExitFacts.awaiting_exit_stop w p Ht Ep Ex N1 N2 Hs) as [H1 Est].
  pose proof (ExitFacts.awaiting_exit_run JSON_parse ls _ Hl H1)
    as [A (p' & Ep' & Ex' & Ek') [B1 B2] C D].
  split; [exact Est|]. split; [|split; [exact A|split; [exact B1|]]].
  - assert (Hin : forall calls,
               Forall (fun phase => phase = Persistent.InTerminate) calls ->
               calls <> [] -> In Persistent.InTerminate calls).
    { intros calls HC HD. destruct HC as [|phase rest Hphase _]; [congruence|].
      subst phase. left. reflexivity. }
    apply Hin; assumption.
  - exists p'. auto.
Qed.

(** X18 at a session whose subprocess keeps writing after the signal. *)
Lemma X18_stop_witness :
  In Persistent.InTerminate
    (Persistent.stops
       (Persistent.run Samples.sample_parse
          [Persistent.ReadLine Samples.result_line; Persistent.TerminateResume;
           Persistent.StopResume]
          (Persistent.step Samples.sample_parse Persistent.CallStop Samples.started))).
Proof.
  apply (X18_stop_returns_only_after_the_exit Samples.sample_parse
           Samples.started Persistent.running_child
           [Persistent.ReadLine Samples.result_line; Persistent.TerminateResume;
            Persistent.StopResume]);
    try reflexivity; discriminate.
Defined.

(** X19.  From the moment [stop()] is called, every [query()] is
    rejected with 'Client not started. Call start() first.' and changes
    nothing else, whatever happens in between (short of a new
    [start()]).  Once a [stop()] call has completed, [getState()] keeps
    reporting no session id, the state 'not_started', not alive, and a
    message count of zero. *)
Theorem X19_a_stopped_client_rejects_every_query :
  forall (JSON_parse : string -> option Persistent.JSON) (w : Persistent.World)
         (ls : list Persistent.Label) (prompt : string),
    let called := Persistent.run JSON_parse ls
                    (Persistent.step JSON_parse Persistent.CallStop w) in
    let completed := Persistent.run JSON_parse ls (fst (Persistent.stop w)) in
    Persistent.step JSON_parse (Persistent.CallQuery prompt) called
    = Persistent.settle (Persistent.next_call called)
        (Persistent.Threw PersistentProps.not_started_error)
        (Persistent.set_next_call (S (Persistent.next_call called)) called)
    /\ Persistent.step JSON_parse (Persistent.CallQuery prompt) completed
       = Persistent.settle (Persistent.next_call completed)
           (Persistent.Threw PersistentProps.not_started_error)
           (Persistent.set_next_call (S (Persistent.next_call completed)) completed)
    /\ Persistent.getState completed
       = Persistent.mkSessionState None Persistent.not_started false 0.
Proof.
  intros JSON_parse w ls prompt called completed.
  pose proof (FrameFacts.stopped_run JSON_parse ls _ (FrameFacts.stop_flags w)) as Hf.
  fold completed in Hf. unfold SessionProps.flags in Hf. injection Hf as Ht Hg Hc.
  split; [|split].
  - apply FrameFacts.query_head_not_started.
    apply FrameFacts.generator_dropped_run.
    apply (FrameFacts.stop_head_flags w).
  - apply FrameFacts.query_head_not_started, Hg.
  - unfold Persistent.getState, Persistent.client_isAlive. rewrite Ht, Hc. reflexivity.
Qed.

(** X20.  A transport on which [terminate()] has run to its end stays
    dead: whatever happens afterwards (a line still buffered in its
    output may even move its state), it has no process handle and
    [isAlive()] is false. *)
Theorem X20_a_terminated_transport_stays_dead :
  forall (JSON_parse : string -> option Persistent.JSON) (w : Persistent.World)
         (ls : list Persistent.Label),
    let w' := Persistent.run JSON_parse ls (fst (Persistent.terminate w)) in
    Persistent.state (Persistent.transport_object w) <> Persistent.not_started ->
    Persistent.state (Persistent.transport_object w) <> Persistent.terminated ->
    Persistent.state (Persistent.transport_object (fst (Persistent.terminate w)))
    = Persistent.terminated
    /\ Persistent.process (Persistent.transport_object w') = None
    /\ Persistent.isAlive (Persistent.transport_object w') = false.
Proof.
  intros JSON_parse w ls w' N1 N2.
  pose proof (FrameFacts.no_process_run JSON_parse ls _
                (FrameFacts.terminate_process w N1 N2)) as Hp.
  fold w' in Hp. split; [|split; [exact Hp|]].
  - destruct (LifecycleFacts.terminate_cases w) as [[[Hs|Hs] _]|[_ H]];
      [contradiction | contradiction | exact H].
  - unfold Persistent.isAlive. rewrite Hp. apply andb_false_r.
Qed.

(** X20 at a started transport that is terminated and then reads the
    result record that was still in its output: the state moves to
    Paused, and the transport is not alive. *)
Lemma X20_terminated_witness :
  Persistent.state
    (Persistent.transport_object
       (Persistent.run Samples.sample_parse [Persistent.ReadLine Samples.result_line]
          (fst (Persistent.terminate Samples.started))))
  = Persistent.paused
  /\ Persistent.isAlive
       (Persistent.transport_object
          (Persistent.run Samples.sample_parse [Persistent.ReadLine Samples.result_line]
             (fst (Persistent.terminate Samples.started))))
     = false.
Proof.
  split; [vm_compute; reflexivity|].
  apply (X20_a_terminated_transport_stays_dead Samples.sample_parse Samples.started
           [Persistent.ReadLine Samples.result_line]); discriminate.
Defined.

(* ===================================================================== *)
(** * What is written to the subprocess *)
(* ===================================================================== *)

Module PipeFacts.
Import Persistent PersistentProps SessionProps.
Import PersistentFacts ReachableFacts LoopFacts QueryFacts LifecycleFacts.
Import SessionFacts FrameFacts.

#[local] Arguments setState : simpl never.
#[local] Arguments emit : simpl never.
#[local] Arguments is_string : simpl never.
#[local] Arguments truthy : simpl never.
#[local] Arguments get : simpl never.
#[local] Arguments trim : simpl never.
#[local] Arguments MessageGenerator.step : simpl never.
#[local] Arguments MessageGenerator.setNextMessage : simpl never.
#[local] Arguments MessageGenerator.terminate : simpl never.

Lemma prompts_app ls1 ls2 : prompts (ls1 ++ ls2) = prompts ls1 ++ prompts ls2.
Proof. unfold prompts. apply flat_map_app. Qed.

Lemma sublist_map {A B} (f : A -> B) (l1 l2 : list A) :
  sublist l1 l2 -> sublist (map f l1) (map f l2).
Proof. induction 1; simpl; constructor; assumption. Qed.

Lemma removelast_sublist {A} (l : list A) : sublist (removelast l) l.
Proof.
  induction l as [|x [|y l] IH]; simpl.
  - constructor.
  - apply sublist_cons. constructor.
  - apply sublist_skip. exact IH.
Qed.

(** **** The turns taken *)

Lemma taken_contents w :
  sublist (taken w) (TurnProps.contents (generator_object w)).
Proof.
  unfold taken. destruct (writer w); try reflexivity.
  destruct (MessageGenerator.generator _); try reflexivity.
  apply removelast_sublist.
Qed.

Lemma taken_full w :
  writer w <> WriterAwaitNext
  \/ (forall slot message,
        MessageGenerator.generator (generator_object w)
        <> MessageGenerator.AtYield slot message) ->
  taken w = TurnProps.contents (generator_object w).
Proof.
  unfold taken. intros [H|H].
  - destruct (writer w); try reflexivity. congruence.
  - destruct (writer w); try reflexivity.
    destruct (MessageGenerator.generator _) eqn:E; try reflexivity.
    destruct (H _ _ eq_refl).
Qed.

Lemma taken_same w w' :
  writer w' = writer w ->
  MessageGenerator.generator (generator_object w')
  = MessageGenerator.generator (generator_object w) ->
  TurnProps.contents (generator_object w') = TurnProps.contents (generator_object w) ->
  taken w' = taken w.
Proof. unfold taken. intros -> -> ->. reflexivity. Qed.

(** **** The chunks written *)

Lemma setState_written s w :
  stdin_written (transport_object (setState s w)) = stdin_written (transport_object w).
Proof. rewrite setState_transport. reflexivity. Qed.

Lemma handle_parsed_written parsed w :
  stdin_written (transport_object (handle_parsed parsed w))
  = stdin_written (transport_object w).
Proof.
  unfold stdin_written. rewrite handle_parsed_process. reflexivity.
Qed.

Lemma written_write chunk t t' :
  stdin_written (set_process (option_map (write chunk) (process t)) t')
  = stdin_written t
  \/ stdin_written (set_process (option_map (write chunk) (process t)) t')
     = stdin_written t ++ [chunk].
Proof.
  unfold stdin_written, write. simpl.
  destruct (process t) as [p|]; simpl; [|left; reflexivity].
  destruct (stdin p) as [pipe|] eqn:E; simpl; [|rewrite E; left; reflexivity].
  destruct (ended pipe); simpl; [rewrite E; left | right]; reflexivity.
Qed.

Lemma terminate_head_written w :
  sublist (stdin_written (transport_object (fst (terminate_head w))))
          (stdin_written (transport_object w)).
Proof.
  destruct (terminate_head_cases w)
    as [[_ E]|[(_ & _ & w' & E & _ & _ & _ & (p & Ep & Ep') & _)
              |(_ & _ & _ & w' & E & Et & _)]];
    rewrite E; cbn [fst].
  - reflexivity.
  - unfold stdin_written. rewrite Ep, Ep'.
    unfold end_stdin, kill.
    destruct (stdin p) as [pipe|] eqn:Es; simpl;
      repeat (match goal with
              | |- context [if ?c then _ else _] => destruct c
              end; simpl; rewrite ?Es); reflexivity.
  - rewrite Et. unfold stdin_written. simpl. apply sublist_nil_l.
Qed.

(** **** The link, step by step *)

Lemma piped_keep submitted submitted' w w' :
  TurnProps.feeds submitted' (generator_object w') ->
  TurnProps.yields_last (generator_object w') ->
  sublist (taken w) (taken w') ->
  sublist (stdin_written (transport_object w')) (stdin_written (transport_object w)) ->
  piped submitted w -> piped submitted' w'.
Proof.
  intros Hf Hy Ht Hw [_ _ W]. split; [exact Hf | exact Hy |].
  etransitivity; [exact Hw|]. etransitivity; [exact W|].
  apply sublist_map, Ht.
Qed.

Lemma piped_frame submitted w w' :
  generator_object w' = generator_object w ->
  writer w' = writer w ->
  sublist (stdin_written (transport_object w')) (stdin_written (transport_object w)) ->
  piped submitted w -> piped submitted w'.
Proof.
  intros Hg Hw Hs H. pose proof H as [F Y _].
  apply (piped_keep submitted submitted w w'); try assumption.
  - rewrite Hg. exact F.
  - rewrite Hg. exact Y.
  - rewrite (taken_same w w'); [reflexivity | exact Hw | rewrite Hg; reflexivity
                                | rewrite Hg; reflexivity].
Qed.

(** The writer loop leaves its wait for the generator. *)
Lemma piped_writer_leaves submitted w w' :
  generator_object w' = generator_object w ->
  writer w' <> WriterAwaitNext ->
  sublist (stdin_written (transport_object w')) (stdin_written (transport_object w)) ->
  piped submitted w -> piped submitted w'.
Proof.
  intros Hg Hw Hs H. pose proof H as [F Y _].
  apply (piped_keep submitted submitted w w'); try assumption.
  - rewrite Hg. exact F.
  - rewrite Hg. exact Y.
  - rewrite (taken_full w') by (left; exact Hw). rewrite Hg. apply taken_contents.
Qed.

Lemma piped_weaken submitted extra w :
  piped submitted w -> piped (submitted ++ extra) w.
Proof.
  intros [F Y W]. split; [apply TurnFacts.feeds_weaken, F | exact Y | exact W].
Qed.

(** The writer loop asks for the next turn. *)
Lemma piped_request_next submitted w0 :
  TurnProps.feeds submitted (generator_object w0) ->
  TurnProps.yields_last (generator_object w0) ->
  sublist (stdin_written (transport_object w0))
          (map chunk (TurnProps.contents (generator_object w0))) ->
  piped submitted (request_next w0).
Proof.
  intros F Y W. unfold request_next.
  destruct (TurnFacts.next_leaves_yield (generator_object w0)) as [Ec Hn].
  split.
  - simpl. rewrite <- (app_nil_r submitted).
    apply (TurnFacts.feeds_step submitted MessageGenerator.IterNext), F.
  - simpl. apply TurnFacts.yields_last_step, Y.
  - rewrite taken_full by (right; exact Hn). simpl. rewrite Ec. exact W.
Qed.

Lemma piped_checkState submitted w0 :
  TurnProps.feeds submitted (generator_object w0) ->
  TurnProps.yields_last (generator_object w0) ->
  writer w0 = WriterAwaitNext \/ writer w0 = WriterWaitForPause ->
  sublist (stdin_written (transport_object w0))
          (map chunk (TurnProps.contents (generator_object w0))) ->
  piped submitted (checkState w0).
Proof.
  intros F Y Hw W. unfold checkState. destruct (_ || _).
  - apply (piped_request_next submitted w0); assumption.
  - split; [exact F | exact Y |].
    rewrite taken_full by (left; simpl; discriminate). exact W.
Qed.

(** A prompt is submitted to the generator. *)
Lemma piped_submit submitted prompt w :
  piped submitted w ->
  piped (submitted ++ [prompt])
        (with_generator (MessageGenerator.setNextMessage prompt) w).
Proof.
  intros H. pose proof H as [F Y W].
  destruct (TurnFacts.frame_setNextMessage prompt (generator_object w)) as [Eg Ey].
  apply (piped_keep submitted _ w); [| | |reflexivity|exact H].
  - simpl. apply TurnFacts.feeds_setNextMessage, F.
  - simpl. apply (TurnFacts.yields_last_frame (generator_object w)); assumption.
  - match goal with |- sublist _ (taken ?v) => rewrite (taken_same w v) end;
      [reflexivity | reflexivity | simpl; exact Eg|].
    simpl. unfold TurnProps.contents. rewrite Ey. reflexivity.
Qed.

Lemma piped_step JSON_parse l w submitted :
  piped submitted w -> piped (submitted ++ prompts [l]) (step JSON_parse l w).
Proof.
  intros H. pose proof H as [F Y W].
  assert (Hframe : forall w',
             generator_object w' = generator_object w ->
             writer w' = writer w ->
             sublist (stdin_written (transport_object w'))
                     (stdin_written (transport_object w)) ->
             piped (submitted ++ []) w').
  { intros w' Hg Hw Hs. rewrite app_nil_r. apply (piped_frame submitted w); assumption. }
  destruct l; cbn [step prompts flat_map]; rewrite ?app_nil_r.
  - (* query() *)
    unfold query_head. destruct (_ || _).
    { apply piped_weaken, (piped_frame submitted w); try reflexivity; exact H. }
    destruct (negb (client_isAlive _)).
    { apply piped_weaken, (piped_frame submitted w); try reflexivity; exact H. }
    destruct (TurnFacts.frame_setNextMessage prompt (generator_object w)) as [Eg Ey].
    apply (piped_keep submitted _ w); [| | |reflexivity|exact H].
    + simpl. apply TurnFacts.feeds_setNextMessage, F.
    + simpl. apply (TurnFacts.yields_last_frame (generator_object w)); assumption.
    + match goal with |- sublist _ (taken ?v) => rewrite (taken_same w v) end;
        [reflexivity | reflexivity | simpl; exact Eg|].
      simpl. unfold TurnProps.contents. rewrite Ey. reflexivity.
  - (* stop() *)
    unfold stop_head.
    set (w1 := if messageGenerator (client w) then _ else w).
    assert (H1 : piped submitted w1).
    { unfold w1. destruct (messageGenerator (client w)); [|exact H].
      apply (piped_keep submitted _ w); [| | |reflexivity|exact H].
      - simpl. apply TurnFacts.feeds_terminate, F.
      - simpl. apply (TurnFacts.yields_last_frame (generator_object w));
          [apply TurnFacts.generator_terminate | apply TurnFacts.yielded_terminate
          | exact Y].
      - match goal with |- sublist _ (taken ?v) => rewrite (taken_same w v) end;
          [reflexivity | reflexivity | simpl; apply TurnFacts.generator_terminate|].
        simpl. unfold TurnProps.contents. rewrite TurnFacts.yielded_terminate.
        reflexivity. }
    destruct (transport (client w1)).
    + pose proof (terminate_head_generator w1) as Hg.
      pose proof (terminate_head_written w1) as Hs.
      assert (Hw : writer (fst (terminate_head w1)) = writer w1).
      { destruct (terminate_head_cases w1)
          as [[_ E]|[(_ & _ & w' & E & _ & _ & _ & _ & Ew & _)
                    |(_ & _ & _ & w' & E & _ & Ew & _)]];
          rewrite E; simpl; congruence. }
      destruct (terminate_head w1) as [w2 b]; cbn [fst] in *.
      apply (piped_frame submitted w1); assumption.
    + apply (piped_frame submitted w1); try reflexivity. exact H1.
  - unfold query_tail. destruct (existsb _ _); [|exact H].
    apply (piped_frame submitted w); try reflexivity. exact H.
  - unfold terminate_resume. destruct (process_settled _); [|exact H].
    destruct (mark_returned _); [|exact H].
    apply (piped_frame submitted w); [| |apply sublist_nil_l|exact H];
      unfold terminate_tail; outs; reflexivity.
  - unfold stop_resume. destruct (drop_returned _); [|exact H].
    apply (piped_frame submitted w); try reflexivity. exact H.
  - (* the body of the generator goes on *)
    assert (F' : TurnProps.feeds submitted
                   (MessageGenerator.step MessageGenerator.Resume (generator_object w))).
    { rewrite <- (app_nil_r submitted).
      apply (TurnFacts.feeds_step submitted MessageGenerator.Resume), F. }
    assert (Y' : TurnProps.yields_last
                   (MessageGenerator.step MessageGenerator.Resume (generator_object w)))
      by (apply TurnFacts.yields_last_step, Y).
    apply (piped_keep submitted _ w); [exact F' | exact Y' | | reflexivity | exact H].
    destruct (TurnFacts.resume_contents (generator_object w))
      as [[Ec Hg] | [(slot & message & Eg & Ec) Hn]].
    + unfold taken at 2. simpl.
      destruct (writer w) eqn:Ew;
        try (rewrite Ec; apply taken_contents).
      destruct (MessageGenerator.generator
                  (MessageGenerator.step MessageGenerator.Resume (generator_object w)))
        eqn:Eg'; try (rewrite Ec; apply taken_contents).
      unfold taken. rewrite Ew, (Hg _ _ eq_refl), Ec. reflexivity.
    + rewrite (taken_full w) by (right; exact Hn).
      unfold taken. simpl. rewrite Eg, Ec.
      destruct (writer w); try (apply sublist_inserts_r; reflexivity).
      rewrite removelast_last. reflexivity.
  - (* the writer loop *)
    unfold writer_receive. destruct (writer w) eqn:Ew; try exact H.
    destruct (MessageGenerator.generator (generator_object w))
      as [|slot|slot m| |slot message| |reason] eqn:Eg; try exact H.
    + destruct (Y slot message Eg) as [before Eb].
      assert (Wb : sublist (stdin_written (transport_object w)) (map chunk before)).
      { unfold taken in W. rewrite Ew, Eg, Eb, removelast_last in W. exact W. }
      destruct (_ || _).
      * destruct (TurnFacts.return_leaves_yield (generator_object w)) as [Ec Hn].
        split.
        -- simpl. rewrite <- (app_nil_r submitted).
           apply (TurnFacts.feeds_step submitted MessageGenerator.IterReturn), F.
        -- simpl. apply TurnFacts.yields_last_step, Y.
        -- rewrite taken_full by (left; simpl; discriminate). simpl.
           rewrite Ec, Eb, map_app. apply sublist_inserts_r, Wb.
      * apply piped_checkState.
        -- simpl. rewrite setState_generator. exact F.
        -- simpl. rewrite setState_generator. exact Y.
        -- left. simpl. rewrite setState_writer. exact Ew.
        -- simpl. rewrite setState_generator, Eb, map_app. simpl.
           destruct (written_write (message ++ String "010" "")
                       (transport_object (setState processing w))
                       (transport_object (setState processing w))) as [E | E];
             rewrite E, setState_written.
           ++ apply sublist_inserts_r, Wb.
           ++ apply sublist_app; [exact Wb | reflexivity].
    + apply (piped_writer_leaves submitted w); try reflexivity;
        [simpl; discriminate | exact H].
    + unfold writer_catch. destruct (aborted _).
      * apply (piped_writer_leaves submitted w); try reflexivity;
          [simpl; discriminate | exact H].
      * apply (piped_writer_leaves submitted w);
          [simpl; outs; reflexivity | simpl; discriminate
          | simpl; outs; reflexivity | exact H].
  - unfold writer_timer. destruct (writer w) eqn:Ew; try exact H.
    apply piped_checkState; try assumption; [right; exact Ew|].
    rewrite <- (taken_full w) by (left; rewrite Ew; discriminate). exact W.
  - unfold reader_line. destruct (reader w); try exact H.
    destruct (aborted _); [apply (piped_frame submitted w); try reflexivity; exact H|].
    destruct (_ =? _)%string; [exact H|].
    assert (Hp : forall parsed, piped submitted (handle_parsed parsed w)).
    { intros parsed. apply (piped_frame submitted w); [| | |exact H].
      - apply handle_parsed_generator.
      - unfold handle_parsed.
        destruct (_ && _ && _); [destruct (get "session_id" parsed)|];
          destruct (is_string "result" _); outs; reflexivity.
      - rewrite handle_parsed_written. reflexivity. }
    destruct (JSON_parse _) as [[]|]; try apply Hp;
      apply (piped_frame submitted w); try reflexivity; exact H.
  - unfold reader_close.
    destruct (reader w); apply (piped_frame submitted w); try reflexivity; exact H.
  - unfold reader_failure. destruct (reader w); try exact H.
    unfold reader_catch.
    destruct (aborted _); apply (piped_frame submitted w); try exact H;
      try reflexivity; outs; reflexivity.
  - apply (piped_frame submitted w); try reflexivity; [|exact H].
    unfold stdin_written. simpl.
    destruct (process (transport_object w)); reflexivity.
  - unfold signal_abort. destruct (signal _); [|exact H].
    apply (piped_frame submitted w); try reflexivity; [|exact H].
    unfold stdin_written. simpl.
    destruct (cleanupAbort _); simpl; [|reflexivity].
    destruct (process (transport_object w)) as [p|]; [|reflexivity].
    simpl. unfold kill. destruct (exited p); reflexivity.
Qed.

Lemma piped_run JSON_parse ls w submitted :
  piped submitted w -> piped (submitted ++ prompts ls) (run JSON_parse ls w).
Proof.
  revert w submitted. induction ls as [|l ls IH]; intros w submitted H.
  - simpl. rewrite app_nil_r. exact H.
  - change (l :: ls) with ([l] ++ ls). rewrite prompts_app, app_assoc.
    change (run JSON_parse ([l] ++ ls) w)
      with (run JSON_parse ls (step JSON_parse l w)).
    apply IH, piped_step, H.
Qed.

(** [start()] with a prompt is [start()] without one, followed by the
    submission of the prompt. *)
Lemma start_head_prompt prompt spawn w :
  start_head (Some prompt) spawn w
  = match start_head None spawn w with
    | (w4, Resolved _) =>
        if negb (prompt =? "")%string
        then (with_generator (MessageGenerator.setNextMessage prompt) w4, Resolved tt)
        else (w4, Resolved tt)
    | (w4, Threw reason) => (w4, Threw reason)
    end.
Proof.
  unfold start_head. destruct (transport (client w)); [reflexivity|].
  destruct (transport_start spawn _) as [w4 [[]|reason]]; reflexivity.
Qed.

Lemma session_prompt prompt options_signal :
  session (Some prompt) (Spawned running_child) options_signal
  = if negb (prompt =? "")%string
    then with_generator (MessageGenerator.setNextMessage prompt)
           (session None (Spawned running_child) options_signal)
    else session None (Spawned running_child) options_signal.
Proof.
  unfold session. rewrite start_head_prompt.
  assert (Hs : snd (start_head None (Spawned running_child) (new_client options_signal))
               = Resolved tt)
    by (destruct options_signal; vm_compute; reflexivity).
  destruct (start_head None (Spawned running_child) (new_client options_signal))
    as [w4 [[]|reason]]; [|discriminate Hs].
  destruct (negb _); reflexivity.
Qed.

(** A session on a child that runs with its three pipes. *)
Lemma piped_session initialPrompt options_signal :
  piped (initial initialPrompt)
        (session initialPrompt (Spawned running_child) options_signal).
Proof.
  assert (H0 : forall signal0,
             piped [] (session None (Spawned running_child) signal0)).
  { intros signal0.
    assert (Hg : generator_object (session None (Spawned running_child) signal0)
                 = MessageGenerator.step MessageGenerator.IterNext
                     MessageGenerator.createMessageGenerator)
      by (destruct signal0; vm_compute; reflexivity).
    split.
    - rewrite Hg.
      apply (TurnFacts.feeds_step [] MessageGenerator.IterNext), TurnFacts.feeds_init.
    - rewrite Hg. intros slot message E. discriminate E.
    - destruct signal0; vm_compute; constructor. }
  destruct initialPrompt as [prompt|]; [|apply H0].
  rewrite session_prompt. unfold initial.
  destruct (negb (prompt =? "")%string); [|apply H0].
  apply (piped_submit [] prompt), H0.
Qed.

End PipeFacts.

(* ===================================================================== *)
(** * Further properties of the session: what reaches the subprocess *)
(* ===================================================================== *)

(** X11.  At every moment of a session on a subprocess with its pipes,
    the chunks written to the stdin of the subprocess are prompts the
    user gave, to [start()] first and to [query()] after that, each
    followed by one newline, in the order they were given: nothing else
    is ever written, no prompt is written twice and no two are swapped
    (a prompt may be left out).  The same holds of the turns the
    generator has handed out. *)
Theorem X11_stdin_gets_the_prompts_in_order :
  forall (JSON_parse : string -> option Persistent.JSON)
         (initialPrompt : option string) (options_signal : option bool)
         (ls : list Persistent.Label),
    let w := Persistent.run JSON_parse ls
               (PersistentProps.session initialPrompt
                  (Persistent.Spawned Persistent.running_child) options_signal) in
    let given := SessionProps.initial initialPrompt ++ SessionProps.prompts ls in
    sublist (PersistentProps.stdin_written (Persistent.transport_object w))
            (map SessionProps.chunk given)
    /\ sublist (TurnProps.contents (Persistent.generator_object w)) given.
Proof.
  intros JSON_parse initialPrompt options_signal ls w given.
  pose proof (PipeFacts.piped_run JSON_parse ls _ _
                (PipeFacts.piped_session initialPrompt options_signal))
    as [[F _ _ _] _ W].
  fold w given in F, W.
  assert (Hc : sublist (TurnProps.contents (Persistent.generator_object w)) given).
  { etransitivity; [|exact F].
    rewrite <- (app_nil_r (TurnProps.contents _)) at 1.
    apply sublist_app; [reflexivity | apply sublist_nil_l]. }
  split; [|exact Hc].
  etransitivity; [exact W|]. apply PipeFacts.sublist_map.
  etransitivity; [apply PipeFacts.taken_contents | exact Hc].
Qed.

(* ===================================================================== *)
(** * The state follows the events *)
(* ===================================================================== *)

Module StateFacts.
Import Persistent PersistentProps PersistentFacts StateProps.

Lemma announced_snoc events event :
  announced_states (events ++ [event])
  = announced_states events ++ match event with
                        | Event_state_change state => [state]
                        | _ => []
                        end.
Proof.
  unfold announced_states. rewrite flat_map_app. simpl. rewrite app_nil_r.
  reflexivity.
Qed.

Lemma last_cons {A} (l : list A) : forall first default,
  List.last (first :: l) default = List.last l first.
Proof.
  induction l as [|x rest IH]; intros first default; [reflexivity|].
  change (List.last (first :: x :: rest) default)
    with (List.last (x :: rest) default).
  rewrite (IH x default), (IH x first). reflexivity.
Qed.

Lemma changing_snoc states : forall from state,
  changing from (states ++ [state])
  = changing from states && negb (ProcessState_eqb (List.last states from) state).
Proof.
  induction states as [|s rest IH]; intros from state.
  - simpl. rewrite andb_true_r. reflexivity.
  - cbn [app changing]. rewrite IH, andb_assoc, last_cons. reflexivity.
Qed.

Lemma state_tracked_same w w' :
  state (transport_object w') = state (transport_object w) ->
  emitted w' = emitted w ->
  state_tracked w -> state_tracked w'.
Proof. intros Es Ee [H1 H2]. split; rewrite ?Es, Ee; assumption. Qed.

Lemma state_tracked_emit event w :
  match event with Event_state_change _ => False | _ => True end ->
  state_tracked w -> state_tracked (emit event w).
Proof.
  intros He [H1 H2].
  split; rewrite ?emit_transport, emit_emitted, announced_snoc;
    destruct event; try contradiction; rewrite app_nil_r; assumption.
Qed.

Lemma state_tracked_setState s w : state_tracked w -> state_tracked (setState s w).
Proof.
  intros [H1 H2].
  split; rewrite ?setState_transport, setState_emitted; simpl;
    destruct (ProcessState_eqb (state (transport_object w)) s) eqn:E.
  - rewrite app_nil_r, <- H1. apply ProcessState_eqb_eq in E. congruence.
  - rewrite announced_snoc, last_last. reflexivity.
  - rewrite app_nil_r. exact H2.
  - rewrite announced_snoc, changing_snoc, H2, <- H1, E. reflexivity.
Qed.

Lemma state_tracked_with_transport f w :
  (forall t, state (f t) = state t) ->
  state_tracked w -> state_tracked (with_transport f w).
Proof. intros Hf [H1 H2]. split; simpl; rewrite ?Hf; assumption. Qed.

(** The step changed neither the state nor the events. *)
Ltac kept H :=
  first [exact H | refine (state_tracked_same _ _ _ _ H); reflexivity].

Section Reader.
Variable JSON_parse : string -> option JSON.

Lemma state_tracked_handle_parsed parsed w :
  state_tracked w -> state_tracked (handle_parsed parsed w).
Proof.
  intros H. unfold handle_parsed.
  apply state_tracked_emit; [exact I|].
  match goal with
  | |- state_tracked (if ?c then setState paused ?v else ?v) =>
      assert (H1 : state_tracked v);
        [|destruct c; [apply state_tracked_setState|]; exact H1]
  end.
  destruct (_ && _ && _); [|exact H].
  destruct (get "session_id" parsed) as [sid|]; [|exact H].
  apply state_tracked_emit; [exact I|].
  apply state_tracked_with_transport; [reflexivity | exact H].
Qed.

Lemma state_tracked_terminate_tail w :
  state_tracked w -> state_tracked (terminate_tail w).
Proof.
  intros H. unfold terminate_tail.
  apply state_tracked_with_transport; [reflexivity|].
  apply state_tracked_setState, H.
Qed.

Lemma state_tracked_terminate_head w :
  state_tracked w -> state_tracked (fst (terminate_head w)).
Proof.
  intros H. unfold terminate_head.
  destruct (_ || _); [exact H|].
  match goal with |- context [match ?p with Some _ => _ | None => _ end] =>
    destruct p end; cbn [fst].
  - do 2 (apply state_tracked_with_transport; [reflexivity|]).
    apply state_tracked_setState, H.
  - apply state_tracked_terminate_tail.
    do 2 (apply state_tracked_with_transport; [reflexivity|]).
    apply state_tracked_setState, H.
Qed.

Lemma state_tracked_step l w :
  state_tracked w -> state_tracked (step JSON_parse l w).
Proof.
  intros H.
  assert (Herror : forall reason,
             state_tracked (emit (Event_error reason) (setState Persistent.error w))).
  { intros reason. apply state_tracked_emit; [exact I|].
    apply state_tracked_setState, H. }
  destruct l; cbn [step].
  - unfold query_head. destruct (_ || _); [kept H|].
    destruct (negb (client_isAlive _)); kept H.
  - unfold stop_head.
    set (w1 := if messageGenerator (client w) then _ else w).
    assert (H1 : state_tracked w1)
      by (unfold w1; destruct (messageGenerator (client w)); kept H).
    destruct (transport (client w1)); [|kept H1].
    pose proof (state_tracked_terminate_head w1 H1) as H2.
    destruct (terminate_head w1) as [w2 b]. cbn [fst] in H2. kept H2.
  - unfold query_tail. destruct (existsb _ _); kept H.
  - unfold terminate_resume. destruct (process_settled _); [|exact H].
    destruct (mark_returned _); [|exact H].
    pose proof (state_tracked_terminate_tail w H) as H1. kept H1.
  - unfold stop_resume. destruct (drop_returned _); kept H.
  - kept H.
  - unfold writer_receive. destruct (writer w); try exact H.
    destruct (MessageGenerator.generator _) as [|slot|slot m|
                                                |slot m| |reason]; try exact H.
    + destruct (_ || _); [kept H|].
      unfold checkState.
      match goal with
      | |- state_tracked (if _ then request_next ?v else set_writer _ ?v) =>
          assert (H1 : state_tracked v)
      end.
      { apply state_tracked_with_transport; [reflexivity|].
        apply state_tracked_setState, H. }
      destruct (_ || _); kept H1.
    + kept H.
    + unfold writer_catch. destruct (aborted _); [kept H|].
      pose proof (Herror reason) as H1. kept H1.
  - unfold writer_timer. destruct (writer w); try exact H.
    unfold checkState. destruct (_ || _); kept H.
  - unfold reader_line. destruct (reader w); try exact H.
    destruct (aborted _); [kept H|]. destruct (String.eqb _ _); [exact H|].
    destruct (JSON_parse _) as [[]|]; try (kept H);
      apply state_tracked_handle_parsed, H.
  - unfold reader_close. destruct (reader w); kept H.
  - unfold reader_failure. destruct (reader w); try exact H.
    unfold reader_catch. destruct (aborted _); [kept H|].
    pose proof (Herror reason) as H1. kept H1.
  - kept H.
  - unfold signal_abort. destruct (signal _); [|exact H].
    apply state_tracked_with_transport; [|exact H].
    intros t. destruct (cleanupAbort t); reflexivity.
Qed.

Lemma state_tracked_run ls : forall w,
  state_tracked w -> state_tracked (run JSON_parse ls w).
Proof.
  induction ls as [|l ls IH]; intros w H; [exact H|].
  apply IH, state_tracked_step, H.
Qed.

End Reader.

Lemma state_tracked_transport_start spawn w :
  state_tracked w -> state_tracked (fst (transport_start spawn w)).
Proof.
  intros H. unfold transport_start.
  destruct (negb (ProcessState_eqb _ not_started)); [exact H|].
  pose proof (state_tracked_setState initializing w H) as H1.
  destruct spawn as [|child]; cbv zeta.
  - unfold start_catch. cbn [fst].
    apply state_tracked_emit; [exact I|]. apply state_tracked_setState, H1.
  - match goal with
    | |- context [if _ then start_catch _ ?v else _] =>
        assert (H3 : state_tracked v)
    end.
    { destruct (signal _);
        repeat (apply state_tracked_with_transport; [reflexivity|]); exact H1. }
    destruct (_ || _); cbn [fst].
    + unfold start_catch. cbn [fst].
      apply state_tracked_emit; [exact I|]. apply state_tracked_setState, H3.
    + apply state_tracked_setState. kept H3.
Qed.

Lemma state_tracked_session initialPrompt spawn options_signal :
  state_tracked (session initialPrompt spawn options_signal).
Proof.
  unfold session, start_head.
  change (transport (client (new_client options_signal))) with false.
  cbv iota zeta.
  match goal with
  | |- context [transport_start spawn ?v] =>
      assert (H3 : state_tracked v) by (split; reflexivity);
      pose proof (state_tracked_transport_start spawn v H3) as H4;
      destruct (transport_start spawn v) as [w4 [[]|reason]]
  end; cbn [fst] in *.
  - destruct initialPrompt as [prompt|]; [destruct (negb _)|]; cbn [fst]; kept H4.
  - exact H4.
Qed.

End StateFacts.

(* ===================================================================== *)
(** * Two prompts for one slot *)
(* ===================================================================== *)

Module SlotFacts.
Import Persistent PersistentProps SessionProps ConversationProps.
Import PersistentFacts ReachableFacts LoopFacts QueryFacts LifecycleFacts.
Import SessionFacts FrameFacts PipeFacts.

#[local] Arguments setState : simpl never.
#[local] Arguments emit : simpl never.
#[local] Arguments is_string : simpl never.
#[local] Arguments truthy : simpl never.
#[local] Arguments get : simpl never.
#[local] Arguments trim : simpl never.
#[local] Arguments MessageGenerator.step : simpl never.
#[local] Arguments MessageGenerator.setNextMessage : simpl never.
#[local] Arguments MessageGenerator.terminate : simpl never.

(** A second [resolve] changes nothing, not even the local variable. *)
Lemma resolve_resolve {T} (first second : T) cp :
  ControllablePromise.resolve second (ControllablePromise.resolve first cp)
  = ControllablePromise.resolve first cp.
Proof.
  unfold ControllablePromise.resolve. simpl.
  destruct (ControllablePromise.promise cp); reflexivity.
Qed.

Lemma setNextMessage_live message s :
  MessageGenerator.isTerminated s = false ->
  MessageGenerator.current_status s = ControllablePromise.pending ->
  MessageGenerator.setNextMessage message s
  = MessageGenerator.on_current (ControllablePromise.resolve message) s.
Proof.
  intros Ht Hs. unfold MessageGenerator.setNextMessage. rewrite Ht, Hs. reflexivity.
Qed.

Lemma current_status_resolve message s :
  MessageGenerator.current_status
    (MessageGenerator.on_current (ControllablePromise.resolve message) s)
  = MessageGenerator.current_status s.
Proof.
  unfold MessageGenerator.current_status, MessageGenerator.on_current. simpl.
  rewrite list_lookup_alter.
  destruct (decide _) as [_|N]; [|congruence].
  destruct (MessageGenerator.slots s !! MessageGenerator.sendMessagePromise s);
    reflexivity.
Qed.

(** A message set while the installed slot holds one is dropped. *)
Lemma setNextMessage_twice first second s :
  MessageGenerator.isTerminated s = false ->
  MessageGenerator.current_status s = ControllablePromise.pending ->
  MessageGenerator.setNextMessage second (MessageGenerator.setNextMessage first s)
  = MessageGenerator.setNextMessage first s.
Proof.
  intros Ht Hs. rewrite (setNextMessage_live first s Ht Hs).
  rewrite setNextMessage_live;
    [|exact Ht | rewrite current_status_resolve; exact Hs].
  unfold MessageGenerator.on_current. simpl. f_equal.
  rewrite list_alter_alter_eq. apply list_alter_ext; [|reflexivity].
  intros cp _. apply resolve_resolve.
Qed.

Lemma isTerminated_setNextMessage message s :
  MessageGenerator.isTerminated (MessageGenerator.setNextMessage message s)
  = MessageGenerator.isTerminated s.
Proof.
  unfold MessageGenerator.setNextMessage.
  destruct (MessageGenerator.isTerminated s) eqn:E; [exact E|].
  destruct (negb _); exact E.
Qed.

Lemma isTerminated_step l s :
  l <> MessageGenerator.CallTerminate ->
  MessageGenerator.isTerminated (MessageGenerator.step l s)
  = MessageGenerator.isTerminated s.
Proof.
  intros Hl. unfold MessageGenerator.step.
  destruct l as [m|h| | | | |failure]; try contradiction.
  - apply isTerminated_setNextMessage.
  - reflexivity.
  - destruct (MessageGenerator.generator s); reflexivity.
  - destruct (MessageGenerator.generator s); reflexivity.
  - destruct (MessageGenerator.generator s) as [|slot|slot m| |slot m| |e];
      try reflexivity.
    destruct (ControllablePromise.promise <$> _) as [[|m|e]|]; try reflexivity.
    + unfold MessageGenerator.after_await. simpl.
      destruct (MessageGenerator.isTerminated s) eqn:E; simpl; [exact E|].
      destruct (MessageGenerator.onNewUserMessageResolved _); exact E.
    + rewrite TurnFacts.isTerminated_catch_block. reflexivity.
  - destruct (MessageGenerator.generator s) as [|slot|slot m| |slot m| |e],
      failure as [e'|]; try reflexivity.
    + rewrite TurnFacts.isTerminated_catch_block. reflexivity.
    + rewrite TurnFacts.isTerminated_after_onError. reflexivity.
Qed.

(** **** The generator of a started client is not terminated *)

Lemma checkState_isTerminated w :
  MessageGenerator.isTerminated (generator_object (checkState w))
  = MessageGenerator.isTerminated (generator_object w).
Proof.
  unfold checkState. destruct (_ || _); [|reflexivity].
  simpl. apply isTerminated_step. discriminate.
Qed.

(** Only [stop()] terminates the generator. *)
Lemma step_isTerminated JSON_parse l w :
  l <> CallStop ->
  MessageGenerator.isTerminated (generator_object (step JSON_parse l w))
  = MessageGenerator.isTerminated (generator_object w).
Proof.
  intros Hl. destruct l; try contradiction; cbn [step].
  - unfold query_head. destruct (_ || _); [reflexivity|].
    destruct (negb (client_isAlive _)); [reflexivity|].
    simpl. apply isTerminated_setNextMessage.
  - unfold query_tail. destruct (existsb _ _); reflexivity.
  - unfold terminate_resume. destruct (process_settled _); [|reflexivity].
    destruct (mark_returned _); [|reflexivity].
    unfold terminate_tail. outs. reflexivity.
  - unfold stop_resume. destruct (drop_returned _); reflexivity.
  - simpl. apply isTerminated_step. discriminate.
  - unfold writer_receive. destruct (writer w); try reflexivity.
    destruct (MessageGenerator.generator _) as [|slot|slot m| |slot m| |reason];
      try reflexivity.
    + destruct (_ || _).
      * simpl. apply isTerminated_step. discriminate.
      * rewrite checkState_isTerminated. outs. reflexivity.
    + unfold writer_catch. destruct (aborted _); outs; reflexivity.
  - unfold writer_timer. destruct (writer w); try reflexivity.
    apply checkState_isTerminated.
  - unfold reader_line. destruct (reader w); try reflexivity.
    destruct (aborted _); [reflexivity|]. destruct (String.eqb _ _); [reflexivity|].
    destruct (JSON_parse _) as [[]|]; try reflexivity;
      rewrite handle_parsed_generator; reflexivity.
  - unfold reader_close. destruct (reader w); reflexivity.
  - unfold reader_failure. destruct (reader w); try reflexivity.
    unfold reader_catch. destruct (aborted _); outs; reflexivity.
  - reflexivity.
  - unfold signal_abort. destruct (signal _); reflexivity.
Qed.

Lemma step_messageGenerator JSON_parse l w :
  l <> CallStop ->
  messageGenerator (client (step JSON_parse l w)) = messageGenerator (client w).
Proof.
  intros Hl.
  assert (Hf : forall w', flags w' = flags w ->
                          messageGenerator (client w') = messageGenerator (client w)).
  { intros w' H. unfold flags in H. congruence. }
  destruct l; try contradiction;
    try (apply Hf, step_flags; [discriminate | reflexivity]); cbn [step].
  - unfold query_head. destruct (_ || _); [reflexivity|].
    destruct (negb (client_isAlive _)); reflexivity.
  - unfold stop_resume. destruct (drop_returned _); reflexivity.
Qed.

Lemma generator_live_step JSON_parse l w :
  generator_live w -> generator_live (step JSON_parse l w).
Proof.
  unfold generator_live. intros H.
  destruct l;
    try (rewrite step_isTerminated, step_messageGenerator by discriminate; exact H).
  intros Hg. cbn [step] in Hg.
  destruct (stop_head_flags w) as [E _]. congruence.
Qed.

Lemma generator_live_run JSON_parse ls : forall w,
  generator_live w -> generator_live (run JSON_parse ls w).
Proof.
  induction ls as [|l ls IH]; intros w H; [exact H|].
  apply IH, generator_live_step, H.
Qed.

Lemma transport_start_generator spawn w :
  MessageGenerator.isTerminated (generator_object (fst (transport_start spawn w)))
  = MessageGenerator.isTerminated (generator_object w).
Proof.
  unfold transport_start.
  destruct (negb (ProcessState_eqb _ not_started)); [reflexivity|].
  destruct spawn as [|child]; cbv zeta.
  - unfold start_catch. outs. reflexivity.
  - destruct (_ || _); cbn [fst].
    + unfold start_catch.
      destruct (signal _); outs; reflexivity.
    + destruct (signal _); outs;
        (rewrite isTerminated_step by discriminate); reflexivity.
Qed.

Lemma generator_live_session initialPrompt spawn options_signal :
  generator_live (session initialPrompt spawn options_signal).
Proof.
  intros _. unfold session, start_head.
  change (transport (client (new_client options_signal))) with false.
  cbv iota zeta.
  match goal with
  | |- context [transport_start spawn ?v] =>
      pose proof (transport_start_generator spawn v) as H4;
      destruct (transport_start spawn v) as [w4 [[]|reason]]
  end; cbn [fst] in *.
  - destruct initialPrompt as [prompt|]; [destruct (negb _)|]; cbn [fst];
      simpl; rewrite ?isTerminated_setNextMessage; exact H4.
  - exact H4.
Qed.

(** **** A second [query()] right after the first *)

#[local] Arguments isAlive : simpl never.

Lemma second_query_dropped first second w :
  generator_live w ->
  MessageGeneratorProps.all_pending (generator_object w) ->
  let w1 := query_head first w in
  let w2 := query_head second w1 in
  generator_object w2 = generator_object w1
  /\ writer w2 = writer w1
  /\ transport_object w2 = transport_object w1.
Proof.
  intros Hl Hp w1 w2. subst w2 w1. unfold generator_live in Hl.
  unfold query_head, client_isAlive. simpl.
  destruct (transport (client w)) eqn:Et; simpl;
    [|rewrite ?Et; split; [|split]; reflexivity].
  destruct (messageGenerator (client w)) eqn:Eg; simpl;
    [|rewrite ?Et, ?Eg; split; [|split]; reflexivity].
  destruct (isAlive (transport_object w)) eqn:Ea; simpl;
    rewrite ?Et, ?Eg, ?Ea; simpl; [|split; [|split]; reflexivity].
  split; [|split; reflexivity].
  rewrite setNextMessage_twice; [reflexivity | apply Hl; reflexivity|].
  apply MessageGeneratorFacts.all_pending_current_status, Hp.
Qed.

Lemma both_queries_wait first second w :
  client_isAlive w = true ->
  messageGenerator (client w) = true ->
  let w2 := query_head second (query_head first w) in
  waitingForResult (client w2)
  = waitingForResult (client w) ++ [next_call w; S (next_call w)]
  /\ settled_queries w2 = settled_queries w
  /\ messageCount (client w2) = S (S (messageCount (client w))).
Proof.
  intros Ha Eg w2. subst w2. unfold client_isAlive in Ha.
  destruct (transport (client w)) eqn:Et; [|discriminate Ha].
  unfold query_head, client_isAlive. simpl.
  rewrite Et, Eg, Ha. simpl. rewrite Et, Eg, Ha. simpl.
  rewrite <- app_assoc. split; [|split]; reflexivity.
Qed.

End SlotFacts.

(* ===================================================================== *)
(** * Further properties of the session: the state and the slot *)
(* ===================================================================== *)

(** X21.  At every moment of a session the state of the transport is
    the state carried by the last [state_change] event emitted,
    ['not_started'] before the first; and every such event announces a
    change: it never carries the state announced by the event before
    it, nor does the first one carry ['not_started'].  A subscriber can
    therefore follow [getState()] from the events alone. *)
Theorem X21_the_state_is_the_last_one_announced :
  forall (JSON_parse : string -> option Persistent.JSON)
         (initialPrompt : option string) (spawn : Persistent.SpawnResult)
         (options_signal : option bool) (ls : list Persistent.Label),
    let w := Persistent.run JSON_parse ls
               (PersistentProps.session initialPrompt spawn options_signal) in
    let states := StateProps.announced_states (Persistent.emitted w) in
    Persistent.state (Persistent.transport_object w)
    = List.last states Persistent.not_started
    /\ StateProps.changing Persistent.not_started states = true
    /\ (Persistent.transport (Persistent.client w) = true ->
        Persistent.processState (Persistent.getState w)
        = List.last states Persistent.not_started).
Proof.
  intros JSON_parse initialPrompt spawn options_signal ls w states.
  destruct (StateFacts.state_tracked_run JSON_parse ls _
              (StateFacts.state_tracked_session initialPrompt spawn options_signal))
    as [H1 H2].
  fold w in H1, H2. fold states in H1, H2.
  split; [exact H1|]. split; [exact H2|].
  intros Ht. unfold Persistent.getState. simpl. rewrite Ht. exact H1.
Qed.

(** X23.  A [query()] made right after another one, before the
    generator has taken the prompt of the first, leaves the generator
    as it was: the slot already holds the first prompt, and the second
    [resolve] does nothing.  The second prompt is lost: whatever happens
    later, what is written to the subprocess is made of the prompts
    given, without that one.  Yet the second call is accepted like the
    first: when the client is alive, both calls are counted and both
    wait for a result. *)
Theorem X23_a_query_on_a_filled_slot_loses_its_prompt :
  forall (JSON_parse : string -> option Persistent.JSON)
         (initialPrompt : option string) (options_signal : option bool)
         (ls later : list Persistent.Label) (first second : string),
    let w := Persistent.run JSON_parse ls
               (PersistentProps.session initialPrompt
                  (Persistent.Spawned Persistent.running_child) options_signal) in
    let w1 := Persistent.step JSON_parse (Persistent.CallQuery first) w in
    let w2 := Persistent.step JSON_parse (Persistent.CallQuery second) w1 in
    Persistent.generator_object w2 = Persistent.generator_object w1
    /\ sublist (PersistentProps.stdin_written
                  (Persistent.transport_object (Persistent.run JSON_parse later w2)))
               (map SessionProps.chunk
                    (SessionProps.initial initialPrompt ++ SessionProps.prompts ls
                     ++ first :: SessionProps.prompts later))
    /\ (Persistent.client_isAlive w = true ->
        Persistent.messageGenerator (Persistent.client w) = true ->
        Persistent.waitingForResult (Persistent.client w2)
        = Persistent.waitingForResult (Persistent.client w)
          ++ [Persistent.next_call w; S (Persistent.next_call w)]
        /\ Persistent.settled_queries w2 = Persistent.settled_queries w
        /\ Persistent.messageCount (Persistent.client w2)
           = S (S (Persistent.messageCount (Persistent.client w)))).
Proof.
  intros JSON_parse initialPrompt options_signal ls later first second w w1 w2.
  pose proof (PipeFacts.piped_run JSON_parse ls _ _
                (PipeFacts.piped_session initialPrompt options_signal)) as Hp.
  fold w in Hp.
  pose proof (SlotFacts.generator_live_run JSON_parse ls _
                (SlotFacts.generator_live_session initialPrompt
                   (Persistent.Spawned Persistent.running_child) options_signal))
    as Hl.
  fold w in Hl.
  destruct (SlotFacts.second_query_dropped first second w Hl
              (TurnProps.reads_pending _ _ (SessionProps.generator_fed _ _ Hp)))
    as (Eg & Ew & Et).
  change (Persistent.query_head first w) with w1 in Eg, Ew, Et.
  change (Persistent.query_head second w1) with w2 in Eg, Ew, Et.
  split; [exact Eg|]. split; [|apply SlotFacts.both_queries_wait].
  pose proof (PipeFacts.piped_step JSON_parse (Persistent.CallQuery first) w _ Hp)
    as Hp1.
  fold w1 in Hp1. cbn [SessionProps.prompts flat_map app] in Hp1.
  assert (Hp2 : SessionProps.piped
                  ((SessionProps.initial initialPrompt ++ SessionProps.prompts ls)
                   ++ [first]) w2).
  { apply (PipeFacts.piped_frame _ w1); [exact Eg | exact Ew | | exact Hp1].
    rewrite Et. reflexivity. }
  pose proof (PipeFacts.piped_run JSON_parse later _ _ Hp2) as [[F _ _ _] _ W].
  rewrite <- !app_assoc in F. cbn [app] in F.
  etransitivity; [exact W|]. apply PipeFacts.sublist_map.
  etransitivity; [apply PipeFacts.taken_contents|].
  etransitivity; [|exact F].
  rewrite <- (app_nil_r (TurnProps.contents _)) at 1.
  apply sublist_app; [reflexivity | apply sublist_nil_l].
Qed.

(** X23 at a session on a running child: two queries in a row, then
    the generator, the writer loop, the result, the timer, and the
    generator and the writer loop again.  One chunk is written. *)
Lemma X23_lost_prompt_witness :
  Persistent.waitingForResult
    (Persistent.client
       (Persistent.step Samples.sample_parse (Persistent.CallQuery "b")
          (Persistent.step Samples.sample_parse (Persistent.CallQuery "a")
             (Persistent.run Samples.sample_parse []
                (PersistentProps.session None
                   (Persistent.Spawned Persistent.running_child) None)))))
  = [0; 1]
  /\ PersistentProps.stdin_written
       (Persistent.transport_object
          (Persistent.run Samples.sample_parse
             [Persistent.CallQuery "a"; Persistent.CallQuery "b";
              Persistent.GeneratorResume; Persistent.WriterReceive;
              Persistent.ReadLine Samples.result_line; Persistent.WriterTimer;
              Persistent.GeneratorResume; Persistent.WriterReceive]
             (PersistentProps.session None
                (Persistent.Spawned Persistent.running_child) None)))
     = [SessionProps.chunk "a"].
Proof.
  split; [|vm_compute; reflexivity].
  refine (proj1 (proj2 (proj2
            (X23_a_query_on_a_filled_slot_loses_its_prompt Samples.sample_parse
               None None [] [] "a" "b")) _ _)).
  - vm_compute. reflexivity.
  - vm_compute. reflexivity.
Defined.

(* ===================================================================== *)
(** * A conversation in lockstep *)
(* ===================================================================== *)

Module ConversationFacts.
Import Persistent PersistentProps SessionProps ConversationProps.
Import PersistentFacts.

#[local] Arguments is_string : simpl never.
#[local] Arguments truthy : simpl never.
#[local] Arguments get : simpl never.
#[local] Arguments trim : simpl never.
#[local] Arguments String.eqb : simpl never.

(** Unfolding the field updates and the reads of the fields. *)
Ltac setters :=
  cbv beta iota zeta delta
      [with_client with_generator with_transport set_next_call set_writer
       set_reader set_stops set_resumable record_event settle console_warning
       set_pendingMessages set_messageCount set_waitingForResult set_transport
       set_messageGenerator set_process set_state set_sessionId set_cleanupAbort
       set_eventHandlers set_signal
       transport_object generator_object client writer reader stops resumable
       next_call emitted settled_queries console_warn
       process state sessionId cleanupAbort eventHandlers signal
       transport messageGenerator messageCount pendingMessages waitingForResult
       stdin stdout killed exited written ended write
       messages sessionState
       MessageGenerator.on_current MessageGenerator.assign_fresh
       MessageGenerator.set_generator MessageGenerator.mark_consumed
       MessageGenerator.await_current MessageGenerator.prepare_and_yield
       MessageGenerator.slots MessageGenerator.sendMessagePromise
       MessageGenerator.hooks MessageGenerator.isTerminated
       MessageGenerator.generator MessageGenerator.consumed
       MessageGenerator.yielded MessageGenerator.warnings
       negb andb orb option_map fold_left call_handler
       client_handleTransportEvent resolveWaitingForResult handleMessage].

(** Reading a slot that is known. *)
Ltac promises :=
  cbv beta iota delta
      [ControllablePromise.promise ControllablePromise.status
       ControllablePromise.status_let ControllablePromise.Status_eqb negb].

(** Comparing two states that are known. *)
Ltac states := cbv beta iota delta [ProcessState_eqb negb andb orb].

(** A world in its fields. *)
Ltac fields w :=
  destruct w as [[process0 state0 sessionId0 cleanupAbort0 handlers0 signal0]
                 [slots0 current0 hooks0 terminated0 generator0 consumed0
                  yielded0 warnings0]
                 [transport0 messageGenerator0 count0 pending0 waiting0]
                 writer0 reader0 stops0 resumable0 next0 emitted0 settled0
                 console0].

Lemma run_labels JSON_parse ls1 ls2 w :
  run JSON_parse (ls1 ++ ls2) w = run JSON_parse ls2 (run JSON_parse ls1 w).
Proof. apply fold_left_app. Qed.

Lemma result_not_system value :
  is_string "result" value = true -> is_string "system" value = false.
Proof.
  unfold is_string. destruct value as [[| | |s| |]|]; try discriminate.
  intros H. apply String.eqb_eq in H. subst s. reflexivity.
Qed.

Lemma typed_truthy literal key parsed :
  is_string literal (get key parsed) = true -> truthy (Some parsed) = true.
Proof. destruct parsed; try discriminate. reflexivity. Qed.

(** The slot installed by [prepare_and_yield] is free. *)
Lemma fresh_slot_free slots hooks generator consumed yielded warnings :
  MessageGenerator.onNewUserMessageResolved hooks = None ->
  slot_free (MessageGenerator.mkState (slots ++ [ControllablePromise.controllablePromise])
               (length slots) hooks false generator consumed yielded warnings).
Proof.
  intros Hh. split; [reflexivity | exact Hh |].
  exists ControllablePromise.controllablePromise. simpl.
  rewrite lookup_app_r by lia. rewrite Nat.sub_diag. repeat split.
Qed.

(** **** The prompt is taken and written *)

Lemma turn_head JSON_parse text w :
  resting w ->
  let w1 := run JSON_parse
              [CallQuery text; WriterTimer; GeneratorResume; WriterReceive] w in
  serving (next_call w) w1
  /\ stdin_written (transport_object w1)
     = stdin_written (transport_object w) ++ [chunk text]
  /\ pendingMessages (client w1) = []
  /\ settled_queries w1 = settled_queries w
  /\ next_call w1 = S (next_call w).
Proof.
  intros [[[Ht Hg] Hh (p & pipe & Ep & Ei & Ee & Ek) Hs Hr
           [Hterm Hhook (cp & Ec & Epr & Est)]] Hst Hw [Hwait Hres]] w1.
  fields w. destruct p as [sin sout k x], pipe as [chunks e],
    cp as [promise0 status0 local0].
  unfold writer_ready, writer_pausing in Hw. simpl in Ht, Hg, Hh, Ep, Ei, Ee, Ek,
    Hs, Hr, Hterm, Hhook, Ec, Epr, Est, Hst, Hw, Hwait, Hres. subst.
  eassert (E1 : w1 = _).
  { unfold w1. cbn [run fold_left step].
  assert (N1 : ProcessState_eqb state0 not_started = false)
    by (destruct Hst as [-> | ->]; reflexivity).
  assert (N2 : ProcessState_eqb state0 terminated = false)
    by (destruct Hst as [-> | ->]; reflexivity).
  assert (N3 : ProcessState_eqb state0 Persistent.error = false)
    by (destruct Hst as [-> | ->]; reflexivity).
  assert (N4 : ProcessState_eqb state0 processing = false)
    by (destruct Hst as [-> | ->]; reflexivity).
  assert (N5 : ProcessState_eqb state0 paused || ProcessState_eqb state0 ready = true)
    by (destruct Hst as [-> | ->]; reflexivity).
  cbv beta iota delta [orb] in N5.
  (* query() *)
  lazymatch goal with |- context [query_head text ?W] =>
    eassert (E : query_head text W = _);
    [ unfold query_head, client_isAlive, isAlive, MessageGenerator.setNextMessage,
        MessageGenerator.current_status; setters; rewrite Ec, N1, N2, N3;
      promises; setters; rewrite app_nil_l; reflexivity
    | rewrite E; clear E ]
  end.
  assert (Ec1 : ControllablePromise.promise
                  <$> alter (ControllablePromise.resolve text) current0 slots0
                      !! current0
                = Some (Fulfilled text)).
  { rewrite list_lookup_alter.
    destruct (decide _) as [_|N]; [|congruence]. rewrite Ec. reflexivity. }
  (* the timer, if one is set *)
  lazymatch goal with |- context [writer_timer ?W] =>
    eassert (E : writer_timer W
                 = mkWorld _ (MessageGenerator.mkState _ current0 hooks0 false
                                (MessageGenerator.AwaitSlot current0) consumed0
                                yielded0 warnings0)
                     _ WriterAwaitNext _ _ _ _ _ _ _);
    [ unfold writer_timer, checkState, request_next, MessageGenerator.step;
      destruct Hw as [[-> ->] | [-> (slot & m & ->)]];
      setters; rewrite ?N5; setters; reflexivity
    | rewrite E; clear E ]
  end.
  clear Hw.
  (* the generator hands out the turn *)
  lazymatch goal with |- context [with_generator ?f ?W] =>
    eassert (E : with_generator f W = _);
    [ unfold MessageGenerator.step; setters; rewrite Ec1;
      unfold MessageGenerator.after_await; setters; rewrite Hhook; setters;
      reflexivity
    | rewrite E; clear E ]
  end.
  (* the writer loop writes it *)
  lazymatch goal with |- context [writer_receive ?W] =>
    eassert (E : writer_receive W = _);
    [ unfold writer_receive, isAlive, has_stdin, checkState, setState, emit;
      setters; rewrite N1, N2, N3, N4; setters; states; setters; reflexivity
    | rewrite E; clear E ]
  end.
  reflexivity. }
  rewrite E1. clear E1 w1.
  split; [|repeat split].
  split; [split| | |]; simpl; try (split; reflexivity); try reflexivity.
  - eexists _, _. repeat split.
  - exact Hs.
  - apply fresh_slot_free, Hhook.
  - split; [reflexivity|]. eexists _, _. reflexivity.
Qed.

(** **** The lines before the result *)

Lemma turn_reply JSON_parse call line w :
  serving call w ->
  is_result_line JSON_parse line = false ->
  let w1 := step JSON_parse (ReadLine line) w in
  serving call w1
  /\ stdin_written (transport_object w1) = stdin_written (transport_object w)
  /\ pendingMessages (client w1)
     = pendingMessages (client w) ++ record_of JSON_parse line
  /\ settled_queries w1 = settled_queries w
  /\ next_call w1 = next_call w.
Proof.
  intros [[[Ht Hg] Hh (p & pipe & Ep & Ei & Ee & Ek) Hs Hr Hslot] Hst Hw
          [Hwait Hres]] Hline w1.
  fields w. destruct p as [sin sout k x], pipe as [chunks e].
  unfold writer_pausing in Hw. destruct Hw as [Hw Hy].
  simpl in Ht, Hg, Hh, Ep, Ei, Ee, Ek, Hr, Hst, Hw, Hy, Hwait, Hres, Hslot.
  unfold aborted in Hs. cbv beta iota delta [transport_object signal] in Hs.
  subst. subst w1. cbn [step]. unfold reader_line, aborted. setters.
  rewrite Hs. unfold is_result_line in Hline. unfold record_of.
  assert (Hkeep : forall sid emitted1 pending1 console1,
    let w1 := mkWorld (mkTransport
                         (Some (mkSubprocess (Some (mkStdin chunks false)) sout false x))
                         processing sid cleanupAbort0 [handleTransportEvent] signal0)
                (MessageGenerator.mkState slots0 current0 hooks0 terminated0
                   generator0 consumed0 yielded0 warnings0)
                (mkClient true true count0 pending1 [call])
                WriterWaitForPause ReaderRunning stops0 [] next0 emitted1 settled0
                console1 in
    serving call w1
    /\ stdin_written (transport_object w1) = chunks
    /\ pendingMessages (client w1) = pending1
    /\ settled_queries w1 = settled0
    /\ next_call w1 = next0).
  { intros sid emitted1 pending1 console1 w1. subst w1.
    split; [|repeat split].
    split; [split| | |]; simpl; try (split; reflexivity); try reflexivity.
    - eexists _, _. repeat split.
    - unfold aborted. exact Hs.
    - exact Hslot.
    - split; [reflexivity | exact Hy]. }
  destruct (String.eqb (trim line) "") eqn:Eb.
  { cbv beta iota. rewrite ?app_nil_r. exact (Hkeep _ _ _ _). }
  simpl in Hline.
  destruct (JSON_parse (trim line)) as [parsed|] eqn:Epar;
    [|cbv beta iota; rewrite ?app_nil_r; exact (Hkeep _ _ _ _)].
  assert (Hparsed : forall w0,
             w0 = mkWorld (mkTransport
                         (Some (mkSubprocess (Some (mkStdin chunks false)) sout false x))
                         processing sessionId0 cleanupAbort0 [handleTransportEvent]
                         signal0)
                (MessageGenerator.mkState slots0 current0 hooks0 terminated0
                   generator0 consumed0 yielded0 warnings0)
                (mkClient true true count0 pending0 [call])
                WriterWaitForPause ReaderRunning stops0 [] next0 emitted0 settled0
                console0 ->
             let w1 := handle_parsed parsed w0 in
             serving call w1
             /\ stdin_written (transport_object w1) = chunks
             /\ pendingMessages (client w1)
                = pending0 ++ (if truthy (Some parsed)
                               then [mkMessage (get "type" parsed) parsed] else [])
             /\ settled_queries w1 = settled0
             /\ next_call w1 = next0).
  { intros w0 -> w1. subst w1. unfold handle_parsed.
    rewrite Hline.
    destruct (_ && _ && _); [destruct (get "session_id" parsed) as [sid|]|];
      unfold emit; setters;
      destruct (truthy (Some parsed)); setters; rewrite ?Hline, ?app_nil_r;
      exact (Hkeep _ _ _ _). }
  destruct parsed as [|b|number|s|items|members];
    try (apply Hparsed; reflexivity).
  cbv beta iota. rewrite ?app_nil_r. exact (Hkeep _ _ _ _).
Qed.

Lemma turn_replies JSON_parse call lines : forall w,
  serving call w ->
  forallb (fun line => negb (is_result_line JSON_parse line)) lines = true ->
  let w1 := run JSON_parse (map ReadLine lines) w in
  serving call w1
  /\ stdin_written (transport_object w1) = stdin_written (transport_object w)
  /\ pendingMessages (client w1)
     = pendingMessages (client w) ++ flat_map (record_of JSON_parse) lines
  /\ settled_queries w1 = settled_queries w
  /\ next_call w1 = next_call w.
Proof.
  induction lines as [|line lines IH]; intros w H Hl w1.
  - subst w1. simpl. rewrite app_nil_r. split; [exact H | repeat split].
  - simpl in Hl. apply andb_true_iff in Hl as [Hline Hl].
    apply negb_true_iff in Hline.
    destruct (turn_reply JSON_parse call line w H Hline) as (H1 & E1 & E2 & E3 & E4).
    destruct (IH _ H1 Hl) as (H2 & F1 & F2 & F3 & F4).
    subst w1. cbn [map run fold_left flat_map].
    change (fold_left _ (map ReadLine lines) ?v)
      with (run JSON_parse (map ReadLine lines) v).
    split; [exact H2|].
    rewrite F1, F2, F3, F4, E1, E2, E3, E4, app_assoc. repeat split.
Qed.

(** **** The result *)

Lemma turn_result JSON_parse call line w :
  serving call w ->
  is_result_line JSON_parse line = true ->
  let w2 := run JSON_parse [ReadLine line; QueryResume call] w in
  resting w2
  /\ stdin_written (transport_object w2) = stdin_written (transport_object w)
  /\ (exists r,
        settled_queries w2 = settled_queries w ++ [(call, Resolved r)]
        /\ messages r = pendingMessages (client w) ++ record_of JSON_parse line
        /\ processState (sessionState r) = paused
        /\ snapshot_isAlive (sessionState r) = true)
  /\ next_call w2 = next_call w.
Proof.
  intros [[[Ht Hg] Hh (p & pipe & Ep & Ei & Ee & Ek) Hs Hr Hslot] Hst Hw
          [Hwait Hres]] Hline w2.
  fields w. destruct p as [sin sout k x], pipe as [chunks e].
  unfold writer_pausing in Hw. destruct Hw as [Hw Hy].
  simpl in Ht, Hg, Hh, Ep, Ei, Ee, Ek, Hr, Hst, Hw, Hy, Hwait, Hres, Hslot.
  unfold aborted in Hs. cbv beta iota delta [transport_object signal] in Hs.
  subst.
  unfold is_result_line in Hline. apply andb_true_iff in Hline as [Eb Hline].
  apply negb_true_iff in Eb.
  destruct (JSON_parse (trim line)) as [parsed|] eqn:Epar; [|discriminate Hline].
  destruct parsed as [|b|number|s|items|members];
    try (exfalso; cbv in Hline; discriminate Hline).
  pose proof (typed_truthy _ _ _ Hline) as Htrue.
  pose proof (result_not_system _ Hline) as Hsys.
  unfold record_of. rewrite Eb, Epar, Htrue.
  eassert (E2 : w2 = _).
  { unfold w2. cbn [run fold_left step]. unfold reader_line, aborted. setters.
    rewrite Hs, Eb, Epar.
    unfold handle_parsed. rewrite Hsys, Hline. unfold setState, emit. setters.
    states. setters. rewrite Htrue, Hline. setters.
    unfold query_tail. setters. rewrite !app_nil_l, !app_nil_r.
    cbn [existsb List.filter]. rewrite Nat.eqb_refl. setters.
    reflexivity. }
  rewrite E2. clear E2 w2.
  split; [|split; [reflexivity | split; [|reflexivity]]].
  - split; [split| | |]; simpl; try (split; reflexivity); try reflexivity.
    + eexists _, _. repeat split.
    + unfold aborted. exact Hs.
    + exact Hslot.
    + right. reflexivity.
    + right. split; [reflexivity | exact Hy].
  - eexists. split; [reflexivity|]. repeat split.
Qed.

(** **** One turn, and the session a new client starts *)

Lemma turn_run JSON_parse t w :
  resting w ->
  well_formed JSON_parse t = true ->
  let w' := run JSON_parse (turn_labels (next_call w) t) w in
  resting w'
  /\ stdin_written (transport_object w')
     = stdin_written (transport_object w) ++ [chunk (prompt t)]
  /\ (exists entry,
        settled_queries w' = settled_queries w ++ [entry]
        /\ fst entry = next_call w
        /\ answer JSON_parse t entry)
  /\ next_call w' = S (next_call w).
Proof.
  intros H Hwf w'. unfold well_formed in Hwf.
  apply andb_true_iff in Hwf as [Hreplies Hresult].
  destruct (turn_head JSON_parse (prompt t) w H) as (H1 & E1 & P1 & S1 & N1).
  destruct (turn_replies JSON_parse (next_call w) (replies t) _ H1 Hreplies)
    as (H2 & E2 & P2 & S2 & N2).
  destruct (turn_result JSON_parse (next_call w) (result t) _ H2 Hresult)
    as (H3 & E3 & (r & S3 & M3 & R3 & A3) & N3).
  assert (Ew : w' = run JSON_parse [ReadLine (result t); QueryResume (next_call w)]
                      (run JSON_parse (map ReadLine (replies t))
                         (run JSON_parse
                            [CallQuery (prompt t); WriterTimer; GeneratorResume;
                             WriterReceive] w))).
  { unfold w', turn_labels. rewrite !run_labels. reflexivity. }
  rewrite Ew. clear Ew w'.
  split; [exact H3|]. split; [rewrite E3, E2, E1; reflexivity|].
  split; [|rewrite N3, N2, N1; reflexivity].
  exists (next_call w, Resolved r). split; [rewrite S3, S2, S1; reflexivity|].
  split; [reflexivity|]. exists r. split; [reflexivity|].
  split; [|split; assumption].
  rewrite M3, P2, P1, flat_map_app. simpl. rewrite app_nil_r. reflexivity.
Qed.

Lemma resting_session options_signal :
  options_signal <> Some true ->
  resting (session None (Spawned running_child) options_signal).
Proof.
  intros Hs.
  assert (E : session None (Spawned running_child) options_signal
              = mkWorld
                  (mkTransport (Some running_child) ready None
                     (match options_signal with Some _ => true | None => false end)
                     [handleTransportEvent] options_signal)
                  (MessageGenerator.mkState
                     [ControllablePromise.controllablePromise;
                      ControllablePromise.controllablePromise] 1
                     (MessageGenerator.mkHooks None None) false
                     (MessageGenerator.AwaitSlot 1) [] [] [])
                  (mkClient true true 0 [] [])
                  WriterAwaitNext ReaderRunning [] [] 0
                  [Event_state_change initializing; Event_state_change ready] [] [])
    by (destruct options_signal as [[|]|]; vm_compute; reflexivity).
  rewrite E. clear E.
  split; [split| | |]; simpl; try (split; reflexivity); try reflexivity.
  - eexists _, _. repeat split.
  - unfold aborted. simpl. destruct options_signal as [[|]|]; congruence.
  - split; try reflexivity. eexists. repeat split.
  - left. reflexivity.
  - left. split; reflexivity.
Qed.

End ConversationFacts.

(* ===================================================================== *)
(** * Further properties of the session: a conversation *)
(* ===================================================================== *)

(** X22.  A conversation in lockstep works.  Start between two turns:
    the client is started and alive, the state is ['ready'] or
    ['paused'], no [query()] is in flight, the writer loop waits for
    the generator or in [waitForPause].  Let the caller await each
    [query()] before making the next, and let the subprocess answer each
    prompt with any lines that are not result records followed by one
    result record.  Then every prompt is written to the subprocess,
    once, followed by one newline, in the order of the calls; every call
    resolves, in that order, with one message per line of its turn that
    parsed to a truthy value, the result record last, and a session
    state that reads ['paused'] and alive; and the session is between
    two turns again. *)
Theorem X22_a_conversation_in_lockstep :
  forall (JSON_parse : string -> option Persistent.JSON) (w : Persistent.World)
         (turns : list ConversationProps.Turn),
    let w' := Persistent.run JSON_parse
                (ConversationProps.conversation (Persistent.next_call w) turns) w in
    ConversationProps.resting w ->
    forallb (ConversationProps.well_formed JSON_parse) turns = true ->
    ConversationProps.resting w'
    /\ PersistentProps.stdin_written (Persistent.transport_object w')
       = PersistentProps.stdin_written (Persistent.transport_object w)
         ++ map (fun t => SessionProps.chunk (ConversationProps.prompt t)) turns
    /\ Persistent.next_call w' = Persistent.next_call w + length turns
    /\ exists answers,
         Persistent.settled_queries w' = Persistent.settled_queries w ++ answers
         /\ map fst answers = seq (Persistent.next_call w) (length turns)
         /\ Forall2 (ConversationProps.answer JSON_parse) turns answers.
Proof.
  intros JSON_parse w turns. revert w.
  induction turns as [|t turns IH]; intros w w' H Hwf.
  - subst w'. simpl. rewrite app_nil_r, Nat.add_0_r.
    split; [exact H|]. split; [reflexivity|]. split; [reflexivity|].
    exists []. rewrite app_nil_r. repeat constructor.
  - simpl in Hwf. apply andb_true_iff in Hwf as [Ht Hwf].
    destruct (ConversationFacts.turn_run JSON_parse t w H Ht)
      as (H1 & E1 & (entry & S1 & F1 & A1) & N1).
    assert (Ew : w' = Persistent.run JSON_parse
                        (ConversationProps.conversation
                           (Persistent.next_call
                              (Persistent.run JSON_parse
                                 (ConversationProps.turn_labels
                                    (Persistent.next_call w) t) w))
                           turns)
                        (Persistent.run JSON_parse
                           (ConversationProps.turn_labels (Persistent.next_call w) t)
                           w)).
    { unfold w'. cbn [ConversationProps.conversation].
      rewrite ConversationFacts.run_labels, N1. reflexivity. }
    destruct (IH _ H1 Hwf) as (H2 & E2 & N2 & answers & S2 & F2 & A2).
    rewrite <- Ew in H2, E2, N2, S2. clear Ew.
    split; [exact H2|].
    split; [rewrite E2, E1, <- app_assoc; reflexivity|].
    split; [rewrite N2, N1; simpl; lia|].
    exists (entry :: answers).
    split; [rewrite S2, S1, <- app_assoc; reflexivity|].
    split; [|constructor; assumption].
    cbn [map length seq]. rewrite F1, F2, N1. reflexivity.
Qed.

(** X22 at a client started on a running child without a first prompt:
    ["hello"], answered by the init record, an assistant record and the
    result; then ["again"], answered by the result alone. *)
Lemma X22_conversation_witness :
  PersistentProps.stdin_written
    (Persistent.transport_object
       (Persistent.run Samples.sample_parse
          (ConversationProps.conversation
             (Persistent.next_call
                (PersistentProps.session None
                   (Persistent.Spawned Persistent.running_child) None))
             [ConversationProps.mkTurn "hello"
                [Samples.init_line; Samples.content_line] Samples.result_line;
              ConversationProps.mkTurn "again" [] Samples.result_line])
          (PersistentProps.session None
             (Persistent.Spawned Persistent.running_child) None)))
  = PersistentProps.stdin_written
      (Persistent.transport_object
         (PersistentProps.session None
            (Persistent.Spawned Persistent.running_child) None))
    ++ map (fun t => SessionProps.chunk (ConversationProps.prompt t))
           [ConversationProps.mkTurn "hello"
              [Samples.init_line; Samples.content_line] Samples.result_line;
            ConversationProps.mkTurn "again" [] Samples.result_line].
Proof.
  refine (proj1 (proj2
            (X22_a_conversation_in_lockstep Samples.sample_parse
               (PersistentProps.session None
                  (Persistent.Spawned Persistent.running_child) None)
               [ConversationProps.mkTurn "hello"
                  [Samples.init_line; Samples.content_line] Samples.result_line;
                ConversationProps.mkTurn "again" [] Samples.result_line] _ _))).
  - apply (ConversationFacts.resting_session None). discriminate.
  - vm_compute. reflexivity.
Defined.

(* ===================================================================== *)
(** * A second [stop()], a second [terminate()] *)
(* ===================================================================== *)

Module StopFacts.
Import ControllablePromise.
Import Persistent PersistentProps SessionProps MessageGeneratorProps StopProps.
Import PersistentFacts ReachableFacts LoopFacts QueryFacts LifecycleFacts.
Import SessionFacts FrameFacts CallFacts ExitFacts.

#[local] Arguments setState : simpl never.
#[local] Arguments emit : simpl never.
#[local] Arguments is_string : simpl never.
#[local] Arguments truthy : simpl never.
#[local] Arguments get : simpl never.
#[local] Arguments trim : simpl never.
#[local] Arguments MessageGenerator.step : simpl never.
#[local] Arguments MessageGenerator.setNextMessage : simpl never.
#[local] Arguments MessageGenerator.terminate : simpl never.

(** **** Rejections without a handler *)

Lemma filter_none {A} (f : A -> bool) (l : list A) :
  List.filter f l = [] <-> forall x, In x l -> f x = false.
Proof.
  induction l as [|a l IH]; simpl.
  - split; [intros _ x [] | reflexivity].
  - destruct (f a) eqn:E.
    + split; [discriminate|]. intros H. specialize (H a (or_introl eq_refl)). congruence.
    + rewrite IH. split.
      * intros H x [<-|Hx]; [exact E | apply H, Hx].
      * intros H x Hx. apply H. right. exact Hx.
Qed.

Lemma unhandled_none s :
  unhandled s = []
  <-> forall slot e,
        promise <$> MessageGenerator.slots s !! slot = Some (Rejected e) ->
        awaited s slot = true.
Proof.
  unfold unhandled. rewrite filter_none. split.
  - intros H slot e E.
    assert (Hlt : slot < length (MessageGenerator.slots s)).
    { destruct (MessageGenerator.slots s !! slot) as [cp|] eqn:El; [|discriminate E].
      eapply lookup_lt_Some. exact El. }
    specialize (H slot). rewrite E in H.
    destruct (awaited s slot); [reflexivity|].
    exfalso. assert (true = false); [|discriminate].
    apply H. apply in_seq. lia.
  - intros H slot _.
    destruct (promise <$> MessageGenerator.slots s !! slot) as [[| |e]|] eqn:E;
      try reflexivity.
    rewrite (H slot e E). reflexivity.
Qed.

(** [terminate()] of the generator while its body waits on the
    installed slot: the promise it rejects has the handler of that
    [await]. *)
Lemma unhandled_terminate_awaiting s :
  MessageGenerator.generator s
    = MessageGenerator.AwaitSlot (MessageGenerator.sendMessagePromise s) ->
  unhandled s = [] ->
  unhandled (MessageGenerator.terminate s) = [].
Proof.
  intros Hg H. rewrite unhandled_none in *. intros slot e.
  unfold MessageGenerator.terminate.
  match goal with |- context [if ?c then _ else _] => destruct c end.
  - unfold MessageGenerator.on_current, awaited. cbn -[alter lookup].
    rewrite Hg. cbn -[alter lookup].
    destruct (Nat.eqb (MessageGenerator.sendMessagePromise s) slot) eqn:En;
      [reflexivity|].
    apply Nat.eqb_neq in En.
    rewrite list_lookup_alter_ne by exact En.
    intros E. specialize (H slot e E). unfold awaited in H.
    rewrite Hg in H. apply Nat.eqb_neq in En. rewrite En in H. exact H.
  - unfold awaited. cbn. intros E. specialize (H slot e E).
    unfold awaited in H. exact H.
Qed.

(** [terminate()] of the generator while nothing waits on the
    installed slot, which is pending: the promise it rejects has no
    handler. *)
Lemma unhandled_terminate_unawaited s :
  let slot := MessageGenerator.sendMessagePromise s in
  MessageGenerator.current_status s = pending ->
  promise <$> MessageGenerator.slots s !! slot = Some Pending ->
  awaited s slot = false ->
  promise <$> MessageGenerator.slots (MessageGenerator.terminate s) !! slot
  = Some (Rejected (mkError "Error" "Generator terminated"))
  /\ In slot (unhandled (MessageGenerator.terminate s)).
Proof.
  intros slot Hs Hp Ha.
  assert (Ht : MessageGenerator.terminate s
               = MessageGenerator.on_current
                   (reject (mkError "Error" "Generator terminated"))
                   (MessageGenerator.mkState
                      (MessageGenerator.slots s) (MessageGenerator.sendMessagePromise s)
                      (MessageGenerator.hooks s) true (MessageGenerator.generator s)
                      (MessageGenerator.consumed s) (MessageGenerator.yielded s)
                      (MessageGenerator.warnings s))).
  { unfold MessageGenerator.terminate.
    change (MessageGenerator.current_status
              (MessageGenerator.mkState
                 (MessageGenerator.slots s) (MessageGenerator.sendMessagePromise s)
                 (MessageGenerator.hooks s) true (MessageGenerator.generator s)
                 (MessageGenerator.consumed s) (MessageGenerator.yielded s)
                 (MessageGenerator.warnings s)))
      with (MessageGenerator.current_status s).
    rewrite Hs. reflexivity. }
  destruct (MessageGenerator.slots s !! slot) as [cp|] eqn:El; [|discriminate Hp].
  assert (Hcp : promise cp = Pending) by (injection Hp as Hp; exact Hp).
  assert (Hl : promise <$> MessageGenerator.slots (MessageGenerator.terminate s) !! slot
               = Some (Rejected (mkError "Error" "Generator terminated"))).
  { rewrite Ht. unfold MessageGenerator.on_current. cbn -[alter lookup].
    fold slot. rewrite list_lookup_alter_eq, El. simpl. rewrite Hcp. reflexivity. }
  split; [exact Hl|].
  unfold unhandled. apply filter_In. split.
  - apply in_seq. split; [lia|]. simpl.
    rewrite Ht. unfold MessageGenerator.on_current. cbn -[alter].
    rewrite length_alter. eapply lookup_lt_Some. exact El.
  - rewrite Hl.
    assert (Ha' : awaited (MessageGenerator.terminate s) slot = awaited s slot)
      by (rewrite Ht; reflexivity).
    rewrite Ha', Ha. reflexivity.
Qed.

Lemma terminate_tail_generator w :
  generator_object (terminate_tail w) = generator_object w.
Proof. unfold terminate_tail. outs. reflexivity. Qed.

Lemma terminate_generator w :
  generator_object (fst (terminate w)) = generator_object w.
Proof.
  unfold terminate. pose proof (terminate_head_generator w) as H.
  destruct (terminate_head w) as [w1 [|]]; cbn [fst] in *.
  - rewrite terminate_tail_generator. exact H.
  - exact H.
Qed.

Lemma stop_generator w :
  generator_object (fst (stop w))
  = if messageGenerator (client w)
    then MessageGenerator.terminate (generator_object w)
    else generator_object w.
Proof.
  unfold stop. cbn [fst].
  set (w1 := if messageGenerator (client w) then _ else w).
  assert (E : generator_object w1
              = if messageGenerator (client w)
                then MessageGenerator.terminate (generator_object w)
                else generator_object w)
    by (unfold w1; destruct (messageGenerator (client w)); reflexivity).
  rewrite <- E. destruct (transport (client w1)); simpl; [|reflexivity].
  apply terminate_generator.
Qed.

Lemma stop_head_generator w :
  generator_object (stop_head w)
  = if messageGenerator (client w)
    then MessageGenerator.terminate (generator_object w)
    else generator_object w.
Proof.
  unfold stop_head.
  set (w1 := if messageGenerator (client w) then _ else w).
  assert (E : generator_object w1
              = if messageGenerator (client w)
                then MessageGenerator.terminate (generator_object w)
                else generator_object w)
    by (unfold w1; destruct (messageGenerator (client w)); reflexivity).
  rewrite <- E. destruct (transport (client w1)); [|reflexivity].
  pose proof (terminate_head_generator w1) as H.
  destruct (terminate_head w1) as [w2 b]. exact H.
Qed.

(** A first [stop()] made while the body of the generator waits on the
    installed slot leaves no rejection without a handler. *)
Lemma stop_handled w :
  MessageGenerator.generator (generator_object w)
    = MessageGenerator.AwaitSlot
        (MessageGenerator.sendMessagePromise (generator_object w)) ->
  unhandled (generator_object w) = [] ->
  unhandled (generator_object (fst (stop w))) = [].
Proof.
  intros Hg H. rewrite stop_generator.
  destruct (messageGenerator (client w)); [|exact H].
  apply unhandled_terminate_awaiting; assumption.
Qed.

(** **** A transport that was started stays started *)

Lemma started_step JSON_parse l w :
  state (transport_object w) <> not_started ->
  state (transport_object (step JSON_parse l w)) <> not_started.
Proof.
  intros H. destruct l; cbn [step].
  - unfold query_head. destruct (_ || _); [exact H|].
    destruct (negb (client_isAlive _)); exact H.
  - unfold stop_head.
    set (w1 := if messageGenerator (client w) then _ else w).
    assert (E1 : transport_object w1 = transport_object w)
      by (unfold w1; destruct (messageGenerator (client w)); reflexivity).
    destruct (transport (client w1)); [|simpl; rewrite E1; exact H].
    destruct (terminate_head_cases w1)
      as [[_ E]|[(_ & _ & w' & E & Es & _)|(_ & _ & _ & w' & E & Et & _)]];
      rewrite E; simpl.
    + rewrite E1. exact H.
    + rewrite Es. discriminate.
    + rewrite Et. discriminate.
  - unfold query_tail. destruct (existsb _ _); exact H.
  - unfold terminate_resume. destruct (process_settled _); [|exact H].
    destruct (mark_returned _); [|exact H].
    change (transport_object (set_stops l (terminate_tail w)))
      with (transport_object (terminate_tail w)).
    rewrite terminate_tail_transport. discriminate.
  - unfold stop_resume. destruct (drop_returned _); exact H.
  - exact H.
  - unfold writer_receive. destruct (writer w); try exact H.
    destruct (MessageGenerator.generator (generator_object w)); try exact H.
    + destruct (_ || _); [exact H|].
      rewrite checkState_transport. simpl. rewrite setState_transport. discriminate.
    + unfold writer_catch. destruct (aborted _); [exact H|].
      simpl. rewrite emit_transport, setState_state. discriminate.
  - unfold writer_timer. destruct (writer w); try exact H.
    rewrite checkState_transport. exact H.
  - unfold reader_line. destruct (reader w); try exact H.
    destruct (aborted _); [exact H|]. destruct (_ =? _)%string; [exact H|].
    destruct (JSON_parse _) as [[]|]; try exact H;
      rewrite handle_parsed_state;
      destruct (is_string "result" _); try exact H; discriminate.
  - unfold reader_close. destruct (reader w); exact H.
  - unfold reader_failure. destruct (reader w); try exact H.
    unfold reader_catch. destruct (aborted _); [exact H|].
    simpl. rewrite emit_transport, setState_state. discriminate.
  - exact H.
  - unfold signal_abort. destruct (signal _); [|exact H].
    simpl. destruct (cleanupAbort _); exact H.
Qed.

Lemma started_run JSON_parse ls w :
  state (transport_object w) <> not_started ->
  state (transport_object (run JSON_parse ls w)) <> not_started.
Proof.
  revert w. induction ls as [|l ls IH]; intros w H; [exact H|].
  apply IH, started_step, H.
Qed.

(** **** [terminate()] as a whole call *)

Lemma hushed_terminate w : hushed w (fst (terminate w)).
Proof.
  unfold terminate. pose proof (hushed_terminate_head w) as H.
  destruct (terminate_head w) as [w1 [|]]; cbn [fst] in *; [|exact H].
  eapply hushed_trans; [exact H | apply hushed_terminate_tail].
Qed.

Lemma terminate_settled w :
  settled_queries (fst (terminate w)) = settled_queries w.
Proof.
  unfold terminate.
  destruct (terminate_head_cases w)
    as [[_ E]|[(_ & _ & w' & E & _ & _ & _ & _ & _ & _ & _ & _ & Eq)
              |(_ & _ & _ & w' & E & _ & _ & _ & _ & _ & Eq)]];
    rewrite E; cbn [fst snd]; try assumption; [reflexivity|].
  unfold terminate_tail. outs. exact Eq.
Qed.

(** A [terminate()] call on a transport that was started, whatever
    happened to it since: the state it leaves is ['terminated'], the
    events it emits are changes of the state, the generator and the
    calls that ended are what they were. *)
Lemma terminate_again JSON_parse ls w :
  state (transport_object w) <> not_started ->
  let v := run JSON_parse ls w in
  state (transport_object (fst (terminate v))) = terminated
  /\ (exists events, emitted (fst (terminate v)) = emitted v ++ events
                     /\ forallb quiet events = true)
  /\ generator_object (fst (terminate v)) = generator_object v
  /\ settled_queries (fst (terminate v)) = settled_queries v.
Proof.
  intros H v.
  assert (Hv : state (transport_object v) <> not_started)
    by (apply started_run, H).
  split; [|split; [|split]].
  - destruct (terminate_cases v) as [[[Hs|Hs] E]|[_ Ht]].
    + rewrite E. exact Hs.
    + contradiction.
    + exact Ht.
  - destruct (hushed_terminate v) as (_ & _ & He & _). exact He.
  - apply terminate_generator.
  - apply terminate_settled.
Qed.

(** **** [stop()] on a client that holds nothing *)

Lemma stop_nothing_held JSON_parse v :
  flags v = (false, false, 0) ->
  let twice := step JSON_parse CallStop v in
  stop v = (twice, Resolved tt)
  /\ outside_client twice = outside_client v
  /\ getState v = nothing_held
  /\ getState twice = nothing_held
  /\ waitingForResult (client twice) = waitingForResult (client v).
Proof.
  intros H twice. unfold flags in H. injection H as Ht Hg Hc.
  unfold twice. cbn [step]. unfold stop, stop_head, getState, client_isAlive.
  rewrite Hg, Ht. cbn. rewrite ?Ht, ?Hc. repeat split.
Qed.

(** **** A [stop()] call in the scheduler *)

Lemma step_stops_nil JSON_parse l w :
  l <> CallStop -> stops w = [] -> stops (step JSON_parse l w) = [].
Proof.
  intros Hl H. destruct l; cbn [step]; try (exfalso; apply Hl; reflexivity).
  - unfold query_head. destruct (_ || _); [exact H|].
    destruct (negb (client_isAlive _)); exact H.
  - unfold query_tail. destruct (existsb _ _); exact H.
  - unfold terminate_resume. rewrite H. destruct (process_settled _); exact H.
  - unfold stop_resume. rewrite H. exact H.
  - exact H.
  - unfold writer_receive. destruct (writer w); try exact H.
    destruct (MessageGenerator.generator (generator_object w)); try exact H.
    + destruct (_ || _); [exact H|].
      unfold checkState. destruct (_ || _); outs; exact H.
    + unfold writer_catch. destruct (aborted _); [exact H|]. outs. exact H.
  - unfold writer_timer. destruct (writer w); try exact H.
    unfold checkState. destruct (_ || _); exact H.
  - unfold reader_line. destruct (reader w); try exact H.
    destruct (aborted _); [exact H|]. destruct (_ =? _)%string; [exact H|].
    destruct (JSON_parse _) as [[]|]; try exact H;
      rewrite handle_parsed_stops; exact H.
  - unfold reader_close. destruct (reader w); exact H.
  - unfold reader_failure. destruct (reader w); try exact H.
    unfold reader_catch. destruct (aborted _); [exact H|]. outs. exact H.
  - exact H.
  - unfold signal_abort. destruct (signal _); exact H.
Qed.

(** While a [stop()] call is in flight the client has let go of the
    generator. *)
Lemma stopping_step JSON_parse l w :
  (stops w <> [] -> messageGenerator (client w) = false) ->
  stops (step JSON_parse l w) <> [] ->
  messageGenerator (client (step JSON_parse l w)) = false.
Proof.
  intros H Hs.
  destruct (messageGenerator (client w)) eqn:Eg.
  - assert (Hn : stops w = []).
    { destruct (stops w) eqn:E; [reflexivity|].
      assert (true = false); [|discriminate]. apply H. discriminate. }
    assert (Hl : l = CallStop \/ l <> CallStop)
      by (destruct l; try (right; discriminate); left; reflexivity).
    destruct Hl as [-> | Hl].
    + cbn [step]. apply stop_head_flags.
    + exfalso. apply Hs. apply step_stops_nil; assumption.
  - apply generator_dropped_step, Eg.
Qed.

Lemma stopping_run JSON_parse ls w :
  stops w = [] ->
  stops (run JSON_parse ls w) <> [] ->
  messageGenerator (client (run JSON_parse ls w)) = false.
Proof.
  intros H0.
  assert (H : stops w <> [] -> messageGenerator (client w) = false)
    by (intros N; contradiction).
  clear H0. revert w H. induction ls as [|l ls IH]; intros w H; [exact H|].
  simpl. apply IH. apply stopping_step, H.
Qed.

Lemma session_stops initialPrompt spawn options_signal :
  stops (session initialPrompt spawn options_signal) = [].
Proof.
  destruct spawn as [|[[pipe|] [|] k ex]], options_signal, initialPrompt as [[|c p]|];
    reflexivity.
Qed.

(** The [stop()] call that returns leaves a client that holds
    nothing. *)
Lemma stop_returns JSON_parse initialPrompt spawn options_signal ls :
  let w := run JSON_parse ls (session initialPrompt spawn options_signal) in
  drop_returned (stops w) <> None ->
  flags (step JSON_parse StopResume w) = (false, false, 0).
Proof.
  intros w Hd. cbn [step]. unfold stop_resume.
  destruct (drop_returned (stops w)) as [calls|] eqn:E; [|contradiction].
  assert (Hg : messageGenerator (client w) = false).
  { apply stopping_run; [apply session_stops|].
    fold w. intros N. rewrite N in E. discriminate E. }
  unfold flags. simpl. rewrite Hg. reflexivity.
Qed.

End StopFacts.

(** C7, the claim as worded, fails.  A client is started on a
    subprocess that runs; [getState()] reports ['ready'].  [stop()] is
    called and completes (the generator was waiting on its slot, so the
    rejection has a handler).  The client has let go of the transport:
    [getState()] reports ['not_started'], not ['terminated'], and does
    so after a second [stop()] as well. *)
Lemma C7_client_reports_not_started_after_stop :
  (let once := fst (Persistent.stop Samples.started) in
   Persistent.getState Samples.started
   = Persistent.mkSessionState None Persistent.ready true 0
   /\ MessageGeneratorProps.unhandled (Persistent.generator_object once) = []
   /\ Persistent.processState (Persistent.getState once) = Persistent.not_started
   /\ Persistent.processState (Persistent.getState (fst (Persistent.stop once)))
      = Persistent.not_started)
  /\ ~ PersistentProps.stop_leaves_terminated Samples.sample_parse.
Proof.
  split.
  - vm_compute. repeat split.
  - intros H. destruct (H []) as [H1 _]. vm_compute in H1. discriminate H1.
Qed.

(** C7 as amended.  A second call changes nothing that can be seen
    and produces no error, whether it follows the first at once or
    after anything else has happened.

    [terminate()]: on a transport in the state NotStarted or Terminated
    the call returns at once and changes nothing.  On any other
    transport it ends with the state Terminated, and a second call
    right after it changes nothing.  A second call made later, when
    the state has moved on, ends with the state Terminated again; the
    events it emits are changes of the state, none of them an error;
    it touches neither the generator nor the calls that ended.

    [stop()]: once a first call has completed, with no rejection left
    without a handler, the client holds neither transport nor
    generator and [getState()] reports no session, ['not_started'], not
    alive, no message (not Terminated: the transport that is in that
    state has been let go of).  This stays so whatever happens next,
    short of a new [start()].  A
    second call has no await; it changes nothing outside the client
    (transport, generator, loops, calls, events, console) and
    [getState()] reports the same.  This holds for a first call taken
    as a whole and for one that went through its awaits with other
    events in between.

    A first [stop()] made while the body of the generator waits on the
    installed slot leaves no rejection without a handler; a first
    [stop()] made at another moment is left out. *)
Theorem C7_second_stop_or_terminate_changes_nothing :
  forall (JSON_parse : string -> option Persistent.JSON)
         (initialPrompt : option string) (spawn : Persistent.SpawnResult)
         (options_signal : option bool) (ls : list Persistent.Label)
         (w : Persistent.World) (later : list Persistent.Label),
    let terminated_once := fst (Persistent.terminate w) in
    let stopped_once := fst (Persistent.stop w) in
    (* terminate() *)
    (Persistent.state (Persistent.transport_object w) = Persistent.terminated
     \/ Persistent.state (Persistent.transport_object w) = Persistent.not_started ->
     Persistent.terminate w = (w, Persistent.Resolved tt))
    /\ (Persistent.state (Persistent.transport_object w) <> Persistent.not_started ->
        Persistent.state (Persistent.transport_object terminated_once)
        = Persistent.terminated)
    /\ Persistent.terminate terminated_once
       = (terminated_once, Persistent.Resolved tt)
    /\ (Persistent.state (Persistent.transport_object w) <> Persistent.not_started ->
        let v := Persistent.run JSON_parse later terminated_once in
        let twice := fst (Persistent.terminate v) in
        Persistent.state (Persistent.transport_object twice) = Persistent.terminated
        /\ (exists events,
               Persistent.emitted twice = Persistent.emitted v ++ events
               /\ forallb SessionProps.quiet events = true)
        /\ Persistent.generator_object twice = Persistent.generator_object v
        /\ Persistent.settled_queries twice = Persistent.settled_queries v)
    (* stop(), the first call taken as a whole *)
    /\ (MessageGeneratorProps.unhandled (Persistent.generator_object stopped_once) = [] ->
        let v := Persistent.run JSON_parse later stopped_once in
        let twice := Persistent.step JSON_parse Persistent.CallStop v in
        Persistent.getState stopped_once = StopProps.nothing_held
        /\ Persistent.stop stopped_once = (stopped_once, Persistent.Resolved tt)
        /\ Persistent.getState v = StopProps.nothing_held
        /\ Persistent.stop v = (twice, Persistent.Resolved tt)
        /\ PersistentProps.outside_client twice = PersistentProps.outside_client v
        /\ Persistent.getState twice = StopProps.nothing_held)
    (* stop(), the first call in the scheduler *)
    /\ (let w0 := Persistent.run JSON_parse ls
                    (PersistentProps.session initialPrompt spawn options_signal) in
        let returned := Persistent.step JSON_parse Persistent.StopResume w0 in
        let v := Persistent.run JSON_parse later returned in
        let twice := Persistent.step JSON_parse Persistent.CallStop v in
        Persistent.drop_returned (Persistent.stops w0) <> None ->
        MessageGeneratorProps.unhandled (Persistent.generator_object w0) = [] ->
        Persistent.getState returned = StopProps.nothing_held
        /\ Persistent.getState v = StopProps.nothing_held
        /\ Persistent.stop v = (twice, Persistent.Resolved tt)
        /\ PersistentProps.outside_client twice = PersistentProps.outside_client v
        /\ Persistent.getState twice = StopProps.nothing_held)
    (* the first stop() while the generator waits on its slot *)
    /\ (MessageGenerator.generator (Persistent.generator_object w)
        = MessageGenerator.AwaitSlot
            (MessageGenerator.sendMessagePromise (Persistent.generator_object w)) ->
        MessageGeneratorProps.unhandled (Persistent.generator_object w) = [] ->
        MessageGeneratorProps.unhandled (Persistent.generator_object stopped_once) = []).
Proof.
  intros JSON_parse initialPrompt spawn options_signal ls w later
         terminated_once stopped_once.
  assert (T2 : Persistent.state (Persistent.transport_object w) <> Persistent.not_started ->
               Persistent.state (Persistent.transport_object terminated_once)
               = Persistent.terminated).
  { intros Hs. destruct (LifecycleFacts.terminate_cases w) as [[[H|H] E]|[_ H]].
    - unfold terminated_once. rewrite E. exact H.
    - contradiction.
    - exact H. }
  split; [apply LifecycleFacts.terminate_early|].
  split; [exact T2|].
  split; [apply LifecycleFacts.terminate_twice|].
  split; [|split; [|split]].
  - intros Hs v twice.
    apply (StopFacts.terminate_again JSON_parse later terminated_once).
    rewrite (T2 Hs). discriminate.
  - intros _ v twice.
    pose proof (FrameFacts.stop_flags w) as Hf. fold stopped_once in Hf.
    pose proof (FrameFacts.stopped_run JSON_parse later _ Hf) as Hv. fold v in Hv.
    destruct (StopFacts.stop_nothing_held JSON_parse stopped_once Hf)
      as (_ & _ & G1 & _).
    destruct (StopFacts.stop_nothing_held JSON_parse v Hv)
      as (G2 & G3 & G4 & G5 & _).
    split; [exact G1|]. split; [apply LifecycleFacts.stop_twice|].
    split; [exact G4|]. split; [exact G2|]. split; [exact G3 | exact G5].
  - intros w0 returned v twice Hd _.
    pose proof (StopFacts.stop_returns JSON_parse initialPrompt spawn options_signal
                  ls Hd) as Hf.
    fold w0 in Hf. fold returned in Hf.
    pose proof (FrameFacts.stopped_run JSON_parse later _ Hf) as Hv. fold v in Hv.
    destruct (StopFacts.stop_nothing_held JSON_parse returned Hf)
      as (_ & _ & G1 & _).
    destruct (StopFacts.stop_nothing_held JSON_parse v Hv)
      as (G2 & G3 & G4 & G5 & _).
    split; [exact G1|]. split; [exact G4|]. split; [exact G2|].
    split; [exact G3 | exact G5].
  - apply StopFacts.stop_handled.
Qed.

(** C7 on a client started on a subprocess that runs, stopped while
    its generator waits for the first prompt; on a new client; and on
    a [stop()] call that goes through the exit of the subprocess. *)
Lemma C7_stop_witness :
  let later := [Persistent.ReadLine Samples.content_line;
                Persistent.GeneratorResume; Persistent.WriterReceive] in
  let stopped_once := fst (Persistent.stop Samples.started) in
  let v := Persistent.run Samples.sample_parse later stopped_once in
  MessageGeneratorProps.unhandled (Persistent.generator_object stopped_once) = []
  /\ Persistent.getState stopped_once = StopProps.nothing_held
  /\ PersistentProps.outside_client
       (Persistent.step Samples.sample_parse Persistent.CallStop v)
     = PersistentProps.outside_client v
  /\ Persistent.state
       (Persistent.transport_object
          (fst (Persistent.terminate
                  (Persistent.run Samples.sample_parse later
                     (fst (Persistent.terminate Samples.started))))))
     = Persistent.terminated
  /\ Persistent.terminate (Persistent.new_client None)
     = (Persistent.new_client None, Persistent.Resolved tt)
  /\ Persistent.getState
       (Persistent.step Samples.sample_parse Persistent.StopResume
          (Persistent.run Samples.sample_parse
             [Persistent.CallStop; Persistent.ProcessExit; Persistent.TerminateResume]
             (PersistentProps.session None
                (Persistent.Spawned Persistent.running_child) None)))
     = StopProps.nothing_held.
Proof.
  assert (Hs : Persistent.state (Persistent.transport_object Samples.started)
               <> Persistent.not_started) by (vm_compute; discriminate).
  assert (Hg : MessageGenerator.generator (Persistent.generator_object Samples.started)
               = MessageGenerator.AwaitSlot
                   (MessageGenerator.sendMessagePromise
                      (Persistent.generator_object Samples.started)))
    by (vm_compute; reflexivity).
  assert (Hu : MessageGeneratorProps.unhandled
                 (Persistent.generator_object Samples.started) = [])
    by (vm_compute; reflexivity).
  assert (Hd : Persistent.drop_returned
                 (Persistent.stops
                    (Persistent.run Samples.sample_parse
                       [Persistent.CallStop; Persistent.ProcessExit;
                        Persistent.TerminateResume]
                       (PersistentProps.session None
                          (Persistent.Spawned Persistent.running_child) None)))
               <> None) by (vm_compute; discriminate).
  assert (Hu0 : MessageGeneratorProps.unhandled
                  (Persistent.generator_object
                     (Persistent.run Samples.sample_parse
                        [Persistent.CallStop; Persistent.ProcessExit;
                         Persistent.TerminateResume]
                        (PersistentProps.session None
                           (Persistent.Spawned Persistent.running_child) None))) = [])
    by (vm_compute; reflexivity).
  pose proof (C7_second_stop_or_terminate_changes_nothing Samples.sample_parse None
                (Persistent.Spawned Persistent.running_child) None
                [Persistent.CallStop; Persistent.ProcessExit; Persistent.TerminateResume]
                Samples.started
                [Persistent.ReadLine Samples.content_line;
                 Persistent.GeneratorResume; Persistent.WriterReceive])
    as (_ & _ & _ & T4 & S & G & U).
  pose proof (C7_second_stop_or_terminate_changes_nothing Samples.sample_parse None
                (Persistent.Spawned Persistent.running_child) None []
                (Persistent.new_client None) [])
    as (T1 & _).
  pose proof (U Hg Hu) as U1.
  split; [exact U1|].
  split; [exact (proj1 (S U1))|].
  split; [exact (proj1 (proj2 (proj2 (proj2 (proj2 (S U1))))))|].
  split; [exact (proj1 (T4 Hs))|].
  split; [exact (T1 (or_intror eq_refl))|].
  exact (proj1 (G Hd Hu0)).
Defined.

(* ===================================================================== *)
(** * [start()] cut at its awaits *)
(* ===================================================================== *)

Module StartFacts.
Import Persistent PersistentProps SessionProps Interleaved.
Import PersistentFacts ReachableFacts LoopFacts QueryFacts LifecycleFacts.
Import SessionFacts FrameFacts.

#[local] Arguments setState : simpl never.
#[local] Arguments emit : simpl never.
#[local] Arguments is_string : simpl never.
#[local] Arguments truthy : simpl never.
#[local] Arguments get : simpl never.
#[local] Arguments trim : simpl never.
#[local] Arguments MessageGenerator.step : simpl never.
#[local] Arguments MessageGenerator.setNextMessage : simpl never.
#[local] Arguments MessageGenerator.terminate : simpl never.

(** **** The three parts *)

Lemma setState_messageGenerator s w :
  messageGenerator (client (setState s w)) = messageGenerator (client w).
Proof.
  pose proof (setState_flags s w) as Hf.
  unfold flags in Hf. injection Hf as _ Hg _. exact Hg.
Qed.

Lemma start_enter_cases w :
  transport (client w) = true
  /\ start_enter w = (w, Threw already_started_error)
  \/ transport (client w) = false
     /\ exists w1, start_enter w = (w1, Resolved tt)
                   /\ messageGenerator (client w1) = true.
Proof.
  unfold start_enter. destruct (transport (client w)).
  - left. split; reflexivity.
  - right. split; [reflexivity|]. cbn -[setState].
    eexists. split; [reflexivity|].
    rewrite setState_messageGenerator. reflexivity.
Qed.

Lemma start_catch_flags reason w :
  flags (fst (start_catch reason w)) = flags w.
Proof. unfold start_catch. cbn [fst]. rewrite emit_flags, setState_flags. reflexivity. Qed.

Lemma transport_start_resume_cases spawn w :
  flags (fst (transport_start_resume spawn w)) = flags w
  /\ forall reason,
       snd (transport_start_resume spawn w) = Threw reason ->
       reason = not_found_error \/ reason = connection_error.
Proof.
  unfold transport_start_resume. destruct spawn as [|child].
  - split; [apply start_catch_flags|]. simpl. intros reason [= <-]. left. reflexivity.
  - cbv zeta.
    match goal with |- context [if ?c then _ else _] => destruct c end.
    + split.
      * rewrite start_catch_flags.
        destruct (signal _); reflexivity.
      * simpl. intros reason [= <-]. right. reflexivity.
    + split; [|simpl; discriminate].
      cbn [fst]. rewrite setState_flags.
      destruct (signal _); reflexivity.
Qed.

Lemma start_leave_cases initialPrompt w :
  (exists w', start_leave initialPrompt w = (w', Resolved tt))
  \/ start_leave initialPrompt w = (w, Threw no_generator_error)
     /\ messageGenerator (client w) = false
     /\ exists prompt, initialPrompt = Some prompt /\ prompt <> "".
Proof.
  unfold start_leave. destruct initialPrompt as [prompt|]; [|left; eexists; reflexivity].
  destruct (String.eqb prompt "") eqn:E; simpl; [left; eexists; reflexivity|].
  destruct (messageGenerator (client w)); [left; eexists; reflexivity|].
  right. split; [reflexivity|]. split; [reflexivity|].
  exists prompt. split; [reflexivity|]. apply String.eqb_neq. exact E.
Qed.

(** **** Only [stop()] lets go of the generator *)

Lemma generator_kept_step JSON_parse l w :
  is_stop_call l = false ->
  messageGenerator (client (step JSON_parse l w)) = messageGenerator (client w).
Proof.
  intros Hl.
  assert (Hf : forall l', (forall prompt, l' <> CallQuery prompt) ->
                          stop_label l' = false ->
                          messageGenerator (client (step JSON_parse l' w))
                          = messageGenerator (client w)).
  { intros l' Hq Hs. pose proof (step_flags JSON_parse l' w Hq Hs) as Hf.
    unfold flags in Hf. injection Hf as _ Hg _. exact Hg. }
  destruct l; try discriminate Hl;
    try (apply Hf; [intros; discriminate | reflexivity]).
  - cbn [step]. unfold query_head. destruct (_ || _); [reflexivity|].
    destruct (negb (client_isAlive _)); reflexivity.
  - cbn [step]. unfold stop_resume. destruct (drop_returned _); reflexivity.
Qed.

Lemma generator_kept_run JSON_parse ls w :
  existsb is_stop_call ls = false ->
  messageGenerator (client (run JSON_parse ls w)) = messageGenerator (client w).
Proof.
  revert w. induction ls as [|l ls IH]; intros w H; [reflexivity|].
  simpl in H. apply orb_false_iff in H. destruct H as [Hl Hls].
  simpl. rewrite (IH _ Hls). apply generator_kept_step, Hl.
Qed.

Lemma generator_dropped_by_stop JSON_parse ls w :
  messageGenerator (client w) = true ->
  messageGenerator (client (run JSON_parse ls w)) = false ->
  In CallStop ls.
Proof.
  intros Ht Hf. destruct (existsb is_stop_call ls) eqn:E.
  - apply existsb_exists in E. destruct E as (l & Hin & Hl).
    destruct l; try discriminate Hl. exact Hin.
  - rewrite (generator_kept_run JSON_parse ls w E) in Hf. congruence.
Qed.

(** **** The whole call *)

(** With nothing let in at the two cuts the call is the one of
    [Persistent.start]. *)
Lemma start_atomic JSON_parse initialPrompt spawn activity w :
  Interleaved.start JSON_parse initialPrompt spawn [] [] activity w
  = Persistent.start JSON_parse initialPrompt spawn activity w.
Proof.
  unfold Interleaved.start, Persistent.start, start_enter, start_head.
  destruct (transport (client w)); [reflexivity|].
  cbv zeta.
  match goal with |- context [transport_start spawn ?v] => set (w3 := v) end.
  assert (Hs : state (transport_object w3) = not_started) by reflexivity.
  unfold transport_start. rewrite Hs. cbn [ProcessState_eqb negb run fold_left].
  pose proof setState_messageGenerator as Hg.
  unfold transport_start_resume. cbv zeta.
  destruct spawn as [|child]; [reflexivity|].
  match goal with |- context [if ?c then _ else _] => destruct c end;
    [reflexivity|].
  unfold start_leave.
  destruct initialPrompt as [prompt|]; [|reflexivity].
  destruct (negb (prompt =? "")%string); [|reflexivity].
  rewrite Hg.
  assert (Hm : forall v, messageGenerator (client v) = true ->
                         messageGenerator
                           (client (set_reader ReaderRunning (request_next
                              (match signal (transport_object
                                               (with_transport (set_process (Some child)) v))
                               with
                               | Some _ => with_transport (set_cleanupAbort true)
                                             (with_transport (set_process (Some child)) v)
                               | None => with_transport (set_process (Some child)) v
                               end)))) = true).
  { intros v Hv. destruct (signal _); exact Hv. }
  rewrite Hm; [reflexivity|]. rewrite Hg. reflexivity.
Qed.

(** How the call can end. *)
Lemma start_outcome JSON_parse initialPrompt spawn before meanwhile activity w :
  let result := Interleaved.start JSON_parse initialPrompt spawn before meanwhile
                  activity w in
  match snd result with
  | Resolved _ =>
      truthy (sessionId (transport_object (fst result))) = true
      /\ transport (client (fst result)) = true
  | Threw reason =>
      reason = already_started_error
      \/ reason = not_found_error
      \/ reason = connection_error
      \/ reason = no_generator_error
         /\ (exists prompt, initialPrompt = Some prompt /\ prompt <> "")
         /\ In CallStop (before ++ meanwhile)
      \/ reason = initialization_timeout
      \/ reason = failed_to_initialize
         /\ (state (transport_object (fst result)) = Persistent.error
             \/ state (transport_object (fst result)) = terminated)
  end.
Proof.
  intros result. subst result. unfold Interleaved.start.
  destruct (start_enter_cases w) as [[_ E1]|[_ (w1 & E1 & G1)]]; rewrite E1.
  { cbn [snd]. tauto. }
  destruct (transport_start_resume_cases spawn (run JSON_parse before w1))
    as [F2 E2].
  destruct (transport_start_resume spawn (run JSON_parse before w1))
    as [w2 [[]|reason]]; cbn [fst snd] in *.
  2:{ destruct (E2 reason eq_refl) as [-> | ->]; tauto. }
  destruct (start_leave_cases initialPrompt (run JSON_parse meanwhile w2))
    as [[w3 E3]|(E3 & G3 & Hp)]; rewrite E3.
  - generalize (N.to_nat (INIT_TIMEOUT_MS / CHECK_INTERVAL_MS)). intros checks.
    pose proof (waitForSessionInit_outcome JSON_parse checks activity w3) as Ho.
    cbv zeta in Ho.
    destruct (waitForSessionInit JSON_parse checks activity w3)
      as [w4 [[]|reason]]; cbn [fst snd] in *.
    + apply checkInit_resolved, Ho.
    + destruct Ho as [-> | [-> Hc]]; [tauto|].
      apply checkInit_rejected in Hc. tauto.
  - cbn [snd]. right; right; right; left.
    split; [reflexivity|]. split; [exact Hp|].
    apply in_or_app.
    destruct (messageGenerator (client w2)) eqn:G2.
    + right. eapply generator_dropped_by_stop; eassumption.
    + left. unfold flags in F2. injection F2 as _ F2 _.
      rewrite G2 in F2. symmetry in F2.
      eapply generator_dropped_by_stop; eassumption.
Qed.

End StartFacts.

(* ===================================================================== *)
(** * Further properties of the session: how [start()] ends *)
(* ===================================================================== *)

(** X9.  How [PersistentClient.start()] can end, whatever happens at
    its awaits short of another [start()] (while [findCLI] looks for
    the executable, between the end of [transport.start] and the
    moment [client.start] goes on, and during the wait for the
    session).  It resolves only once the
    transport has a session id, and the client then holds the
    transport.  Otherwise it is rejected with one of six errors:
    'Client already started'; the CLINotFoundError of [findCLI]; the
    CLIConnectionError; a TypeError, only when a non-empty first prompt
    was given and [stop()] was called before [client.start] got to
    submit it; 'Session initialization timeout'; or 'Process failed to
    initialize', only with the transport in the state Error or
    Terminated.  With nothing happening at the first two awaits the
    call is the one of [Persistent.start]; a [stop()] made while
    [findCLI] runs gives the TypeError. *)
Theorem X9_start_resolves_with_a_session_or_names_its_error :
  forall (JSON_parse : string -> option Persistent.JSON)
         (initialPrompt : option string) (spawn : Persistent.SpawnResult)
         (before meanwhile : list Persistent.Label)
         (activity : list (list Persistent.Label)) (w : Persistent.World),
    let result := Interleaved.start JSON_parse initialPrompt spawn before meanwhile
                    activity w in
    match snd result with
    | Persistent.Resolved _ =>
        Persistent.truthy
          (Persistent.sessionId (Persistent.transport_object (fst result))) = true
        /\ Persistent.transport (Persistent.client (fst result)) = true
    | Persistent.Threw reason =>
        reason = SessionProps.already_started_error
        \/ reason = SessionProps.not_found_error
        \/ reason = SessionProps.connection_error
        \/ reason = Interleaved.no_generator_error
           /\ (exists prompt, initialPrompt = Some prompt /\ prompt <> "")
           /\ In Persistent.CallStop (before ++ meanwhile)
        \/ reason = PersistentProps.initialization_timeout
        \/ reason = SessionProps.failed_to_initialize
           /\ (Persistent.state (Persistent.transport_object (fst result))
                 = Persistent.error
               \/ Persistent.state (Persistent.transport_object (fst result))
                  = Persistent.terminated)
    end
    /\ Interleaved.start JSON_parse initialPrompt spawn [] [] activity w
       = Persistent.start JSON_parse initialPrompt spawn activity w
    /\ snd (Interleaved.start JSON_parse (Some "hello")
              (Persistent.Spawned Persistent.running_child)
              [Persistent.CallStop] [] [] (Persistent.new_client None))
       = Persistent.Threw Interleaved.no_generator_error
    /\ SessionProps.not_found_error = Launch.cli_not_found.
Proof.
  intros JSON_parse initialPrompt spawn before meanwhile activity w result.
  split; [apply StartFacts.start_outcome|].
  split; [apply StartFacts.start_atomic|].
  split; reflexivity.
Qed.

(** X24.  [stop()] rejects the installed slot of the generator
    whoever waits on it.  When the slot is pending (its status reads
    ['pending'], its promise is not settled) and the body of the
    generator is not suspended on it (the body is at its [yield], or
    was never entered because [start()] failed, or has returned), the
    promise ends rejected with 'Generator terminated' and has no
    handler: an unhandled rejection, in the call taken as a whole and
    in its first part. *)
Theorem X24_stop_leaves_a_rejection_without_a_handler :
  forall (JSON_parse : string -> option Persistent.JSON) (w : Persistent.World),
    let g := Persistent.generator_object w in
    let slot := MessageGenerator.sendMessagePromise g in
    let w1 := Persistent.step JSON_parse Persistent.CallStop w in
    Persistent.messageGenerator (Persistent.client w) = true ->
    MessageGenerator.current_status g = ControllablePromise.pending ->
    ControllablePromise.promise <$> MessageGenerator.slots g !! slot = Some Pending ->
    MessageGeneratorProps.awaited g slot = false ->
    ControllablePromise.promise
      <$> MessageGenerator.slots (Persistent.generator_object w1) !! slot
    = Some (Rejected (mkError "Error" "Generator terminated"))
    /\ In slot (MessageGeneratorProps.unhandled (Persistent.generator_object w1))
    /\ In slot (MessageGeneratorProps.unhandled
                  (Persistent.generator_object (fst (Persistent.stop w)))).
Proof.
  intros JSON_parse w g slot w1 Hg Hs Hp Ha.
  destruct (StopFacts.unhandled_terminate_unawaited g Hs Hp Ha) as [H1 H2].
  unfold w1. cbn [Persistent.step].
  rewrite StopFacts.stop_head_generator, StopFacts.stop_generator, Hg.
  split; [exact H1|]. split; exact H2.
Qed.

(** X24 at a query whose turn the generator has just yielded, and at a
    client whose [start()] found no executable. *)
Lemma X24_unhandled_rejection_witness :
  In 2 (MessageGeneratorProps.unhandled
          (Persistent.generator_object
             (Persistent.step Samples.sample_parse Persistent.CallStop
                (Persistent.run Samples.sample_parse
                   [Persistent.CallQuery "ping"; Persistent.GeneratorResume]
                   Samples.started))))
  /\ In 0 (MessageGeneratorProps.unhandled
             (Persistent.generator_object
                (fst (Persistent.stop
                        (PersistentProps.session None Persistent.CLINotFound None))))).
Proof.
  split.
  - refine (proj1 (proj2 (X24_stop_leaves_a_rejection_without_a_handler
                            Samples.sample_parse
                            (Persistent.run Samples.sample_parse
                               [Persistent.CallQuery "ping"; Persistent.GeneratorResume]
                               Samples.started) _ _ _ _)));
      vm_compute; reflexivity.
  - refine (proj2 (proj2 (X24_stop_leaves_a_rejection_without_a_handler
                            Samples.sample_parse
                            (PersistentProps.session None Persistent.CLINotFound None)
                            _ _ _ _)));
      vm_compute; reflexivity.
Defined.
